(* ===== verification/_CoqProject ===== *)
-Q . S2P
Prelude.v
Errors.v
Domain.v
Config.v
Sqlc.v
SqlcFacts.v
Outbox.v
Repo.v
Queries.v
Leases.v
GoText.v
Json.v
JsonFacts.v
JsonStructs.v
JsonOrder.v
Attachments.v
Backoff.v
MessageBuilder.v
Prog.v
Worker.v
WorkerFacts.v
Drain.v
Metrics.v
Reaper.v
SendMessage.v
TcpClient.v
HttpClient.v
Inbound.v
Wire.v
Daemon.v
DaemonLife.v
InboundWire.v
Handler.v
GoUrl.v
ConjureErrors.v
ApiStructs.v
ApiFacts.v
ApiYaml.v
ApiServer.v
Server.v
ApiClient.v
Upload.v
Lifecycle.v
ObjectStore.v
Startup.v
Migrate.v
Cleanup.v
Slack.v
Wiring.v
Process.v
Delivery.v
Assembly.v
