(* ===== verification/Prelude.v ===== *)
(** * A verification of go-signalium

    go-signalium delivers Signal messages through an outbox.  A client posts a
    message; the service validates it, streams its attachments to an object
    store and inserts a PENDING row.  Workers claim rows under a lease, download
    the attachments, send through a signal-cli daemon and mark the row SENT or
    FAILED / PERMANENT_FAILED.  A reaper times out rows past their deadline.  A
    listener stores the events the daemon sends on its own.  Operators read,
    override and resend rows over a REST API.

    ** Files, in dependency order

    - [Prelude]: results, machine integers, time, table updates, tactics, hints.
    - [Errors]: the error values and wrappers that cross components
      ([internal/domain/errors.go], the sentinels of [internal/signal], Postgres
      error codes, [generated/.../errors.conjure.go]); [ConjureRuntime] is the
      interface of the Conjure runtime's error search.
    - [Domain]: [internal/domain], and the Postgres enum of statuses.
    - [Config]: the two files of [internal/config], block by block.
    - [Sqlc]: the statements of [internal/repo/sqlc] that insert, look up, claim,
      mark, time out, resend and update, as functions from a table (a list of
      rows) to a result and a table.  [SqlcFacts]: the table invariant and the
      claim query.  [Outbox]: the abstract outbox, a map from id to message with
      a step relation that gives every column after a step and uses nothing of
      [Sqlc] but the types, and the refinement.
    - [Repo]: [internal/repo/messages.go] over those statements.
    - [Queries]: the read side (List, Count, StatsCounts, StatsPerDay,
      BacklogStats) of both, with what a listing is meant to hold.
    - [Leases]: the whole outbox as a transition system over one table: clock,
      enqueuers, any number of workers, reaper, operator, in any order; marks may
      get lost, or commit and be reported as failed.
    - [GoText], [Backoff]: the Go library text functions and the float64
      arithmetic the code uses; [service.Backoff], [worker.jitter],
      [signal.nextBackoff].
    - [Json], [JsonFacts], [JsonStructs]: [encoding/json]: the encoder, the parser
      with its nesting limit, decoding into structs by tag; what is encoded is
      read back.  [JsonOrder]: members in any order, members a reader does not know,
      and the interface [Jsonb] of a JSONB column.  [GoUrl]: escaping and query
      strings of [net/url].
    - [Attachments]: the JSON column of [internal/domain/attachments.go].
    - [MessageBuilder]: [internal/signal/message_builder.go].
    - [Prog]: effectful code as programs over an interface of calls, with traces
      (every way the environment may answer) and execution by a handler.
    - [Worker], [WorkerFacts], [Drain]: [internal/worker/worker.go]; what a
      dispatch does for every environment; the hot loop over a table, against
      the interface [WorkerEnv].
    - [Metrics], [Reaper]: [internal/metrics/outbox.go] and
      [internal/worker/timeout_reaper.go].
    - [SendMessage]: [internal/service/send_message.go] and [errors.go].
    - [TcpClient]: [internal/signal/tcp_client.go] as concurrent goroutines.
    - [HttpClient]: [internal/signal/http_client.go].
    - [Inbound]: [internal/service/inbound_listener.go], [internal/repo/inbound.go].
    - [Wire]: the JSON that those three clients of signal-cli write and read.
      [Daemon]: the connections of [internal/signal/testfake/daemon.go], and a
      Send against it; [DaemonLife]: its accept loop, handlers and Close.
      [InboundWire]: a message from the socket to its row.
    - [Handler]: [internal/handler].
    - [ConjureErrors]: [generated/signalium/api/errors.conjure.go] and the error
      registry, one template over the class [ErrorType] with seven instances.
      [ApiStructs], [ApiFacts]: [enums.conjure.go] and [structs.conjure.go] with
      their JSON.  [ApiYaml]: the YAML methods of both, over the class [YamlType].
      [ApiServer]: [servers.conjure.go], its routes and handlers over
      any implementation of the service interface.  [Server]:
      [internal/server/module.go], the generated routes and the upload beside
      them.  [ApiClient]: [services.conjure.go], and [Handler] as the
      implementation.  [Upload]: the upload handler with its JSON, on that server.
    - [Lifecycle]: starting and stopping the background loops of the worker, the
      reaper, the cleanup and the inbound listener.
    - [ObjectStore]: [internal/storage/object_store.go]; [Startup]:
      [internal/db/config.go] and [pool.go], [internal/config/module.go] and the
      storage hook; [Migrate]:
      [internal/db/migrate.go]; [Cleanup]: [internal/worker/cleanup.go], over a
      tree of files; [Slack]: [internal/service/slack.go].
    - [Wiring]: [cmd/go-signalium/main.go] and the [Module] of every package:
      what each constructor needs and gives, and the hooks it appends.
      [Process]: those hooks run by fx, interleaved with the goroutines of
      [Lifecycle] and with the server.  [Assembly]: the constructors, from the
      configuration to the fields the components read.
    - [Delivery]: [Handler], [SendMessage], [Repo], [Worker], [ObjectStore] and
      [MessageBuilder] put together, from the POST to the SENT row.

    ** How the code is modelled

    A Go function that can fail returns a [result]; errors are values of [error].
    [int32] and [int64] conversions wrap explicitly.  A [time.Time] is a number
    of nanoseconds; the zero time is the year 1; a time that reaches a TIMESTAMPTZ
    column or filter is cut to whole microseconds ([Sqlc.pg_time]).  A SQL statement runs in one
    implicit transaction and is one function on the table, with the constraints
    of [migrations/]: check and unique constraints, NOT NULL, VARCHAR length and
    int4 range.  [FOR UPDATE SKIP LOCKED] is a set of locked ids given by the
    environment, and the scan order is the arbitrary order of the list.  Code
    with side effects is a program of [Prog] whose calls are the interfaces the
    Go code owns, the clock, the random source and the logger.  Concurrency is
    a transition system ([Leases], [TcpClient], [Lifecycle], [Process], [DaemonLife])
    in which every critical section, channel operation or statement is one atomic
    action.

    Strings are byte strings; JSON is parsed from and printed to them.  [Inbound],
    [TcpClient] and [HttpClient] take their decoders as arguments; [Wire] supplies
    the ones of the program, and [Daemon] and [InboundWire] put them together.

    Third-party code is a parameter: the Conjure runtime ([ConjureRuntime],
    [SafeJson], [SafeYaml], [ErrorContract], [ErrorDecoder], [Router], [HttpExchange]), the
    types of palantir/pkg and Unicode upper case ([WireTypes]), [ILIKE], JSONB and
    the time-zone functions of Postgres, error text, metric tags, the MinIO
    client, pgx, the YAML library, the effect of a migration script, SHA-256,
    failures of the file system and of connections.  Each class states documented
    behaviour as its laws and has a concrete instance in a witness.  The container
    fx is given by two promises of its documentation: [Wiring.fx_built] (a
    constructor runs at most once, when it is needed and after what it needs;
    invocations run in order) and [Process.fx_step] (hooks start in the order they
    were appended, a failure or a signal stops the started ones in reverse order).
    [Delivery] takes [filepath.Join] of a directory and a plain name as a
    hypothesis.

    ** What is shown

    - End to end: a posted message is sent once, with its files, and its row is
      SENT, when its parts have different names and the worker ticks in time with
      nothing else to claim ([Delivery]); it can be read back through the
      generated client ([Upload]).
    - Process: every constructor finds its parameters and the hooks have one order
      ([Wiring]); whatever runs has the pool, the bucket, the migrations and the
      TCP client at hand ([Process]); a disabled component never runs, and one
      number sends, is checked and is announced ([Assembly]).
    - Table: every statement keeps ids and keys unique, one target per row and
      attempts in range; every statement refines a step of the abstract outbox;
      inserts are found again; the pages of a listing hold exactly the live rows
      that meet its filters, newest first, as many as Count says; histograms add
      up.
    - Claims: a claim returns the due row that comes first; leases that cover the
      attempt exclude each other; SENT is then sound and final, unless an operator
      overrides it; an overdue row is never claimed.
    - Worker: the five outcomes of a dispatch; the hot loop ends; delays stay in
      their envelopes; the result id fits its column.
    - Enqueue: no orphan objects; idempotency; safe file names; what the stored
      references yield; every request is answered, and with which typed response,
      whatever fails behind it.
    - signal-cli clients: no panic, no blocked reader, responses reach their own
      request, shutdown releases waiters; bounded HTTP retries.
    - Reaper, inbound listener, operator endpoints: their contracts.
    - Wire formats: attachments survive their column, typed errors and all calls
      of the API survive client, wire and server, the API's values survive YAML, a Send gets the answer of the
      daemon to its own id, a published message is captured whole, with the JSON
      value of its envelope.
    - Stop returns after the loops have left, and can always drain; Close of the
      test daemon leaves no goroutine when it drained, and at most one open
      connection otherwise.
    - Downloads are complete or rolled back; a sweep removes old files only;
      migrations are applied once and in order; a notification posts at most once.
    - Where the code departs from its intent, theorems say so: FAILED rows are
      never retried, resending a timed-out row never sends it, crash loops exceed
      max_attempts, quotes are lost, an empty second target or an unexpected part
      gives a server error, parts of the same name overwrite each other, a huge
      page limit or pool size wraps.

    ** Bounds and fuel

    Loops that end by themselves are structural recursions (the three MarkSent
    tries, the HTTP retries).  Loops driven by the environment take fuel and
    return a distinct value when it runs out: [Worker.hot_loop] is proved to stop
    within the number of claimable rows plus one ([Drain.hot_loop_terminates]),
    [SendMessage.upload_loop] within the number of parts plus one
    ([Handler.multipart_always_answered]); the poll, reaper and listener loops
    run forever by design and are unfolded for a given number of rounds.
    The JSON parser takes fuel in the length of its input, which
    [JsonFacts.parse_fuel] shows to be enough; so do the readers of lines
    ([Daemon.lines_frames]), of query strings ([GoUrl.parse_join]) and of
    durations ([Startup.duration_loop_fuel]).
    [Leases] assumes that a worker starts its attempt within [max_delay] of its
    claim and that the lease covers that delay and the attempt timeout; marks
    after the attempt's deadline are refused by its context.

    ** What is not modelled

    The bytes of the multipart framing (a request is the list of its parts), YAML
    parsing, TLS, HTTP and the router inside witchcraft, the pgx driver below the
    statements, Postgres refusing texts with a NUL byte, and logging other than
    the warnings and errors a component promises.  What is left of the sources is
    declarations without behaviour (interfaces, imports, compile-time checks), the
    address accessors of the test daemon, and [sleepCtx], whose outcome is an
    answer of the environment. *)

From stdpp Require Export base tactics option list strings gmap numbers sorting.
From Stdlib Require Export ZArith Lia.

#[global] Open Scope Z_scope.

(** * Fallible results

    A Go function returning [(T, error)] becomes a function into [result E T]. *)
Inductive result (E A : Type) : Type :=
| Ok (a : A)
| Err (e : E).
Arguments Ok {E A} _.
Arguments Err {E A} _.

Definition result_bind {E A B} (m : result E A) (k : A → result E B) : result E B :=
  match m with
  | Ok a => k a
  | Err e => Err e
  end.

Definition is_ok {E A} (m : result E A) : bool :=
  match m with Ok _ => true | Err _ => false end.

Definition result_map {E A B} (f : A → B) (m : result E A) : result E B :=
  match m with Ok a => Ok (f a) | Err e => Err e end.

Declare Scope signalium_scope.
Delimit Scope signalium_scope with sig.
Notation "'let?' x ':=' m 'in' k" := (result_bind m (λ x, k))
  (at level 10, x name, m at level 100, k at level 200) : signalium_scope.

(** * Tactics and hint databases *)

Create HintDb sigdb.

(** Split every [match]/[if] of the goal, remembering what was matched. *)
Ltac split_match :=
  match goal with
  | |- context [match ?x with _ => _ end] => destruct x eqn:?
  end.

Ltac split_match_hyp :=
  match goal with
  | H : context [match ?x with _ => _ end] |- _ => destruct x eqn:?
  end.

(** Boolean hypotheses over [Z] comparisons turned into propositions. *)
Ltac bools :=
  repeat match goal with
  | H : _ && _ = true |- _ => apply andb_true_iff in H as [? ?]
  | H : _ || _ = false |- _ => apply orb_false_iff in H as [? ?]
  | H : negb _ = true |- _ => apply negb_true_iff in H
  | H : negb _ = false |- _ => apply negb_false_iff in H
  | H : (_ <=? _)%Z = true |- _ => apply Z.leb_le in H
  | H : (_ <=? _)%Z = false |- _ => apply Z.leb_gt in H
  | H : (_ <? _)%Z = true |- _ => apply Z.ltb_lt in H
  | H : (_ <? _)%Z = false |- _ => apply Z.ltb_ge in H
  | H : (_ =? _)%Z = true |- _ => apply Z.eqb_eq in H
  | H : (_ =? _)%Z = false |- _ => apply Z.eqb_neq in H
  | H : bool_decide _ = true |- _ => apply bool_decide_eq_true in H
  | H : bool_decide _ = false |- _ => apply bool_decide_eq_false in H
  end.

(** * Machine integers

    Go's [int] and [int64] are 64-bit, [int32] is 32-bit; both wrap around. *)
Definition wrap (w z : Z) : Z := (z + 2 ^ (w - 1)) mod 2 ^ w - 2 ^ (w - 1).
Definition int32 (z : Z) : Z := wrap 32 z.
Definition int64 (z : Z) : Z := wrap 64 z.
Definition in_int32 (z : Z) : Prop := - 2 ^ 31 ≤ z < 2 ^ 31.
Definition in_int64 (z : Z) : Prop := - 2 ^ 63 ≤ z < 2 ^ 63.
Definition in_int32b (z : Z) : bool := (- 2 ^ 31 <=? z) && (z <? 2 ^ 31).

Lemma wrap_range w z : 0 < w → - 2 ^ (w - 1) ≤ wrap w z < 2 ^ (w - 1).
Proof.
  intros Hw. unfold wrap.
  assert (2 ^ w = 2 * 2 ^ (w - 1)) as E
    by (rewrite <- Z.pow_succ_r by lia; f_equal; lia).
  pose proof (Z.mod_pos_bound (z + 2 ^ (w - 1)) (2 ^ w)
                ltac:(apply Z.pow_pos_nonneg; lia)).
  lia.
Qed.

Lemma wrap_id w z : 0 < w → - 2 ^ (w - 1) ≤ z < 2 ^ (w - 1) → wrap w z = z.
Proof.
  intros Hw Hz. unfold wrap.
  assert (2 ^ w = 2 * 2 ^ (w - 1)) as E
    by (rewrite <- Z.pow_succ_r by lia; f_equal; lia).
  rewrite Z.mod_small; lia.
Qed.

Lemma int32_range z : in_int32 (int32 z).
Proof. exact (wrap_range 32 z ltac:(lia)). Qed.
Lemma int64_range z : in_int64 (int64 z).
Proof. exact (wrap_range 64 z ltac:(lia)). Qed.
Lemma int32_id z : in_int32 z → int32 z = z.
Proof. exact (wrap_id 32 z ltac:(lia)). Qed.
Lemma int64_id z : in_int64 z → int64 z = z.
Proof. exact (wrap_id 64 z ltac:(lia)). Qed.

#[export] Hint Resolve int32_range int64_range : sigdb.

(** * Time

    [time.Time] is the number of nanoseconds since the Unix epoch,
    [time.Duration] an [int64] number of nanoseconds. *)
Abbreviation time := Z (only parsing).
Abbreviation duration := Z (only parsing).

(** [time.Time{}], the zero time: January 1, year 1, 00:00 UTC. *)
Definition zeroTime : time := -62135596800 * 10 ^ 9.
Definition IsZero (t : time) : bool := t =? zeroTime.

Definition Microsecond : duration := 1000.
Definition Millisecond : duration := 1000 * Microsecond.
Definition Second : duration := 1000 * Millisecond.
Definition Minute : duration := 60 * Second.

(** [(time.Duration).Microseconds], integer division truncated toward zero. *)
Definition Microseconds (d : duration) : Z := Z.quot d 1000.

(** * Updates of a table: [UPDATE ... SET f WHERE p] over a list of rows *)
Definition update_where {A} (p : A → bool) (f : A → A) (l : list A) : list A :=
  (λ x, if p x then f x else x) <$> l.

Section update_where.
Context {A : Type} (p : A → bool) (f : A → A).

Lemma update_where_cons x l :
  update_where p f (x :: l) = (if p x then f x else x) :: update_where p f l.
Proof. done. Qed.

Lemma update_where_length l : length (update_where p f l) = length l.
Proof. apply length_fmap. Qed.

Lemma update_where_map {B} (k : A → B) l :
  (∀ x, k (f x) = k x) → k <$> update_where p f l = k <$> l.
Proof.
  intros Hk. unfold update_where. rewrite <- list_fmap_compose.
  apply list_fmap_ext. intros i x _. simpl. by destruct (p x); rewrite ?Hk.
Qed.

Lemma update_where_elem y l :
  y ∈ update_where p f l ↔
    ∃ x, x ∈ l ∧ y = if p x then f x else x.
Proof.
  unfold update_where. rewrite list_elem_of_fmap. naive_solver.
Qed.

Lemma update_where_Forall (P : A → Prop) l :
  (∀ x, P x → p x = true → P (f x)) → Forall P l → Forall P (update_where p f l).
Proof.
  intros Hf Hl. apply Forall_fmap. eapply Forall_impl; [exact Hl|].
  intros x Hx. simpl. destruct (p x) eqn:?; auto.
Qed.

Lemma update_where_none l : Forall (λ x, p x = false) l → update_where p f l = l.
Proof. induction 1 as [|x l Hx _ IH]; [done|]. simpl. by rewrite Hx, IH. Qed.
End update_where.
