(* ===== verification/Errors.v ===== *)
(** The error values that cross the components: the sentinels of
    [internal/domain] and [internal/signal], the failures Postgres reports, the
    Conjure errors of [internal/generated/signalium/api/errors.conjure.go], and
    the wrappers ([werror.Wrap], [fmt.Errorf] with [%w]) built around them. *)

From S2P Require Import Prelude.

(** What Postgres answers when a statement of this program is refused, by
    SQLSTATE class. *)
Inductive pgcode :=
| UniqueViolation (constraint : string)        (* 23505 *)
| CheckViolation (constraint : string)         (* 23514 *)
| NotNullViolation (column : string)             (* 23502 *)
| StringDataRightTruncation                    (* 22001 *)
| NumericValueOutOfRange                       (* 22003 *)
| InvalidTextRepresentation                    (* 22P02 *)
| InvalidRowCountInLimitClause                 (* 2201W *)
| InvalidRowCountInResultOffsetClause          (* 2201X *)
| ConnectionFailure.                           (* 08006 *)

(** The typed API errors, with the parameters they carry on the wire. *)
Inductive conjure_error :=
| AttachmentUploadFailed (filename : string)
| IdempotencyConflict (idempotencyKey : string)
| InternalServiceError
| InvalidSignalMessage (field reason : string)
| SenderMismatch (configured requested : string)
| SignalCliUnavailable (host : string) (port : Z)
| SignalMessageNotFound (id : string).

(** Error codes of the Conjure runtime that the generated types return. *)
Inductive ErrorCode := CustomServer | Conflict | Internal | InvalidArgument | NotFound.

(** The generated [Code] methods. *)
Definition Code (c : conjure_error) : ErrorCode :=
  match c with
  | AttachmentUploadFailed _ => CustomServer
  | IdempotencyConflict _ => Conflict
  | InternalServiceError => Internal
  | InvalidSignalMessage _ _ => InvalidArgument
  | SenderMismatch _ _ => Conflict
  | SignalCliUnavailable _ _ => CustomServer
  | SignalMessageNotFound _ => NotFound
  end.

Inductive error :=
| ErrNotFound                                   (* domain.ErrNotFound *)
| ErrIdempotencyConflict                        (* domain.ErrIdempotencyConflict *)
| ErrDisconnected                               (* signal.ErrDisconnected *)
| ErrShutdown                                   (* signal.ErrShutdown *)
| ErrNoRows                                     (* pgx.ErrNoRows *)
| EOF                                           (* io.EOF *)
| Canceled                                      (* context.Canceled *)
| DeadlineExceeded                              (* context.DeadlineExceeded *)
| ErrPg (c : pgcode)                            (* a server-side Postgres error *)
| ErrMsg (msg : string)                         (* werror.Error, errors.New *)
| Wrap (cause : error) (msg : string)           (* werror.Wrap, fmt.Errorf %w *)
| Conjure (c : conjure_error) (cause : error).  (* WrapWith... *)

#[global] Instance pgcode_eq_dec : EqDecision pgcode.
Proof. solve_decision. Defined.
#[global] Instance conjure_error_eq_dec : EqDecision conjure_error.
Proof. solve_decision. Defined.
#[global] Instance error_eq_dec : EqDecision error.
Proof. solve_decision. Defined.

Abbreviation res A := (result error A) (only parsing).

(** [errors.Unwrap]: wrappers expose their cause; the generated Conjure errors
    have a [Cause] method and no [Unwrap]. *)
Definition Unwrap (e : error) : option error :=
  match e with
  | Wrap c _ => Some c
  | _ => None
  end.

(** [errors.Is]: equal to the target, or the unwrapped chain is. *)
Fixpoint Is (e target : error) : bool :=
  bool_decide (e = target) ||
  match e with
  | Wrap c _ => Is c target
  | _ => false
  end.

(** The chain that a search through [Cause] visits. *)
Fixpoint causes (e : error) : list error :=
  e :: match e with
       | Wrap c _ => causes c
       | Conjure _ c => causes c
       | _ => []
       end.

Definition conjure_of (e : error) : option conjure_error :=
  match e with Conjure c _ => Some c | _ => None end.

(** [errors.GetConjureError] of the Conjure runtime, which is not part of this
    repository.  Its documentation: it searches the chain of causes and returns
    the first Conjure error, or nil when there is none. *)
Class ConjureRuntime := {
  GetConjureError : error → option conjure_error;
  GetConjureError_first : ∀ e,
    GetConjureError e = head (omap conjure_of (causes e));
}.

(** A concrete function with that behaviour. *)
#[export] Instance chain_search_runtime : ConjureRuntime :=
  {| GetConjureError e := head (omap conjure_of (causes e));
     GetConjureError_first e := eq_refl |}.

Lemma Is_refl e : Is e e = true.
Proof. unfold Is. destruct e; rewrite ?bool_decide_eq_true_2; done. Qed.

Lemma Is_wrap e msg t : t ≠ Wrap e msg → Is (Wrap e msg) t = Is e t.
Proof. intros H. simpl. rewrite bool_decide_eq_false_2 by congruence. done. Qed.

#[export] Hint Resolve Is_refl : sigdb.
