(* ===== verification/Domain.v ===== *)
(** [internal/domain]: the plain types shared by the repository, service,
    handler and worker layers, and the Postgres enum they are stored as. *)

From S2P Require Import Prelude Errors.

(** [uuid.UUID], a [16]byte array read as a 128-bit number; [uuid.Nil] is 0. *)
Abbreviation uuid := N (only parsing).
Definition uuid_Nil : uuid := 0%N.

(** [domain.Attachment]. *)
Record Attachment := MkAttachment {
  att_Bucket : string;
  att_Filename : string;
  att_MimeType : string;
  att_Size : Z;
}.

Abbreviation Attachments := (list Attachment) (only parsing).

(** [domain.SignalMessageStatus] is a defined string type. *)
Abbreviation SignalMessageStatus := string (only parsing).
Definition StatusPending : SignalMessageStatus := "PENDING".
Definition StatusSending : SignalMessageStatus := "SENDING".
Definition StatusSent : SignalMessageStatus := "SENT".
Definition StatusFailed : SignalMessageStatus := "FAILED".
Definition StatusPermanentFailed : SignalMessageStatus := "PERMANENT_FAILED".
Definition StatusTimedOut : SignalMessageStatus := "TIMED_OUT".

(** [SignalMessageStatus.IsTerminal]. *)
Definition IsTerminal (s : SignalMessageStatus) : bool :=
  if bool_decide (s = StatusSent ∨ s = StatusPermanentFailed ∨ s = StatusTimedOut) then true
  else if bool_decide (s = StatusPending ∨ s = StatusSending ∨ s = StatusFailed) then false
  else false.

(** What a database driver hands to [Scan] and takes from [Value]. *)
Inductive driver_value :=
| DNil
| DString (s : string)
| DBytes (s : string)
| DOther.                                (* int64, float64, bool, time.Time *)

(** [SignalMessageStatus.Value]. *)
Definition status_Value (s : SignalMessageStatus) : res driver_value := Ok (DString s).

(** [( *SignalMessageStatus).Scan]: the value stored in the receiver, or an error. *)
Definition status_Scan (src : driver_value) : res SignalMessageStatus :=
  match src with
  | DNil => Ok ""
  | DString v => Ok v
  | DBytes v => Ok v
  | DOther => Err (ErrMsg "signal_message_status: cannot scan")
  end.

(** The Postgres ENUM [signalium.signal_message_status]. *)
Inductive signal_message_status :=
| PENDING | SENDING | SENT | FAILED | PERMANENT_FAILED | TIMED_OUT.

#[global] Instance signal_message_status_eq_dec : EqDecision signal_message_status.
Proof. solve_decision. Defined.

Definition all_statuses : list signal_message_status :=
  [PENDING; SENDING; SENT; FAILED; PERMANENT_FAILED; TIMED_OUT].

(** Text output of an enum value, and its input function (which refuses a text
    that is not a label). *)
Definition enum_out (s : signal_message_status) : string :=
  match s with
  | PENDING => StatusPending
  | SENDING => StatusSending
  | SENT => StatusSent
  | FAILED => StatusFailed
  | PERMANENT_FAILED => StatusPermanentFailed
  | TIMED_OUT => StatusTimedOut
  end.

Definition enum_in (s : string) : option signal_message_status :=
  head (filter (λ e, enum_out e = s) all_statuses).

(** *** The enum as sqlc generates it *)

(** [SignaliumSignalMessageStatus.Scan], which refuses NULL. *)
Definition sqlc_Scan (src : driver_value) : res string :=
  match src with
  | DBytes s => Ok s
  | DString s => Ok s
  | DNil | DOther => Err (ErrMsg "unsupported scan type for SignaliumSignalMessageStatus")
  end.

Record NullSignaliumSignalMessageStatus := MkNullStatus { ns_Status : string; ns_Valid : bool }.

(** The receiver afterwards, and the error; a failed Scan leaves the text alone. *)
Definition null_Scan (value : driver_value) (ns : NullSignaliumSignalMessageStatus)
    : NullSignaliumSignalMessageStatus * option error :=
  match value with
  | DNil => (MkNullStatus "" false, None)
  | _ => match sqlc_Scan value with
         | Ok s => (MkNullStatus s true, None)
         | Err e => (MkNullStatus (ns_Status ns) true, Some e)
         end
  end.

Definition null_Value (ns : NullSignaliumSignalMessageStatus) : driver_value :=
  if negb (ns_Valid ns) then DNil else DString (ns_Status ns).

(** [domain.SignalMessage]. *)
Record SignalMessage := MkSignalMessage {
  msg_ID : uuid;
  msg_ExternalID : string;
  msg_IdempotencyKey : option string;
  msg_Recipient : option string;
  msg_GroupID : option string;
  msg_SenderPhoneNumber : string;
  msg_Content : string;
  msg_Attachments : Attachments;
  msg_Attempts : Z;
  msg_MaxAttempts : Z;
  msg_NextAttemptAt : time;
  msg_TimeoutAt : option time;
  msg_Status : SignalMessageStatus;
  msg_LastError : option string;
  msg_ResultID : option string;
  msg_QuoteResultID : option string;
  msg_CorrelationID : string;
  msg_CreatedAt : time;
  msg_ModifiedAt : time;
}.

(** A nullable status is read back; the text of an invalid one is dropped. *)
Lemma null_status_read ns old :
  null_Scan (null_Value ns) old = (if ns_Valid ns then ns else MkNullStatus "" false, None).
Proof. by destruct ns as [s []]. Qed.

Lemma enum_in_out s : enum_in (enum_out s) = Some s.
Proof. by destruct s. Qed.
