(* ===== verification/Config.v ===== *)
(** [internal/config]: the typed install and runtime configuration blocks that
    the components read.  Parsing YAML is left to the YAML library; the records
    hold the parsed values. *)

From S2P Require Import Prelude.

Record SignalCliTCP := MkSignalCliTCP {
  tcp_Host : string;
  tcp_Port : Z;
  tcp_WaitResultTimeout : duration;
  tcp_IgnoreResults : bool;
}.

Record SignalCliHTTP := MkSignalCliHTTP {
  http_Host : string;
  http_Port : Z;
  http_Timeout : duration;
  http_MaxRetries : Z;
}.

Record SignalCliConfig := MkSignalCliConfig {
  sc_TCP : SignalCliTCP;
  sc_HTTP : SignalCliHTTP;
  sc_SenderPhoneNumber : string;
  sc_EnableListening : bool;
}.

Record WorkerConfig := MkWorkerConfig {
  wc_PollInterval : duration;
  wc_LeaseDuration : duration;
  wc_PerAttemptTimeout : duration;
  wc_Concurrency : Z;
  wc_BaseBackoff : duration;
  wc_MaxBackoff : duration;
}.

Record CleanupOldFilesConfig := MkCleanupOldFilesConfig {
  cl_Enabled : bool;
  cl_Schedule : string;
  cl_Directories : list string;
  cl_FileTTL : duration;
}.

Record TimeoutReaperConfig := MkTimeoutReaperConfig {
  tr_Enabled : bool;
  tr_Schedule : string;
}.

Record MinIOConfig := MkMinIOConfig {
  minio_Endpoint : string;
  minio_AccessKey : string;
  minio_SecretKey : string;
  minio_Region : string;
  minio_Bucket : string;
  minio_UseSSL : bool;
  minio_LocalTmpDir : string;
}.

Record InboundIgnoreConfig := MkInboundIgnoreConfig {
  ig_Typing : bool;
  ig_Receipt : bool;
  ig_SyncMessage : bool;
  ig_CallMessage : bool;
}.

Record SlackNotifyOn := MkSlackNotifyOn {
  no_PermanentFailure : bool;
  no_AttachmentError : bool;
}.

Record SlackConfig := MkSlackConfig {
  sl_Enabled : bool;
  sl_WebhookURL : string;
  sl_ChannelIDs : list string;
  sl_NotifyOn : SlackNotifyOn;
}.

Record CronConfig := MkCronConfig {
  cron_CleanupOldFiles : CleanupOldFilesConfig;
  cron_TimeoutReaper : TimeoutReaperConfig;
}.

(** The database block; [internal/db] reads the environment instead. *)
Record DatabasePool := MkDatabasePool {
  dp_MaxConns : Z;
  dp_MinConns : Z;
  dp_MaxConnLifetime : duration;
  dp_ConnectTimeout : duration;
}.
Record DatabaseConfig := MkDatabaseConfig {
  dc_URL : string;
  dc_Pool : DatabasePool;
  dc_EnableMigrationsAutoRun : bool;
  dc_MigrationsAdvisoryLockKey : Z;
}.

(** The whole install configuration; of witchcraft's own block only the product
    name is read. *)
Record Install := MkInstall {
  in_ProductName : string;
  in_Database : DatabaseConfig;
  in_MinIO : MinIOConfig;
  in_SignalCli : SignalCliConfig;
  in_Worker : WorkerConfig;
  in_Cron : CronConfig;
}.

(** The runtime configuration. *)
Record WorkerRuntimeConfig := MkWorkerRuntimeConfig { wr_PollInterval : duration; wr_MaxAttempts : Z }.
Record SignalCliRuntime := MkSignalCliRuntime { sr_EnableListening : bool }.
Record InboundConfig := MkInboundConfig { ib_Ignore : InboundIgnoreConfig }.
Record Runtime := MkRuntime {
  ru_Worker : WorkerRuntimeConfig;
  ru_SignalCli : SignalCliRuntime;
  ru_Inbound : InboundConfig;
  ru_Slack : SlackConfig;
}.

(** The values of [var/conf/install.yml] for the worker block. *)
Definition default_worker : WorkerConfig :=
  {| wc_PollInterval := Second; wc_LeaseDuration := 5 * Minute;
     wc_PerAttemptTimeout := Minute; wc_Concurrency := 1;
     wc_BaseBackoff := 5 * Second; wc_MaxBackoff := 60 * Minute |}.
