(* ===== verification/Sqlc.v ===== *)
(** [internal/repo/sqlc]: the statements of the generated query layer, as
    functions on the two tables of [migrations/].

    A table is the list of its rows; SQL leaves the scan order and the order of
    ties unspecified, so a theorem about every list of rows covers every choice.
    Each statement is one implicit transaction, hence one atomic function from
    a table to a result and a table; [now] is the transaction timestamp that
    [now()] returns.  A refused statement leaves the table as it was.  A time
    that the program sends reaches the table in whole microseconds. *)

From S2P Require Import Prelude Errors Domain.

(** ** pgtype values *)

Record pgUUID := MkPgUUID { uuid_Bytes : uuid; uuid_Valid : bool }.
Record Timestamptz := MkTimestamptz { tz_Time : time; tz_Valid : bool }.
Record Interval := MkInterval { iv_Microseconds : Z; iv_Valid : bool }.

Definition uuid_param (v : pgUUID) : option uuid :=
  if uuid_Valid v then Some (uuid_Bytes v) else None.

(** What a TIMESTAMPTZ keeps of a time: whole microseconds.  pgx encodes
    [t.Unix() * 1000000 + t.Nanosecond() / 1000]. *)
Definition pg_time (t : time) : time := t / Microsecond * Microsecond.

Definition tz_param (v : Timestamptz) : option time :=
  if tz_Valid v then Some (pg_time (tz_Time v)) else None.
Definition iv_param (v : Interval) : option duration :=
  if iv_Valid v then Some (iv_Microseconds v * Microsecond) else None.

Definition tz_scan (c : option time) : Timestamptz :=
  match c with
  | Some t => MkTimestamptz t true
  | None => MkTimestamptz zeroTime false
  end.

(** ** The table [signalium.signal_messages] *)

Record row := MkRow {
  signal_message_id : uuid;
  external_id : string;
  idempotency_key : option string;
  recipient : option string;
  group_id : option string;
  sender_phone_number : string;
  content : string;
  attachments : Attachments;
  attempts : Z;
  max_attempts : Z;
  next_attempt_at : time;
  timeout_at : option time;
  status : signal_message_status;
  last_error : option string;
  result_id : option string;
  quote_result_id : option string;
  correlation_id : string;
  created_at : time;
  modified_at : time;
  deleted_at : option time;
}.

Abbreviation table := (list row) (only parsing).

(** The Go struct [sqlc.SignaliumSignalMessage]. *)
Record SignaliumSignalMessage := MkSSM {
  ssm_ID : pgUUID;
  ssm_ExternalID : string;
  ssm_IdempotencyKey : option string;
  ssm_Recipient : option string;
  ssm_GroupID : option string;
  ssm_SenderPhoneNumber : string;
  ssm_Content : string;
  ssm_Attachments : Attachments;
  ssm_Attempts : Z;
  ssm_MaxAttempts : Z;
  ssm_NextAttemptAt : Timestamptz;
  ssm_TimeoutAt : Timestamptz;
  ssm_Status : SignalMessageStatus;
  ssm_LastError : option string;
  ssm_ResultID : option string;
  ssm_QuoteResultID : option string;
  ssm_CorrelationID : string;
  ssm_CreatedAt : Timestamptz;
  ssm_ModifiedAt : Timestamptz;
  ssm_DeletedAt : Timestamptz;
}.

(** The column list every [row.Scan] of the generated code reads. *)
Definition scan (r : row) : SignaliumSignalMessage :=
  MkSSM (MkPgUUID (signal_message_id r) true) (external_id r) (idempotency_key r)
    (recipient r) (group_id r) (sender_phone_number r) (content r) (attachments r)
    (attempts r) (max_attempts r) (tz_scan (Some (next_attempt_at r)))
    (tz_scan (timeout_at r)) (enum_out (status r)) (last_error r) (result_id r)
    (quote_result_id r) (correlation_id r) (tz_scan (Some (created_at r)))
    (tz_scan (Some (modified_at r))) (tz_scan (deleted_at r)).

(** The columns that statements assign after the insert; all others are kept. *)
Definition set_cols (r : row) (st : signal_message_status) (att : Z) (next : time)
    (lasterr resid : option string) (modified : time) : row :=
  MkRow (signal_message_id r) (external_id r) (idempotency_key r) (recipient r) (group_id r)
    (sender_phone_number r) (content r) (attachments r) att (max_attempts r) next
    (timeout_at r) st lasterr resid (quote_result_id r) (correlation_id r) (created_at r)
    modified (deleted_at r).

Definition has_id (id : option uuid) (r : row) : bool :=
  bool_decide (id = Some (signal_message_id r)).

Definition is_null {A} (c : option A) : bool :=
  match c with None => true | Some _ => false end.

(** [status IN (...)]. *)
Definition status_in (l : list signal_message_status) (r : row) : bool :=
  bool_decide (status r ∈ l).

(** A [SELECT ... :one] through [QueryRow]: the first row, or [pgx.ErrNoRows]. *)
Definition one (l : list row) : res SignaliumSignalMessage :=
  match l with
  | r :: _ => Ok (scan r)
  | [] => Err ErrNoRows
  end.

(** The [::int] casts of the aggregates. *)
Definition cast_int4 (n : Z) : res Z :=
  if in_int32b n then Ok n else Err (ErrPg NumericValueOutOfRange).

(** Characters of a UTF-8 text: the bytes that do not continue a character. *)
Fixpoint char_length (s : string) : Z :=
  match s with
  | EmptyString => 0
  | String (Ascii.Ascii _ _ _ _ _ _ b6 b7) s' =>
      (if b7 && negb b6 then 0 else 1) + char_length s'
  end.

(** ** Lookups *)

Definition GetByID (id : pgUUID) (t : table) : res SignaliumSignalMessage :=
  one (filter (λ r, has_id (uuid_param id) r ∧ is_null (deleted_at r)) t).

Definition GetByExternalID (externalID : string) (t : table) : res SignaliumSignalMessage :=
  one (filter (λ r, external_id r = externalID ∧ is_null (deleted_at r)) t).

(** No [deleted_at] test: a soft-deleted row still answers for its key. *)
Definition GetByIdempotencyKey (key : option string) (t : table) : res SignaliumSignalMessage :=
  one (filter (λ r, is_Some key ∧ idempotency_key r = key) t).

(** ** Insert *)

Record InsertParams := MkInsertParams {
  ip_ExternalID : string;
  ip_IdempotencyKey : option string;
  ip_Recipient : option string;
  ip_GroupID : option string;
  ip_SenderPhoneNumber : string;
  ip_Content : string;
  ip_Attachments : Attachments;
  ip_MaxAttempts : Z;
  ip_TimeoutAt : Timestamptz;
  ip_CorrelationID : string;
}.

(** The inserted row: columns not listed take their [DEFAULT]. *)
Definition inserted_row (gen_random_uuid : uuid) (now : time) (arg : InsertParams) : row :=
  MkRow gen_random_uuid (ip_ExternalID arg) (ip_IdempotencyKey arg) (ip_Recipient arg)
    (ip_GroupID arg) (ip_SenderPhoneNumber arg) (ip_Content arg) (ip_Attachments arg)
    0 (ip_MaxAttempts arg) now (tz_param (ip_TimeoutAt arg)) PENDING None None None
    (ip_CorrelationID arg) now now None.

(** [CONSTRAINT exactly_one_target]. *)
Definition exactly_one_target (r : row) : bool :=
  ((if is_null (recipient r) then 0 else 1) + (if is_null (group_id r) then 0 else 1) =? 1)%Z.

(** The unique index a new row would break, if any. *)
Definition unique_conflict (r : row) (t : table) : option string :=
  if existsb (λ x, bool_decide (signal_message_id x = signal_message_id r)) t
  then Some "signal_messages_pkey"
  else if existsb (λ x, bool_decide (external_id x = external_id r)) t
  then Some "signal_messages_external_id_key"
  else if existsb (λ x, negb (is_null (idempotency_key r))
                        && bool_decide (idempotency_key x = idempotency_key r)) t
  then Some "signal_messages_idempotency_key_key"
  else None.

Definition Insert (gen_random_uuid : uuid) (now : time) (arg : InsertParams) (t : table)
    : res SignaliumSignalMessage * table :=
  let r := inserted_row gen_random_uuid now arg in
  if negb (exactly_one_target r) then (Err (ErrPg (CheckViolation "exactly_one_target")), t)
  else match unique_conflict r t with
       | Some c => (Err (ErrPg (UniqueViolation c)), t)
       | None => (Ok (scan r), t ++ [r])
       end.

(** ** ClaimPending *)

(** The [WHERE] of the [claimed] CTE. *)
Definition claimable (now : time) (r : row) : bool :=
  is_null (deleted_at r)
  && (bool_decide (status r = PENDING)
      || (bool_decide (status r = SENDING) && (next_attempt_at r <? now)))
  && (next_attempt_at r <=? now)
  && match timeout_at r with None => true | Some d => now <? d end.

(** [ORDER BY next_attempt_at ... LIMIT 1]. *)
Fixpoint first_by_next (l : list row) : option row :=
  match l with
  | [] => None
  | r :: l' => match first_by_next l' with
               | Some r' => if next_attempt_at r' <? next_attempt_at r then Some r' else Some r
               | None => Some r
               end
  end.

(** [FOR UPDATE SKIP LOCKED]: rows that another transaction holds are skipped. *)
Definition claimed (now : time) (locked : gset uuid) (t : table) : option row :=
  first_by_next (filter (λ r, claimable now r ∧ signal_message_id r ∉ locked) t).

Definition claim_row (now : time) (lease : duration) (r : row) : row :=
  set_cols r SENDING (attempts r + 1) (now + lease) (last_error r) (result_id r) now.

Definition ClaimPending (now : time) (locked : gset uuid) (leaseDuration : Interval) (t : table)
    : res SignaliumSignalMessage * table :=
  match claimed now locked t with
  | None => (Err ErrNoRows, t)
  | Some r =>
      match iv_param leaseDuration with
      | None => (Err (ErrPg (NotNullViolation "next_attempt_at")), t)
      | Some lease =>
          if in_int32b (attempts r + 1) then
            (Ok (scan (claim_row now lease r)),
             update_where (has_id (Some (signal_message_id r))) (claim_row now lease) t)
          else (Err (ErrPg NumericValueOutOfRange), t)
      end
  end.

(** ** Marks *)

Definition sent_row (now : time) (resultID : option string) (r : row) : row :=
  set_cols r SENT (attempts r) (next_attempt_at r) (last_error r) resultID now.

Definition MarkSent (now : time) (resultID : option string) (id : pgUUID) (t : table)
    : res unit * table :=
  if existsb (has_id (uuid_param id)) t
     && match resultID with Some s => 25 <? char_length s | None => false end
  then (Err (ErrPg StringDataRightTruncation), t)
  else (Ok tt, update_where (has_id (uuid_param id)) (sent_row now resultID) t).

Definition failed_row (now next : time) (lastError : option string) (r : row) : row :=
  set_cols r (if max_attempts r <=? attempts r then PERMANENT_FAILED else FAILED)
    (attempts r) next lastError (result_id r) now.

Definition MarkFailed (now : time) (lastError : option string) (nextAttemptAt : Timestamptz)
    (id : pgUUID) (t : table) : res unit * table :=
  match tz_param nextAttemptAt with
  | None => if existsb (has_id (uuid_param id)) t
            then (Err (ErrPg (NotNullViolation "next_attempt_at")), t)
            else (Ok tt, t)
  | Some next => (Ok tt, update_where (has_id (uuid_param id)) (failed_row now next lastError) t)
  end.

(** The [WHERE] of MarkTimedOut. *)
Definition overdue (now : time) (r : row) : bool :=
  is_null (deleted_at r)
  && status_in [PENDING; SENDING; FAILED] r
  && match timeout_at r with None => false | Some d => d <=? now end.

Definition timed_out_row (now : time) (r : row) : row :=
  set_cols r TIMED_OUT (attempts r) (next_attempt_at r) (last_error r) (result_id r) now.

Definition MarkTimedOut (now : time) (t : table) : res Z * table :=
  (Ok (Z.of_nat (length (filter (λ r, overdue now r) t))),
   update_where (overdue now) (timed_out_row now) t).

(** ** Operator statements *)

Definition resendable (id : option uuid) (r : row) : bool :=
  has_id id r && status_in [FAILED; TIMED_OUT; PERMANENT_FAILED] r.

Definition resend_row (now : time) (r : row) : row :=
  set_cols r PENDING 0 now None (result_id r) now.

Definition Resend (now : time) (id : pgUUID) (t : table) : res unit * table :=
  (Ok tt, update_where (resendable (uuid_param id)) (resend_row now) t).

Definition status_row (now : time) (st : signal_message_status) (r : row) : row :=
  set_cols r st (attempts r) (next_attempt_at r) (last_error r) (result_id r) now.

Definition UpdateStatus (now : time) (st : SignalMessageStatus) (id : pgUUID) (t : table)
    : res SignaliumSignalMessage * table :=
  match enum_in st with
  | None => (Err (ErrPg InvalidTextRepresentation), t)
  | Some s =>
      let p := λ r, has_id (uuid_param id) r && is_null (deleted_at r) in
      let t' := update_where p (status_row now s) t in
      (one (filter (λ r, p r) t'), t')
  end.
