(* ===== verification/SqlcFacts.v ===== *)
(** Facts about the statements of [Sqlc]: the table invariant and its
    preservation, what each statement does to each row, and the view of a table
    as a finite map from row id to row. *)

From S2P Require Import Prelude Errors Domain Sqlc.

(** ** The table invariant *)

Definition id_of (r : row) : uuid := signal_message_id r.

(** What the constraints of [migrations/20260519000000_init.sql] guarantee, and
    that [attempts] is a non-negative int4. *)
Record table_wf (t : table) : Prop := MkTableWf {
  wf_pkey : NoDup (id_of <$> t);
  wf_external : NoDup (external_id <$> t);
  wf_idem : NoDup (omap idempotency_key t);
  wf_target : Forall (λ r, exactly_one_target r = true) t;
  wf_attempts : Forall (λ r, 0 ≤ attempts r < 2 ^ 31) t;
}.

(** A column assignment that keeps the keys and the target, and the range of
    [attempts]. *)
Record keeps (f : row → row) : Prop := MkKeeps {
  keeps_id : ∀ r, id_of (f r) = id_of r;
  keeps_external : ∀ r, external_id (f r) = external_id r;
  keeps_idem : ∀ r, idempotency_key (f r) = idempotency_key r;
  keeps_target : ∀ r, exactly_one_target (f r) = exactly_one_target r;
  keeps_timeout : ∀ r, timeout_at (f r) = timeout_at r;
  keeps_deleted : ∀ r, deleted_at (f r) = deleted_at r;
  keeps_max : ∀ r, max_attempts (f r) = max_attempts r;
}.

Lemma keeps_sent now rid : keeps (sent_row now rid).
Proof. by split. Qed.
Lemma keeps_failed now next e : keeps (failed_row now next e).
Proof. by split. Qed.
Lemma keeps_timed_out now : keeps (timed_out_row now).
Proof. by split. Qed.
Lemma keeps_resend now : keeps (resend_row now).
Proof. by split. Qed.
Lemma keeps_status now s : keeps (status_row now s).
Proof. by split. Qed.
Lemma keeps_claim now l : keeps (claim_row now l).
Proof. by split. Qed.
#[export] Hint Resolve keeps_sent keeps_failed keeps_timed_out keeps_resend keeps_status
  keeps_claim : sigdb.

Lemma omap_update_where {B} (k : row → option B) p f (t : table) :
  (∀ r, k (f r) = k r) → omap k (update_where p f t) = omap k t.
Proof.
  intros Hk. induction t as [|r t IH]; [done|]. rewrite update_where_cons. csimpl.
  rewrite IH. by destruct (p r); rewrite ?Hk.
Qed.

Lemma update_where_wf p f t :
  keeps f → (∀ r, r ∈ t → p r = true → 0 ≤ attempts r < 2 ^ 31 → 0 ≤ attempts (f r) < 2 ^ 31) →
  table_wf t → table_wf (update_where p f t).
Proof.
  intros K Ha W. split.
  - rewrite update_where_map; [apply W|apply K].
  - rewrite update_where_map; [apply W|apply K].
  - rewrite omap_update_where; [apply W|apply K].
  - apply update_where_Forall; [|apply W]. intros r ? _. by rewrite keeps_target.
  - rewrite Forall_forall. intros y (x & Hx & ->)%update_where_elem.
    pose proof (proj1 (Forall_forall _ _) (wf_attempts _ W) x Hx) as H. simpl in H.
    destruct (p x) eqn:?; auto.
Qed.

(** ** Times *)

Lemma pg_time_spec t : pg_time t ≤ t < pg_time t + 1000 ∧ (1000 | pg_time t).
Proof.
  unfold pg_time, Microsecond. pose proof (Z.div_mod t 1000). pose proof (Z.mod_pos_bound t 1000).
  split; [lia|]. by exists (t / 1000).
Qed.

Lemma pg_time_id t : t mod 1000 = 0 → pg_time t = t.
Proof. intros H. unfold pg_time, Microsecond. pose proof (Z.div_mod t 1000). lia. Qed.

Lemma pg_time_mono a b : a ≤ b → pg_time a ≤ pg_time b.
Proof.
  intros H. unfold pg_time, Microsecond. pose proof (Z.div_le_mono a b 1000). lia.
Qed.

(** ** The claim query *)

Lemma claimable_spec now r :
  claimable now r = true ↔
    deleted_at r = None ∧
    (status r = PENDING ∨ status r = SENDING ∧ next_attempt_at r < now) ∧
    next_attempt_at r ≤ now ∧
    (∀ d, timeout_at r = Some d → now < d).
Proof.
  unfold claimable. rewrite !andb_true_iff, orb_true_iff, andb_true_iff.
  rewrite !bool_decide_eq_true, Z.leb_le, Z.ltb_lt.
  destruct (deleted_at r), (timeout_at r) as [d|]; simpl; rewrite ?Z.ltb_lt;
    naive_solver lia.
Qed.

Lemma overdue_spec now r :
  overdue now r = true ↔
    deleted_at r = None ∧ (status r = PENDING ∨ status r = SENDING ∨ status r = FAILED) ∧
    ∃ d, timeout_at r = Some d ∧ d ≤ now.
Proof.
  unfold overdue, status_in. rewrite !andb_true_iff, bool_decide_eq_true, !elem_of_cons.
  destruct (deleted_at r), (timeout_at r) as [d|]; simpl; rewrite ?Z.leb_le, ?elem_of_nil;
    naive_solver lia.
Qed.

Lemma exactly_one_target_spec r :
  exactly_one_target r = true ↔
    (is_Some (recipient r) ∧ group_id r = None) ∨ (recipient r = None ∧ is_Some (group_id r)).
Proof.
  unfold exactly_one_target. rewrite Z.eqb_eq.
  destruct (recipient r), (group_id r); simpl; split; intros H; try lia; try naive_solver;
    destruct H as [[[? ?] ?]|[? [? ?]]]; done.
Qed.

Lemma first_by_next_spec l r :
  first_by_next l = Some r → r ∈ l ∧ ∀ x, x ∈ l → next_attempt_at r ≤ next_attempt_at x.
Proof.
  revert r. induction l as [|y l IH]; intros r; simpl; [done|].
  destruct (first_by_next l) as [r'|] eqn:E.
  - destruct (IH r' eq_refl) as [Hin Hmin].
    destruct (Z.ltb_spec (next_attempt_at r') (next_attempt_at y)); intros [= <-].
    + split; [by right|]. intros x [->|Hx]%elem_of_cons; [lia|auto].
    + split; [by left|]. intros x [->|Hx]%elem_of_cons; [lia|].
      specialize (Hmin x Hx). lia.
  - intros [= <-]. destruct l; [|simpl in E; repeat split_match_hyp; done].
    split; [by left|]. intros x [->|[]%not_elem_of_nil]%elem_of_cons. lia.
Qed.

Lemma first_by_next_None l : first_by_next l = None ↔ l = [].
Proof. destruct l; simpl; repeat split_match; naive_solver. Qed.

Lemma claimed_spec now locked t r :
  claimed now locked t = Some r →
  r ∈ t ∧ claimable now r = true ∧ id_of r ∉ locked ∧
  ∀ x, x ∈ t → claimable now x = true → id_of x ∉ locked →
       next_attempt_at r ≤ next_attempt_at x.
Proof.
  intros [Hin Hmin]%first_by_next_spec.
  apply list_elem_of_filter in Hin as [[Hc Hl] Hin].
  split_and!; [done| by apply Is_true_true | done |].
  intros x Hx Hcx Hlx. apply Hmin, list_elem_of_filter.
  split; [split; [by apply Is_true_true|done]|done].
Qed.

Lemma claimed_None now locked t :
  claimed now locked t = None ↔
  ∀ r, r ∈ t → claimable now r = true → id_of r ∈ locked.
Proof.
  unfold claimed. rewrite first_by_next_None. split.
  - intros E r Hin Hc. destruct (decide (id_of r ∈ locked)) as [|Hl]; [done|].
    exfalso. eapply not_elem_of_nil. rewrite <- E. apply list_elem_of_filter.
    split; [split; [by apply Is_true_true|exact Hl]|exact Hin].
  - intros H. destruct (filter _ t) as [|r l] eqn:E; [done|].
    assert (r ∈ filter (λ r, claimable now r ∧ signal_message_id r ∉ locked) t) as Hin
      by (rewrite E; by left).
    apply list_elem_of_filter in Hin as [[Hc Hl] Hin].
    exfalso. apply Hl, H; [done|by apply Is_true_true].
Qed.

(** ** Tables as finite maps *)

Definition to_map (t : table) : gmap uuid row := list_to_map ((λ r, (id_of r, r)) <$> t).

Lemma to_map_cons r t : to_map (r :: t) = <[id_of r := r]> (to_map t).
Proof. done. Qed.

Lemma to_map_update_where p f t :
  (∀ r, id_of (f r) = id_of r) →
  to_map (update_where p f t) = (λ r, if p r then f r else r) <$> to_map t.
Proof.
  intros Hid. induction t as [|r t IH].
  - symmetry. apply fmap_empty.
  - rewrite update_where_cons, !to_map_cons, fmap_insert, IH.
    f_equal. destruct (p r); auto.
Qed.

Lemma to_map_lookup_Some t id r : to_map t !! id = Some r → r ∈ t ∧ id_of r = id.
Proof.
  intros H%elem_of_list_to_map_2. apply list_elem_of_fmap in H as (x & [= -> ->] & ?). done.
Qed.

Lemma to_map_elem t r : NoDup (id_of <$> t) → r ∈ t → to_map t !! id_of r = Some r.
Proof.
  intros Hnd Hin. apply elem_of_list_to_map_1.
  - by rewrite <- list_fmap_compose.
  - apply list_elem_of_fmap. eauto.
Qed.

Lemma to_map_keys t id r : to_map t !! id = Some r → id_of r = id.
Proof. apply to_map_lookup_Some. Qed.

Lemma to_map_app_fresh t r :
  id_of r ∉ (id_of <$> t) → to_map (t ++ [r]) = <[id_of r := r]> (to_map t).
Proof.
  intros Hf. unfold to_map. rewrite fmap_app, list_to_map_app. simpl.
  rewrite insert_empty, map_union_comm.
  - by rewrite <- insert_union_singleton_l.
  - apply map_disjoint_singleton_r. apply not_elem_of_list_to_map.
    rewrite <- list_fmap_compose. exact Hf.
Qed.

Lemma has_id_spec id r : has_id (Some id) r = true ↔ id_of r = id.
Proof. unfold has_id. rewrite bool_decide_eq_true. naive_solver. Qed.

Lemma has_id_Some_true r : has_id (Some (id_of r)) r = true.
Proof. by apply has_id_spec. Qed.

(** [WHERE signal_message_id = id] touches the entry of [id] alone. *)
Lemma to_map_update_id id f t :
  (∀ r, id_of (f r) = id_of r) →
  to_map (update_where (has_id (Some id)) f t) = alter f id (to_map t).
Proof.
  intros Hid. rewrite to_map_update_where by done. apply map_eq. intros i.
  rewrite lookup_fmap, lookup_alter. destruct (to_map t !! i) as [r|] eqn:E; simpl.
  - apply to_map_keys in E as Hi. case_decide as Hd; simpl.
    + subst id i. by rewrite E, has_id_Some_true.
    + destruct (has_id (Some id) r) eqn:Hr; [|done].
      apply has_id_spec in Hr. congruence.
  - case_decide; [subst; by rewrite E|done].
Qed.

(** The same with a further condition. *)
Lemma to_map_update_id_if id (q : row → bool) f t :
  (∀ r, id_of (f r) = id_of r) →
  to_map (update_where (λ r, has_id (Some id) r && q r) f t)
  = alter (λ r, if q r then f r else r) id (to_map t).
Proof.
  intros Hid. rewrite <- to_map_update_id by (intros r; by destruct (q r)).
  f_equal. apply list_fmap_ext. intros _ x _. by destruct (has_id _ x), (q x).
Qed.

(** ** Lookups by id *)

Lemma one_spec l s : one l = Ok s ↔ ∃ r l', l = r :: l' ∧ s = scan r.
Proof. destruct l; simpl; naive_solver. Qed.

Lemma one_NoRows l e : one l = Err e ↔ l = [] ∧ e = ErrNoRows.
Proof. destruct l; simpl; naive_solver. Qed.

(** GetByID reads the live row of that id. *)
Lemma GetByID_spec t id :
  table_wf t →
  GetByID (MkPgUUID id true) t =
    match to_map t !! id with
    | Some r => if is_null (deleted_at r) then Ok (scan r) else Err ErrNoRows
    | None => Err ErrNoRows
    end.
Proof.
  intros W. unfold GetByID. simpl.
  destruct (filter _ t) as [|r l] eqn:E; simpl.
  - destruct (to_map t !! id) as [r|] eqn:Er; [|done].
    apply to_map_lookup_Some in Er as [Hin Hid]. destruct (is_null (deleted_at r)) eqn:?; [|done].
    exfalso. eapply not_elem_of_nil. rewrite <- E. apply list_elem_of_filter. split; [|exact Hin].
    split; apply Is_true_true; [by apply has_id_spec|done].
  - assert (r ∈ r :: l) as Hin by left. rewrite <- E in Hin.
    apply list_elem_of_filter in Hin as [[Hid Hnull] Hin].
    apply Is_true_true, has_id_spec in Hid. simpl in Hid. subst id.
    rewrite to_map_elem by (done || apply W). by apply Is_true_true in Hnull as ->.
Qed.
