(* ===== verification/Outbox.v ===== *)
(** The outbox table as a component: the statements that change it, the
    invariant they preserve, and the abstract specification they implement, a
    finite map from message id to message changed by a step relation. *)

From S2P Require Import Prelude Errors Domain Sqlc SqlcFacts.

(** ** The statements that change the table *)

Inductive stmt :=
| SInsert (gen_random_uuid : uuid) (arg : InsertParams)
| SClaim (locked : gset uuid) (lease : Interval)
| SMarkSent (resultID : option string) (id : pgUUID)
| SMarkFailed (lastError : option string) (next : Timestamptz) (id : pgUUID)
| SMarkTimedOut
| SResend (id : pgUUID)
| SUpdateStatus (st : SignalMessageStatus) (id : pgUUID).

(** The table after a statement. *)
Definition exec (now : time) (s : stmt) (t : table) : table :=
  match s with
  | SInsert u arg => (Insert u now arg t).2
  | SClaim locked lease => (ClaimPending now locked lease t).2
  | SMarkSent rid id => (MarkSent now rid id t).2
  | SMarkFailed e next id => (MarkFailed now e next id t).2
  | SMarkTimedOut => (MarkTimedOut now t).2
  | SResend id => (Resend now id t).2
  | SUpdateStatus st id => (UpdateStatus now st id t).2
  end.

Definition exec_all (l : list (time * stmt)) (t : table) : table :=
  foldl (λ t '(now, s), exec now s t) t l.

(** ** Preservation of the invariant *)

Lemma table_wf_nil : table_wf [].
Proof. by split; constructor. Qed.

Lemma existsb_none {A} (p : A → bool) l : existsb p l = false → ∀ x, x ∈ l → p x = false.
Proof.
  intros H x Hx. destruct (p x) eqn:E; [|done].
  assert (existsb p l = true) by (apply existsb_exists; exists x; by rewrite <- list_elem_of_In).
  congruence.
Qed.

Lemma unique_conflict_None r t :
  unique_conflict r t = None →
  id_of r ∉ id_of <$> t ∧ external_id r ∉ external_id <$> t ∧
  (∀ k, idempotency_key r = Some k → k ∉ omap idempotency_key t).
Proof.
  unfold unique_conflict.
  destruct (existsb _ t) eqn:E1; [done|]. destruct (existsb _ t) eqn:E2 at 1; [done|].
  destruct (existsb _ t) eqn:E3 at 1; [done|]. intros _. split_and!.
  - intros (x & Hx & Hin)%list_elem_of_fmap. eapply existsb_none in E1; [|exact Hin].
    apply bool_decide_eq_false in E1. unfold id_of in Hx. congruence.
  - intros (x & Hx & Hin)%list_elem_of_fmap. eapply existsb_none in E2; [|exact Hin].
    apply bool_decide_eq_false in E2. congruence.
  - intros k Hk (x & Hin & Hx)%list_elem_of_omap. eapply existsb_none in E3; [|exact Hin].
    rewrite Hk in E3. simpl in E3. apply bool_decide_eq_false in E3. congruence.
Qed.

Lemma NoDup_snoc {A} (x : A) l : x ∉ l → NoDup l → NoDup (l ++ [x]).
Proof.
  intros Hx Hl. apply NoDup_app. split_and!; [done| |apply NoDup_singleton].
  intros y Hy ->%list_elem_of_singleton. done.
Qed.

Lemma Insert_wf u now arg t : table_wf t → table_wf (Insert u now arg t).2.
Proof.
  intros W. unfold Insert. set (r := inserted_row u now arg).
  destruct (exactly_one_target r) eqn:Ht; simpl; [|done].
  destruct (unique_conflict r t) eqn:Hu; simpl; [done|].
  apply unique_conflict_None in Hu as (Hid & Hext & Hidem). split.
  - rewrite fmap_app. apply NoDup_snoc; [done|apply W].
  - rewrite fmap_app. apply NoDup_snoc; [done|apply W].
  - rewrite omap_app. csimpl. destruct (idempotency_key r) as [k|] eqn:Hk.
    + change (ip_IdempotencyKey arg) with (idempotency_key r). rewrite Hk.
      apply NoDup_snoc; [by apply Hidem|apply W].
    + change (ip_IdempotencyKey arg) with (idempotency_key r). rewrite Hk.
      rewrite app_nil_r. apply W.
  - apply Forall_app. split; [apply W|by repeat constructor].
  - apply Forall_app. split; [apply W|]. repeat constructor; simpl; lia.
Qed.

Lemma ClaimPending_wf now locked lease t :
  table_wf t → table_wf (ClaimPending now locked lease t).2.
Proof.
  intros W. unfold ClaimPending. destruct (claimed now locked t) as [r|] eqn:Hc; [|done].
  destruct (iv_param lease); [|done]. destruct (in_int32b _) eqn:Hb; [|done]. simpl.
  apply update_where_wf; auto with sigdb. intros x Hx Hid Ha. simpl.
  apply claimed_spec in Hc as (Hr & _). apply has_id_spec in Hid.
  assert (x = r) as ->.
  { pose proof (to_map_elem t x (wf_pkey _ W) Hx) as E1. rewrite Hid in E1.
    pose proof (to_map_elem t r (wf_pkey _ W) Hr) as E2.
    change (signal_message_id r) with (id_of r) in E1. congruence. }
  unfold in_int32b in Hb. bools. lia.
Qed.

Lemma exec_wf now s t : table_wf t → table_wf (exec now s t).
Proof.
  intros W. destruct s; simpl.
  - by apply Insert_wf.
  - by apply ClaimPending_wf.
  - unfold MarkSent. destruct (_ && _); [done|]. apply update_where_wf; auto with sigdb.
  - unfold MarkFailed. destruct (tz_param next); [|by destruct (existsb _ _)].
    apply update_where_wf; auto with sigdb.
  - apply update_where_wf; auto with sigdb.
  - apply update_where_wf; auto with sigdb. simpl. lia.
  - unfold UpdateStatus. destruct (enum_in st); [|done]. simpl.
    apply update_where_wf; auto with sigdb.
Qed.

Lemma exec_all_wf l t : table_wf t → table_wf (exec_all l t).
Proof.
  revert t. induction l as [|[now s] l IH]; intros t W; [done|]. apply IH. by apply exec_wf.
Qed.

(** ** The abstract outbox

    Messages by id.  A step of the outbox says what becomes of them, with no
    mention of rows, scans or column lists; the claim is non-deterministic
    between the ready messages that are due first. *)

Abbreviation outbox := (gmap uuid row) (only parsing).

(** A message that a worker may take at [now]. *)
Definition ready (now : time) (locked : gset uuid) (m : outbox) (id : uuid) (r : row) : Prop :=
  m !! id = Some r ∧ id ∉ locked ∧ deleted_at r = None ∧
  (status r = PENDING ∨ status r = SENDING ∧ next_attempt_at r < now) ∧
  next_attempt_at r ≤ now ∧ (∀ d, timeout_at r = Some d → now < d).

(** A new message clashes with the ones stored. *)
Definition clashes (m : outbox) (r : row) : Prop :=
  ∃ id x, m !! id = Some x ∧
    (id = id_of r ∨ external_id x = external_id r ∨
     ∃ k, idempotency_key r = Some k ∧ idempotency_key x = Some k).

(** The columns no statement assigns after the insert. *)
Record same_letter (r r' : row) : Prop := MkSameLetter {
  same_id : signal_message_id r' = signal_message_id r;
  same_external : external_id r' = external_id r;
  same_key : idempotency_key r' = idempotency_key r;
  same_recipient : recipient r' = recipient r;
  same_group : group_id r' = group_id r;
  same_sender : sender_phone_number r' = sender_phone_number r;
  same_content : content r' = content r;
  same_attachments : attachments r' = attachments r;
  same_max : max_attempts r' = max_attempts r;
  same_timeout : timeout_at r' = timeout_at r;
  same_quote : quote_result_id r' = quote_result_id r;
  same_correlation : correlation_id r' = correlation_id r;
  same_created : created_at r' = created_at r;
  same_deleted : deleted_at r' = deleted_at r;
}.

(** [r'] is the letter of [r] in the given delivery state. *)
Record delivery (r r' : row) (st : signal_message_status) (att : Z) (next : time)
    (err res : option string) (modified : time) : Prop := MkDelivery {
  dl_letter : same_letter r r';
  dl_status : status r' = st;
  dl_attempts : attempts r' = att;
  dl_next : next_attempt_at r' = next;
  dl_error : last_error r' = err;
  dl_result : result_id r' = res;
  dl_modified : modified_at r' = modified;
}.

(** The time column that a Go time is written to: NULL for an invalid one, and
    whole microseconds, rounded down, for a valid one. *)
Definition written (v : Timestamptz) (c : option time) : Prop :=
  match c with
  | None => tz_Valid v = false
  | Some d => tz_Valid v = true ∧ (1000 | d) ∧ d ≤ tz_Time v < d + 1000
  end.

(** A message just posted. *)
Record posted (now : time) (u : uuid) (arg : InsertParams) (r : row) : Prop := MkPosted {
  po_id : signal_message_id r = u;
  po_external : external_id r = ip_ExternalID arg;
  po_key : idempotency_key r = ip_IdempotencyKey arg;
  po_recipient : recipient r = ip_Recipient arg;
  po_group : group_id r = ip_GroupID arg;
  po_sender : sender_phone_number r = ip_SenderPhoneNumber arg;
  po_content : content r = ip_Content arg;
  po_attachments : attachments r = ip_Attachments arg;
  po_attempts : attempts r = 0;
  po_max : max_attempts r = ip_MaxAttempts arg;
  po_next : next_attempt_at r = now;
  po_timeout : written (ip_TimeoutAt arg) (timeout_at r);
  po_status : status r = PENDING;
  po_error : last_error r = None;
  po_result : result_id r = None;
  po_quote : quote_result_id r = None;
  po_correlation : correlation_id r = ip_CorrelationID arg;
  po_created : created_at r = now;
  po_modified : modified_at r = now;
  po_deleted : deleted_at r = None;
}.

(** A person or a group, and not both. *)
Definition one_target (r : row) : Prop :=
  (is_Some (recipient r) ∧ group_id r = None) ∨ (recipient r = None ∧ is_Some (group_id r)).

(** A message whose deadline has passed before it was settled. *)
Definition expired (now : time) (r : row) : Prop :=
  deleted_at r = None ∧ (status r = PENDING ∨ status r = SENDING ∨ status r = FAILED) ∧
  ∃ d, timeout_at r = Some d ∧ d ≤ now.

Lemma overdue_expired now r : overdue now r = true ↔ expired now r.
Proof. apply overdue_spec. Qed.

#[export] Instance expired_dec now r : Decision (expired now r).
Proof.
  refine (cast_if (decide (overdue now r = true))); abstract (by rewrite <- overdue_expired).
Defined.

(** A message that ended without being sent. *)
Definition unsent (r : row) : Prop :=
  status r = FAILED ∨ status r = TIMED_OUT ∨ status r = PERMANENT_FAILED.

Definition addressed (id : pgUUID) (i : uuid) : Prop := uuid_Valid id = true ∧ uuid_Bytes id = i.

(** The name of a status in the database. *)
Definition label (st : signal_message_status) : string :=
  match st with
  | PENDING => "PENDING"
  | SENDING => "SENDING"
  | SENT => "SENT"
  | FAILED => "FAILED"
  | PERMANENT_FAILED => "PERMANENT_FAILED"
  | TIMED_OUT => "TIMED_OUT"
  end.

(** No message comes or goes; the ones that [P] picks change as [Q] says and
    the others stay as they are. *)
Definition rewritten (P : uuid → row → Prop) (Q : row → row → Prop) (m m' : outbox) : Prop :=
  map_Forall2 (λ i r r', (P i r → Q r r') ∧ (¬ P i r → r' = r)) m m'.

Inductive outbox_step (now : time) : stmt → outbox → outbox → Prop :=
| step_insert m u arg r :
    posted now u arg r → one_target r → ¬ clashes m r →
    outbox_step now (SInsert u arg) m (<[u := r]> m)
| step_insert_refused m u arg r :
    posted now u arg r → ¬ one_target r ∨ clashes m r →
    outbox_step now (SInsert u arg) m m
| step_claim m locked lease id r r' :
    ready now locked m id r →
    (∀ id' x, ready now locked m id' x → next_attempt_at r ≤ next_attempt_at x) →
    iv_Valid lease = true → attempts r + 1 < 2 ^ 31 →
    delivery r r' SENDING (attempts r + 1) (now + 1000 * iv_Microseconds lease)
      (last_error r) (result_id r) now →
    outbox_step now (SClaim locked lease) m (<[id := r']> m)
| step_idle m locked lease :
    (∀ id r, ¬ ready now locked m id r) → outbox_step now (SClaim locked lease) m m
| step_claim_refused m locked lease id r :
    ready now locked m id r → iv_Valid lease = false ∨ attempts r + 1 = 2 ^ 31 →
    outbox_step now (SClaim locked lease) m m
| step_sent m m' rid id :
    (∀ s, rid = Some s → char_length s ≤ 25) →
    rewritten (λ i _, addressed id i)
      (λ r r', delivery r r' SENT (attempts r) (next_attempt_at r) (last_error r) rid now) m m' →
    outbox_step now (SMarkSent rid id) m m'
| step_sent_refused m rid id s :
    rid = Some s → 25 < char_length s → outbox_step now (SMarkSent rid id) m m
| step_failed m m' e next id nx :
    written next (Some nx) →
    rewritten (λ i _, addressed id i)
      (λ r r', ∃ st, delivery r r' st (attempts r) nx e (result_id r) now ∧
         (attempts r < max_attempts r → st = FAILED) ∧
         (max_attempts r ≤ attempts r → st = PERMANENT_FAILED)) m m' →
    outbox_step now (SMarkFailed e next id) m m'
| step_failed_refused m e next id :
    tz_Valid next = false → outbox_step now (SMarkFailed e next id) m m
| step_timed_out m m' :
    rewritten (λ _ r, expired now r)
      (λ r r', delivery r r' TIMED_OUT (attempts r) (next_attempt_at r) (last_error r)
                 (result_id r) now) m m' →
    outbox_step now SMarkTimedOut m m'
| step_resend m m' id :
    rewritten (λ i r, addressed id i ∧ unsent r)
      (λ r r', delivery r r' PENDING 0 now None (result_id r) now) m m' →
    outbox_step now (SResend id) m m'
| step_status m m' st s id :
    st = label s →
    rewritten (λ i r, addressed id i ∧ deleted_at r = None)
      (λ r r', delivery r r' s (attempts r) (next_attempt_at r) (last_error r) (result_id r) now)
      m m' →
    outbox_step now (SUpdateStatus st id) m m'
| step_status_refused m st id :
    (∀ s, st ≠ label s) → outbox_step now (SUpdateStatus st id) m m.

(** ** Refinement *)

Lemma rewritten_lookup P Q (m m' : outbox) i r :
  rewritten P Q m m' → m !! i = Some r →
  ∃ r', m' !! i = Some r' ∧ (P i r → Q r r') ∧ (¬ P i r → r' = r).
Proof.
  intros H Hr. specialize (H i). rewrite Hr in H. inversion H as [x r' HQ E1 E2|].
  exists r'. by destruct HQ.
Qed.

(** An [UPDATE] rewrites the rows its condition picks. *)
Lemma to_map_rewritten p f (P : uuid → row → Prop) Q t :
  (∀ r, id_of (f r) = id_of r) → (∀ r, p r = true ↔ P (id_of r) r) → (∀ r, Q r (f r)) →
  rewritten P Q (to_map t) (to_map (update_where p f t)).
Proof.
  intros Hid HP HQ i. rewrite to_map_update_where, lookup_fmap by done.
  destruct (to_map t !! i) as [r|] eqn:E; [|by constructor]. constructor. cbn.
  apply to_map_keys in E as <-. rewrite <- HP. destruct (p r); split; try done.
Qed.

Lemma set_cols_delivery r st att next err res modified :
  delivery r (set_cols r st att next err res modified) st att next err res modified.
Proof. by repeat split. Qed.

Lemma has_id_addressed id r : has_id (uuid_param id) r = true ↔ addressed id (id_of r).
Proof.
  unfold has_id, uuid_param, addressed, id_of. rewrite bool_decide_eq_true.
  destruct (uuid_Valid id); split; (intros [= E] || intros [? E]); try done. by rewrite E.
Qed.

Lemma tz_param_written v : written v (tz_param v).
Proof.
  unfold written, tz_param. pose proof (pg_time_spec (tz_Time v)). destruct (tz_Valid v); [|done].
  tauto.
Qed.

Lemma inserted_row_posted now u arg : posted now u arg (inserted_row u now arg).
Proof. split; try done. apply tz_param_written. Qed.

Lemma enum_in_label st : match enum_in st with Some s => st = label s | None => ∀ s, st ≠ label s end.
Proof.
  destruct (enum_in st) as [s|] eqn:E.
  - unfold enum_in in E. apply head_Some_elem_of, list_elem_of_filter in E as [<- _]. by destruct s.
  - intros s ->. replace (label s) with (enum_out s) in E by (by destruct s).
    by rewrite enum_in_out in E.
Qed.

Lemma ready_iff now locked t id r :
  table_wf t →
  ready now locked (to_map t) id r ↔
  r ∈ t ∧ id_of r = id ∧ id ∉ locked ∧ claimable now r = true.
Proof.
  intros W. unfold ready. rewrite claimable_spec. split.
  - intros (H & ?). apply to_map_lookup_Some in H as [??]. tauto.
  - intros (Hin & <- & ?). rewrite to_map_elem; [tauto|apply W|done].
Qed.

Lemma clashes_iff t r :
  table_wf t → (unique_conflict r t = None ↔ ¬ clashes (to_map t) r).
Proof.
  intros W. split.
  - intros (Hid & Hext & Hidem)%unique_conflict_None (id & x & Hx & Hc).
    apply to_map_lookup_Some in Hx as [Hin <-].
    destruct Hc as [Hc|[Hc|(k & Hk & Hc)]].
    + apply Hid. rewrite <- Hc. by apply list_elem_of_fmap_2.
    + apply Hext. rewrite <- Hc. by apply list_elem_of_fmap_2.
    + apply (Hidem k Hk), list_elem_of_omap. eauto.
  - intros Hn. unfold unique_conflict.
    assert (∀ x, x ∈ t → ¬ (id_of x = id_of r ∨ external_id x = external_id r ∨
              ∃ k, idempotency_key r = Some k ∧ idempotency_key x = Some k)) as H.
    { intros x Hx Hc. apply Hn. exists (id_of x), x.
      rewrite to_map_elem by (apply W || done). done. }
    assert (∀ p : row → bool, (∀ x, x ∈ t → p x = false) → existsb p t = false) as E.
    { intros p Hp. apply not_true_is_false. intros (x & Hin & Hx)%existsb_exists.
      rewrite Hp in Hx; [done|by apply list_elem_of_In]. }
    rewrite !E; [done| | |]; intros x Hx; specialize (H x Hx).
    + destruct (idempotency_key r) as [k|]; [|done]. apply bool_decide_eq_false. naive_solver.
    + apply bool_decide_eq_false. naive_solver.
    + apply bool_decide_eq_false. unfold id_of in H. naive_solver.
Qed.

Lemma clashes_intro t r c : table_wf t → unique_conflict r t = Some c → clashes (to_map t) r.
Proof.
  intros W. unfold unique_conflict.
  assert (∀ x, In x t → to_map t !! id_of x = Some x) as L
    by (intros x Hx%list_elem_of_In; apply to_map_elem; [apply W|done]).
  repeat (destruct (existsb _ t) eqn:E at 1;
    [apply existsb_exists in E as (x & Hx & E); intros _; exists (id_of x), x;
     split; [by apply L|]; bools|clear E]).
  - by left.
  - by right; left.
  - right; right. destruct (idempotency_key r) as [k|]; [|done]. by exists k.
  - done.
Qed.

Lemma exec_insert_refines now u arg t :
  table_wf t → outbox_step now (SInsert u arg) (to_map t) (to_map (exec now (SInsert u arg) t)).
Proof.
  intros W. simpl. unfold Insert.
  pose proof (inserted_row_posted now u arg) as P.
  destruct (exactly_one_target _) eqn:Ht; simpl.
  2:{ apply (step_insert_refused _ _ _ _ _ P). left. intros H%exactly_one_target_spec. congruence. }
  apply exactly_one_target_spec in Ht. destruct (unique_conflict _ t) eqn:Hu; simpl.
  - apply (step_insert_refused _ _ _ _ _ P). right. by eapply clashes_intro.
  - rewrite to_map_app_fresh by (by apply unique_conflict_None in Hu as [? _]).
    apply (step_insert _ _ _ _ _ P); [done|by apply clashes_iff].
Qed.

Lemma exec_claim_refines now locked lease t :
  table_wf t →
  outbox_step now (SClaim locked lease) (to_map t) (to_map (exec now (SClaim locked lease) t)).
Proof.
  intros W. simpl. unfold ClaimPending. destruct (claimed now locked t) as [r|] eqn:Hc; simpl.
  - apply claimed_spec in Hc as (Hin & Hr & Hl & Hmin).
    assert (ready now locked (to_map t) (id_of r) r) as R by (by apply ready_iff).
    pose proof (proj1 (Forall_forall _ _) (wf_attempts _ W) r Hin) as Ha. simpl in Ha.
    unfold iv_param. destruct (iv_Valid lease) eqn:Hd; [|by eapply step_claim_refused; eauto].
    unfold in_int32b. destruct (Z.leb_spec (- 2 ^ 31) (attempts r + 1)); [|lia]. simpl.
    destruct (Z.ltb_spec (attempts r + 1) (2 ^ 31));
      [|eapply step_claim_refused; [exact R|right; lia]]. simpl.
    rewrite to_map_update_id by done. set (d := iv_Microseconds lease * Microsecond).
    replace (alter _ _ _) with (<[id_of r := claim_row now d r]> (to_map t)).
    + eapply step_claim; [exact R| |done|done|].
      * intros id' r' (? & <- & ? & ?)%ready_iff; eauto.
      * replace (1000 * iv_Microseconds lease) with d by (unfold d, Microsecond; lia).
        apply set_cols_delivery.
    + apply map_eq. intros i. rewrite lookup_insert, lookup_alter. unfold id_of.
      case_decide; [subst i|done]. destruct R as [R _]. unfold id_of in R. by rewrite R.
  - rewrite claimed_None in Hc. apply step_idle.
    intros id r (Hin & <- & Hl & Hr)%ready_iff; [|done]. by apply Hl, Hc.
Qed.

Lemma exec_mark_refines now s t :
  match s with SInsert _ _ | SClaim _ _ => False | _ => True end →
  outbox_step now s (to_map t) (to_map (exec now s t)).
Proof.
  intros Hs. destruct s; try done; simpl; clear Hs.
  - unfold MarkSent. destruct (match resultID with Some s => 25 <? char_length s | None => false end)
      eqn:L.
    + destruct resultID as [s|]; [|done]. apply Z.ltb_lt in L. rewrite andb_true_r.
      destruct (existsb _ t) eqn:E; simpl; [by eapply step_sent_refused|].
      rewrite update_where_none by (apply Forall_forall; by apply existsb_none).
      by eapply step_sent_refused.
    + rewrite andb_false_r. apply step_sent; [intros s ->; by apply Z.ltb_ge|].
      apply to_map_rewritten; [done|intros r; apply has_id_addressed|intros r; apply set_cols_delivery].
  - unfold MarkFailed. pose proof (tz_param_written next) as Hw.
    destruct (tz_param next) as [nx|]; [|by destruct (existsb _ t); apply step_failed_refused].
    apply (step_failed _ _ _ _ _ _ nx Hw).
    apply to_map_rewritten; [done|intros r; apply has_id_addressed|]. intros r.
    eexists. split; [apply set_cols_delivery|]. split; intros ?;
      destruct (Z.leb_spec (max_attempts r) (attempts r)); (done || lia).
  - apply step_timed_out, to_map_rewritten; [done|intros r; apply overdue_expired|intros r; apply set_cols_delivery].
  - apply step_resend, to_map_rewritten; [done| |intros r; apply set_cols_delivery]. intros r.
    unfold resendable, unsent, status_in. rewrite andb_true_iff, has_id_addressed, bool_decide_eq_true.
    rewrite !elem_of_cons, elem_of_nil. tauto.
  - unfold UpdateStatus. pose proof (enum_in_label st) as E. destruct (enum_in st) as [s|]; simpl.
    + apply (step_status _ _ _ _ s); [done|]. apply to_map_rewritten; [done| |intros r; apply set_cols_delivery].
      intros r. rewrite andb_true_iff, has_id_addressed. destruct (deleted_at r); split; by intros [??].
    + by apply step_status_refused.
Qed.

Lemma exec_refines now s t :
  table_wf t → outbox_step now s (to_map t) (to_map (exec now s t)).
Proof.
  intros W. destruct s; try by apply exec_mark_refines.
  - by apply exec_insert_refines.
  - by apply exec_claim_refines.
Qed.

(** ** Properties *)

(** C4: whatever statements run, in whatever order, on a database that started
    empty, ids, external ids and idempotency keys stay unique, every message
    has exactly one target, and [attempts] stays a non-negative int4. *)
Theorem statements_preserve_wf (l : list (time * stmt)) : table_wf (exec_all l []).
Proof. apply exec_all_wf, table_wf_nil. Qed.

(** C3: on every table the program can reach, every statement acts as a step of
    the abstract outbox, a map from message id to message whose steps say column
    by column what becomes of each message: an insert adds one PENDING message
    unless it clashes or has not exactly one target; a claim makes a ready
    message that is due first SENDING, with one more attempt and the lease; a
    mark makes the addressed message SENT with its result id, or FAILED, or
    PERMANENT_FAILED once its attempts are used up; the reaper makes exactly the
    expired ones TIMED_OUT; Resend makes an unsent one PENDING and due; nothing
    else changes, and a refused statement changes nothing. *)
Theorem exec_refines_outbox (l : list (time * stmt)) (now : time) (s : stmt) :
  outbox_step now s (to_map (exec_all l [])) (to_map (exec now s (exec_all l []))).
Proof. apply exec_refines, exec_all_wf, table_wf_nil. Qed.

Lemma exec_quote now s t :
  Forall (λ r, quote_result_id r = None) t → Forall (λ r, quote_result_id r = None) (exec now s t).
Proof.
  intros H. destruct s; simpl.
  - unfold Insert. destruct (exactly_one_target _); [|done]. simpl.
    destruct (unique_conflict _ t); [done|]. apply Forall_app. by repeat constructor.
  - unfold ClaimPending. repeat case_match; try done. by apply update_where_Forall.
  - unfold MarkSent. case_match; [done|]. by apply update_where_Forall.
  - unfold MarkFailed. repeat case_match; try done. by apply update_where_Forall.
  - by apply update_where_Forall.
  - by apply update_where_Forall.
  - unfold UpdateStatus. case_match; [|done]. by apply update_where_Forall.
Qed.

(** No message ever has a quote: no statement writes [quote_result_id], so
    the [quoteResultId] that a client sends with a request is lost on the way to
    the table and the worker never quotes. *)
Theorem quote_result_id_never_stored (l : list (time * stmt)) :
  Forall (λ r, quote_result_id r = None) (exec_all l []).
Proof.
  cut (∀ t, Forall (λ r, quote_result_id r = None) t →
    Forall (λ r, quote_result_id r = None) (exec_all l t)); [by auto|].
  induction l as [|[now s] l IH]; intros t H; [done|]. by apply IH, exec_quote.
Qed.
