(* ===== verification/Repo.v ===== *)
(** [internal/repo/messages.go]: the typed wrapper over the generated queries.

    Each method runs one statement of [Sqlc] on the table, translates
    [pgx.ErrNoRows] into [domain.ErrNotFound], wraps every other error and
    converts the pgtype values of the row. *)

From S2P Require Import Prelude Errors Domain Sqlc SqlcFacts Outbox.

(** ** Conversions *)

Definition uuidToPg (id : uuid) : pgUUID := MkPgUUID id true.

Definition pgToUUID (v : pgUUID) : uuid := if uuid_Valid v then uuid_Bytes v else uuid_Nil.

Definition tsTz (t : option time) : Timestamptz :=
  match t with
  | None => MkTimestamptz zeroTime false
  | Some t => if IsZero t then MkTimestamptz zeroTime false else MkTimestamptz t true
  end.

Definition pgToTime (v : Timestamptz) : time := if tz_Valid v then tz_Time v else zeroTime.

Definition pgToTimePtr (v : Timestamptz) : option time :=
  if tz_Valid v then Some (tz_Time v) else None.

Definition intervalFromDuration (d : duration) : Interval := MkInterval (Microseconds d) true.

Definition rowToDomain (row : SignaliumSignalMessage) : SignalMessage :=
  {| msg_ID := pgToUUID (ssm_ID row);
     msg_ExternalID := ssm_ExternalID row;
     msg_IdempotencyKey := ssm_IdempotencyKey row;
     msg_Recipient := ssm_Recipient row;
     msg_GroupID := ssm_GroupID row;
     msg_SenderPhoneNumber := ssm_SenderPhoneNumber row;
     msg_Content := ssm_Content row;
     msg_Attachments := ssm_Attachments row;
     msg_Attempts := ssm_Attempts row;
     msg_MaxAttempts := ssm_MaxAttempts row;
     msg_NextAttemptAt := pgToTime (ssm_NextAttemptAt row);
     msg_TimeoutAt := pgToTimePtr (ssm_TimeoutAt row);
     msg_Status := ssm_Status row;
     msg_LastError := ssm_LastError row;
     msg_ResultID := ssm_ResultID row;
     msg_QuoteResultID := ssm_QuoteResultID row;
     msg_CorrelationID := ssm_CorrelationID row;
     msg_CreatedAt := pgToTime (ssm_CreatedAt row);
     msg_ModifiedAt := pgToTime (ssm_ModifiedAt row) |}.

(** The domain view of a table row. *)
Definition domain_of (r : row) : SignalMessage := rowToDomain (scan r).

(** ** Methods *)

(** [repo.InsertParams]. *)
Record RepoInsertParams := MkRepoInsertParams {
  rp_ExternalID : string;
  rp_IdempotencyKey : option string;
  rp_Recipient : option string;
  rp_GroupID : option string;
  rp_SenderPhoneNumber : string;
  rp_Content : string;
  rp_Attachments : Attachments;
  rp_MaxAttempts : Z;
  rp_TimeoutAt : option time;
  rp_CorrelationID : string;
}.

Definition repo_Insert (gen_random_uuid : uuid) (now : time) (p : RepoInsertParams) (t : table)
    : res SignalMessage * table :=
  let '(r, t') := Insert gen_random_uuid now
    (MkInsertParams (rp_ExternalID p) (rp_IdempotencyKey p) (rp_Recipient p) (rp_GroupID p)
       (rp_SenderPhoneNumber p) (rp_Content p) (rp_Attachments p) (rp_MaxAttempts p)
       (tsTz (rp_TimeoutAt p)) (rp_CorrelationID p)) t in
  match r with
  | Err e => (Err (Wrap e "insert signal message"), t')
  | Ok row => (Ok (rowToDomain row), t')
  end.

(** The shared ending of the [:one] methods. *)
Definition or_not_found (msg : string) (r : res SignaliumSignalMessage) : res SignalMessage :=
  match r with
  | Err e => if Is e ErrNoRows then Err ErrNotFound else Err (Wrap e msg)
  | Ok row => Ok (rowToDomain row)
  end.

Definition repo_GetByID (id : uuid) (t : table) : res SignalMessage :=
  or_not_found "get by id" (GetByID (uuidToPg id) t).

Definition repo_GetByExternalID (externalID : string) (t : table) : res SignalMessage :=
  or_not_found "get by external id" (GetByExternalID externalID t).

Definition repo_GetByIdempotencyKey (key : string) (t : table) : res SignalMessage :=
  or_not_found "get by idempotency key" (GetByIdempotencyKey (Some key) t).

Definition repo_ClaimPending (now : time) (locked : gset uuid) (lease : duration) (t : table)
    : res SignalMessage * table :=
  let '(r, t') := ClaimPending now locked (intervalFromDuration lease) t in
  (or_not_found "claim pending" r, t').

Definition wrap_err (msg : string) (r : res unit) : option error :=
  match r with Err e => Some (Wrap e msg) | Ok _ => None end.

Definition repo_MarkSent (now : time) (id : uuid) (resultID : string) (t : table)
    : option error * table :=
  let '(r, t') := MarkSent now (Some resultID) (uuidToPg id) t in (wrap_err "mark sent" r, t').

Definition repo_MarkFailed (now : time) (id : uuid) (lastErr : string) (nextAttemptAt : time)
    (t : table) : option error * table :=
  let '(r, t') := MarkFailed now (Some lastErr) (tsTz (Some nextAttemptAt)) (uuidToPg id) t in
  (wrap_err "mark failed" r, t').

Definition repo_MarkTimedOut (now : time) (t : table) : res Z * table :=
  let '(r, t') := MarkTimedOut now t in
  (match r with Err e => Err (Wrap e "mark timed out") | Ok n => Ok n end, t').

Definition repo_Resend (now : time) (id : uuid) (t : table) : option error * table :=
  let '(r, t') := Resend now (uuidToPg id) t in (wrap_err "resend" r, t').

Definition repo_UpdateStatus (now : time) (id : uuid) (st : SignalMessageStatus) (t : table)
    : res SignalMessage * table :=
  let '(r, t') := UpdateStatus now st (uuidToPg id) t in (or_not_found "update status" r, t').

(** ** Facts *)

Lemma domain_of_fields r :
  domain_of r =
  {| msg_ID := signal_message_id r; msg_ExternalID := external_id r;
     msg_IdempotencyKey := idempotency_key r; msg_Recipient := recipient r;
     msg_GroupID := group_id r; msg_SenderPhoneNumber := sender_phone_number r;
     msg_Content := content r; msg_Attachments := attachments r; msg_Attempts := attempts r;
     msg_MaxAttempts := max_attempts r; msg_NextAttemptAt := next_attempt_at r;
     msg_TimeoutAt := timeout_at r; msg_Status := enum_out (status r);
     msg_LastError := last_error r; msg_ResultID := result_id r;
     msg_QuoteResultID := quote_result_id r; msg_CorrelationID := correlation_id r;
     msg_CreatedAt := created_at r; msg_ModifiedAt := modified_at r |}.
Proof. unfold domain_of, rowToDomain, scan. simpl. by destruct (timeout_at r). Qed.

Lemma or_not_found_ok msg r m :
  or_not_found msg r = Ok m ↔ ∃ s, r = Ok s ∧ m = rowToDomain s.
Proof.
  unfold or_not_found. destruct r as [s|e]; [naive_solver|].
  destruct (Is e ErrNoRows); split; [done|by intros (? & ? & _)|done|by intros (? & ? & _)].
Qed.

Lemma or_not_found_NotFound msg r :
  or_not_found msg r = Err ErrNotFound ↔ ∃ e, r = Err e ∧ Is e ErrNoRows = true.
Proof.
  unfold or_not_found. destruct r as [s|e]; [split; [done|by intros (? & ? & _)]|].
  destruct (Is e ErrNoRows) eqn:E; split; [eauto|done|done|].
  intros (e' & [= <-] & ?). congruence.
Qed.

(** A lease of whole microseconds reaches Postgres unchanged. *)
Lemma lease_interval lease :
  lease mod 1000 = 0 → 0 ≤ lease → iv_param (intervalFromDuration lease) = Some lease.
Proof.
  intros Hm Hl. unfold iv_param, intervalFromDuration, Microseconds, Microsecond. simpl.
  rewrite Z.quot_div_nonneg by lia. f_equal. pose proof (Z.div_mod lease 1000). lia.
Qed.

(** ** Lookups on a well-formed table *)

Lemma one_filter_unique (P : row → Prop) `{∀ r, Decision (P r)} t r :
  r ∈ t → P r → (∀ x, x ∈ t → P x → x = r) → one (filter P t) = Ok (scan r).
Proof.
  intros Hin HP Hu. destruct (filter P t) as [|x l] eqn:E.
  - exfalso. eapply not_elem_of_nil. rewrite <- E. by apply list_elem_of_filter.
  - simpl. rewrite (Hu x); [done| |]; eapply list_elem_of_filter; rewrite E; left.
Qed.

Lemma NoDup_fmap_inj {A B} (f : A → B) l x y :
  NoDup (f <$> l) → x ∈ l → y ∈ l → f x = f y → x = y.
Proof.
  intros Hnd [i Hi]%list_elem_of_lookup [j Hj]%list_elem_of_lookup E.
  assert (i = j) as ->; [|congruence].
  eapply NoDup_lookup; [exact Hnd| |]; rewrite list_lookup_fmap.
  - by rewrite Hi.
  - by rewrite Hj, E.
Qed.

Lemma NoDup_omap_inj {A B} (f : A → option B) l x y k :
  NoDup (omap f l) → x ∈ l → y ∈ l → f x = Some k → f y = Some k → x = y.
Proof.
  induction l as [|z l IH]; intros Hnd Hx Hy Ex Ey; [by apply not_elem_of_nil in Hx|].
  csimpl in Hnd. assert (NoDup (omap f l)) as Hnd'
    by (destruct (f z); [by apply NoDup_cons in Hnd as [??]|done]).
  assert (∀ v, v ∈ l → f z = Some k → f v ≠ Some k) as Hz.
  { intros v Hv Hzk Hvk. rewrite Hzk in Hnd. apply NoDup_cons in Hnd as [Hn _].
    apply Hn, list_elem_of_omap. eauto. }
  apply elem_of_cons in Hx as [->|Hx]; apply elem_of_cons in Hy as [->|Hy]; try done.
  - by destruct (Hz y).
  - by destruct (Hz x).
  - auto.
Qed.

Lemma lookups_of_row t r :
  table_wf t → r ∈ t → deleted_at r = None →
  repo_GetByID (id_of r) t = Ok (domain_of r) ∧
  repo_GetByExternalID (external_id r) t = Ok (domain_of r) ∧
  ∀ k, idempotency_key r = Some k → repo_GetByIdempotencyKey k t = Ok (domain_of r).
Proof.
  intros W Hin Hd. split_and!.
  - unfold repo_GetByID, GetByID. erewrite one_filter_unique; [done|exact Hin| |].
    + split; apply Is_true_true; [by apply has_id_spec|by rewrite Hd].
    + intros x Hx [Hid _]. apply Is_true_true, has_id_spec in Hid.
      by eapply NoDup_fmap_inj; [apply W| | |].
  - unfold repo_GetByExternalID, GetByExternalID. erewrite one_filter_unique; [done|exact Hin| |].
    + split; [done|]. by rewrite Hd.
    + intros x Hx [He _]. by eapply NoDup_fmap_inj; [apply (wf_external _ W)| | |].
  - intros k Hk. unfold repo_GetByIdempotencyKey, GetByIdempotencyKey.
    erewrite one_filter_unique; [done|exact Hin| |].
    + split; [by eexists|done].
    + intros x Hx [_ He]. by eapply NoDup_omap_inj; [apply (wf_idem _ W)| | | |].
Qed.

(** ** Properties *)

Lemma repo_Insert_ok u now p t m t' :
  repo_Insert u now p t = (Ok m, t') →
  ∃ r, m = domain_of r ∧ r ∈ t' ∧ id_of r = u ∧ external_id r = rp_ExternalID p ∧
       idempotency_key r = rp_IdempotencyKey p ∧ deleted_at r = None ∧ status r = PENDING ∧
       attempts r = 0 ∧ next_attempt_at r = now ∧ t' = t ++ [r] ∧
       timeout_at r = tz_param (tsTz (rp_TimeoutAt p)) ∧ quote_result_id r = None.
Proof.
  unfold repo_Insert, Insert. destruct (exactly_one_target _); [|done]. simpl.
  destruct (unique_conflict _ t); [done|]. intros [= <- <-].
  eexists. split; [done|]. split_and!; try done. apply elem_of_app. right. by left.
Qed.

Lemma repo_Insert_wf u now p t :
  table_wf t → ∀ r t', repo_Insert u now p t = (r, t') → table_wf t'.
Proof.
  intros W r t' H. replace t' with (repo_Insert u now p t).2 by (by rewrite H).
  unfold repo_Insert. match goal with |- context [Insert ?u ?n ?a ?t] =>
    pose proof (Insert_wf u n a t W); by destruct (Insert u n a t) as [[]?] end.
Qed.

(** A message that Insert accepted is found again, as Insert returned it, by
    its id, by its external id and by its idempotency key, and it is PENDING
    with no attempts made. *)
Theorem repo_Insert_lookup u now p t m t' :
  table_wf t → repo_Insert u now p t = (Ok m, t') →
  msg_ID m = u ∧ msg_Status m = StatusPending ∧ msg_Attempts m = 0 ∧
  repo_GetByID u t' = Ok m ∧
  repo_GetByExternalID (rp_ExternalID p) t' = Ok m ∧
  ∀ k, rp_IdempotencyKey p = Some k → repo_GetByIdempotencyKey k t' = Ok m.
Proof.
  intros W H. pose proof (repo_Insert_wf _ _ _ _ W _ _ H) as W'.
  apply repo_Insert_ok in H as (r & -> & Hin & <- & <- & <- & Hd & Hs & Ha & _).
  destruct (lookups_of_row t' r W' Hin Hd) as (H1 & H2 & H3).
  split_and!; [done| |done|done..].
  change (enum_out (status r) = StatusPending). by rewrite Hs.
Qed.

Definition sample_insert : RepoInsertParams :=
  MkRepoInsertParams "ext-1" (Some "key-1") (Some "+380111111111") None "+380000000000" "hi" []
    5 None "c".

Lemma repo_Insert_lookup_witness :
  let m := domain_of (inserted_row 7%N 100
             (MkInsertParams "ext-1" (Some "key-1") (Some "+380111111111") None
                "+380000000000" "hi" [] 5 (tsTz None) "c")) in
  let t' := (repo_Insert 7%N 100 sample_insert []).2 in
  msg_ID m = 7%N ∧ msg_Status m = StatusPending ∧ msg_Attempts m = 0 ∧
  repo_GetByID 7%N t' = Ok m ∧
  repo_GetByExternalID (rp_ExternalID sample_insert) t' = Ok m ∧
  ∀ k, rp_IdempotencyKey sample_insert = Some k → repo_GetByIdempotencyKey k t' = Ok m.
Proof.
  intros m t'. apply (repo_Insert_lookup 7%N 100 sample_insert [] m t');
    [apply table_wf_nil|vm_compute; reflexivity].
Defined.


(** Two due rows; the second is due first. *)
Definition sample_table : table :=
  (Insert 2%N 50 (MkInsertParams "ext-2" None None (Some "g") "+380000000000" "b" [] 5
                    (tsTz None) "c2")
     (Insert 1%N 90 (MkInsertParams "ext-1" None (Some "+380111111111") None "+380000000000" "a"
                       [] 5 (tsTz None) "c1") []).2).2.

Lemma sample_table_wf : table_wf sample_table.
Proof. do 2 apply Insert_wf. apply table_wf_nil. Qed.


(** ** Deadlines *)

Lemma rewritten_keeps P Q (m m' : outbox) i r :
  (∀ r r', Q r r' → same_letter r r') → rewritten P Q m m' → m !! i = Some r →
  ∃ r', m' !! i = Some r' ∧
    timeout_at r' = timeout_at r ∧ idempotency_key r' = idempotency_key r.
Proof.
  intros HQ H Hr. destruct (rewritten_lookup _ _ _ _ _ _ H Hr) as (r' & Hr' & H1 & H2).
  exists r'. split; [done|].
  destruct (decide (timeout_at r' = timeout_at r ∧ idempotency_key r' = idempotency_key r))
    as [|N]; [done|].
  exfalso. apply N. assert (r' = r) as ->; [|done]. apply H2. intros ?%H1%HQ.
  apply N. split; [by apply same_timeout|by apply same_key].
Qed.

(** No statement changes the deadline or the key of a message, or removes a
    message. *)
Lemma outbox_step_keeps now s m m' i r :
  outbox_step now s m m' → m !! i = Some r →
  ∃ r', m' !! i = Some r' ∧
    timeout_at r' = timeout_at r ∧ idempotency_key r' = idempotency_key r.
Proof.
  intros H Hr. destruct H as [m u arg x [<- _ _ _ _ _ _ _ _ _ _ _ _ _ _ _ _ _ _ _] _ Hc| |
    m locked lease id r0 r1 [Hr0 _] _ _ _ D| | | | | | | | | | ]; try by eauto.
  - rewrite lookup_insert. case_decide; [|eauto]. subst i. exfalso. apply Hc.
    exists (signal_message_id x), r. split; [done|by left].
  - rewrite lookup_insert. case_decide; [|eauto]. subst i.
    rewrite Hr in Hr0. injection Hr0 as <-. exists r1. apply dl_letter in D.
    split; [done|]. split; [by apply same_timeout|by apply same_key].
  - eapply rewritten_keeps; [|done|done]. intros ??. apply dl_letter.
  - eapply rewritten_keeps; [|done|done]. intros ?? (? & D & _). by eapply dl_letter.
  - eapply rewritten_keeps; [|done|done]. intros ??. apply dl_letter.
  - eapply rewritten_keeps; [|done|done]. intros ??. apply dl_letter.
  - eapply rewritten_keeps; [|done|done]. intros ??. apply dl_letter.
Qed.

Lemma exec_all_keeps l t i r :
  table_wf t → to_map t !! i = Some r →
  ∃ r', to_map (exec_all l t) !! i = Some r' ∧
    timeout_at r' = timeout_at r ∧ idempotency_key r' = idempotency_key r.
Proof.
  revert t r. induction l as [|[now s] l IH]; intros t r W Hr; [by eauto|].
  destruct (outbox_step_keeps _ _ _ _ i r (exec_refines now s t W) Hr) as (r1 & H1 & <- & <-).
  by apply IH; [apply exec_wf|].
Qed.

(** C38: once the deadline of a message has passed it is never claimed again,
    whatever statements run in between, Resend by an operator included: Resend
    makes the row PENDING and due but keeps [timeout_at], which the claim query
    requires to lie in the future. *)
Theorem overdue_never_claimed l t id r d now locked lease m t' :
  table_wf t → to_map t !! id = Some r → timeout_at r = Some d → d ≤ now →
  repo_ClaimPending now locked lease (exec_all l t) = (Ok m, t') → msg_ID m ≠ id.
Proof.
  intros W Hr Hd Hn HC Hid. apply (exec_all_keeps l) in Hr as (r' & Hr' & Hd' & _); [|done].
  apply (exec_all_wf l) in W. revert HC. unfold repo_ClaimPending, ClaimPending.
  destruct (claimed now locked _) as [x|] eqn:Hc; [|done]. simpl.
  destruct (in_int32b _); [|done]. intros [= <- _]. simpl in Hid.
  apply claimed_spec in Hc as (Hin & Hx & _). pose proof (to_map_elem _ x (wf_pkey _ W) Hin) as L.
  unfold pgToUUID in Hid. simpl in Hid. unfold id_of in L. rewrite Hid, Hr' in L.
  injection L as ->. apply claimable_spec in Hx as (_ & _ & _ & Hto).
  rewrite Hd' in Hto. specialize (Hto d Hd). lia.
Qed.

(** A timed-out message, resent by the operator next to a fresh one. *)
Definition resent_table : table :=
  exec_all [(100, SInsert 1%N (MkInsertParams "ext-1" None (Some "+380111111111") None
                                 "+380000000000" "a" [] 5 (tsTz (Some 5000)) "c1"));
            (150, SInsert 2%N (MkInsertParams "ext-2" None (Some "+380111111111") None
                                 "+380000000000" "b" [] 5 (tsTz None) "c2"));
            (6000, SMarkTimedOut)] [].

Lemma overdue_never_claimed_witness :
  ∃ m t', repo_ClaimPending 8000 ∅ Minute
            (exec_all [(7000, SResend (uuidToPg 1%N))] resent_table) = (Ok m, t') ∧ msg_ID m ≠ 1%N.
Proof.
  assert (∃ r, to_map resent_table !! 1%N = Some r ∧ timeout_at r = Some 5000) as (r & Hr & Hd)
    by (eexists; split; [vm_compute; reflexivity|reflexivity]).
  destruct (repo_ClaimPending 8000 ∅ Minute _) as [[m|e] t'] eqn:E.
  - exists m, t'. split; [reflexivity|].
    apply (overdue_never_claimed _ resent_table 1%N r 5000 8000 ∅ Minute m t'
      (exec_all_wf _ _ table_wf_nil) Hr Hd ltac:(lia) E).
  - exfalso. apply (f_equal (is_ok ∘ fst)) in E. vm_compute in E. discriminate.
Defined.
