(* ===== verification/Queries.v ===== *)
(** The read side of the outbox: [List], [Count], [StatsCounts], [StatsPerDay]
    and [BacklogStats] of [internal/repo/sqlc] and their wrappers in
    [internal/repo/messages.go].

    What Postgres decides by locale or session time zone is a parameter:
    [ILIKE], the day label of a timestamp and the subtraction of 30 days. *)

From S2P Require Import Prelude Errors Domain Sqlc SqlcFacts Repo.
From Stdlib Require Import Sorting.Permutation.

(** ** Filters *)

Record ListFilters := MkListFilters {
  lf_Q : option string;
  lf_Status : option SignalMessageStatus;
  lf_Attempts : option Z;
  lf_CreatedAtFrom : option time;
  lf_CreatedAtTo : option time;
  lf_Limit : Z;
  lf_Offset : Z;
}.

Record CountParams := MkCountParams {
  cp_Q : option string;
  cp_StatusFilter : option string;
  cp_Attempts : option Z;
  cp_CreatedAtFrom : Timestamptz;
  cp_CreatedAtTo : Timestamptz;
}.

Record ListParams := MkListParams {
  lp_Q : option string;
  lp_StatusFilter : option string;
  lp_Attempts : option Z;
  lp_CreatedAtFrom : Timestamptz;
  lp_CreatedAtTo : Timestamptz;
  lp_OffsetCount : Z;
  lp_LimitCount : Z;
}.

(** [domainStatusToSQLC]. *)
Definition domainStatusToSQLC (s : option SignalMessageStatus) : option string :=
  match s with None => None | Some v => Some v end.

(** [($n IS NULL OR p)]. *)
Definition null_or {A} (v : option A) (p : A → bool) : bool :=
  match v with None => true | Some x => p x end.

Section Queries.
Variable ILIKE : string → string → bool.      (* content, pattern *)
Variable day_label : time → string.           (* to_char(date_trunc('day', t), 'YYYY-MM-DD') *)
Variable minus_30_days : time → time.         (* t - interval '30 days' *)

(** ** Statements *)

(** The [WHERE] of List, the status filter already read as an enum value. *)
Definition list_where (arg : ListParams) (st : option signal_message_status) (r : row) : bool :=
  is_null (deleted_at r)
  && null_or (lp_Q arg) (λ q, ILIKE (content r) ("%" +:+ q +:+ "%"))
  && null_or st (λ s, bool_decide (status r = s))
  && null_or (lp_Attempts arg) (λ n, attempts r =? n)
  && null_or (tz_param (lp_CreatedAtFrom arg)) (λ d, d <=? created_at r)
  && null_or (tz_param (lp_CreatedAtTo arg)) (λ d, created_at r <? d).

(** The [WHERE] of Count, written out a second time in the source. *)
Definition count_where (arg : CountParams) (st : option signal_message_status) (r : row) : bool :=
  is_null (deleted_at r)
  && null_or (cp_Q arg) (λ q, ILIKE (content r) ("%" +:+ q +:+ "%"))
  && null_or st (λ s, bool_decide (status r = s))
  && null_or (cp_Attempts arg) (λ n, attempts r =? n)
  && null_or (tz_param (cp_CreatedAtFrom arg)) (λ d, d <=? created_at r)
  && null_or (tz_param (cp_CreatedAtTo arg)) (λ d, created_at r <? d).

(** The cast of the status parameter to the enum. *)
Definition status_filter (s : option string) : res (option signal_message_status) :=
  match s with
  | None => Ok None
  | Some v => match enum_in v with
              | Some e => Ok (Some e)
              | None => Err (ErrPg InvalidTextRepresentation)
              end
  end.

(** [ORDER BY created_at DESC, signal_message_id ASC]. *)
Definition newest_first (a b : row) : Prop :=
  created_at b < created_at a ∨ created_at a = created_at b ∧ (id_of a ≤ id_of b)%N.

#[local] Instance newest_first_dec : RelDecision newest_first.
Proof using Type. unfold newest_first. intros a b. apply _. Defined.

Definition List (arg : ListParams) (t : table) : res (list SignaliumSignalMessage) :=
  match status_filter (lp_StatusFilter arg) with
  | Err e => Err e
  | Ok st =>
      if lp_OffsetCount arg <? 0 then Err (ErrPg InvalidRowCountInResultOffsetClause)
      else if lp_LimitCount arg <? 0 then Err (ErrPg InvalidRowCountInLimitClause)
      else Ok (scan <$> take (Z.to_nat (lp_LimitCount arg))
                 (drop (Z.to_nat (lp_OffsetCount arg))
                    (merge_sort newest_first (filter (λ r, list_where arg st r) t))))
  end.

Definition Count (arg : CountParams) (t : table) : res Z :=
  match status_filter (cp_StatusFilter arg) with
  | Err e => Err e
  | Ok st => cast_int4 (Z.of_nat (length (filter (λ r, count_where arg st r) t)))
  end.

(** [GROUP BY status]: a row per status that occurs. *)
Definition live (t : table) : list row := filter (λ r, is_null (deleted_at r)) t.

Definition with_status (l : list signal_message_status) (t : table) : list row :=
  filter (λ r, status_in l r) t.

Fixpoint sequence {A} (l : list (res A)) : res (list A) :=
  match l with
  | [] => Ok []
  | Err e :: _ => Err e
  | Ok a :: l' => match sequence l' with Ok x => Ok (a :: x) | Err e => Err e end
  end.

Definition StatsCounts (t : table) : res (list (SignalMessageStatus * Z)) :=
  sequence
    ((λ s, result_map (pair (enum_out s))
             (cast_int4 (Z.of_nat (length (with_status [s] (live t))))))
     <$> filter (λ s, with_status [s] (live t) ≠ []) all_statuses).

Record StatsPerDayRow := MkStatsPerDayRow { sd_Day : string; sd_Sent : Z; sd_Failed : Z }.

Definition recent (now : time) (t : table) : list row :=
  filter (λ r, minus_30_days now ≤ created_at r) (live t).

Definition on_day (d : string) (t : table) : list row :=
  filter (λ r, day_label (created_at r) = d) t.

Definition day_row (t : table) (d : string) : res StatsPerDayRow :=
  match cast_int4 (Z.of_nat (length (with_status [SENT] (on_day d t)))),
        cast_int4 (Z.of_nat (length
          (with_status [FAILED; PERMANENT_FAILED; TIMED_OUT] (on_day d t)))) with
  | Ok s, Ok f => Ok (MkStatsPerDayRow d s f)
  | Err e, _ => Err e
  | _, Err e => Err e
  end.

Definition days (t : table) : list string :=
  merge_sort String.le (remove_dups (day_label ∘ created_at <$> t)).

Definition StatsPerDay (now : time) (t : table) : res (list StatsPerDayRow) :=
  sequence (day_row (recent now t) <$> days (recent now t)).

(** [EXTRACT(EPOCH FROM d)::bigint]: whole seconds, halves away from zero. *)
Definition epoch_bigint (d : duration) : Z :=
  Z.sgn d * ((2 * Z.abs d + Second) / (2 * Second)).

Definition oldest (l : list row) : option time :=
  match l with
  | [] => None
  | r :: l' => Some (foldr (λ x m, Z.min (created_at x) m) (created_at r) l')
  end.

Definition BacklogStats (now : time) (t : table) : res (Z * Z) :=
  let waiting := with_status [PENDING; FAILED] (live t) in
  match cast_int4 (Z.of_nat (length waiting)) with
  | Err e => Err e
  | Ok n => Ok (n, match oldest waiting with Some c => epoch_bigint (now - c) | None => 0 end)
  end.

(** ** Repository methods *)

Definition count_params (f : ListFilters) : CountParams :=
  MkCountParams (lf_Q f) (domainStatusToSQLC (lf_Status f)) (lf_Attempts f)
    (tsTz (lf_CreatedAtFrom f)) (tsTz (lf_CreatedAtTo f)).

Definition list_params (f : ListFilters) : ListParams :=
  MkListParams (lf_Q f) (domainStatusToSQLC (lf_Status f)) (lf_Attempts f)
    (tsTz (lf_CreatedAtFrom f)) (tsTz (lf_CreatedAtTo f)) (lf_Offset f) (lf_Limit f).

Definition repo_List (f : ListFilters) (t : table) : res (list SignalMessage) :=
  match List (list_params f) t with
  | Err e => Err (Wrap e "list signal messages")
  | Ok rows => Ok (rowToDomain <$> rows)
  end.

Definition repo_Count (f : ListFilters) (t : table) : res Z :=
  match Count (count_params f) t with
  | Err e => Err (Wrap e "count signal messages")
  | Ok n => Ok n
  end.

Definition repo_StatsCounts (t : table) : res (list (SignalMessageStatus * Z)) :=
  match StatsCounts t with
  | Err e => Err (Wrap e "stats counts")
  | Ok rows => Ok rows
  end.

Definition repo_StatsPerDay (now : time) (t : table) : res (list StatsPerDayRow) :=
  match StatsPerDay now t with
  | Err e => Err (Wrap e "stats per-day")
  | Ok rows => Ok rows
  end.

Definition repo_BacklogStats (now : time) (t : table) : res (Z * duration) :=
  match BacklogStats now t with
  | Err e => Err (Wrap e "backlog stats")
  | Ok (depth, age) => Ok (depth, int64 (age * Second))
  end.

End Queries.

(** ** Pages *)

#[export] Existing Instance newest_first_dec.

#[export] Instance newest_first_total : Total newest_first.
Proof.
  intros a b. unfold newest_first.
  destruct (Z.lt_trichotomy (created_at a) (created_at b)) as [?|[E|?]]; [by auto| |by auto].
  rewrite E. destruct (N.le_ge_cases (id_of a) (id_of b)); auto.
Qed.

#[export] Instance newest_first_trans : Transitive newest_first.
Proof. intros a b c. unfold newest_first. intros [?|[??]] [?|[??]]; lia. Qed.

Lemma sequence_Ok {A B} (f : A → B) l : sequence ((λ x, Ok (f x)) <$> l) = Ok (f <$> l).
Proof. induction l as [|x l IH]; [done|]. csimpl. by rewrite IH. Qed.

Lemma sequence_inv {A} (l : list (res A)) xs : sequence l = Ok xs → l = Ok <$> xs.
Proof.
  revert xs. induction l as [|[a|e] l IH]; intros xs; simpl; [by intros [= <-]| |done].
  destruct (sequence l) as [y|]; [|done]. intros [= <-]. csimpl. by rewrite (IH y).
Qed.

Lemma list_fmap_join {A B} (f : A → B) (l : list (list A)) :
  f <$> mjoin l = mjoin (fmap f <$> l).
Proof. induction l as [|x l IH]; [done|]. csimpl. by rewrite fmap_app, IH. Qed.

Lemma take_chunks {A} (l : list A) (n k : nat) :
  mjoin ((λ i, take k (drop (i * k) l)) <$> seq 0 n) = take (n * k) l.
Proof.
  induction n as [|n IH]; [done|].
  rewrite seq_S, fmap_app, join_app, IH. csimpl. rewrite app_nil_r.
  rewrite take_take_drop. f_equal. lia.
Qed.

(** Page [i] of [L] rows. *)
Definition page (f : ListFilters) (L : Z) (i : nat) : ListFilters :=
  MkListFilters (lf_Q f) (lf_Status f) (lf_Attempts f) (lf_CreatedAtFrom f) (lf_CreatedAtTo f)
    L (Z.of_nat i * L).

(** ** What a listing is meant to hold *)

(** A live row that meets every filter given: its content is like the text, its
    status has the given name, its attempts are the given number, and it was
    created in the half-open interval, whose ends count in whole microseconds.
    A zero time is no filter. *)
Record meets (ILIKE : string → string → bool) (f : ListFilters) (r : row) : Prop := MkMeets {
  meets_live : deleted_at r = None;
  meets_q : ∀ q, lf_Q f = Some q → ILIKE (content r) ("%" +:+ q +:+ "%") = true;
  meets_status : ∀ s, lf_Status f = Some s → enum_out (status r) = s;
  meets_attempts : ∀ n, lf_Attempts f = Some n → attempts r = n;
  meets_from : ∀ d, lf_CreatedAtFrom f = Some d → d ≠ zeroTime → d / 1000 * 1000 ≤ created_at r;
  meets_to : ∀ d, lf_CreatedAtTo f = Some d → d ≠ zeroTime → created_at r < d / 1000 * 1000;
}.

(** Newer rows come first; rows of one instant by id. *)
Definition in_order (l : list row) : Prop :=
  ∀ i j a b, (i < j)%nat → l !! i = Some a → l !! j = Some b →
    created_at b < created_at a ∨
    created_at a = created_at b ∧ (signal_message_id a < signal_message_id b)%N.

Lemma null_or_spec {A} (v : option A) p :
  null_or v p = true ↔ ∀ x, v = Some x → p x = true.
Proof. destruct v; simpl; naive_solver. Qed.

Lemma status_filter_spec f st r :
  status_filter (lf_Status f) = Ok st →
  null_or st (λ s, bool_decide (status r = s)) = true ↔
  ∀ s, lf_Status f = Some s → enum_out (status r) = s.
Proof.
  unfold status_filter. destruct (lf_Status f) as [v|]; [|intros [= <-]; naive_solver].
  destruct (enum_in v) as [e|] eqn:E; [|done]. intros [= <-]. simpl. rewrite bool_decide_eq_true.
  unfold enum_in in E. apply head_Some_elem_of, list_elem_of_filter in E as [<- _]. split.
  - by intros -> s [= <-].
  - intros H. specialize (H _ eq_refl). by destruct (status r), e.
Qed.

Lemma tz_bound_spec (v : option time) (p : time → bool) (P : time → Prop) :
  (∀ d, p d = true ↔ P d) →
  null_or (tz_param (tsTz v)) p = true ↔ ∀ d, v = Some d → d ≠ zeroTime → P (d / 1000 * 1000).
Proof.
  intros HP. destruct v as [d|]; simpl; [|naive_solver]. unfold IsZero.
  destruct (Z.eqb_spec d zeroTime); simpl; [naive_solver|].
  unfold pg_time, Microsecond. rewrite HP. naive_solver.
Qed.

Lemma domainStatusToSQLC_id s : domainStatusToSQLC s = s.
Proof. by destruct s. Qed.

(** Both WHERE clauses pick the rows that meet the filters. *)
Lemma list_where_spec ILIKE f st r :
  status_filter (lf_Status f) = Ok st → list_where ILIKE (list_params f) st r = true ↔ meets ILIKE f r.
Proof.
  intros Hst. unfold list_where, list_params. cbn.
  rewrite !andb_true_iff, (status_filter_spec f st r Hst).
  rewrite (tz_bound_spec _ _ (λ d, d ≤ created_at r)) by (intros d; apply Z.leb_le).
  rewrite (tz_bound_spec _ _ (λ d, created_at r < d)) by (intros d; apply Z.ltb_lt).
  rewrite !null_or_spec. setoid_rewrite Z.eqb_eq. split.
  - intros (((((Hd & ?) & ?) & ?) & ?) & ?). by split; [destruct (deleted_at r)|..].
  - intros [Hd ?????]. by rewrite Hd.
Qed.

Lemma count_where_spec ILIKE f st r :
  status_filter (lf_Status f) = Ok st → count_where ILIKE (count_params f) st r = true ↔ meets ILIKE f r.
Proof.
  intros Hst. unfold count_where, count_params. cbn.
  rewrite !andb_true_iff, (status_filter_spec f st r Hst).
  rewrite (tz_bound_spec _ _ (λ d, d ≤ created_at r)) by (intros d; apply Z.leb_le).
  rewrite (tz_bound_spec _ _ (λ d, created_at r < d)) by (intros d; apply Z.ltb_lt).
  rewrite !null_or_spec. setoid_rewrite Z.eqb_eq. split.
  - intros (((((Hd & ?) & ?) & ?) & ?) & ?). by split; [destruct (deleted_at r)|..].
  - intros [Hd ?????]. by rewrite Hd.
Qed.

(** The rows of a listing, all pages put together. *)
Definition listing (ILIKE : string → string → bool) (f : ListFilters)
    (st : option signal_message_status) (t : table) : list row :=
  merge_sort newest_first (filter (λ r, list_where ILIKE (list_params f) st r) t).

Lemma elem_of_listing ILIKE f st t r :
  status_filter (lf_Status f) = Ok st → r ∈ listing ILIKE f st t ↔ r ∈ t ∧ meets ILIKE f r.
Proof.
  intros Hst. unfold listing. rewrite merge_sort_Permutation, list_elem_of_filter, Is_true_true.
  rewrite list_where_spec by done. tauto.
Qed.

Lemma listing_ids ILIKE f st t : table_wf t → NoDup (id_of <$> listing ILIKE f st t).
Proof.
  intros W. unfold listing. rewrite merge_sort_Permutation.
  eapply sublist_NoDup; [apply (wf_pkey _ W)|]. apply fmap_sublist, sublist_filter.
Qed.

Lemma sorted_in_order l : NoDup (id_of <$> l) → StronglySorted newest_first l → in_order l.
Proof.
  intros Hnd. induction 1 as [|x l _ IH Hx]; [by intros ????|].
  apply NoDup_cons in Hnd as [Hn Hnd]. intros [|i] [|j] a b Hij Ha Hb; try lia.
  - injection Ha as <-. simpl in Hb. apply list_elem_of_lookup_2 in Hb.
    destruct (proj1 (Forall_forall _ _) Hx b Hb) as [?|[E ?]]; [by left|right].
    split; [done|]. assert (id_of x ≠ id_of b); [|unfold id_of in *; lia].
    intros E'. apply Hn. rewrite E'. by apply list_elem_of_fmap_2.
  - apply (IH Hnd i j); [lia|done|done].
Qed.

Lemma repo_List_page ILIKE f L i t st :
  0 ≤ L → status_filter (lf_Status f) = Ok st →
  repo_List ILIKE (page f L i) t
  = Ok (domain_of <$> take (Z.to_nat L) (drop (i * Z.to_nat L) (listing ILIKE f st t))).
Proof.
  intros HL Hst. unfold repo_List, List. simpl. rewrite domainStatusToSQLC_id, Hst.
  destruct (Z.ltb_spec (Z.of_nat i * L) 0); [lia|].
  destruct (Z.ltb_spec L 0); [lia|]. rewrite Z2Nat.inj_mul, Nat2Z.id by lia.
  by rewrite <- list_fmap_compose.
Qed.

Lemma repo_Count_ok ILIKE f t total :
  repo_Count ILIKE f t = Ok total →
  ∃ st, status_filter (lf_Status f) = Ok st ∧ total = Z.of_nat (length (listing ILIKE f st t)).
Proof.
  unfold repo_Count, Count. simpl. rewrite domainStatusToSQLC_id.
  destruct (status_filter _) as [st|] eqn:Hst; [|done]. unfold cast_int4.
  destruct (in_int32b _); [|done]. intros [= <-]. exists st. split; [done|].
  unfold listing. rewrite merge_sort_Permutation. apply (f_equal Z.of_nat), (f_equal length), list_filter_iff.
  intros r. by rewrite !Is_true_true, list_where_spec, count_where_spec.
Qed.

(** The pages read one after the other. *)
Definition read_pages (ILIKE : string → string → bool) (f : ListFilters) (L : Z) (n : nat) (t : table)
    : res (list SignalMessage) :=
  result_map mjoin (sequence ((λ i, repo_List ILIKE (page f L i) t) <$> seq 0 n)).

(** C21: reading page after page of a listing yields the rows of the table that
    are live and meet every filter given (text, status, attempts, creation time
    from and before), those and no others, each once, newest first and by id
    within one instant, as many as Count announces. *)
Theorem pages_cover_matches ILIKE f t L n total :
  table_wf t → 0 < L → repo_Count ILIKE f t = Ok total → total ≤ Z.of_nat n * L →
  ∃ all,
    read_pages ILIKE f L n t = Ok (domain_of <$> all) ∧
    (∀ r, r ∈ all ↔ r ∈ t ∧ meets ILIKE f r) ∧
    in_order all ∧ Z.of_nat (length all) = total.
Proof.
  intros W HL HC Hn. apply repo_Count_ok in HC as (st & Hst & ->).
  exists (listing ILIKE f st t). split_and!; [|by intros r; apply elem_of_listing| |done].
  2:{ apply sorted_in_order; [by apply listing_ids|by apply (StronglySorted_merge_sort _)]. }
  unfold read_pages. set (all := listing _ _ _ _) in *.
  rewrite (list_fmap_ext _ (λ i, Ok ((λ i, domain_of <$> take (Z.to_nat L) (drop (i * Z.to_nat L) all)) i)))
    by (intros ? i _; apply repo_List_page; [lia|done]).
  rewrite sequence_Ok. cbn [result_map]. f_equal.
  trans (mjoin (fmap domain_of <$> ((λ i, take (Z.to_nat L) (drop (i * Z.to_nat L) all)) <$> seq 0 n))).
  { f_equal. by rewrite <- list_fmap_compose. }
  rewrite <- list_fmap_join, take_chunks. f_equal. apply take_ge. lia.
Qed.

Lemma pages_cover_matches_witness :
  let f := MkListFilters None (Some "PENDING") (Some 0) (Some 10) (Some 5000) 1 0 in
  ∃ all,
    read_pages (λ _ _, true) f 1 2 sample_table = Ok (domain_of <$> all) ∧
    (∀ r, r ∈ all ↔ r ∈ sample_table ∧ meets (λ _ _, true) f r) ∧
    in_order all ∧ Z.of_nat (length all) = 2.
Proof.
  intros f. apply (pages_cover_matches (λ _ _, true) f);
    [apply sample_table_wf|lia|vm_compute; reflexivity|vm_compute; discriminate].
Defined.

(** ** Histograms *)

Definition total (l : list Z) : Z := foldr Z.add 0 l.

Lemma with_status_cons s r t :
  with_status [s] (r :: t) = if bool_decide (status r = s) then r :: with_status [s] t
                             else with_status [s] t.
Proof.
  unfold with_status, status_in. rewrite filter_cons.
  destruct (decide (status r = s)) as [E|E]; [rewrite (bool_decide_eq_true_2 _ E)|
    rewrite (bool_decide_eq_false_2 _ E)];
    case_decide as D; rewrite bool_decide_spec, list_elem_of_singleton in D; done.
Qed.

(** Every row has exactly one status. *)
Lemma status_partition t :
  total ((λ s, Z.of_nat (length (with_status [s] t))) <$> all_statuses) = Z.of_nat (length t).
Proof.
  induction t as [|r t IH]; [done|].
  unfold total, all_statuses in *. csimpl in *. rewrite !with_status_cons.
  destruct (status r); simpl; lia.
Qed.

Lemma total_filter (f : signal_message_status → list row) l :
  total ((λ s, Z.of_nat (length (f s))) <$> filter (λ s, f s ≠ []) l)
  = total ((λ s, Z.of_nat (length (f s))) <$> l).
Proof.
  induction l as [|s l IH]; [done|]. rewrite filter_cons. csimpl.
  case_decide as D; csimpl; rewrite IH; [done|]. by rewrite D.
Qed.

(** The histogram of statuses counts every live row once: each of its
    entries is the positive number of live rows with that status, and they add
    up to the number of live rows. *)
Theorem stats_counts_partition t rows :
  repo_StatsCounts t = Ok rows →
  total (snd <$> rows) = Z.of_nat (length (live t)) ∧
  ∀ s n, (s, n) ∈ rows → 0 < n ∧ ∃ e, s = enum_out e ∧
    n = Z.of_nat (length (filter (λ r, status_in [e] r) (live t))).
Proof.
  unfold repo_StatsCounts, StatsCounts. destruct (sequence _) as [x|] eqn:E; [|done].
  intros [= <-]. apply sequence_inv in E.
  set (count_of := λ s, Z.of_nat (length (with_status [s] (live t)))) in *.
  set (l := filter _ all_statuses) in *.
  assert (x = (λ s, (enum_out s, count_of s)) <$> l) as ->.
  { clearbody l. revert x E. induction l as [|s l IH]; intros [|p x]; try done.
    csimpl. intros [= E1 E2]. f_equal; [|by apply IH]. revert E1. unfold cast_int4.
    destruct (in_int32b _); [|done]. by intros [= <-]. }
  split.
  - rewrite <- list_fmap_compose. unfold compose. simpl.
    trans (total (count_of <$> all_statuses)); [|apply status_partition].
    apply (total_filter (λ s, with_status [s] (live t))).
  - intros s n (e & [= -> ->] & He)%list_elem_of_fmap. unfold l in He.
    apply list_elem_of_filter in He as [He _]. split; [|by exists e].
    unfold count_of. destruct (with_status [e] (live t)); [done|simpl; lia].
Qed.

Lemma stats_counts_partition_witness :
  total (snd <$> [("PENDING", 2)]) = Z.of_nat (length (live sample_table)) ∧
  ∀ s n, (s, n) ∈ [("PENDING", 2)] → 0 < n ∧ ∃ e, s = enum_out e ∧
    n = Z.of_nat (length (filter (λ r, status_in [e] r) (live sample_table))).
Proof. apply stats_counts_partition. vm_compute. reflexivity. Defined.
