(* ===== verification/Leases.v ===== *)
(** The whole outbox at work: enqueuers, any number of workers, the reaper, the
    operator and the clock, interleaved in any order over one table.

    Every action is one atomic event of [internal/worker] or
    [internal/repo/messages.go]; a worker's events follow the shape that
    [WorkerFacts] proves of [dispatch]: claim, then at most one send, then marks
    under the attempt's deadline.  The mark of a worker whose deadline has
    passed is refused by its context, and a worker may vanish at any moment.  A
    mark may fail before it reaches the database, or commit and be reported as
    failed; MarkSent is then tried again, MarkFailed is not.  (A claim that
    commits and is reported as failed is a claim whose worker vanishes.) *)

From S2P Require Import Prelude Errors Domain Config Sqlc SqlcFacts Outbox Repo.

(** A claim in flight: the row, the end of its lease, the deadline of the
    attempt's context, the result id once signal-cli accepted the send, and
    whether the worker has come to [markSent]. *)
Record work := MkWork {
  wk_id : uuid;
  wk_expiry : time;
  wk_deadline : time;
  wk_accepted : option string;
  wk_marking : bool;
}.

(** What becomes of a mark: it is answered, it commits and the answer is lost,
    or it never reaches the database. *)
Inductive reply := Answered | ReplyLost | NotReached.

Record sys := MkSys {
  sys_now : time;
  sys_table : table;
  sys_work : gmap nat work;
  sys_log : list (uuid * string);   (* sends that signal-cli accepted *)
}.

Inductive action :=
| AAdvance (d : duration)
| AInsert (gen_random_uuid : uuid) (p : RepoInsertParams)
| AClaim (w : nat) (locked : gset uuid) (delay : duration)
| AAccept (w : nat) (resultID : string)
| AMarkSent (w : nat) (rep : reply)
| AMarkFailed (w : nat) (lastErr : string) (next : time) (rep : reply)
| AAbandon (w : nat)
| AReap
| AResend (id : uuid)
| ASetStatus (id : uuid) (st : SignalMessageStatus).

Section Leases.

(** The worker's configuration, and how long a worker may take between the
    commit of its claim and the start of the attempt's context. *)
Variable cfg : WorkerConfig.
Variable max_delay : duration.

Definition with_table (s : sys) (t : table) : sys :=
  MkSys (sys_now s) t (sys_work s) (sys_log s).

Definition step_claim_action (w : nat) (locked : gset uuid) (delay : duration) (s : sys) : sys :=
  match sys_work s !! w with
  | Some _ => s
  | None =>
      if (0 <=? delay) && (delay <=? max_delay) then
        match repo_ClaimPending (sys_now s) locked (wc_LeaseDuration cfg) (sys_table s) with
        | (Ok m, t') =>
            MkSys (sys_now s) t'
              (<[w := MkWork (msg_ID m) (msg_NextAttemptAt m)
                        (sys_now s + delay + wc_PerAttemptTimeout cfg) None false]> (sys_work s))
              (sys_log s)
        | (Err _, t') => with_table s t'
        end
      else s
  end.

(** signal-cli may accept a send at any moment while the worker is around. *)
Definition step_accept (w : nat) (rid : string) (s : sys) : sys :=
  match sys_work s !! w with
  | Some (MkWork id ex dl None mk) =>
      MkSys (sys_now s) (sys_table s) (<[w := MkWork id ex dl (Some rid) mk]> (sys_work s))
        ((id, rid) :: sys_log s)
  | _ => s
  end.

(** A mark as its caller sees it: whether it reports success, and the table. *)
Definition marked (rep : reply) (mark : option error * table) (t : table) : bool * table :=
  match rep with
  | Answered => (match mark.1 with None => true | Some _ => false end, mark.2)
  | ReplyLost => (false, mark.2)
  | NotReached => (false, t)
  end.

Definition start_marking (k : work) : work :=
  MkWork (wk_id k) (wk_expiry k) (wk_deadline k) (wk_accepted k) true.

(** A try of [markSent], under the attempt's context: the worker is done once it
    reports success, and may try again otherwise. *)
Definition step_mark_sent (w : nat) (rep : reply) (s : sys) : sys :=
  match sys_work s !! w with
  | Some k =>
      match wk_accepted k with
      | Some rid =>
          if sys_now s <=? wk_deadline k then
            let '(ok, t') :=
              marked rep (repo_MarkSent (sys_now s) (wk_id k) rid (sys_table s)) (sys_table s) in
            MkSys (sys_now s) t'
              (if ok : bool then delete w (sys_work s) else <[w := start_marking k]> (sys_work s))
              (sys_log s)
          else s
      | None => s
      end
  | None => s
  end.

(** [fail], of a worker that has not come to [markSent]: one try, and the worker
    is done. *)
Definition step_mark_failed (w : nat) (lastErr : string) (next : time) (rep : reply) (s : sys)
    : sys :=
  match sys_work s !! w with
  | Some k =>
      if negb (wk_marking k) && (sys_now s <=? wk_deadline k) then
        MkSys (sys_now s)
          (marked rep (repo_MarkFailed (sys_now s) (wk_id k) lastErr next (sys_table s))
             (sys_table s)).2
          (delete w (sys_work s)) (sys_log s)
      else s
  | None => s
  end.

Definition step (a : action) (s : sys) : sys :=
  match a with
  | AAdvance d => MkSys (sys_now s + Z.max 0 d) (sys_table s) (sys_work s) (sys_log s)
  | AInsert u p => with_table s (repo_Insert u (sys_now s) p (sys_table s)).2
  | AClaim w locked delay => step_claim_action w locked delay s
  | AAccept w rid => step_accept w rid s
  | AMarkSent w rep => step_mark_sent w rep s
  | AMarkFailed w e next rep => step_mark_failed w e next rep s
  | AAbandon w => MkSys (sys_now s) (sys_table s) (delete w (sys_work s)) (sys_log s)
  | AReap => with_table s (repo_MarkTimedOut (sys_now s) (sys_table s)).2
  | AResend id => with_table s (repo_Resend (sys_now s) id (sys_table s)).2
  | ASetStatus id st => with_table s (repo_UpdateStatus (sys_now s) id st (sys_table s)).2
  end.

Definition run (acts : list action) (s : sys) : sys := foldl (λ s a, step a s) s acts.

Definition init (now : time) : sys := MkSys now [] ∅ [].

(** No operator overrides a status by hand. *)
Definition no_override (a : action) : Prop :=
  match a with ASetStatus _ _ => False | _ => True end.

(** ** Tables after the repository calls *)

Lemma repo_Insert_map u now p t :
  table_wf t →
  let t' := (repo_Insert u now p t).2 in
  table_wf t' ∧
  (t' = t ∨ ∃ r, to_map t !! u = None ∧ status r = PENDING ∧
                 to_map t' = <[u := r]> (to_map t)).
Proof.
  intros W. unfold repo_Insert.
  match goal with |- context [Insert ?u ?n ?a ?t] =>
    pose proof (Insert_wf u n a t W) as W'; revert W'; unfold Insert end.
  destruct (exactly_one_target _); simpl; [|by auto].
  destruct (unique_conflict _ t) eqn:E; simpl; [by auto|]. intros W'. split; [done|]. right.
  apply unique_conflict_None in E as (Hid & _). eexists (inserted_row u now _). split_and!.
  - apply eq_None_not_Some. intros [x Hx]. apply to_map_lookup_Some in Hx as [Hin Hx].
    apply Hid. apply list_elem_of_fmap. by exists x.
  - done.
  - by apply to_map_app_fresh.
Qed.

Lemma repo_ClaimPending_map now locked lease t :
  table_wf t →
  match repo_ClaimPending now locked lease t with
  | (Err _, t') => t' = t
  | (Ok m, t') =>
      table_wf t' ∧ ∃ r, to_map t !! msg_ID m = Some r ∧ claimable now r = true ∧
        msg_NextAttemptAt m = now + Microseconds lease * Microsecond ∧
        to_map t' = <[msg_ID m := claim_row now (Microseconds lease * Microsecond) r]> (to_map t)
  end.
Proof.
  intros W. unfold repo_ClaimPending.
  pose proof (ClaimPending_wf now locked (intervalFromDuration lease) t W) as W'. revert W'.
  unfold ClaimPending, intervalFromDuration. simpl.
  destruct (claimed now locked t) as [r|] eqn:Hc; simpl; [|done].
  destruct (in_int32b _); simpl; [|done]. intros W'. split; [done|].
  apply claimed_spec in Hc as (Hin & Hr & _). exists r.
  pose proof (to_map_elem t r (wf_pkey _ W) Hin) as L. split_and!; [done|done|done|].
  rewrite to_map_update_id by done. apply map_eq. intros i.
  rewrite lookup_insert, lookup_alter. unfold pgToUUID, id_of in *. simpl.
  case_decide; [subst i; by rewrite L|done].
Qed.

Lemma to_map_alter_uuid id f t :
  (∀ r, id_of (f r) = id_of r) →
  to_map (update_where (has_id (uuid_param (uuidToPg id))) f t) = alter f id (to_map t).
Proof. apply to_map_update_id. Qed.

Lemma repo_MarkSent_map now id rid t :
  table_wf t →
  let '(e, t') := repo_MarkSent now id rid t in
  table_wf t' ∧
  match e with
  | None => to_map t' = alter (sent_row now (Some rid)) id (to_map t)
  | Some _ => t' = t
  end.
Proof.
  intros W. pose proof (exec_wf now (SMarkSent (Some rid) (uuidToPg id)) t W) as W'.
  revert W'. unfold repo_MarkSent, exec, MarkSent. destruct (_ && _); simpl; [done|].
  intros W'. split; [done|]. by apply to_map_update_id.
Qed.

Lemma repo_MarkFailed_map now id txt next t :
  table_wf t →
  let '(e, t') := repo_MarkFailed now id txt next t in
  table_wf t' ∧
  match e with
  | None => ∃ nx, to_map t' = alter (failed_row now nx (Some txt)) id (to_map t) ∨ t' = t ∧ to_map t !! id = None
  | Some _ => t' = t
  end.
Proof.
  intros W.
  pose proof (exec_wf now (SMarkFailed (Some txt) (tsTz (Some next)) (uuidToPg id)) t W) as W'.
  revert W'. unfold repo_MarkFailed, exec, MarkFailed. destruct (tz_param _) as [nx|]; simpl.
  - intros W'. split; [done|]. exists nx. left. by apply to_map_update_id.
  - destruct (existsb _ t) eqn:E; simpl; [done|]. intros _. split; [done|]. exists 0. right.
    split; [done|]. apply eq_None_not_Some. intros [r Hr].
    apply to_map_lookup_Some in Hr as [Hin Hr]. eapply existsb_none in E; [|exact Hin].
    simpl in E. apply not_true_iff_false in E. by apply E, has_id_spec.
Qed.

Lemma repo_MarkTimedOut_map now t :
  table_wf t →
  let t' := (repo_MarkTimedOut now t).2 in
  table_wf t' ∧ to_map t' = (λ r, if overdue now r then timed_out_row now r else r) <$> to_map t.
Proof.
  intros W. split; [apply (exec_wf now SMarkTimedOut t W)|].
  simpl. by rewrite to_map_update_where.
Qed.

Lemma repo_Resend_map now id t :
  table_wf t →
  let t' := (repo_Resend now id t).2 in
  table_wf t' ∧
  to_map t' = alter (λ r, if status_in [FAILED; TIMED_OUT; PERMANENT_FAILED] r
                          then resend_row now r else r) id (to_map t).
Proof.
  intros W. split; [apply (exec_wf now (SResend (uuidToPg id)) t W)|].
  by apply (to_map_update_id_if id (status_in [FAILED; TIMED_OUT; PERMANENT_FAILED])).
Qed.

(** ** The invariant *)

(** What a live worker may rely on: the row still carries its lease, or the row
    is past its deadline, so that nobody can claim it any more, or a MarkSent of
    its own took effect without its knowing. *)
Definition held_row (now : time) (k : work) (r : row) : Prop :=
  (status r = SENDING ∧ next_attempt_at r = wk_expiry k) ∨
  ((status r = PENDING ∨ status r = TIMED_OUT) ∧ ∃ d, timeout_at r = Some d ∧ d ≤ now) ∨
  (status r = SENT ∧ wk_marking k = true ∧ is_Some (wk_accepted k) ∧ result_id r = wk_accepted k).

Definition live (s : sys) (w : nat) (k : work) : Prop :=
  sys_work s !! w = Some k ∧ sys_now s ≤ wk_deadline k.

Record Inv (s : sys) : Prop := MkInv {
  inv_wf : table_wf (sys_table s);
  inv_deadline : ∀ w k, sys_work s !! w = Some k → wk_deadline k ≤ wk_expiry k;
  inv_held : ∀ w k, live s w k →
    ∃ r, to_map (sys_table s) !! wk_id k = Some r ∧ held_row (sys_now s) k r;
  inv_excl : ∀ w1 w2 k1 k2, live s w1 k1 → live s w2 k2 → wk_id k1 = wk_id k2 → w1 = w2;
  inv_sent : ∀ id r, to_map (sys_table s) !! id = Some r → status r = SENT →
    ∃ rid, result_id r = Some rid ∧ (id, rid) ∈ sys_log s;
  inv_accepted : ∀ w k rid, sys_work s !! w = Some k → wk_accepted k = Some rid →
    (wk_id k, rid) ∈ sys_log s;
}.

Lemma Inv_init now : Inv (init now).
Proof.
  split; simpl; try by (intros; simplify_map_eq).
  - apply table_wf_nil.
  - intros w k [? _]. simplify_map_eq.
  - intros w1 w2 k1 k2 [? _]. simplify_map_eq.
Qed.

(** Claims in flight may be dropped, and time may pass. *)
Lemma Inv_shrink s now' W' :
  Inv s → sys_now s ≤ now' → W' ⊆ sys_work s →
  Inv (MkSys now' (sys_table s) W' (sys_log s)).
Proof.
  intros I Hn Hsub. assert (∀ w k, W' !! w = Some k → sys_work s !! w = Some k) as L
    by (intros w k Hk; by eapply lookup_weaken).
  assert (∀ w k, live (MkSys now' (sys_table s) W' (sys_log s)) w k → live s w k) as Lv
    by (intros w k [H1 H2]; split; [auto|simpl in *; lia]).
  split; simpl; [apply I|..].
  - intros w k ?. eapply inv_deadline; eauto.
  - intros w k (r & Hr & H)%Lv%inv_held; [|done]. exists r. split; [done|].
    destruct H as [H|[(? & d & ? & ?)|H]]; [by left| |by right; right].
    right; left. split; [done|]. exists d. split; [done|lia].
  - intros w1 w2 k1 k2 ? ?. eapply inv_excl; eauto.
  - apply I.
  - intros w k rid ?. eapply inv_accepted; eauto.
Qed.

(** A change of rows that keeps what live workers rely on. *)
Lemma Inv_table s t' :
  Inv s → table_wf t' →
  (∀ w k r, live s w k → to_map (sys_table s) !! wk_id k = Some r → held_row (sys_now s) k r →
     ∃ r', to_map t' !! wk_id k = Some r' ∧ held_row (sys_now s) k r') →
  (∀ id r', to_map t' !! id = Some r' → status r' = SENT →
     ∃ rid, result_id r' = Some rid ∧ (id, rid) ∈ sys_log s) →
  Inv (with_table s t').
Proof.
  intros I W Hh Hs. split; simpl; [done|apply I| |apply I|exact Hs|apply I].
  intros w k L. destruct (inv_held _ I w k L) as (r & Hr & H). eauto.
Qed.

Lemma Inv_insert s u p : Inv s → Inv (step (AInsert u p) s).
Proof.
  intros I. destruct (repo_Insert_map u (sys_now s) p (sys_table s) (inv_wf _ I))
    as [W [E|(r0 & Hu & Hst & E)]].
  - simpl. rewrite E. by destruct s.
  - apply Inv_table; [done|done| |].
    + intros w k r _ Hr Hh. exists r. split; [|done]. rewrite E.
      rewrite lookup_insert_ne; [done|congruence].
    + intros id r'. rewrite E. rewrite lookup_insert. case_decide.
      * intros [= <-]. congruence.
      * apply I.
Qed.

Lemma Inv_reap s : Inv s → Inv (step AReap s).
Proof.
  intros I. destruct (repo_MarkTimedOut_map (sys_now s) (sys_table s) (inv_wf _ I)) as [W E].
  apply Inv_table; [done|done| |].
  - intros w k r _ Hr Hh. rewrite E, lookup_fmap, Hr. simpl. eexists. split; [done|].
    destruct (overdue (sys_now s) r) eqn:Ho; [|done]. right; left. split; [by right|].
    by apply overdue_spec in Ho as (_ & _ & Ho).
  - intros id r'. rewrite E, lookup_fmap. destruct (to_map _ !! id) as [r|] eqn:Hr; [|done].
    intros [= <-]. destruct (overdue _ r); [done|]. by apply I.
Qed.

Lemma Inv_resend s id : Inv s → Inv (step (AResend id) s).
Proof.
  intros I. destruct (repo_Resend_map (sys_now s) id (sys_table s) (inv_wf _ I)) as [W E].
  apply Inv_table; [done|done| |].
  - intros w k r _ Hr Hh. rewrite E, lookup_alter, Hr. case_decide; [|by eauto].
    eexists. split; [subst; by rewrite Hr|]. destruct (status_in _ r) eqn:Hst; [|done].
    unfold status_in in Hst. apply bool_decide_eq_true in Hst.
    destruct Hh as [[Hs _]|[[_ Hd]|[Hs _]]]; [rewrite Hs in Hst; set_solver| |
      rewrite Hs in Hst; set_solver]. right; left. split; [by left|done].
  - intros i r'. rewrite E, lookup_alter. case_decide; [subst|by apply I].
    destruct (to_map _ !! i) as [r|] eqn:Hr; [|done]. intros [= <-].
    destruct (status_in _ r); [done|]. by apply I.
Qed.

(** The lease outlives the attempt, start-up delay included. *)
Hypothesis lease_covers :
  max_delay + wc_PerAttemptTimeout cfg ≤ Microseconds (wc_LeaseDuration cfg) * Microsecond.

Lemma held_not_claimable s w k r :
  Inv s → live s w k → held_row (sys_now s) k r → claimable (sys_now s) r = true → False.
Proof.
  intros I [Hk Hl] H (_ & Hst & _ & Hto)%claimable_spec.
  pose proof (inv_deadline _ I w k Hk).
  destruct H as [[Hs Hn]|[[_ (d & Hd & Hle)]|[Hs _]]].
  - destruct Hst as [?|[_ ?]]; [congruence|lia].
  - specialize (Hto d Hd). lia.
  - destruct Hst as [?|[? _]]; congruence.
Qed.

Lemma Inv_claim s w locked delay : Inv s → Inv (step (AClaim w locked delay) s).
Proof.
  intros I. simpl. unfold step_claim_action. destruct (sys_work s !! w) eqn:Hw; [done|].
  destruct ((0 <=? delay) && (delay <=? max_delay)) eqn:Hd; [|done]. bools.
  pose proof (repo_ClaimPending_map (sys_now s) locked (wc_LeaseDuration cfg) _ (inv_wf _ I)) as C.
  destruct (repo_ClaimPending _ _ _ _) as [[m|e] t']; [|subst; by destruct s].
  destruct C as (W & r & Hr & Hc & Hn & E).
  assert (∀ w' k, live s w' k → wk_id k ≠ msg_ID m) as Hfree.
  { intros w' k L Hid. destruct (inv_held _ I w' k L) as (r' & Hr' & Hh).
    rewrite Hid, Hr in Hr'. injection Hr' as <-. by eapply held_not_claimable. }
  split; simpl; [done| | | | |].
  - intros w' k. rewrite lookup_insert. case_decide; [|apply I].
    intros [= <-]. simpl. lia.
  - intros w' k [Hk Hl]. simpl in *. rewrite lookup_insert in Hk. rewrite E. case_decide.
    + injection Hk as <-. simpl. rewrite lookup_insert_eq. eexists. split; [done|].
      left. split; [done|]. simpl. lia.
    + assert (live s w' k) as L by done. rewrite lookup_insert_ne by (symmetry; eauto).
      by apply (inv_held _ I w').
  - intros w1 w2 k1 k2 [H1 L1] [H2 L2] Hid. simpl in *. rewrite lookup_insert in H1, H2.
    destruct (decide (w = w1)) as [<-|], (decide (w = w2)) as [<-|]; [done|..].
    + injection H1 as <-. simpl in Hid. by destruct (Hfree w2 k2).
    + injection H2 as <-. simpl in Hid. by destruct (Hfree w1 k1).
    + by eapply (inv_excl _ I w1 w2 k1 k2).
  - intros id r'. rewrite E, lookup_insert. case_decide; [|apply I]. by intros [= <-].
  - intros w' k rid. rewrite lookup_insert. case_decide; [|apply I]. by intros [= <-].
Qed.

(** A worker moves on with the same claim. *)
Lemma Inv_rework s w k k' log' :
  Inv s → sys_work s !! w = Some k →
  wk_id k' = wk_id k → wk_expiry k' = wk_expiry k → wk_deadline k' = wk_deadline k →
  (wk_marking k = true → wk_marking k' = true) →
  (∀ rid, wk_accepted k = Some rid → wk_accepted k' = Some rid) →
  (∀ x, x ∈ sys_log s → x ∈ log') →
  (∀ rid, wk_accepted k' = Some rid → (wk_id k', rid) ∈ log') →
  Inv (MkSys (sys_now s) (sys_table s) (<[w := k']> (sys_work s)) log').
Proof.
  intros I Hw Eid Eex Edl Hm Ha Hlog Hacc.
  assert (∀ w' c, (<[w := k']> (sys_work s)) !! w' = Some c →
     w' = w ∧ c = k' ∨ sys_work s !! w' = Some c) as L.
  { intros w' c. rewrite lookup_insert. case_decide; [intros [= <-]; by left|by right]. }
  assert (∀ w' c, live (MkSys (sys_now s) (sys_table s) (<[w := k']> (sys_work s)) log') w' c →
     ∃ c0, live s w' c0 ∧ wk_id c = wk_id c0) as Lv.
  { intros w' c [[[-> ->]|Hc]%L Hl]; simpl in Hl; [exists k|by exists c].
    split; [|done]. split; [done|lia]. }
  split; simpl; [apply I| | | | |].
  - intros w' c [[-> ->]|Hc]%L; [rewrite Edl, Eex|]; by eapply inv_deadline.
  - intros w' c [[[-> ->]|Hc]%L Hl]; simpl in Hl; [|by apply (inv_held _ I w')].
    destruct (inv_held _ I w k) as (r & Hr & H); [split; [done|lia]|].
    rewrite Eid. exists r. split; [done|]. unfold held_row. rewrite Eex.
    destruct H as [?|[?|(? & ? & [rid Hrid] & Hres)]]; [by left|by right; left|].
    right; right. rewrite (Ha rid Hrid). split_and!; [done|by apply Hm|done|congruence].
  - intros w1 w2 k1 k2 (c1 & ? & ->)%Lv (c2 & ? & ->)%Lv. by eapply inv_excl.
  - intros i r Hr Hs. destruct (inv_sent _ I i r Hr Hs) as (x & ? & ?). eauto.
  - intros w' c rid [[-> ->]|Hc]%L Hrid; [by apply Hacc|]. eapply Hlog, inv_accepted; eauto.
Qed.

Lemma Inv_accept s w rid : Inv s → Inv (step (AAccept w rid) s).
Proof.
  intros I. simpl. unfold step_accept.
  destruct (sys_work s !! w) as [[id ex dl [?|] mk]|] eqn:Hw; try done.
  eapply Inv_rework; [done|exact Hw|done..| |]; simpl.
  - intros x ?. by right.
  - intros rid' [= <-]. left.
Qed.

Lemma Inv_marking s w k :
  Inv s → sys_work s !! w = Some k →
  Inv (MkSys (sys_now s) (sys_table s) (<[w := start_marking k]> (sys_work s)) (sys_log s)).
Proof.
  intros I Hw. eapply Inv_rework; [done|exact Hw|done..|]. intros rid ?. by eapply (inv_accepted _ I w k).
Qed.

(** A mark by a live worker touches the row that it alone holds. *)
Lemma Inv_mark s w k f t' :
  Inv s → live s w k → table_wf t' →
  to_map t' = alter f (wk_id k) (to_map (sys_table s)) →
  (∀ r, status (f r) = SENT →
     ∃ rid, result_id (f r) = Some rid ∧ (wk_id k, rid) ∈ sys_log s) →
  Inv (MkSys (sys_now s) t' (delete w (sys_work s)) (sys_log s)).
Proof.
  intros I L W E Hf.
  pose proof (Inv_shrink s (sys_now s) (delete w (sys_work s)) I ltac:(lia)
                (delete_subseteq _ _)) as I'.
  apply (Inv_table _ t') in I'; [exact I'|done| |]; simpl.
  - intros w' k' r [Hk' Hl'] Hr Hh. simpl in *. rewrite E. exists r. split; [|done].
    apply lookup_delete_Some in Hk' as [Hne Hk'].
    rewrite lookup_alter_ne; [done|]. intros Hid. apply Hne.
    eapply (inv_excl _ I w w'); [done|by split|done].
  - intros id r'. rewrite E, lookup_alter. case_decide; [|apply I]. subst id.
    destruct (to_map _ !! _) as [r|]; [|done]. intros [= <-]. apply Hf.
Qed.

(** A MarkSent that took effect and is going to be tried again. *)
Lemma Inv_unanswered s w k rid t' :
  Inv s → live s w k → wk_accepted k = Some rid → table_wf t' →
  to_map t' = alter (sent_row (sys_now s) (Some rid)) (wk_id k) (to_map (sys_table s)) →
  Inv (MkSys (sys_now s) t' (<[w := start_marking k]> (sys_work s)) (sys_log s)).
Proof.
  intros I L Ha W E. pose proof (Inv_marking s w k I (proj1 L)) as I'.
  apply (Inv_table _ t') in I'; [exact I'|done| |]; simpl.
  - intros w' k' r [Hk' Hl'] Hr Hh. simpl in *. rewrite E, lookup_alter, Hr.
    rewrite lookup_insert in Hk'. destruct (decide (w = w')) as [<-|Hne].
    + injection Hk' as <-. simpl in *. rewrite decide_True, Hr by done. eexists. split; [done|].
      right; right. simpl. rewrite Ha. by split_and!.
    + exists r. split; [|done]. rewrite decide_False; [done|]. intros Hid. apply Hne.
      eapply (inv_excl _ I w w'); [done|by split|done].
  - intros id r'. rewrite E, lookup_alter. case_decide; [|apply I]. subst id.
    destruct (to_map _ !! _) as [r|]; [|done]. intros [= <-] _. exists rid. split; [done|].
    eapply inv_accepted; [done|apply L|done].
Qed.

Lemma Inv_mark_sent s w rep : Inv s → Inv (step (AMarkSent w rep) s).
Proof.
  intros I. simpl. unfold step_mark_sent. destruct (sys_work s !! w) as [k|] eqn:Hw; [|done].
  destruct (wk_accepted k) as [rid|] eqn:Ha; [|done].
  destruct (Z.leb_spec (sys_now s) (wk_deadline k)) as [Hl|]; [|done].
  pose proof (repo_MarkSent_map (sys_now s) (wk_id k) rid _ (inv_wf _ I)) as M.
  assert (live s w k) as L by done.
  destruct (repo_MarkSent _ _ _ _) as [[e|] t']; simpl in M.
  - destruct M as [_ ->]. destruct rep; by apply Inv_marking.
  - destruct M as [W E]. destruct rep; simpl.
    + eapply Inv_mark; [done|exact L|done|exact E|].
      intros r _. exists rid. split; [done|]. by eapply inv_accepted.
    + by eapply Inv_unanswered.
    + by apply Inv_marking.
Qed.

Lemma Inv_drop s w : Inv s → Inv (MkSys (sys_now s) (sys_table s) (delete w (sys_work s)) (sys_log s)).
Proof. intros I. by apply Inv_shrink; [|lia|apply delete_subseteq]. Qed.

Lemma Inv_mark_failed s w txt next rep : Inv s → Inv (step (AMarkFailed w txt next rep) s).
Proof.
  intros I. simpl. unfold step_mark_failed.
  destruct (sys_work s !! w) as [k|] eqn:Hw; [|done].
  destruct (negb _ && _) eqn:Hg; [|done]. apply andb_true_iff in Hg as [_ Hl%Z.leb_le].
  pose proof (repo_MarkFailed_map (sys_now s) (wk_id k) txt next _ (inv_wf _ I)) as M.
  destruct (repo_MarkFailed _ _ _ _ _) as [[e|] t']; simpl in M.
  - destruct M as [_ ->]. destruct rep; by apply Inv_drop.
  - destruct M as [W (nx & [E|[-> _]])]; [|destruct rep; by apply Inv_drop].
    destruct rep; [..|by apply Inv_drop]; (eapply Inv_mark; [done|by split|done|exact E|]);
      intros r; unfold failed_row; simpl; by destruct (_ <=? _).
Qed.

Lemma Inv_step a s : no_override a → Inv s → Inv (step a s).
Proof.
  intros Ha I. destruct a; try done.
  - by apply Inv_shrink; simpl; [|lia|].
  - by apply Inv_insert.
  - by apply Inv_claim.
  - by apply Inv_accept.
  - by apply Inv_mark_sent.
  - by apply Inv_mark_failed.
  - by apply Inv_drop.
  - by apply Inv_reap.
  - by apply Inv_resend.
Qed.

Lemma Inv_run acts s : Forall no_override acts → Inv s → Inv (run acts s).
Proof.
  intros H. revert s. induction H as [|a acts Ha _ IH]; intros s I; [done|].
  by apply IH, Inv_step.
Qed.

(** ** What one action does to one row *)

Definition row_at (s : sys) (id : uuid) : option row := to_map (sys_table s) !! id.

Inductive row_step (s : sys) (id : uuid) (r : row) : action → row → Prop :=
| row_same a : row_step s id r a r
| row_claimed w locked delay :
    claimable (sys_now s) r = true →
    row_step s id r (AClaim w locked delay)
      (claim_row (sys_now s) (Microseconds (wc_LeaseDuration cfg) * Microsecond) r)
| row_sent w rep k rid :
    live s w k → wk_id k = id → wk_accepted k = Some rid →
    row_step s id r (AMarkSent w rep) (sent_row (sys_now s) (Some rid) r)
| row_failed w rep k txt next nx :
    live s w k → wk_id k = id → wk_marking k = false →
    row_step s id r (AMarkFailed w txt next rep) (failed_row (sys_now s) nx (Some txt) r)
| row_reaped : overdue (sys_now s) r = true →
    row_step s id r AReap (timed_out_row (sys_now s) r)
| row_resent : status_in [FAILED; TIMED_OUT; PERMANENT_FAILED] r = true →
    row_step s id r (AResend id) (resend_row (sys_now s) r).
Hint Constructors row_step : sigdb.

Lemma step_row s a id r :
  Inv s → no_override a → row_at s id = Some r →
  ∃ r', row_at (step a s) id = Some r' ∧ row_step s id r a r'.
Proof.
  unfold row_at. intros I Ha Hr. destruct a; try done; cbn [step with_table sys_table].
  - eauto with sigdb.
  - destruct (repo_Insert_map gen_random_uuid (sys_now s) p _ (inv_wf _ I))
      as [_ [->|(r0 & Hu & _ & ->)]]; [eauto with sigdb|].
    rewrite lookup_insert_ne by congruence. eauto with sigdb.
  - unfold step_claim_action. destruct (sys_work s !! w); [eauto with sigdb|].
    destruct (_ && _); [|eauto with sigdb].
    pose proof (repo_ClaimPending_map (sys_now s) locked (wc_LeaseDuration cfg) _ (inv_wf _ I)) as C.
    destruct (repo_ClaimPending _ _ _ _) as [[m|e] t']; [|subst; eauto with sigdb].
    destruct C as (_ & r0 & Hr0 & Hc & _ & E). simpl. rewrite E, lookup_insert.
    case_decide; [subst id|eauto with sigdb]. rewrite Hr in Hr0. injection Hr0 as <-.
    eauto with sigdb.
  - unfold step_accept. destruct (sys_work s !! w) as [[? ? ? [] ?]|]; eauto with sigdb.
  - unfold step_mark_sent. destruct (sys_work s !! w) as [k|] eqn:Hw; [|eauto with sigdb].
    destruct (wk_accepted k) as [rid|] eqn:Hacc; [|eauto with sigdb].
    destruct (Z.leb_spec (sys_now s) (wk_deadline k)); [|eauto with sigdb].
    pose proof (repo_MarkSent_map (sys_now s) (wk_id k) rid _ (inv_wf _ I)) as M.
    destruct (repo_MarkSent _ _ _ _) as [[e|] t']; simpl in M; destruct M as [_ M];
      [subst; destruct rep; eauto with sigdb|].
    destruct rep; simpl; [..|eauto with sigdb];
      (rewrite M, lookup_alter, Hr; case_decide; [|eauto with sigdb]; subst id; rewrite Hr;
       eexists; split; [done|]; by econstructor).
  - unfold step_mark_failed. destruct (sys_work s !! w) as [k|] eqn:Hw; [|eauto with sigdb].
    destruct (negb _ && _) eqn:Hg; [|eauto with sigdb]. bools.
    pose proof (repo_MarkFailed_map (sys_now s) (wk_id k) lastErr next _ (inv_wf _ I)) as M.
    destruct (repo_MarkFailed _ _ _ _ _) as [[e|] t']; simpl in M; destruct M as [_ M];
      [subst; destruct rep; eauto with sigdb|].
    destruct M as (nx & [M|[-> _]]); [|destruct rep; eauto with sigdb].
    destruct rep; simpl; [..|eauto with sigdb];
      (rewrite M, lookup_alter, Hr; case_decide; [|eauto with sigdb]; subst id; rewrite Hr;
       eexists; split; [done|]; by econstructor).
  - eauto with sigdb.
  - destruct (repo_MarkTimedOut_map (sys_now s) _ (inv_wf _ I)) as [_ E].
    rewrite E, lookup_fmap, Hr. simpl. eexists. split; [done|].
    destruct (overdue _ r) eqn:?; eauto with sigdb.
  - destruct (repo_Resend_map (sys_now s) id0 _ (inv_wf _ I)) as [_ E].
    rewrite E, lookup_alter, Hr. case_decide; [subst id0|eauto with sigdb].
    rewrite Hr. eexists. split; [done|]. destruct (status_in _ r) eqn:?; eauto with sigdb.
Qed.

(** A live worker's row is neither FAILED nor PERMANENT_FAILED, and SENT only by
    that worker's own MarkSent. *)
Lemma live_status s w k r :
  Inv s → live s w k → row_at s (wk_id k) = Some r →
  (status r = SENDING ∨ status r = PENDING ∨ status r = TIMED_OUT) ∨
  (status r = SENT ∧ wk_marking k = true ∧ result_id r = wk_accepted k).
Proof.
  intros I L Hr. destruct (inv_held _ I w k L) as (r' & Hr' & H).
  unfold row_at in Hr. rewrite Hr in Hr'. injection Hr' as <-.
  destruct H as [[? _]|[[? _]|(? & ? & _ & ?)]]; tauto.
Qed.

(** The same SENT row, but perhaps for the time of its last mark. *)
Definition still_sent (r r' : row) : Prop :=
  delivery r r' SENT (attempts r) (next_attempt_at r) (last_error r) (result_id r) (modified_at r').

Lemma still_sent_refl r : status r = SENT → still_sent r r.
Proof. by repeat split. Qed.

Lemma still_sent_trans r1 r2 r3 : still_sent r1 r2 → still_sent r2 r3 → still_sent r1 r3.
Proof.
  unfold still_sent. intros [[] ??????] [[] ??????]. repeat split; congruence.
Qed.

Lemma sent_step s a id r :
  Inv s → no_override a → row_at s id = Some r → status r = SENT →
  ∃ r', row_at (step a s) id = Some r' ∧ still_sent r r'.
Proof.
  intros I Ha Hr Hs. destruct (step_row s a id r I Ha Hr) as (r' & -> & R). exists r'. split; [done|].
  destruct R as [|w l d Hc|w rep k rid L Hid Hacc|w rep k txt next nx L Hid Hm|Ho|Hst];
    [by apply still_sent_refl|..].
  - apply claimable_spec in Hc as (_ & Hst & _). rewrite Hs in Hst. naive_solver.
  - destruct (live_status s w k r I L) as [[?|[?|?]]|(_ & _ & E)]; [congruence..|].
    rewrite <- Hacc, <- E. apply set_cols_delivery.
  - destruct (live_status s w k r I L) as [[?|[?|?]]|(_ & ? & _)]; congruence.
  - apply overdue_spec in Ho as (_ & Ho & _). rewrite Hs in Ho. naive_solver.
  - unfold status_in in Hst. rewrite Hs in Hst. bools. set_solver.
Qed.

Lemma sent_run acts s id r :
  Forall no_override acts → Inv s → row_at s id = Some r → status r = SENT →
  ∃ r', row_at (run acts s) id = Some r' ∧ still_sent r r'.
Proof.
  intros H. revert s r. induction H as [|a acts Ha _ IH]; intros s r I Hr Hs.
  { exists r. split; [done|]. by apply still_sent_refl. }
  destruct (sent_step s a id r I Ha Hr Hs) as (r1 & H1 & S1).
  destruct (IH (step a s) r1) as (r2 & H2 & S2); [by apply Inv_step|done|by apply S1|].
  exists r2. split; [done|]. by eapply still_sent_trans.
Qed.

Definition unheld (s : sys) (id : uuid) : Prop := ∀ w k, live s w k → wk_id k ≠ id.

Lemma unheld_step s a id r :
  Inv s → row_at s id = Some r → claimable (sys_now s) r = false → unheld s id →
  unheld (step a s) id.
Proof.
  intros I Hr Hc U w' k [Hk Hl]. destruct a; simpl in *; try (by eapply U; split).
  - eapply U; split; [done|]. lia.
  - revert Hk Hl. unfold step_claim_action. destruct (sys_work s !! w); [intros; by eapply U|].
    destruct (_ && _); [|intros; by eapply U].
    pose proof (repo_ClaimPending_map (sys_now s) locked (wc_LeaseDuration cfg) _ (inv_wf _ I)) as C.
    destruct (repo_ClaimPending _ _ _ _) as [[m|e] t']; simpl; [|intros; by eapply U].
    destruct C as (_ & r0 & Hr0 & Hc0 & _). rewrite lookup_insert. case_decide; intros Hk Hl.
    + injection Hk as <-. simpl. intros Hid. unfold row_at in Hr. congruence.
    + by eapply U.
  - revert Hk Hl. unfold step_accept.
    destruct (sys_work s !! w) as [[i ex dl [?|] mk]|] eqn:Hw; try by (intros; eapply U).
    simpl. rewrite lookup_insert. case_decide; intros Hk Hl; [|by eapply U].
    injection Hk as <-. simpl in *. by eapply (U w (MkWork i ex dl None mk)).
  - revert Hk Hl. unfold step_mark_sent. destruct (sys_work s !! w) as [c|] eqn:Hw; [|intros; by eapply U].
    destruct (wk_accepted c); [|intros; by eapply U].
    destruct (Z.leb_spec (sys_now s) (wk_deadline c)); [|intros; by eapply U].
    destruct (marked _ _ _) as [[] t']; simpl; intros Hk Hl.
    + apply lookup_delete_Some in Hk as [_ Hk]. by eapply U.
    + rewrite lookup_insert in Hk. case_decide; [|by eapply U].
      injection Hk as <-. by apply (U w c).
  - revert Hk Hl. unfold step_mark_failed. repeat case_match; intros Hk Hl; simpl in *;
      try (apply lookup_delete_Some in Hk as [_ Hk]); by eapply U.
  - apply lookup_delete_Some in Hk as [_ Hk]. by eapply U.
Qed.

(** Out of the workers' reach: FAILED, or timed out with nobody holding it. *)
Definition parked (s : sys) (id : uuid) (n : Z) : Prop :=
  unheld s id ∧ ∃ r, row_at s id = Some r ∧ attempts r = n ∧
    (status r = FAILED ∨ status r = TIMED_OUT).

Lemma parked_step s a id n :
  Inv s → no_override a → a ≠ AResend id → parked s id n → parked (step a s) id n.
Proof.
  intros I Ha Hn [U (r & Hr & Hatt & Hst)].
  assert (claimable (sys_now s) r = false) as Hc.
  { apply not_true_is_false. intros (_ & [?|[? _]] & _)%claimable_spec; naive_solver congruence. }
  split; [by eapply unheld_step|].
  destruct (step_row s a id r I Ha Hr) as (r' & Hr' & R). exists r'. split; [done|].
  destruct R as [|w l d Hc'|w rep k rid L Hid _|w rep k txt next nx L Hid _|Ho|Hs]; try done;
    try congruence.
  - by destruct (U w k).
  - by destruct (U w k).
  - simpl. auto.
Qed.

Lemma parked_run acts s id n :
  Forall (λ a, no_override a ∧ a ≠ AResend id) acts → Inv s → parked s id n →
  parked (run acts s) id n.
Proof.
  intros H. revert s. induction H as [|a acts [Ha Hn] _ IH]; intros s I P; [done|].
  apply IH; [by apply Inv_step|by apply parked_step].
Qed.

Lemma failed_parked s id r :
  Inv s → row_at s id = Some r → status r = FAILED → parked s id (attempts r).
Proof.
  intros I Hr Hs. split; [|by exists r; auto]. intros w k L Hid.
  destruct (live_status s w k r I L) as [[?|[?|?]]|[? _]]; congruence.
Qed.
End Leases.

(** ** Properties *)

(** C1: while the lease is at least as long as the start-up delay plus the
    attempt timeout, and no operator overrides a status by hand, no two workers
    within their deadlines ever work on the same message, however enqueues,
    claims, marks, crashes, reaps, resends and the clock interleave. *)
Theorem leases_exclusive cfg max_delay t0 acts w1 w2 k1 k2 :
  max_delay + wc_PerAttemptTimeout cfg ≤ Microseconds (wc_LeaseDuration cfg) * Microsecond →
  Forall no_override acts →
  live (run cfg max_delay acts (init t0)) w1 k1 →
  live (run cfg max_delay acts (init t0)) w2 k2 →
  w1 ≠ w2 → wk_id k1 ≠ wk_id k2.
Proof.
  intros HL Ha L1 L2 Hne Hid. apply Hne.
  by eapply (inv_excl _ (Inv_run cfg max_delay HL acts _ Ha (Inv_init t0))).
Qed.

Definition sample_params (ext : string) : RepoInsertParams :=
  MkRepoInsertParams ext None (Some "+380111111111") None "+380000000000" "hi" [] 1 None "c".

Definition two_claims : list action :=
  [AInsert 1%N (sample_params "a"); AInsert 2%N (sample_params "b");
   AClaim 0 ∅ 0; AClaim 1 ∅ 0].

Lemma leases_exclusive_witness : (1 ≠ 2)%N.
Proof.
  apply (leases_exclusive default_worker Second 100 two_claims 0%nat 1%nat
    (MkWork 1 (100 + 300 * Second) (100 + 60 * Second) None false)
    (MkWork 2 (100 + 300 * Second) (100 + 60 * Second) None false)).
  - vm_compute. discriminate.
  - repeat constructor.
  - split; vm_compute; [reflexivity|discriminate].
  - split; vm_compute; [reflexivity|discriminate].
  - discriminate.
Defined.


Definition one_send : list action :=
  [AInsert 1%N (sample_params "a"); AClaim 0 ∅ 0; AAccept 0 "1700000001"; AMarkSent 0 ReplyLost].

Definition after_send : list action :=
  [AAdvance Second; AMarkSent 0 Answered; AAdvance (600 * Second); AReap; AResend 1%N;
   AClaim 1 ∅ 0].


(** C36: a message whose attempt failed with attempts left (FAILED) is out of the
    workers' reach: with no operator action on it, every later interleaving
    leaves its number of attempts as it was, and its status FAILED or, once its
    deadline passed, TIMED_OUT.  The backed-off time that MarkFailed stores is
    never used: the claim query takes PENDING and lease-expired SENDING rows
    only. *)
Theorem failed_never_retried cfg max_delay t0 acts acts' id r :
  max_delay + wc_PerAttemptTimeout cfg ≤ Microseconds (wc_LeaseDuration cfg) * Microsecond →
  Forall no_override acts →
  Forall (λ a, no_override a ∧ a ≠ AResend id) acts' →
  row_at (run cfg max_delay acts (init t0)) id = Some r → status r = FAILED →
  ∃ r', row_at (run cfg max_delay (acts ++ acts') (init t0)) id = Some r' ∧
    attempts r' = attempts r ∧ (status r' = FAILED ∨ status r' = TIMED_OUT).
Proof.
  intros HL Ha Ha' Hr Hs. pose proof (Inv_run cfg max_delay HL acts _ Ha (Inv_init t0)) as I.
  unfold run. rewrite foldl_app. eapply parked_run; [done..|]. by apply failed_parked.
Qed.

Definition one_failure : list action :=
  [AInsert 1%N (MkRepoInsertParams "a" None (Some "+380111111111") None "+380000000000" "hi" []
                  5 None "c");
   AClaim 0 ∅ 0; AMarkFailed 0 "timeout" (100 + 2 * Second) ReplyLost].

Definition much_later : list action := [AAdvance (3600 * Second); AClaim 0 ∅ 0; AReap].

Lemma failed_never_retried_witness :
  ∃ r', row_at (run default_worker Second (one_failure ++ much_later) (init 100)) 1%N = Some r' ∧
    attempts r' = 1 ∧ (status r' = FAILED ∨ status r' = TIMED_OUT).
Proof.
  assert (∃ r, row_at (run default_worker Second one_failure (init 100)) 1%N = Some r ∧
               status r = FAILED ∧ attempts r = 1) as (r & Hr & Hs & <-)
    by (eexists; split; [vm_compute; reflexivity|split; reflexivity]).
  apply (failed_never_retried default_worker Second 100 one_failure much_later 1%N r);
    [vm_compute; discriminate|by repeat constructor|by repeat constructor|exact Hr|exact Hs].
Defined.

(** ** Crash loops *)

Definition crash_round (cfg : WorkerConfig) : list action :=
  [AClaim 0 ∅ 0; AAbandon 0; AAdvance (wc_LeaseDuration cfg + 1)].

Definition crash_rounds (cfg : WorkerConfig) (n : nat) : list action :=
  AInsert 1%N (sample_params "a") :: mjoin (replicate n (crash_round cfg)).

(** The states of a crash loop: one row, due again, after [n] attempts. *)
Definition crashed (n : Z) (s : sys) : Prop :=
  ∃ now r, s = MkSys now [r] ∅ [] ∧ id_of r = 1%N ∧ claimable now r = true ∧
    attempts r = n ∧ max_attempts r = 1 ∧ timeout_at r = None.

Lemma claimed_singleton now r : claimable now r = true → claimed now ∅ [r] = Some r.
Proof.
  intros Hc. unfold claimed. rewrite filter_cons_True; [done|].
  split; [by apply Is_true_true|set_solver].
Qed.

Lemma crash_round_step cfg n s :
  0 ≤ wc_LeaseDuration cfg → 0 ≤ n < 2 ^ 31 - 1 →
  crashed n s → crashed (n + 1) (run cfg 0 (crash_round cfg) s).
Proof.
  intros HL Hn (now & r & -> & Hid & Hc & Ha & Hm & Ht).
  unfold run, crash_round. cbn [foldl step]. unfold step_claim_action. cbn [sys_work].
  rewrite lookup_empty. cbn [sys_now sys_table Z.leb andb Z.compare]. unfold repo_ClaimPending, ClaimPending.
  rewrite claimed_singleton by done. unfold intervalFromDuration, iv_param. cbn [iv_Valid iv_Microseconds].
  rewrite Ha. unfold in_int32b. destruct (Z.leb_spec (- 2 ^ 31) (n + 1)); [|lia].
  destruct (Z.ltb_spec (n + 1) (2 ^ 31)); [|lia]. cbn [andb].
  set (r' := claim_row _ _ r). unfold update_where. cbn [fmap list_fmap].
  change (signal_message_id r) with (id_of r). rewrite has_id_Some_true. fold r'. simpl.
  rewrite delete_insert_id by apply lookup_empty.
  eexists _, r'. split_and!; [reflexivity|done| |simpl; lia|done|done].
  apply claimable_spec in Hc as (Hd & _ & _ & _). apply claimable_spec. unfold r'. simpl.
  assert (Microseconds (wc_LeaseDuration cfg) * Microsecond ≤ wc_LeaseDuration cfg).
  { unfold Microseconds, Microsecond. rewrite Z.quot_div_nonneg by lia.
    pose proof (Z.mul_div_le (wc_LeaseDuration cfg) 1000). lia. }
  split_and!; [done| | |by rewrite Ht].
  - right. split; [done|]. lia.
  - lia.
Qed.

Lemma crash_rounds_state cfg t0 n :
  0 ≤ wc_LeaseDuration cfg → Z.of_nat n < 2 ^ 31 →
  crashed (Z.of_nat n) (run cfg 0 (crash_rounds cfg n) (init t0)).
Proof.
  intros HL. unfold crash_rounds. set (s0 := step cfg 0 (AInsert 1%N (sample_params "a")) (init t0)).
  change (run cfg 0 (?a :: ?l) (init t0)) with (run cfg 0 l s0).
  assert (∀ m s, crashed m s → 0 ≤ m → m + Z.of_nat n < 2 ^ 31 →
    crashed (m + Z.of_nat n) (run cfg 0 (mjoin (replicate n (crash_round cfg))) s)) as H.
  { induction n as [|n IH]; intros m s C Hm Hn.
    - by replace (m + Z.of_nat 0) with m by lia.
    - cbn [replicate]. unfold run in *.
      change (mjoin (crash_round cfg :: replicate n (crash_round cfg)))
        with (crash_round cfg ++ mjoin (replicate n (crash_round cfg))).
      rewrite foldl_app.
      replace (m + Z.of_nat (S n)) with ((m + 1) + Z.of_nat n) by lia.
      apply IH; [|lia..]. apply crash_round_step; [done|lia|done]. }
  intros Hn. apply (H 0); [|lia..]. eexists t0, _. split_and!; try reflexivity.
  apply claimable_spec. split_and!; simpl; [done|by left|lia|done].
Qed.

(** C37: nothing bounds the attempts of a message whose worker vanishes: after any
    number [n] of claims that are abandoned until the lease expires, a message
    with [max_attempts = 1] has made [n] attempts and is claimed again. *)
Theorem crash_loop_exceeds_max_attempts cfg t0 n :
  0 ≤ wc_LeaseDuration cfg → Z.of_nat n < 2 ^ 31 →
  ∃ r, row_at (run cfg 0 (crash_rounds cfg n) (init t0)) 1%N = Some r ∧
    attempts r = Z.of_nat n ∧ max_attempts r = 1 ∧
    claimable (sys_now (run cfg 0 (crash_rounds cfg n) (init t0))) r = true.
Proof.
  intros HL Hn. destruct (crash_rounds_state cfg t0 n HL Hn) as (now & r & -> & Hid & Hc & Ha & Hm & _).
  exists r. split_and!; [|done..]. unfold row_at. cbn [sys_table].
  rewrite to_map_cons, Hid. by rewrite lookup_insert_eq.
Qed.

Lemma crash_loop_exceeds_max_attempts_witness :
  ∃ r, row_at (run default_worker 0 (crash_rounds default_worker 6) (init 0)) 1%N = Some r ∧
    attempts r = 6 ∧ max_attempts r = 1 ∧
    claimable (sys_now (run default_worker 0 (crash_rounds default_worker 6) (init 0))) r = true.
Proof.
  apply (crash_loop_exceeds_max_attempts default_worker 0 6);
    [vm_compute; discriminate|vm_compute; reflexivity].
Defined.
