(* ===== verification/GoText.v ===== *)
(** The parts of Go's [strconv], [strings], [unicode/utf8] and [path/filepath]
    that the program uses, on strings as byte sequences. *)

From S2P Require Import Prelude Errors Domain Sqlc.
From Stdlib Require Import Ascii.

Definition byte_val (c : ascii) : Z := Z.of_N (N_of_ascii c).
Definition chr (z : Z) : ascii := ascii_of_N (Z.to_N z).

(** ** strconv *)

Definition digit (d : Z) : ascii := chr (48 + d).

(** Decimal digits of [z], most significant first, put before [acc]; [fuel]
    bounds the number of digits. *)
Fixpoint fmt_digits (fuel : nat) (z : Z) (acc : string) : string :=
  match fuel with
  | O => acc
  | S f => if z <? 10 then String (digit z) acc
           else fmt_digits f (z / 10) (String (digit (z mod 10)) acc)
  end.

(** [strconv.FormatInt(z, 10)]: an int64 has at most 19 digits. *)
Definition FormatInt (z : Z) : string :=
  if z <? 0 then String "-" (fmt_digits 20 (- z) "") else fmt_digits 20 z "".

Definition digit_val (c : ascii) : option Z :=
  let v := byte_val c in
  if (48 <=? v) && (v <=? 57) then Some (v - 48) else None.

Fixpoint parse_digits (acc : Z) (s : string) : option Z :=
  match s with
  | EmptyString => Some acc
  | String c s' => match digit_val c with
                   | Some d => parse_digits (acc * 10 + d) s'
                   | None => None
                   end
  end.

(** [strconv.ParseInt(s, 10, 64)]. *)
Definition ParseInt (s : string) : res Z :=
  let parse_abs (neg : bool) (s : string) :=
    match s with
    | EmptyString => Err (ErrMsg "invalid syntax")
    | _ => match parse_digits 0 s with
           | None => Err (ErrMsg "invalid syntax")
           | Some v => let z := if neg then - v else v in
                       if (- 2 ^ 63 <=? z) && (z <? 2 ^ 63) then Ok z
                       else Err (ErrMsg "value out of range")
           end
    end in
  match s with
  | EmptyString => Err (ErrMsg "invalid syntax")
  | String "-" s' => parse_abs true s'
  | String "+" s' => parse_abs false s'
  | _ => parse_abs false s
  end.

(** ** Runes *)

(** [utf8.DecodeRuneInString]: the first rune and the rest; an invalid byte
    decodes to U+FFFD and consumes one byte. *)
Definition RuneError : Z := 0xFFFD.

Definition cont (c : ascii) : bool := (128 <=? byte_val c) && (byte_val c <=? 191).
Definition low6 (c : ascii) : Z := byte_val c mod 64.

Definition decode1 (c0 : ascii) (s : string) : Z * string :=
  let b0 := byte_val c0 in
  let bad := (RuneError, s) in
  if b0 <? 128 then (b0, s)
  else if b0 <? 194 then bad
  else if b0 <? 224 then
    match s with
    | String c1 s1 => if cont c1 then (b0 mod 32 * 64 + low6 c1, s1) else bad
    | _ => bad
    end
  else if b0 <? 240 then
    match s with
    | String c1 (String c2 s2) =>
        let lo := if b0 =? 224 then 160 else 128 in
        let hi := if b0 =? 237 then 159 else 191 in
        if (lo <=? byte_val c1) && (byte_val c1 <=? hi) && cont c2
        then (b0 mod 16 * 4096 + low6 c1 * 64 + low6 c2, s2) else bad
    | _ => bad
    end
  else if b0 <? 245 then
    match s with
    | String c1 (String c2 (String c3 s3)) =>
        let lo := if b0 =? 240 then 144 else 128 in
        let hi := if b0 =? 244 then 143 else 191 in
        if (lo <=? byte_val c1) && (byte_val c1 <=? hi) && cont c2 && cont c3
        then (b0 mod 8 * 262144 + low6 c1 * 4096 + low6 c2 * 64 + low6 c3, s3) else bad
    | _ => bad
    end
  else bad.

(** The runes of a string; one byte at least is consumed per rune, so the
    string's length is fuel enough. *)
Fixpoint runes_fuel (fuel : nat) (s : string) : list Z :=
  match fuel, s with
  | S f, String c s' => let '(r, rest) := decode1 c s' in r :: runes_fuel f rest
  | _, _ => []
  end.
Definition runes (s : string) : list Z := runes_fuel (String.length s) s.

(** [unicode.IsSpace]. *)
Definition IsSpace (r : Z) : bool :=
  ((9 <=? r) && (r <=? 13)) || (r =? 32) || (r =? 0x85) || (r =? 0xA0) || (r =? 0x1680)
  || ((0x2000 <=? r) && (r <=? 0x200a)) || (r =? 0x2028) || (r =? 0x2029)
  || (r =? 0x202f) || (r =? 0x205f) || (r =? 0x3000).

(** [strings.TrimSpace(s) == ""]: every rune is white space. *)
Definition TrimSpace_empty (s : string) : bool := forallb IsSpace (runes s).

(** ** Paths *)

Fixpoint strip_trailing_slashes (l : list ascii) : list ascii :=
  match l with
  | [] => []
  | c :: l' => match strip_trailing_slashes l' with
               | [] => if ascii_dec c "/" then [] else [c]
               | l'' => c :: l''
               end
  end.

Fixpoint after_last_slash (l acc : list ascii) : list ascii :=
  match l with
  | [] => rev acc
  | c :: l' => if ascii_dec c "/" then after_last_slash l' [] else after_last_slash l' (c :: acc)
  end.

(** [filepath.Base] on a Unix system. *)
Definition Base (path : string) : string :=
  match path with
  | EmptyString => "."
  | _ => match strip_trailing_slashes (String.list_ascii_of_string path) with
         | [] => "/"
         | l => String.string_of_list_ascii (after_last_slash l [])
         end
  end.

(** [strings.HasPrefix(s, ".")]. *)
Definition HasPrefixDot (s : string) : bool :=
  match s with String "." _ => true | _ => false end.

(** ** Facts *)

Lemma byte_val_range c : 0 ≤ byte_val c < 256.
Proof. unfold byte_val. pose proof (N_ascii_bounded c). lia. Qed.

Lemma byte_val_chr z : 0 ≤ z < 256 → byte_val (chr z) = z.
Proof. intros. unfold byte_val, chr. rewrite N_ascii_embedding; lia. Qed.

Lemma digit_val_digit d : 0 ≤ d < 10 → digit_val (digit d) = Some d.
Proof.
  intros Hd. unfold digit_val, digit. rewrite byte_val_chr by lia.
  destruct (Z.leb_spec 48 (48 + d)), (Z.leb_spec (48 + d) 57); simpl; try lia.
  f_equal; lia.
Qed.

Lemma char_length_ascii c s : byte_val c < 128 → char_length (String c s) = 1 + char_length s.
Proof. destruct c as [[][][][][][][][]]; vm_compute; naive_solver. Qed.

Lemma parse_fmt_digits fuel z s :
  0 ≤ z < 10 ^ Z.of_nat fuel → parse_digits 0 (fmt_digits fuel z s) = parse_digits z s.
Proof.
  revert z s. induction fuel as [|f IH]; intros z s Hz.
  - simpl in *. f_equal. lia.
  - rewrite Nat2Z.inj_succ, Z.pow_succ_r in Hz by lia. cbn [fmt_digits].
    destruct (Z.ltb_spec z 10).
    + cbn [parse_digits]. rewrite digit_val_digit by lia. f_equal.
    + rewrite IH by (split; [apply Z.div_pos; lia|apply Z.div_lt_upper_bound; lia]).
      cbn [parse_digits]. rewrite digit_val_digit by (apply Z.mod_pos_bound; lia).
      f_equal. pose proof (Z.div_mod z 10). lia.
Qed.

Lemma fmt_digits_length fuel n z s :
  0 ≤ z < 10 ^ n → 1 ≤ n → char_length (fmt_digits fuel z s) ≤ n + char_length s.
Proof.
  revert n z s. induction fuel as [|f IH]; intros n z s Hz Hn; cbn [fmt_digits]; [lia|].
  destruct (Z.ltb_spec z 10).
  - rewrite char_length_ascii; [lia|]. unfold digit. rewrite byte_val_chr; lia.
  - assert (1 < n).
    { destruct (decide (n = 1)) as [->|]; [|lia]. change (10 ^ 1) with 10 in Hz. lia. }
    etrans; [apply (IH (n - 1))|].
    + split; [apply Z.div_pos; lia|]. apply Z.div_lt_upper_bound; [lia|].
      rewrite <- Z.pow_succ_r by lia. replace (Z.succ (n - 1)) with n by lia. lia.
    + lia.
    + pose proof (Z.mod_pos_bound z 10 ltac:(lia)).
      rewrite char_length_ascii by (unfold digit; rewrite byte_val_chr; lia). lia.
Qed.

Lemma fmt_digits_head fuel z s :
  0 ≤ z → ∃ d s', 0 ≤ d < 10 ∧ fmt_digits (S fuel) z s = String (digit d) s'.
Proof.
  revert z s. induction fuel as [|f IH]; intros z s Hz.
  - simpl. pose proof (Z.mod_pos_bound z 10 ltac:(lia)).
    destruct (Z.ltb_spec z 10); eauto with lia.
  - change (fmt_digits (S (S f)) z s) with
      (if z <? 10 then String (digit z) s
       else fmt_digits (S f) (z / 10) (String (digit (z mod 10)) s)).
    destruct (Z.ltb_spec z 10); [eauto with lia|]. apply IH, Z.div_pos; lia.
Qed.

(** Cases of [ParseInt] on a digit: no sign is consumed. *)
Lemma ParseInt_digit d s :
  0 ≤ d < 10 →
  ParseInt (String (digit d) s) =
    match parse_digits 0 (String (digit d) s) with
    | None => Err (ErrMsg "invalid syntax")
    | Some z => if (- 2 ^ 63 <=? z) && (z <? 2 ^ 63) then Ok z
                else Err (ErrMsg "value out of range")
    end.
Proof.
  intros Hd. assert (d = 0 ∨ d = 1 ∨ d = 2 ∨ d = 3 ∨ d = 4 ∨ d = 5 ∨ d = 6 ∨ d = 7 ∨ d = 8 ∨ d = 9)
    as Hc by lia.
  destruct_or! Hc; subst d; reflexivity.
Qed.

Lemma in_int64_test z : in_int64 z → (- 2 ^ 63 <=? z) && (z <? 2 ^ 63) = true.
Proof. unfold in_int64. lia. Qed.

Lemma ParseInt_FormatInt_ok z : in_int64 z → ParseInt (FormatInt z) = Ok z.
Proof.
  intros Hz. pose proof (in_int64_test z Hz) as Ht. unfold in_int64 in Hz.
  unfold FormatInt. destruct (Z.ltb_spec z 0).
  - destruct (fmt_digits_head 19 (- z) "") as (d & s' & Hd & E); [lia|].
    pose proof (parse_fmt_digits 20 (- z) "" ltac:(lia)) as P. rewrite E in P |- *.
    change (ParseInt (String "-" (String (digit d) s'))) with
      (match parse_digits 0 (String (digit d) s') with
       | None => Err (ErrMsg "invalid syntax")
       | Some v => if (- 2 ^ 63 <=? - v) && (- v <? 2 ^ 63) then Ok (- v)
                   else Err (ErrMsg "value out of range")
       end : res Z).
    rewrite P. cbn [parse_digits]. rewrite Z.opp_involutive. by rewrite Ht.
  - destruct (fmt_digits_head 19 z "") as (d & s' & Hd & E); [lia|].
    pose proof (parse_fmt_digits 20 z "" ltac:(lia)) as P. rewrite E in P |- *.
    rewrite ParseInt_digit by done. rewrite P. cbn [parse_digits]. by rewrite Ht.
Qed.

Lemma FormatInt_length z : in_int64 z → char_length (FormatInt z) ≤ 20.
Proof.
  unfold in_int64, FormatInt. intros Hz. destruct (Z.ltb_spec z 0).
  - rewrite char_length_ascii by (vm_compute; done).
    pose proof (fmt_digits_length 20 19 (- z) "" ltac:(lia) ltac:(lia)). simpl in *. lia.
  - pose proof (fmt_digits_length 20 19 z "" ltac:(lia) ltac:(lia)). simpl in *. lia.
Qed.
