(* ===== verification/Json.v ===== *)
(** Go's [encoding/json] as the program uses it: the encoder with its string
    escapes, the scanner and decoder of values, and the decoding of objects into
    structs.  Strings are byte sequences. *)

From Stdlib Require Import Ascii.
From S2P Require Import Prelude Errors GoText.

(** ** Values *)

(** A number is kept as its literal, an object as its members in order. *)
Inductive json :=
| JNull
| JBool (b : bool)
| JNum (lit : string)
| JStr (s : string)
| JArr (elems : list json)
| JObj (members : list (string * json)).

(** An integer as [strconv] formats it. *)
Definition JInt (z : Z) : json := JNum (FormatInt z).

(** ** UTF-8 *)

(** [utf8.EncodeRune]; surrogates and numbers out of range become U+FFFD. *)
Definition encode_rune (r : Z) : string :=
  let r := if (r <? 0) || (0x10FFFF <? r) || ((0xD800 <=? r) && (r <? 0xE000)) then RuneError else r in
  if r <? 0x80 then String (chr r) ""
  else if r <? 0x800 then String (chr (192 + r / 64)) (String (chr (128 + r mod 64)) "")
  else if r <? 0x10000 then
    String (chr (224 + r / 4096)) (String (chr (128 + r / 64 mod 64)) (String (chr (128 + r mod 64)) ""))
  else
    String (chr (240 + r / 262144)) (String (chr (128 + r / 4096 mod 64))
      (String (chr (128 + r / 64 mod 64)) (String (chr (128 + r mod 64)) ""))).

(** [utf8.DecodeRuneInString] returned a RuneError of width 1. *)
Definition invalid_byte (s' : string) (r : Z) (rest : string) : bool :=
  (r =? RuneError) && (String.length rest =? String.length s')%nat.

(** A string with every invalid byte replaced by U+FFFD. *)
Fixpoint clean_fuel (fuel : nat) (s : string) : string :=
  match fuel, s with
  | S f, String c s' => let '(r, rest) := decode1 c s' in encode_rune r +:+ clean_fuel f rest
  | _, _ => ""
  end.
Definition clean (s : string) : string := clean_fuel (String.length s) s.

(** [utf8.ValidString]. *)
Fixpoint valid_fuel (fuel : nat) (s : string) : bool :=
  match fuel, s with
  | S f, String c s' =>
      let '(r, rest) := decode1 c s' in negb (invalid_byte s' r rest) && valid_fuel f rest
  | O, String _ _ => false
  | _, EmptyString => true
  end.
Definition ValidString (s : string) : bool := valid_fuel (String.length s) s.

(** ** The encoder *)

Definition dquote : ascii := "034"%char.
Definition bslash : ascii := "092"%char.

Definition hex_digit (n : Z) : ascii := if n <? 10 then chr (48 + n) else chr (87 + n).

(** The escape [\uXXXX]. *)
Definition u_escape (r : Z) : string :=
  String bslash (String "u" (String (hex_digit (r / 4096 mod 16)) (String (hex_digit (r / 256 mod 16))
    (String (hex_digit (r / 16 mod 16)) (String (hex_digit (r mod 16)) ""))))).

(** [appendString] on a byte below 0x80; [html] is the encoder's escapeHTML. *)
Definition escape_ascii (html : bool) (c : ascii) : string :=
  let b := byte_val c in
  let short x := String bslash (String x "") in
  if b =? 34 then short dquote
  else if b =? 92 then short bslash
  else if b =? 8 then short "b"%char
  else if b =? 12 then short "f"%char
  else if b =? 10 then short "n"%char
  else if b =? 13 then short "r"%char
  else if b =? 9 then short "t"%char
  else if (b <? 32) || (html && ((b =? 60) || (b =? 62) || (b =? 38))) then u_escape b
  else String c "".

Fixpoint quote_fuel (html : bool) (fuel : nat) (s : string) : string :=
  match fuel, s with
  | S f, String c s' =>
      if byte_val c <? 128 then escape_ascii html c +:+ quote_fuel html f s'
      else
        let '(r, rest) := decode1 c s' in
        if invalid_byte s' r rest then u_escape RuneError +:+ quote_fuel html f rest
        else if (r =? 0x2028) || (r =? 0x2029) then u_escape r +:+ quote_fuel html f rest
        else String.substring 0 (String.length s - String.length rest) s +:+ quote_fuel html f rest
  | _, _ => ""
  end.

Definition quote (html : bool) (s : string) : string :=
  String dquote (quote_fuel html (String.length s) s +:+ String dquote "").

Definition comma_sep {A} (f : A → string) (l : list A) : string :=
  match l with
  | [] => ""
  | x :: l' => f x +:+ foldr (λ y acc, String "," (f y) +:+ acc) "" l'
  end.

(** [json.Marshal]. *)
Fixpoint marshal (html : bool) (v : json) : string :=
  match v with
  | JNull => "null"
  | JBool true => "true"
  | JBool false => "false"
  | JNum lit => lit
  | JStr s => quote html s
  | JArr l => String "[" (comma_sep (marshal html) l +:+ "]")
  | JObj l =>
      String "{" (comma_sep (λ kv, quote html kv.1 +:+ String ":" (marshal html kv.2)) l +:+ "}")
  end.

Definition Marshal : json → string := marshal true.

(** ** The scanner *)

Definition is_ws (c : ascii) : bool :=
  let b := byte_val c in (b =? 32) || (b =? 9) || (b =? 13) || (b =? 10).

Fixpoint skip_ws (s : string) : string :=
  match s with
  | String c s' => if is_ws c then skip_ws s' else s
  | EmptyString => s
  end.

Definition hex_val (c : ascii) : option Z :=
  let b := byte_val c in
  if (48 <=? b) && (b <=? 57) then Some (b - 48)
  else if (97 <=? b) && (b <=? 102) then Some (b - 87)
  else if (65 <=? b) && (b <=? 70) then Some (b - 55)
  else None.

(** Four hexadecimal digits. *)
Definition hex4 (s : string) : option (Z * string) :=
  match s with
  | String a (String b (String c (String d s'))) =>
      match hex_val a, hex_val b, hex_val c, hex_val d with
      | Some a, Some b, Some c, Some d => Some (((a * 16 + b) * 16 + c) * 16 + d, s')
      | _, _, _, _ => None
      end
  | _ => None
  end.

(** [utf16.DecodeRune] of a surrogate pair. *)
Definition surrogate_pair (r1 r2 : Z) : option Z :=
  if (0xD800 <=? r1) && (r1 <? 0xDC00) && (0xDC00 <=? r2) && (r2 <? 0xE000)
  then Some ((r1 - 0xD800) * 1024 + (r2 - 0xDC00) + 0x10000) else None.

(** The rune of a [\u] escape whose digits start [s]. *)
Definition u_rune (s : string) : option (Z * string) :=
  match hex4 s with
  | None => None
  | Some (r, s1) =>
      if (0xD800 <=? r) && (r <? 0xE000) then
        match s1 with
        | String a (String b s2) =>
            match (if Ascii.eqb a bslash && Ascii.eqb b "u"%char then hex4 s2 else None) with
            | Some (r', s3) =>
                match surrogate_pair r r' with Some x => Some (x, s3) | None => Some (RuneError, s1) end
            | None => Some (RuneError, s1)
            end
        | _ => Some (RuneError, s1)
        end
      else Some (r, s1)
  end.

Definition simple_escape (c : ascii) : option ascii :=
  let b := byte_val c in
  if (b =? 34) || (b =? 92) || (b =? 47) then Some c
  else if b =? 98 then Some (chr 8)
  else if b =? 102 then Some (chr 12)
  else if b =? 110 then Some (chr 10)
  else if b =? 114 then Some (chr 13)
  else if b =? 116 then Some (chr 9)
  else None.

Definition prepend {A} (x : string) (k : option (string * A)) : option (string * A) :=
  match k with Some (o, rest) => Some (x +:+ o, rest) | None => None end.

(** The body of a string literal, after its opening quote: the string it
    denotes and what follows the closing quote. *)
Fixpoint parse_str (fuel : nat) (s : string) : option (string * string) :=
  match fuel, s with
  | S f, String c s' =>
      if Ascii.eqb c dquote then Some ("", s')
      else if Ascii.eqb c bslash then
        match s' with
        | String e s'' =>
            if Ascii.eqb e "u"%char then
              match u_rune s'' with
              | Some (r, s3) => prepend (encode_rune r) (parse_str f s3)
              | None => None
              end
            else match simple_escape e with
                 | Some x => prepend (String x "") (parse_str f s'')
                 | None => None
                 end
        | EmptyString => None
        end
      else if byte_val c <? 32 then None
      else if byte_val c <? 128 then prepend (String c "") (parse_str f s')
      else let '(r, rest) := decode1 c s' in prepend (encode_rune r) (parse_str f rest)
  | _, _ => None
  end.

Definition parse_string (s : string) : option (string * string) :=
  parse_str (String.length s) s.

(** Number literals: sign, integer part, fraction, exponent. *)
Definition is_digit (c : ascii) : bool := let b := byte_val c in (48 <=? b) && (b <=? 57).

Fixpoint digits (s : string) : string * string :=
  match s with
  | String c s' => if is_digit c then let '(d, r) := digits s' in (String c d, r) else ("", s)
  | EmptyString => ("", s)
  end.

Definition digits1 (s : string) : option (string * string) :=
  match digits s with (String c d, r) => Some (String c d, r) | _ => None end.

Definition parse_int_part (s : string) : option (string * string) :=
  match s with
  | String c s' => if Ascii.eqb c "0"%char then Some ("0", s') else digits1 s
  | EmptyString => None
  end.

Definition parse_frac (s : string) : option (string * string) :=
  match s with
  | String c s' => if Ascii.eqb c "."%char then prepend "." (digits1 s') else Some ("", s)
  | EmptyString => Some ("", s)
  end.

Definition parse_exp (s : string) : option (string * string) :=
  match s with
  | String c s' =>
      if Ascii.eqb c "e"%char || Ascii.eqb c "E"%char then
        prepend (String c "")
          (match s' with
           | String g s'' => if Ascii.eqb g "+"%char || Ascii.eqb g "-"%char then prepend (String g "") (digits1 s'')
                             else digits1 s'
           | EmptyString => None
           end)
      else Some ("", s)
  | EmptyString => Some ("", s)
  end.

Definition parse_unsigned (s : string) : option (string * string) :=
  match parse_int_part s with
  | None => None
  | Some (i, s1) =>
      match parse_frac s1 with
      | None => None
      | Some (f, s2) => prepend (i +:+ f) (parse_exp s2)
      end
  end.

Definition parse_num (s : string) : option (string * string) :=
  match s with
  | String c s' => if Ascii.eqb c "-"%char then prepend "-" (parse_unsigned s') else parse_unsigned s
  | EmptyString => None
  end.

Fixpoint strip_prefix (p s : string) : option string :=
  match p, s with
  | EmptyString, _ => Some s
  | String a p', String b s' => if Ascii.eqb a b then strip_prefix p' s' else None
  | _, _ => None
  end.

Definition literal (word : string) (v : json) (s : string) : option (json * string) :=
  match strip_prefix word s with Some r => Some (v, r) | None => None end.

(** The scanner's limit on nested values. *)
Definition maxNestingDepth : Z := 10000.

(** A value and what follows it; [depth] containers are open around it.  The
    members and the elements of a non-empty container end with its bracket. *)
Fixpoint parse_value (fuel : nat) (depth : Z) (s : string) : option (json * string) :=
  match fuel with
  | O => None
  | S f =>
      match skip_ws s with
      | EmptyString => None
      | String c s1 as s0 =>
          if Ascii.eqb c "{"%char then
            if maxNestingDepth <=? depth then None
            else match skip_ws s1 with
                 | String c2 s2 as t =>
                     if Ascii.eqb c2 "}"%char then Some (JObj [], s2)
                     else match parse_members f (depth + 1) t with
                          | Some (l, r) => Some (JObj l, r)
                          | None => None
                          end
                 | EmptyString => None
                 end
          else if Ascii.eqb c "["%char then
            if maxNestingDepth <=? depth then None
            else match skip_ws s1 with
                 | String c2 s2 as t =>
                     if Ascii.eqb c2 "]"%char then Some (JArr [], s2)
                     else match parse_elems f (depth + 1) t with
                          | Some (l, r) => Some (JArr l, r)
                          | None => None
                          end
                 | EmptyString => None
                 end
          else if Ascii.eqb c dquote then
            match parse_string s1 with Some (x, r) => Some (JStr x, r) | None => None end
          else if Ascii.eqb c "t"%char then literal "true" (JBool true) s0
          else if Ascii.eqb c "f"%char then literal "false" (JBool false) s0
          else if Ascii.eqb c "n"%char then literal "null" JNull s0
          else match parse_num s0 with Some (x, r) => Some (JNum x, r) | None => None end
      end
  end
with parse_members (fuel : nat) (depth : Z) (s : string) : option (list (string * json) * string) :=
  match fuel with
  | O => None
  | S f =>
      match skip_ws s with
      | String c s1 =>
          if Ascii.eqb c dquote then
            match parse_string s1 with
            | None => None
            | Some (k, s2) =>
                match skip_ws s2 with
                | String c3 s3 =>
                    if Ascii.eqb c3 ":"%char then
                      match parse_value f depth s3 with
                      | None => None
                      | Some (v, s4) =>
                          match skip_ws s4 with
                          | String c5 s5 =>
                              if Ascii.eqb c5 ","%char then
                                match parse_members f depth s5 with
                                | Some (l, r) => Some ((k, v) :: l, r)
                                | None => None
                                end
                              else if Ascii.eqb c5 "}"%char then Some ([(k, v)], s5) else None
                          | EmptyString => None
                          end
                      end
                    else None
                | EmptyString => None
                end
            end
          else None
      | EmptyString => None
      end
  end
with parse_elems (fuel : nat) (depth : Z) (s : string) : option (list json * string) :=
  match fuel with
  | O => None
  | S f =>
      match parse_value f depth s with
      | None => None
      | Some (v, s1) =>
          match skip_ws s1 with
          | String c s2 =>
              if Ascii.eqb c ","%char then
                match parse_elems f depth s2 with
                | Some (l, r) => Some (v :: l, r)
                | None => None
                end
              else if Ascii.eqb c "]"%char then Some ([v], s2) else None
          | EmptyString => None
          end
      end
  end.

(** Enough fuel for a text: two steps per byte. *)
Definition fuel_for (s : string) : nat := S (2 * String.length s).

(** The value of a text, as [json.Unmarshal] checks it first. *)
Definition parse (s : string) : option json :=
  match parse_value (fuel_for s) 0 s with
  | Some (v, r) => match skip_ws r with EmptyString => Some v | _ => None end
  | None => None
  end.

(** ** Decoding into Go values *)

(** The smallest rune that folds to the same name, for names in ASCII: besides
    the letters only the Kelvin sign and the long s fold into ASCII. *)
Definition fold_rune (r : Z) : Z :=
  if (97 <=? r) && (r <=? 122) then r - 32
  else if r =? 0x212A then 75
  else if r =? 0x17F then 83
  else r.
Definition foldName (s : string) : list Z := fold_rune <$> runes s.

Definition type_error : error := ErrMsg "json: cannot unmarshal".
Definition syntax_error : error := ErrMsg "json: syntax error".

(** Storing a value into a [T]: the new contents, and the error that
    [json.Unmarshal] will report.  Decoding goes on after such an error. *)
Definition decoder (T : Type) : Type := json → T → T * option error.

(** The fields of a struct with the names of their tags. *)
Definition fields (T : Type) : Type := list (string * decoder T).

Definition first_error (a b : option error) : option error := match a with Some _ => a | None => b end.

(** The field a member goes to: the exact name first, then one equal under
    folding. *)
Definition find_field {T} (fs : fields T) (key : string) : option (decoder T) :=
  match list_find (λ f, f.1 = key) fs with
  | Some (_, f) => Some f.2
  | None => match list_find (λ f, foldName f.1 = foldName key) fs with
            | Some (_, f) => Some f.2
            | None => None
            end
  end.

Definition store_member {T} (fs : fields T) (st : T * option error) (kv : string * json)
    : T * option error :=
  match find_field fs kv.1 with
  | None => st
  | Some dec => let '(t, e) := dec kv.2 st.1 in (t, first_error st.2 e)
  end.

Definition decode_struct {T} (fs : fields T) : decoder T := λ v t,
  match v with
  | JObj kvs => foldl (store_member fs) (t, None) kvs
  | JNull => (t, None)
  | _ => (t, Some type_error)
  end.

(** A field of a basic type: null leaves it alone. *)
Definition string_field {T} (set : string → T → T) : decoder T := λ v t,
  match v with
  | JStr s => (set s t, None)
  | JNull => (t, None)
  | _ => (t, Some type_error)
  end.

Definition int_field {T} (set : Z → T → T) : decoder T := λ v t,
  match v with
  | JNum lit => match ParseInt lit with Ok z => (set z t, None) | Err _ => (t, Some type_error) end
  | JNull => (t, None)
  | _ => (t, Some type_error)
  end.

(** A pointer: null makes it nil, anything else decodes into what it points to
    ([zero] when it is new). *)
Definition ptr_field {T A} (zero : A) (get : T → option A) (set : option A → T → T)
    (dec : decoder A) : decoder T := λ v t,
  match v with
  | JNull => (set None t, None)
  | _ => let '(a, e) := dec v (default zero (get t)) in (set (Some a) t, e)
  end.

(** The elements of an array, decoded into the elements already there. *)
Fixpoint decode_elems {A} (zero : A) (dec : decoder A) (vs : list json) (old : list A)
    : list A * option error :=
  match vs with
  | [] => ([], None)
  | v :: vs' =>
      let '(a, e) := dec v (default zero (head old)) in
      let '(l, e') := decode_elems zero dec vs' (tail old) in (a :: l, first_error e e')
  end.

(** A slice; [None] is nil. *)
Definition slice_decoder {A} (zero : A) (dec : decoder A) : decoder (option (list A)) := λ v old,
  match v with
  | JNull => (None, None)
  | JArr vs => let '(l, e) := decode_elems zero dec vs (default [] old) in (Some l, e)
  | _ => (old, Some type_error)
  end.

Definition slice_field {T A} (zero : A) (get : T → option (list A)) (set : option (list A) → T → T)
    (dec : decoder A) : decoder T := λ v t,
  let '(l, e) := slice_decoder zero dec v (get t) in (set l t, e).

(** [json.Unmarshal(data, &t)]. *)
Definition Unmarshal {T} (dec : decoder T) (data : string) (t : T) : T * option error :=
  match parse data with
  | None => (t, Some syntax_error)
  | Some v => dec v t
  end.

(** The result when the caller gives up on an error. *)
Definition Unmarshal_ok {T} (dec : decoder T) (data : string) (t : T) : option T :=
  match Unmarshal dec data t with (x, None) => Some x | (_, Some _) => None end.

(** ** Raw messages

    A [json.RawMessage] member keeps its text.  The members of an object with
    their raw texts, read as [parse_members] reads them. *)
Fixpoint raw_members (fuel : nat) (depth : Z) (s : string) : option (list (string * string) * string) :=
  match fuel with
  | O => None
  | S f =>
      match skip_ws s with
      | String c s1 =>
          if Ascii.eqb c dquote then
            match parse_string s1 with
            | None => None
            | Some (k, s2) =>
                match skip_ws s2 with
                | String c3 s3 =>
                    if Ascii.eqb c3 ":"%char then
                      match parse_value f depth s3 with
                      | None => None
                      | Some (_, s4) =>
                          let t := skip_ws s3 in
                          let raw := String.substring 0 (String.length t - String.length s4) t in
                          match skip_ws s4 with
                          | String c5 s5 =>
                              if Ascii.eqb c5 ","%char then
                                match raw_members f depth s5 with
                                | Some (l, r) => Some ((k, raw) :: l, r)
                                | None => None
                                end
                              else if Ascii.eqb c5 "}"%char then Some ([(k, raw)], s5) else None
                          | EmptyString => None
                          end
                      end
                    else None
                | EmptyString => None
                end
            end
          else None
      | EmptyString => None
      end
  end.

Definition raw_object (data : string) : list (string * string) :=
  match skip_ws data with
  | String c s1 =>
      if Ascii.eqb c "{"%char then
        match raw_members (fuel_for data) 1 s1 with Some (l, _) => l | None => [] end
      else []
  | EmptyString => []
  end.

(** The contents of a RawMessage field of a struct whose field names differ
    under folding: the text of the last member of that name, nil when there is
    none. *)
Definition raw_field (name : string) (data : string) : string :=
  default "" (last ((filter (λ kv, foldName kv.1 = foldName name) (raw_object data)).*2)).
