(* ===== verification/JsonFacts.v ===== *)
(** What the encoder writes, the decoder reads back: the round trip of
    [encoding/json] on the values this program exchanges. *)

From Stdlib Require Import Ascii.
From S2P Require Import Prelude Errors GoText Json.

(** ** Bytes and runes *)

Lemma append_cons x (a b : string) : String x a +:+ b = String x (a +:+ b).
Proof. done. Qed.

Lemma append_nil_l (a : string) : "" +:+ a = a.
Proof. done. Qed.

Lemma append_assoc (a b c : string) : (a +:+ b) +:+ c = a +:+ (b +:+ c).
Proof. induction a as [|x a IH]; [done|]. by rewrite !append_cons, IH. Qed.

Lemma append_nil_r (a : string) : a +:+ "" = a.
Proof. induction a as [|x a IH]; [done|]. by rewrite append_cons, IH. Qed.

Lemma length_append (a b : string) : String.length (a +:+ b) = (String.length a + String.length b)%nat.
Proof. induction a as [|x a IH]; [done|]. rewrite append_cons. simpl. by rewrite IH. Qed.

Lemma substring_append a b : String.substring 0 (String.length a) (a +:+ b) = a.
Proof. induction a as [|x a IH]; [by destruct b|]. rewrite append_cons. simpl. by rewrite IH. Qed.

Lemma chr_byte c : chr (byte_val c) = c.
Proof. unfold chr, byte_val. by rewrite N2Z.id, ascii_N_embedding. Qed.

Lemma chr_eq z c : z = byte_val c → chr z = c.
Proof. intros ->. apply chr_byte. Qed.

(** Decide the comparisons of the goal by arithmetic. *)
Ltac zcmp1 :=
  match goal with
  | |- context [?a <? ?b] =>
      first [rewrite (proj2 (Z.ltb_lt a b)) by lia | rewrite (proj2 (Z.ltb_ge a b)) by lia]
  | |- context [?a <=? ?b] =>
      first [rewrite (proj2 (Z.leb_le a b)) by lia | rewrite (proj2 (Z.leb_gt a b)) by lia]
  | |- context [?a =? ?b] =>
      first [rewrite (proj2 (Z.eqb_eq a b)) by lia | rewrite (proj2 (Z.eqb_neq a b)) by lia]
  end.
Ltac zcmp := repeat (zcmp1; cbn [andb orb negb]).

Ltac zdm := Z.to_euclidean_division_equations; lia.

Lemma cont_low6 c : cont c = true → 128 ≤ byte_val c ≤ 191 ∧ low6 c = byte_val c - 128.
Proof. unfold cont, low6. intros. bools. split; [lia|]. zdm. Qed.

Lemma low6_val c : 128 ≤ byte_val c ≤ 191 → low6 c = byte_val c - 128.
Proof. unfold low6. intros. zdm. Qed.

Lemma encode_rune2 c c1 :
  194 ≤ byte_val c < 224 → 128 ≤ byte_val c1 ≤ 191 →
  encode_rune (byte_val c mod 32 * 64 + low6 c1) = String c (String c1 "").
Proof.
  intros. rewrite low6_val by done.
  replace (byte_val c mod 32) with (byte_val c - 192) by zdm.
  unfold encode_rune. cbv zeta. zcmp. repeat f_equal; apply chr_eq; zdm.
Qed.

Lemma encode_rune3 c c1 c2 :
  224 ≤ byte_val c < 240 → 128 ≤ byte_val c1 ≤ 191 → 128 ≤ byte_val c2 ≤ 191 →
  (byte_val c = 224 → 160 ≤ byte_val c1) → (byte_val c = 237 → byte_val c1 ≤ 159) →
  encode_rune (byte_val c mod 16 * 4096 + low6 c1 * 64 + low6 c2) = String c (String c1 (String c2 "")).
Proof.
  intros. rewrite !low6_val by done.
  replace (byte_val c mod 16) with (byte_val c - 224) by zdm.
  set (r := _ + _). assert (0x800 ≤ r < 0x10000) by (unfold r; lia).
  assert (r < 0xD800 ∨ 0xE000 ≤ r) as Hs.
  { unfold r. destruct (Z.le_gt_cases (byte_val c) 236); [left; lia|].
    destruct (Z.le_gt_cases (byte_val c) 237); [left|right]; lia. }
  unfold encode_rune. cbv zeta.
  replace ((r <? 0) || (0x10FFFF <? r) || ((0xD800 <=? r) && (r <? 0xE000))) with false
    by (symmetry; destruct Hs; zcmp; done || by rewrite andb_false_r).
  zcmp. unfold r. repeat f_equal; apply chr_eq; zdm.
Qed.

Lemma encode_rune4 c c1 c2 c3 :
  240 ≤ byte_val c < 245 → 128 ≤ byte_val c1 ≤ 191 → 128 ≤ byte_val c2 ≤ 191 →
  128 ≤ byte_val c3 ≤ 191 →
  (byte_val c = 240 → 144 ≤ byte_val c1) → (byte_val c = 244 → byte_val c1 ≤ 143) →
  encode_rune (byte_val c mod 8 * 262144 + low6 c1 * 4096 + low6 c2 * 64 + low6 c3)
  = String c (String c1 (String c2 (String c3 ""))).
Proof.
  intros. rewrite !low6_val by done.
  replace (byte_val c mod 8) with (byte_val c - 240) by zdm.
  set (r := _ + _). assert (0x10000 ≤ r ≤ 0x10FFFF).
  { unfold r. destruct (Z.eq_dec (byte_val c) 240), (Z.eq_dec (byte_val c) 244); lia. }
  unfold encode_rune. cbv zeta. zcmp. unfold r. repeat f_equal; apply chr_eq; zdm.
Qed.

Lemma encode_rune1 c : byte_val c < 128 → encode_rune (byte_val c) = String c "".
Proof.
  intros. pose proof (byte_val_range c). unfold encode_rune. cbv zeta. zcmp. by rewrite chr_byte.
Qed.

(** How [decode1] reads: a byte on its own, or a sequence that re-encodes to the
    bytes read and that is read in the same way whatever follows it. *)
Lemma decode1_spec c s r rest :
  decode1 c s = (r, rest) →
  (byte_val c < 128 ∧ r = byte_val c ∧ rest = s) ∨
  (128 ≤ byte_val c ∧ r = RuneError ∧ rest = s) ∨
  (128 ≤ byte_val c ∧ ∃ tl, s = tl +:+ rest ∧ tl ≠ "" ∧ encode_rune r = String c tl ∧
     ∀ x, decode1 c (tl +:+ x) = (r, x)).
Proof.
  intros D. unfold decode1 in D.
  destruct (Z.ltb_spec (byte_val c) 128); [injection D as <- <-; by left|]. right.
  destruct (Z.ltb_spec (byte_val c) 194); [injection D as <- <-; by left|].
  destruct (Z.ltb_spec (byte_val c) 224);
    [|destruct (Z.ltb_spec (byte_val c) 240); [|destruct (Z.ltb_spec (byte_val c) 245)]].
  - destruct s as [|c1 s]; [injection D as <- <-; by left|].
    destruct (cont c1) eqn:C1; injection D as <- <-; [right|by left]. split; [done|].
    exists (String c1 ""). split_and!; [done|done| |].
    + apply encode_rune2; [lia|by apply cont_low6].
    + intros x. unfold decode1. zcmp. rewrite append_cons. by rewrite C1.
  - destruct s as [|c1 [|c2 s]]; [injection D as <- <-; by left..|].
    destruct (_ && _ && _) eqn:C1; injection D as <- <-; [right|by left]. split; [done|].
    exists (String c1 (String c2 "")). split_and!; [done|done| |].
    + bools. apply encode_rune3; [lia| |by apply cont_low6|intros E|intros E].
      * destruct (byte_val c =? 224), (byte_val c =? 237); lia.
      * rewrite E in *. simpl in *. lia.
      * rewrite E in *. simpl in *. lia.
    + intros x. unfold decode1. zcmp. rewrite !append_cons. by rewrite C1.
  - destruct s as [|c1 [|c2 [|c3 s]]]; [injection D as <- <-; by left..|].
    destruct (_ && _ && _ && _) eqn:C1; injection D as <- <-; [right|by left]. split; [done|].
    exists (String c1 (String c2 (String c3 ""))). split_and!; [done|done| |].
    + bools. apply encode_rune4; [lia| |by apply cont_low6|by apply cont_low6|intros E|intros E].
      * destruct (byte_val c =? 240), (byte_val c =? 244); lia.
      * rewrite E in *. simpl in *. lia.
      * rewrite E in *. simpl in *. lia.
    + intros x. unfold decode1. zcmp. rewrite !append_cons. by rewrite C1.
  - injection D as <- <-. by left.
Qed.

Lemma decode1_length c s r rest :
  decode1 c s = (r, rest) → (String.length rest ≤ String.length s)%nat.
Proof.
  intros [(?&?&->)|[(?&?&->)|(?&tl&->&?)]]%decode1_spec; [done..|]. rewrite length_append. lia.
Qed.

(** ** Strings *)

Lemma parse_str_ascii html c f x :
  byte_val c < 128 →
  parse_str (S f) (escape_ascii html c +:+ x) = prepend (String c "") (parse_str f x).
Proof.
  intros Hc. destruct c as [[] [] [] [] [] [] [] []]; try (exfalso; revert Hc; vm_compute; congruence);
    destruct html; reflexivity.
Qed.

Lemma parse_str_u_escape r f x :
  r = RuneError ∨ r = 0x2028 ∨ r = 0x2029 →
  parse_str (S f) (u_escape r +:+ x) = prepend (encode_rune r) (parse_str f x).
Proof. intros [-> |[-> | ->]]; reflexivity. Qed.

(** A byte that does not start an ASCII character is decoded with what follows. *)
Lemma parse_str_rune c f s r rest :
  128 ≤ byte_val c → decode1 c s = (r, rest) →
  parse_str (S f) (String c s) = prepend (encode_rune r) (parse_str f rest).
Proof.
  intros Hc D. cbn [parse_str].
  assert (Ascii.eqb c dquote = false) as -> by (apply Ascii.eqb_neq; intros ->; exact (Hc eq_refl)).
  assert (Ascii.eqb c bslash = false) as -> by (apply Ascii.eqb_neq; intros ->; exact (Hc eq_refl)).
  zcmp. by rewrite D.
Qed.

Lemma prepend_some {A} x o (r : A) : prepend x (Some (o, r)) = Some (x +:+ o, r).
Proof. done. Qed.

Lemma u_escape_length r : String.length (u_escape r) = 6%nat.
Proof. done. Qed.

Lemma escape_ascii_pos html c : (1 ≤ String.length (escape_ascii html c))%nat.
Proof. unfold escape_ascii. repeat case_match; simpl; lia. Qed.

Lemma quote_parse html f s f' rest :
  (String.length s ≤ f)%nat → (String.length (quote_fuel html f s) < f')%nat →
  parse_str f' (quote_fuel html f s +:+ String dquote rest) = Some (clean_fuel f s, rest).
Proof.
  revert s f'. induction f as [|f IH]; intros s [|f'] Hf Hf'; try lia.
  { by destruct s; simpl in Hf; [|lia]. }
  destruct s as [|c s]; [done|]. cbn [quote_fuel clean_fuel] in *. simpl in Hf.
  destruct (decode1 c s) as [r rs] eqn:D.
  pose proof (decode1_length _ _ _ _ D) as Hl. apply decode1_spec in D as Ds.
  destruct (Z.ltb_spec (byte_val c) 128) as [Hc|Hc].
  - destruct Ds as [(_ & -> & ->)|[(? & _)|(? & _)]]; [|lia..].
    rewrite length_append in Hf'. pose proof (escape_ascii_pos html c).
    rewrite append_assoc, parse_str_ascii by done. rewrite IH by lia.
    by rewrite prepend_some, encode_rune1.
  - assert (∀ x, String.length x = 6%nat →
      (String.length (x +:+ quote_fuel html f rs) < S f')%nat →
      (String.length (quote_fuel html f rs) < f')%nat) as Hu by (intros x; rewrite length_append; lia).
    destruct (invalid_byte s r rs) eqn:B.
    { unfold invalid_byte in B. apply andb_true_iff in B as [B _]. apply Z.eqb_eq in B as ->.
      rewrite append_assoc, parse_str_u_escape by auto. rewrite IH by (lia || (eapply Hu; [|exact Hf']; done)). done. }
    destruct ((r =? 0x2028) || (r =? 0x2029)) eqn:L.
    { assert (r = RuneError ∨ r = 0x2028 ∨ r = 0x2029) as Hr
        by (apply orb_true_iff in L as [L|L]; apply Z.eqb_eq in L; auto).
      rewrite append_assoc, parse_str_u_escape by done. rewrite IH by (lia || (eapply Hu; [|exact Hf']; done)). done. }
    destruct Ds as [(? & _)|[(_ & -> & ->)|(_ & tl & -> & Htl & He & Hx)]]; [lia| |].
    { unfold invalid_byte in B. by rewrite Nat.eqb_refl in B. }
    replace (String.length (String c (tl +:+ rs)) - String.length rs)%nat
      with (String.length (String c tl)) in * by (simpl; rewrite length_append; lia).
    change (String c (tl +:+ rs)) with (String c tl +:+ rs) in *.
    rewrite substring_append in *. rewrite length_append in Hf'. rewrite length_append in Hl. simpl in Hf'.
    rewrite append_assoc, append_cons, (parse_str_rune _ _ _ r (quote_fuel html f rs +:+ String dquote rest));
      [|done|apply Hx].
    rewrite IH by (lia || (rewrite length_append in Hf; lia)). done.
Qed.

Lemma parse_string_quote html s rest :
  parse_string (quote_fuel html (String.length s) s +:+ String dquote rest) = Some (clean s, rest).
Proof. apply quote_parse; [done|]. rewrite length_append. simpl. lia. Qed.

(** On valid UTF-8 nothing is replaced. *)
Lemma clean_fuel_valid f s : valid_fuel f s = true → clean_fuel f s = s.
Proof.
  revert s. induction f as [|f IH]; intros [|c s]; simpl; try done.
  destruct (decode1 c s) as [r rs] eqn:D. intros [B V]%andb_true_iff. apply negb_true_iff in B.
  rewrite (IH _ V). apply decode1_spec in D as [(? & -> & ->)|[(_ & -> & ->)|(_ & tl & -> & _ & -> & _)]].
  - by rewrite encode_rune1.
  - unfold invalid_byte in B. by rewrite Nat.eqb_refl in B.
  - done.
Qed.

Lemma clean_valid s : ValidString s = true → clean s = s.
Proof. apply clean_fuel_valid. Qed.

(** ** Numbers *)

(** What may follow a value in a container or at the end of a text. *)
Definition delim (rest : string) : bool :=
  match rest with
  | EmptyString => true
  | String c _ => bool_decide (c ∈ [","; "]"; "}"; " "; "010"; "013"; "009"]%char)
  end.

Ltac delim_cases H :=
  simpl in H; apply bool_decide_eq_true in H; rewrite !elem_of_cons in H; destruct_or! H;
  [subst..|by apply elem_of_nil in H].

Fixpoint all_digits (s : string) : bool :=
  match s with EmptyString => true | String c s' => is_digit c && all_digits s' end.

Lemma all_digits_app a b : all_digits (a +:+ b) = all_digits a && all_digits b.
Proof.
  induction a as [|c a IH]; [done|]. rewrite append_cons. simpl. by rewrite IH, andb_assoc.
Qed.

Lemma is_digit_digit d : 0 ≤ d < 10 → is_digit (digit d) = true.
Proof. intros. unfold is_digit, digit. rewrite byte_val_chr by lia. by zcmp. Qed.

(** The digits of a number, without a leading zero. *)
Lemma fmt_digits_shape fuel z s :
  (0 < fuel)%nat → 0 ≤ z < 10 ^ Z.of_nat fuel →
  ∃ d ds, fmt_digits fuel z s = String (digit d) ds +:+ s ∧ 0 ≤ d < 10 ∧ all_digits ds = true ∧
    (d = 0 → z = 0 ∧ ds = "").
Proof.
  revert z s. induction fuel as [|f IH]; intros z s Hf Hz; [lia|].
  rewrite Nat2Z.inj_succ, Z.pow_succ_r in Hz by lia. cbn [fmt_digits].
  destruct (Z.ltb_spec z 10).
  { exists z, "". split_and!; [done|lia|lia|done|auto]. }
  destruct (IH (z / 10) (String (digit (z mod 10)) s)) as (d & ds & -> & Hd & Hds & H0).
  - destruct f; [simpl in Hz; lia|lia].
  - split; [apply Z.div_pos; lia|apply Z.div_lt_upper_bound; lia].
  - exists d, (ds +:+ String (digit (z mod 10)) ""). split_and!.
    + by rewrite !append_cons, append_assoc.
    + lia.
    + lia.
    + rewrite all_digits_app, Hds. simpl. by rewrite is_digit_digit by (apply Z.mod_pos_bound; lia).
    + intros E. destruct (H0 E) as [H1 _]. assert (1 ≤ z / 10) by (apply Z.div_le_lower_bound; lia). lia.
Qed.

Lemma digits_app ds rest :
  all_digits ds = true → delim rest = true → digits (ds +:+ rest) = (ds, rest).
Proof.
  intros Hd Hr. induction ds as [|c ds IH].
  - change (digits rest = ("", rest)). destruct rest as [|c rest]; [done|].
    assert (is_digit c = false) as E.
    { by delim_cases Hr. }
    simpl. by rewrite E.
  - rewrite append_cons. simpl in Hd |- *. apply andb_true_iff in Hd as [-> Hd]. by rewrite IH.
Qed.

Lemma delim_no_frac rest : delim rest = true → parse_frac rest = Some ("", rest) ∧ parse_exp rest = Some ("", rest).
Proof.
  destruct rest as [|c rest]; [done|]. intros Hr. by delim_cases Hr.
Qed.

Lemma digit_zero d : 0 ≤ d < 10 → Ascii.eqb (digit d) "0"%char = (d =? 0).
Proof.
  intros Hd. assert (d = 0 ∨ d = 1 ∨ d = 2 ∨ d = 3 ∨ d = 4 ∨ d = 5 ∨ d = 6 ∨ d = 7 ∨ d = 8 ∨ d = 9)
    as Hc by lia. destruct_or! Hc; subst d; reflexivity.
Qed.

Lemma parse_unsigned_digits d ds rest :
  0 ≤ d < 10 → all_digits ds = true → (d = 0 → ds = "") → delim rest = true →
  parse_unsigned (String (digit d) ds +:+ rest) = Some (String (digit d) ds, rest).
Proof.
  intros Hd Hds H0 Hr. destruct (delim_no_frac rest Hr) as [F E]. unfold parse_unsigned.
  assert (parse_int_part (String (digit d) ds +:+ rest) = Some (String (digit d) ds, rest)) as ->.
  { unfold parse_int_part. rewrite append_cons, digit_zero by done.
    destruct (Z.eqb_spec d 0) as [->|Hn].
    - by rewrite (H0 eq_refl).
    - unfold digits1. rewrite <- append_cons, digits_app; [done| |done].
      simpl. by rewrite is_digit_digit, Hds. }
  rewrite F, E. rewrite prepend_some. by rewrite !append_nil_r.
Qed.

Lemma parse_num_FormatInt z rest :
  in_int64 z → delim rest = true → parse_num (FormatInt z +:+ rest) = Some (FormatInt z, rest).
Proof.
  intros Hz Hr. unfold FormatInt, in_int64 in *. destruct (Z.ltb_spec z 0).
  - destruct (fmt_digits_shape 20 (- z) "") as (d & ds & -> & Hd & Hds & H0); [lia|lia|].
    rewrite !append_nil_r. change (String "-" ?x +:+ rest) with (String "-" (x +:+ rest)).
    unfold parse_num. simpl. rewrite parse_unsigned_digits by naive_solver. done.
  - destruct (fmt_digits_shape 20 z "") as (d & ds & -> & Hd & Hds & H0); [lia|lia|].
    rewrite append_nil_r. unfold parse_num.
    assert (Ascii.eqb (digit d) "-"%char = false) as E.
    { apply Ascii.eqb_neq. intros E. apply (f_equal byte_val) in E. unfold digit in E.
      rewrite byte_val_chr in E by lia. vm_compute byte_val in E. lia. }
    rewrite append_cons, E, <- append_cons. apply parse_unsigned_digits; naive_solver.
Qed.

Lemma FormatInt_head z rest :
  in_int64 z → ∃ c s, FormatInt z +:+ rest = String c s ∧
    (c = "-"%char ∨ ∃ d, 0 ≤ d < 10 ∧ c = digit d).
Proof.
  intros Hz. unfold FormatInt, in_int64 in *. destruct (Z.ltb_spec z 0).
  - eexists _, _. split; [by rewrite append_cons|by left].
  - destruct (fmt_digits_shape 20 z "") as (d & ds & -> & Hd & Hds & H0); [lia|lia|].
    rewrite append_nil_r, append_cons. eexists _, _. split; [done|]. right. eauto.
Qed.

(** ** Values *)

Lemma json_ind_nested (P : json → Prop) :
  P JNull → (∀ b, P (JBool b)) → (∀ n, P (JNum n)) → (∀ s, P (JStr s)) →
  (∀ l, Forall P l → P (JArr l)) → (∀ l, Forall (λ kv, P kv.2) l → P (JObj l)) → ∀ v, P v.
Proof.
  intros H1 H2 H3 H4 H5 H6. fix IH 1. intros [|b|n|s|l|l]; [exact H1|exact (H2 b)|exact (H3 n)|exact (H4 s)| |].
  - apply H5. induction l as [|x l IHl]; constructor; [apply IH|exact IHl].
  - apply H6. induction l as [|[k x] l IHl]; constructor; [apply IH|exact IHl].
Qed.

(** The values the program encodes: their numbers are [int64]s. *)
Fixpoint int_numbers (v : json) : Prop :=
  match v with
  | JNum lit => ∃ z, in_int64 z ∧ lit = FormatInt z
  | JArr l => foldr (λ x P, int_numbers x ∧ P) True l
  | JObj l => foldr (λ kv P, int_numbers kv.2 ∧ P) True l
  | _ => True
  end.

(** Every string and key with its invalid bytes replaced. *)
Fixpoint clean_json (v : json) : json :=
  match v with
  | JStr s => JStr (clean s)
  | JArr l => JArr (map clean_json l)
  | JObj l => JObj (map (λ kv, (clean kv.1, clean_json kv.2)) l)
  | _ => v
  end.

Fixpoint steps (v : json) : nat :=
  match v with
  | JArr l => S (foldr (λ x n, S (steps x + n)) O l)
  | JObj l => S (foldr (λ kv n, S (steps kv.2 + n)) O l)
  | _ => 1
  end.

Fixpoint nesting (v : json) : Z :=
  match v with
  | JArr l => 1 + foldr (λ x n, Z.max (nesting x) n) 0 l
  | JObj l => 1 + foldr (λ kv n, Z.max (nesting kv.2) n) 0 l
  | _ => 0
  end.

(** A value's text starts neither with white space nor with a closing bracket. *)
Definition value_start (c : ascii) : bool :=
  negb (is_ws c) && negb (Ascii.eqb c "]"%char) && negb (Ascii.eqb c "}"%char).

Lemma digit_cases (P : ascii → Prop) :
  P "0"%char → P "1"%char → P "2"%char → P "3"%char → P "4"%char → P "5"%char → P "6"%char →
  P "7"%char → P "8"%char → P "9"%char → ∀ d, 0 ≤ d < 10 → P (digit d).
Proof.
  intros. assert (d = 0 ∨ d = 1 ∨ d = 2 ∨ d = 3 ∨ d = 4 ∨ d = 5 ∨ d = 6 ∨ d = 7 ∨ d = 8 ∨ d = 9)
    as Hc by lia. destruct_or! Hc; by subst d.
Qed.

Lemma marshal_start html v rest :
  int_numbers v → ∃ c s, marshal html v +:+ rest = String c s ∧ value_start c = true.
Proof.
  destruct v as [|[]| | | |]; cbn [marshal]; try (intros; eexists _, _; split; [rewrite ?append_cons; done|done]).
  intros (z & Hz & ->). destruct (FormatInt_head z rest Hz) as (c & s & -> & Hc).
  exists c, s. split; [done|]. destruct Hc as [->|(d & Hd & ->)]; [done|]. by apply digit_cases.
Qed.

Lemma skip_ws_start c s : value_start c = true → skip_ws (String c s) = String c s.
Proof. unfold value_start. intros. bools. simpl. by destruct (is_ws c). Qed.

Definition reads (html : bool) (v : json) : Prop :=
  ∀ f d rest, (steps v ≤ f)%nat → d + nesting v ≤ maxNestingDepth → delim rest = true →
    parse_value f d (marshal html v +:+ rest) = Some (clean_json v, rest).

Definition tail_elems (html : bool) (l : list json) : string :=
  foldr (λ y acc, String "," (marshal html y) +:+ acc) "" l.
Definition member (html : bool) (kv : string * json) : string :=
  quote html kv.1 +:+ String ":" (marshal html kv.2).
Definition tail_members (html : bool) (l : list (string * json)) : string :=
  foldr (λ y acc, String "," (member html y) +:+ acc) "" l.

Lemma delim_tail html l rest : delim (tail_elems html l +:+ String "]" rest) = true.
Proof. by destruct l. Qed.
Lemma delim_tail_members html l rest : delim (tail_members html l +:+ String "}" rest) = true.
Proof. by destruct l. Qed.

Lemma skip_ws_tail html l rest :
  skip_ws (tail_elems html l +:+ String "]" rest) = tail_elems html l +:+ String "]" rest.
Proof. by destruct l. Qed.
Lemma skip_ws_tail_members html l rest :
  skip_ws (tail_members html l +:+ String "}" rest) = tail_members html l +:+ String "}" rest.
Proof. by destruct l. Qed.

Lemma parse_elems_reads html l x f d rest :
  Forall (reads html) (x :: l) →
  (foldr (λ y n, S (steps y + n)) O (x :: l) ≤ f)%nat →
  d + foldr (λ y n, Z.max (nesting y) n) 0 (x :: l) ≤ maxNestingDepth →
  parse_elems f d (marshal html x +:+ (tail_elems html l +:+ String "]" rest))
  = Some (map clean_json (x :: l), rest).
Proof.
  revert x f. induction l as [|y l IH]; intros x f [Hx Hl]%Forall_cons Hf Hd; cbn [foldr] in Hf, Hd;
    (destruct f as [|f]; [lia|]); cbn [parse_elems];
    rewrite Hx by (lia || apply delim_tail); rewrite skip_ws_tail.
  - done.
  - cbn [tail_elems foldr]. rewrite !append_cons. cbn -[parse_elems maxNestingDepth].
    rewrite append_assoc, IH; [done|done|cbn [foldr]; lia|cbn [foldr]; lia].
Qed.

Lemma member_text html k v rest :
  member html (k, v) +:+ rest
  = String dquote (quote_fuel html (String.length k) k +:+ String dquote (String ":" (marshal html v +:+ rest))).
Proof. unfold member, quote. cbn [fst snd]. by rewrite !append_cons, !append_assoc, !append_cons. Qed.

Lemma parse_members_step html k v f d rest :
  parse_members (S f) d (member html (k, v) +:+ rest)
  = match parse_value f d (marshal html v +:+ rest) with
    | None => None
    | Some (x, s4) =>
        match skip_ws s4 with
        | String c5 s5 =>
            if Ascii.eqb c5 ","%char then
              match parse_members f d s5 with
              | Some (l, r) => Some ((clean k, x) :: l, r)
              | None => None
              end
            else if Ascii.eqb c5 "}"%char then Some ([(clean k, x)], s5) else None
        | EmptyString => None
        end
    end.
Proof.
  rewrite member_text. cbn [parse_members].
  change (skip_ws (String dquote ?x)) with (String dquote x). cbv beta iota.
  rewrite Ascii.eqb_refl, parse_string_quote. reflexivity.
Qed.

Lemma parse_members_reads html l kv f d rest :
  Forall (λ kv, reads html kv.2) (kv :: l) →
  (foldr (λ y n, S (steps y.2 + n)) O (kv :: l) ≤ f)%nat →
  d + foldr (λ y n, Z.max (nesting y.2) n) 0 (kv :: l) ≤ maxNestingDepth →
  parse_members f d (member html kv +:+ (tail_members html l +:+ String "}" rest))
  = Some (map (λ kv, (clean kv.1, clean_json kv.2)) (kv :: l), rest).
Proof.
  revert kv f. induction l as [|y l IH]; intros [k v] f [Hx Hl]%Forall_cons Hf Hd;
    cbn [foldr fst snd] in Hf, Hd, Hx; (destruct f as [|f]; [lia|]);
    rewrite parse_members_step;
    rewrite Hx by (lia || apply delim_tail_members); rewrite skip_ws_tail_members.
  - done.
  - cbn [tail_members foldr]. rewrite !append_cons. cbn -[parse_members maxNestingDepth].
    rewrite append_assoc, IH; [done|done|cbn [foldr]; lia|cbn [foldr]; lia].
Qed.

Lemma parse_value_num f d c s lit rest :
  (c = "-"%char ∨ ∃ e, 0 ≤ e < 10 ∧ c = digit e) →
  parse_num (String c s) = Some (lit, rest) →
  parse_value (S f) d (String c s) = Some (JNum lit, rest).
Proof.
  assert (∀ c, value_start c = true → Ascii.eqb c "{"%char = false → Ascii.eqb c "["%char = false →
    Ascii.eqb c dquote = false → Ascii.eqb c "t"%char = false → Ascii.eqb c "f"%char = false →
    Ascii.eqb c "n"%char = false → parse_num (String c s) = Some (lit, rest) →
    parse_value (S f) d (String c s) = Some (JNum lit, rest)) as H.
  { intros x Hx E1 E2 E3 E4 E5 E6 P. cbn [parse_value]. rewrite skip_ws_start by done.
    by rewrite E1, E2, E3, E4, E5, E6, P. }
  intros [-> |(e & He & ->)]; [by apply H|]. revert e He.
  apply (digit_cases (λ c, parse_num (String c s) = Some (lit, rest) →
    parse_value (S f) d (String c s) = Some (JNum lit, rest))); by apply H.
Qed.

Lemma parse_value_str html f d s rest :
  parse_value (S f) d (quote html s +:+ rest) = Some (JStr (clean s), rest).
Proof.
  unfold quote. rewrite append_cons, append_assoc, append_cons. cbn [parse_value].
  change (skip_ws (String dquote ?x)) with (String dquote x). cbv beta iota.
  change (Ascii.eqb dquote "{"%char) with false. change (Ascii.eqb dquote "["%char) with false.
  rewrite Ascii.eqb_refl, parse_string_quote. done.
Qed.

(** A container opens, and its first element or member follows at once. *)
Lemma parse_value_arr f d c s :
  d < maxNestingDepth → value_start c = true →
  parse_value (S f) d (String "[" (String c s))
  = match parse_elems f (d + 1) (String c s) with
    | Some (l, r) => Some (JArr l, r)
    | None => None
    end.
Proof.
  intros Hd Hc. cbn [parse_value]. change (skip_ws (String "[" ?x)) with (String "[" x). cbv beta iota.
  change (Ascii.eqb "[" "{") with false. change (Ascii.eqb "[" "[") with true. cbv beta iota.
  rewrite (proj2 (Z.leb_gt _ _)) by done. rewrite skip_ws_start by done.
  unfold value_start in Hc. bools. by replace (Ascii.eqb c "]"%char) with false.
Qed.

Lemma parse_value_obj f d c s :
  d < maxNestingDepth → value_start c = true →
  parse_value (S f) d (String "{" (String c s))
  = match parse_members f (d + 1) (String c s) with
    | Some (l, r) => Some (JObj l, r)
    | None => None
    end.
Proof.
  intros Hd Hc. cbn [parse_value]. change (skip_ws (String "{" ?x)) with (String "{" x). cbv beta iota.
  change (Ascii.eqb "{" "{") with true. cbv beta iota.
  rewrite (proj2 (Z.leb_gt _ _)) by done. rewrite skip_ws_start by done.
  unfold value_start in Hc. bools. by replace (Ascii.eqb c "}"%char) with false.
Qed.

Lemma parse_value_empty f d rest :
  d < maxNestingDepth →
  parse_value (S f) d (String "[" (String "]" rest)) = Some (JArr [], rest) ∧
  parse_value (S f) d (String "{" (String "}" rest)) = Some (JObj [], rest).
Proof.
  intros Hd. cbn [parse_value]. change (skip_ws (String "[" ?x)) with (String "[" x).
  change (skip_ws (String "{" ?x)) with (String "{" x). cbv beta iota.
  rewrite (proj2 (Z.leb_gt _ _)) by done. done.
Qed.

Lemma foldr_and_Forall {A} (P : A → Prop) l : foldr (λ x Q, P x ∧ Q) True l ↔ Forall P l.
Proof. induction l as [|x l IH]; simpl; [done|]. by rewrite Forall_cons, IH. Qed.

Lemma nesting_fold {A} (g : A → Z) l : 0 ≤ foldr (λ x n, Z.max (g x) n) 0 l.
Proof. induction l as [|x l IH]; simpl; lia. Qed.

Lemma Forall_mp {A} (P Q : A → Prop) l : Forall (λ x, P x → Q x) l → Forall P l → Forall Q l.
Proof. rewrite !Forall_forall. naive_solver. Qed.

(** The decoder reads back what the encoder wrote. *)
Lemma marshal_reads html v : int_numbers v → reads html v.
Proof.
  induction v as [| | | |l IH|l IH] using json_ind_nested; intros Hi f d rest Hf Hd Hr;
    cbn [steps nesting] in Hf, Hd; (destruct f as [|f]; [lia|]).
  - reflexivity.
  - by destruct b.
  - destruct Hi as (z & Hz & ->). cbn [marshal clean_json].
    pose proof (parse_num_FormatInt z rest Hz Hr) as P.
    destruct (FormatInt_head z rest Hz) as (c & s & E & Hc). rewrite E in *. by apply parse_value_num.
  - apply parse_value_str.
  - cbn [int_numbers] in Hi. apply foldr_and_Forall in Hi. pose proof (Forall_mp _ _ _ IH Hi) as Hl.
    destruct l as [|x l]; [apply (parse_value_empty f d rest); cbn in Hd; lia|].
    pose proof (nesting_fold nesting (x :: l)). cbn [marshal comma_sep clean_json].
    rewrite append_cons, !append_assoc. fold (tail_elems html l).
    change ("]" +:+ rest) with (String "]" rest).
    destruct (marshal_start html x (tail_elems html l +:+ String "]" rest)) as (c & s & E & Hc).
    { by apply Forall_cons in Hi as [? _]. }
    rewrite E, parse_value_arr, <- E by (done || lia).
    rewrite parse_elems_reads by (done || lia). done.
  - cbn [int_numbers] in Hi. apply (foldr_and_Forall (λ kv, int_numbers kv.2)) in Hi.
    pose proof (Forall_mp _ _ _ IH Hi) as Hl.
    destruct l as [|x l]; [apply (parse_value_empty f d rest); cbn in Hd; lia|].
    pose proof (nesting_fold (λ kv, nesting kv.2) (x :: l)).
    change (marshal html (JObj (x :: l)) +:+ rest)
      with (String "{" ((member html x +:+ tail_members html l) +:+ "}") +:+ rest).
    rewrite append_cons, !append_assoc.
    change ("}" +:+ rest) with (String "}" rest).
    assert (∃ s, member html x +:+ tail_members html l +:+ String "}" rest = String dquote s) as [s E].
    { destruct x as [k v]. rewrite member_text. by eexists. }
    rewrite E, parse_value_obj, <- E by (done || lia).
    rewrite parse_members_reads by (done || lia). done.
Qed.

Lemma tail_elems_steps html l :
  Forall (λ v, steps v ≤ 2 * String.length (marshal html v))%nat l →
  (foldr (λ y n, S (steps y + n)) O l ≤ 2 * String.length (tail_elems html l))%nat.
Proof.
  induction 1 as [|x l Hx _ IH]; [done|]. cbn [tail_elems foldr] in *. fold (tail_elems html l) in *.
  rewrite length_append. simpl. lia.
Qed.

Lemma tail_members_steps html l :
  Forall (λ kv, steps kv.2 ≤ 2 * String.length (marshal html kv.2))%nat l →
  (foldr (λ y n, S (steps y.2 + n)) O l ≤ 2 * String.length (tail_members html l))%nat.
Proof.
  induction 1 as [|[k x] l Hx _ IH]; [done|]. cbn [tail_members foldr snd] in *.
  fold (tail_members html l) in *. rewrite length_append.
  change (String.length (String "," (member html (k, x)))) with (S (String.length (member html (k, x)))).
  unfold member. rewrite length_append. simpl in *. lia.
Qed.

Lemma steps_length html v : int_numbers v → (steps v ≤ 2 * String.length (marshal html v))%nat.
Proof.
  induction v as [|b|lit|s|l IH|l IH] using json_ind_nested; intros Hi; cbn [marshal].
  - simpl. lia.
  - destruct b; simpl; lia.
  - destruct Hi as (z & Hz & ->). destruct (FormatInt_head z "" Hz) as (c & s & E & _).
    rewrite append_nil_r in E. rewrite E. simpl. lia.
  - unfold quote. simpl. lia.
  - cbn [int_numbers] in Hi. apply foldr_and_Forall in Hi.
    pose proof (tail_elems_steps html l (Forall_mp _ _ _ IH Hi)) as H.
    destruct l as [|x l]; [simpl; lia|]. cbn [tail_elems comma_sep steps] in *.
    change (foldr _ "" (x :: l)) with (String "," (marshal html x) +:+ tail_elems html l) in H.
    fold (tail_elems html l). simpl. rewrite !length_append in *. simpl in *. rewrite ?length_append in *. lia.
  - cbn [int_numbers] in Hi. apply (foldr_and_Forall (λ kv, int_numbers kv.2)) in Hi.
    pose proof (tail_members_steps html l (Forall_mp _ _ _ IH Hi)) as H.
    destruct l as [|x l]; [simpl; lia|].
    change (String.length (String "{" ?y)) with (S (String.length y)).
    change (comma_sep _ (x :: l)) with (member html x +:+ tail_members html l).
    change (tail_members html (x :: l)) with (String "," (member html x) +:+ tail_members html l) in H.
    rewrite !length_append in *. simpl in *. rewrite ?length_append in *. lia.
Qed.

(** The round trip of a text, which may be followed by white space. *)
Lemma parse_marshal html v ws :
  int_numbers v → nesting v ≤ maxNestingDepth → delim ws = true → skip_ws ws = "" →
  parse (marshal html v +:+ ws) = Some (clean_json v).
Proof.
  intros Hi Hn Hd Hw. unfold parse, fuel_for.
  rewrite (marshal_reads html v Hi); [by rewrite Hw| |lia|done].
  pose proof (steps_length html v Hi). rewrite length_append. lia.
Qed.

(** ** Members in any order *)

Lemma foldl_permuted {A B K} (f : B → A → B) (key : A → K) (P : A → Prop) l l' b :
  (∀ x y b, P x → P y → key x ≠ key y → f (f b x) y = f (f b y) x) →
  l ≡ₚ l' → Forall P l → NoDup (key <$> l) → foldl f b l = foldl f b l'.
Proof.
  intros Hc Hl. revert b. induction Hl as [|x l l' Hl IH|x y l|l1 l2 l3 H1 IH1 H2 IH2]; intros b HP Hn.
  - done.
  - apply Forall_cons in HP as [_ HP]. apply NoDup_cons in Hn as [_ Hn]. simpl. by apply IH.
  - rewrite !Forall_cons in HP. destruct HP as (Hx & Hy & _).
    rewrite fmap_cons, NoDup_cons in Hn. destruct Hn as [Hn _].
    simpl. rewrite Hc; [done|done|done|]. intros E. apply Hn. rewrite fmap_cons, E. by left.
  - rewrite IH1 by done. apply IH2; [by rewrite <- H1|by rewrite <- H1].
Qed.

(** ** Raw messages *)

Lemma raw_members_step html k v f d rest :
  int_numbers v →
  raw_members (S f) d (member html (k, v) +:+ rest)
  = match parse_value f d (marshal html v +:+ rest) with
    | None => None
    | Some (_, s4) =>
        let t := marshal html v +:+ rest in
        let raw := String.substring 0 (String.length t - String.length s4) t in
        match skip_ws s4 with
        | String c5 s5 =>
            if Ascii.eqb c5 ","%char then
              match raw_members f d s5 with
              | Some (l, r) => Some ((clean k, raw) :: l, r)
              | None => None
              end
            else if Ascii.eqb c5 "}"%char then Some ([(clean k, raw)], s5) else None
        | EmptyString => None
        end
    end.
Proof.
  intros Hi. destruct (marshal_start html v rest Hi) as (c & s & E & Hc).
  rewrite member_text. cbn [raw_members].
  change (skip_ws (String dquote ?x)) with (String dquote x). cbv beta iota.
  rewrite Ascii.eqb_refl, parse_string_quote. cbv beta iota.
  change (skip_ws (String ":" ?x)) with (String ":" x). cbv beta iota.
  change (Ascii.eqb ":" ":") with true. cbv beta iota. rewrite E.
  by rewrite (skip_ws_start c s) by done.
Qed.

Lemma raw_members_reads html l kv f d rest :
  Forall (λ kv, int_numbers kv.2) (kv :: l) →
  (foldr (λ y n, S (steps y.2 + n)) O (kv :: l) ≤ f)%nat →
  d + foldr (λ y n, Z.max (nesting y.2) n) 0 (kv :: l) ≤ maxNestingDepth →
  raw_members f d (member html kv +:+ (tail_members html l +:+ String "}" rest))
  = Some (map (λ kv, (clean kv.1, marshal html kv.2)) (kv :: l), rest).
Proof.
  revert kv f. induction l as [|y l IH]; intros [k v] f [Hx Hl]%Forall_cons Hf Hd;
    cbn [foldr fst snd] in Hf, Hd, Hx; (destruct f as [|f]; [lia|]);
    rewrite raw_members_step by done;
    rewrite (marshal_reads html v Hx) by (lia || apply delim_tail_members); rewrite skip_ws_tail_members;
    cbv zeta; rewrite length_append, Nat.add_sub, substring_append.
  - done.
  - cbn [tail_members foldr]. rewrite !append_cons. cbn -[raw_members maxNestingDepth].
    rewrite append_assoc, IH; [done|done|cbn [foldr]; lia|cbn [foldr]; lia].
Qed.

Lemma raw_object_marshal html kv l ws :
  int_numbers (JObj (kv :: l)) → nesting (JObj (kv :: l)) ≤ maxNestingDepth →
  raw_object (marshal html (JObj (kv :: l)) +:+ ws)
  = map (λ kv, (clean kv.1, marshal html kv.2)) (kv :: l).
Proof.
  intros Hi Hn. pose proof (steps_length html _ Hi) as Hs.
  unfold raw_object, fuel_for. rewrite length_append.
  cbn [int_numbers] in Hi. apply (foldr_and_Forall (λ kv, int_numbers kv.2)) in Hi.
  cbn [nesting] in Hn.
  remember (S (2 * (String.length (marshal html (JObj (kv :: l))) + String.length ws))) as f eqn:Ef.
  change (marshal html (JObj (kv :: l)) +:+ ws)
    with (String "{" ((member html kv +:+ tail_members html l) +:+ "}") +:+ ws).
  rewrite append_cons, !append_assoc. change (skip_ws (String "{" ?x)) with (String "{" x).
  change (Ascii.eqb "{" "{") with true. cbv beta iota.
  change ("}" +:+ ws) with (String "}" ws).
  rewrite raw_members_reads; [done|done| |lia].
  change (steps (JObj (kv :: l))) with (S (foldr (λ y n, S (steps y.2 + n)) O (kv :: l))) in Hs. lia.
Qed.

(** ** Framing: an encoded value has no newline *)

Fixpoint nl_free (s : string) : bool :=
  match s with EmptyString => true | String c s' => negb (byte_val c =? 10) && nl_free s' end.

Lemma nl_free_app a b : nl_free (a +:+ b) = nl_free a && nl_free b.
Proof.
  induction a as [|c a IH]; [done|]. rewrite append_cons. simpl. by rewrite IH, andb_assoc.
Qed.

Lemma nl_free_escape html c : nl_free (escape_ascii html c) = true.
Proof. destruct c as [[] [] [] [] [] [] [] []], html; vm_compute; reflexivity. Qed.

Lemma nl_free_u_escape r : r = RuneError ∨ r = 0x2028 ∨ r = 0x2029 → nl_free (u_escape r) = true.
Proof. by intros [-> |[-> | ->]]. Qed.

Lemma nl_free_chr z s : 11 ≤ z < 256 → nl_free (String (chr z) s) = nl_free s.
Proof. intros. cbn [nl_free]. rewrite byte_val_chr by lia. by zcmp. Qed.

Lemma nl_free_encode_rune r : 11 ≤ r → nl_free (encode_rune r) = true.
Proof.
  intros Hr. unfold encode_rune. cbv zeta.
  set (x := if (r <? 0) || (0x10FFFF <? r) || ((0xD800 <=? r) && (r <? 0xE000)) then RuneError else r).
  assert (11 ≤ x ≤ 0x10FFFF) as Hx.
  { unfold x, RuneError. destruct (_ || _) eqn:E; [lia|]. apply orb_false_iff in E as [E _]. bools. lia. }
  clearbody x. destruct (Z.ltb_spec x 0x80); [rewrite nl_free_chr by lia; done|].
  destruct (Z.ltb_spec x 0x800); [rewrite !nl_free_chr by zdm; done|].
  destruct (Z.ltb_spec x 0x10000); rewrite !nl_free_chr by zdm; done.
Qed.

Lemma nl_free_quote html f s : nl_free (quote_fuel html f s) = true.
Proof.
  revert s. induction f as [|f IH]; intros [|c s]; try done. cbn [quote_fuel].
  destruct (decode1 c s) as [r rs] eqn:D. apply decode1_spec in D as Ds.
  destruct (Z.ltb_spec (byte_val c) 128); [by rewrite nl_free_app, nl_free_escape, IH|].
  destruct (invalid_byte s r rs) eqn:B; [rewrite nl_free_app, nl_free_u_escape, IH; auto|].
  destruct ((r =? 0x2028) || (r =? 0x2029)) eqn:L.
  { rewrite nl_free_app, nl_free_u_escape, IH; [done|]. apply orb_true_iff in L as [L|L]; bools; auto. }
  rewrite nl_free_app, IH, andb_true_r.
  destruct Ds as [(? & _)|[(_ & -> & ->)|(_ & tl & -> & _ & He & _)]]; [lia| |].
  { unfold invalid_byte in B. by rewrite Nat.eqb_refl in B. }
  replace (String.length (String c (tl +:+ rs)) - String.length rs)%nat
    with (String.length (String c tl)) by (simpl; rewrite length_append; lia).
  change (String c (tl +:+ rs)) with (String c tl +:+ rs). rewrite substring_append, <- He.
  apply nl_free_encode_rune. destruct (Z.le_gt_cases 11 r); [done|exfalso].
  assert (∃ z, encode_rune r = String (chr z) "" ∧ 0 ≤ z < 128 ∨ r < 0) as [z [[Hz Hr]|Hr]].
  { destruct (Z.ltb_spec r 0); [exists 0; by right|]. exists r. left. unfold encode_rune. cbv zeta. zcmp.
    split; [done|lia]. }
  - rewrite Hz in He. injection He as <- _. rewrite byte_val_chr in *; lia.
  - clear He. unfold invalid_byte in B.
    enough (0 ≤ r) by lia. unfold decode1 in D. repeat case_match; simplify_eq; unfold RuneError, low6; try lia.
    all: pose proof (byte_val_range c); Z.to_euclidean_division_equations; lia.
Qed.

Lemma nl_free_digits s : all_digits s = true → nl_free s = true.
Proof.
  induction s as [|c s IH]; simpl; [done|]. unfold is_digit. intros [Hc Hs]%andb_true_iff. bools.
  rewrite IH by done. by zcmp.
Qed.

Lemma nl_free_FormatInt z : in_int64 z → nl_free (FormatInt z) = true.
Proof.
  intros Hz. unfold FormatInt, in_int64 in *. destruct (Z.ltb_spec z 0).
  - destruct (fmt_digits_shape 20 (- z) "") as (d & ds & -> & Hd & Hds & _); [lia|lia|].
    rewrite append_nil_r. cbn [nl_free]. rewrite (nl_free_digits ds) by done.
    revert d Hd. by apply (digit_cases (λ c, _ && (negb (byte_val c =? 10) && true) = true)).
  - destruct (fmt_digits_shape 20 z "") as (d & ds & -> & Hd & Hds & _); [lia|lia|].
    rewrite append_nil_r. cbn [nl_free]. rewrite (nl_free_digits ds) by done.
    revert d Hd. by apply (digit_cases (λ c, negb (byte_val c =? 10) && true = true)).
Qed.

Lemma nl_free_quoted html s : nl_free (quote html s) = true.
Proof. unfold quote. cbn [nl_free]. by rewrite nl_free_app, nl_free_quote. Qed.

Lemma nl_free_comma {A} (g : A → string) l :
  Forall (λ x, nl_free (g x) = true) l → nl_free (comma_sep g l) = true.
Proof.
  intros H. destruct H as [|x l Hx Hl]; [done|]. cbn [comma_sep]. rewrite nl_free_app, Hx.
  induction Hl as [|y l Hy _ IH]; [done|]. cbn [foldr]. rewrite nl_free_app. cbn [nl_free].
  by rewrite Hy.
Qed.

Lemma marshal_nl_free html v : int_numbers v → nl_free (marshal html v) = true.
Proof.
  induction v as [|b|lit|s|l IH|l IH] using json_ind_nested; intros Hi; cbn [marshal].
  - done.
  - by destruct b.
  - destruct Hi as (z & Hz & ->). by apply nl_free_FormatInt.
  - apply nl_free_quoted.
  - cbn [int_numbers] in Hi. apply foldr_and_Forall in Hi.
    cbn [nl_free]. rewrite nl_free_app, nl_free_comma; [done|]. by eapply Forall_mp.
  - cbn [int_numbers] in Hi. apply (foldr_and_Forall (λ kv, int_numbers kv.2)) in Hi.
    cbn [nl_free]. rewrite nl_free_app, nl_free_comma; [done|].
    eapply Forall_impl; [exact (Forall_mp _ _ _ IH Hi)|].
    intros [k v] Hv. rewrite nl_free_app, nl_free_quoted. simpl in *. by rewrite Hv.
Qed.

(** ** Fuel: two steps per byte are enough for every text *)

Lemma skip_ws_length s : (String.length (skip_ws s) ≤ String.length s)%nat.
Proof. induction s as [|c s IH]; simpl; [done|]. destruct (is_ws c); simpl; lia. Qed.

Lemma hex4_length s r s' : hex4 s = Some (r, s') → (String.length s' ≤ String.length s)%nat.
Proof. unfold hex4. intros. repeat case_match; simplify_eq. simpl. lia. Qed.

Lemma u_rune_length s r s' : u_rune s = Some (r, s') → (String.length s' ≤ String.length s)%nat.
Proof.
  unfold u_rune. destruct (hex4 s) as [[x s1]|] eqn:E; [|done]. apply hex4_length in E.
  destruct (_ && _); [|intros [= _ <-]; simpl in *; lia].
  destruct s1 as [|a [|b s2]]; try (intros [= _ <-]; simpl in *; lia).
  destruct (Ascii.eqb a bslash && _); [|intros [= _ <-]; simpl in *; lia].
  destruct (hex4 s2) as [[y s3]|] eqn:E2; [|intros [= _ <-]; simpl in *; lia].
  apply hex4_length in E2. destruct (surrogate_pair x y); intros [= _ <-]; simpl in *; lia.
Qed.

Lemma prepend_length {A} x (k : option (string * A)) o r :
  prepend x k = Some (o, r) → ∃ o', k = Some (o', r).
Proof. destruct k as [[o' r']|]; simpl; [|done]. intros [= _ <-]. eauto. Qed.

Lemma parse_str_length f s o r : parse_str f s = Some (o, r) → (String.length r < String.length s)%nat.
Proof.
  revert s o r. induction f as [|f IH]; intros [|c s] o r; try done. cbn [parse_str String.length].
  destruct (Ascii.eqb c dquote); [intros [= _ <-]; lia|].
  destruct (Ascii.eqb c bslash).
  { destruct s as [|e s]; [done|]. destruct (Ascii.eqb e _).
    - destruct (u_rune s) as [[x s3]|] eqn:E; [|done]. apply u_rune_length in E.
      intros (o' & ?%IH)%prepend_length. simpl. lia.
    - destruct (simple_escape e); [|done]. intros (o' & ?%IH)%prepend_length. simpl. lia. }
  destruct (_ <? 32); [done|]. destruct (_ <? 128).
  - intros (o' & ?%IH)%prepend_length. lia.
  - destruct (decode1 c s) as [x rs] eqn:D. apply decode1_length in D.
    intros (o' & ?%IH)%prepend_length. lia.
Qed.

Lemma digits_length s d r : digits s = (d, r) → (String.length r ≤ String.length s)%nat.
Proof.
  revert d r. induction s as [|c s IH]; intros d r; simpl; [intros [= _ <-]; done|].
  destruct (is_digit c); [|intros [= _ <-]; done]. destruct (digits s) as [d' r'] eqn:E.
  intros [= _ <-]. specialize (IH _ _ eq_refl). lia.
Qed.

Lemma digits1_length s d r : digits1 s = Some (d, r) → (String.length r < String.length s)%nat.
Proof.
  unfold digits1. destruct s as [|c s]; [done|]. simpl. destruct (is_digit c); [|done].
  destruct (digits s) as [d' r'] eqn:E. apply digits_length in E. intros [= _ <-]. simpl. lia.
Qed.

Lemma parse_num_length s d r : parse_num s = Some (d, r) → (String.length r < String.length s)%nat.
Proof.
  assert (∀ s d r, parse_frac s = Some (d, r) → (String.length r ≤ String.length s)%nat) as Hf.
  { intros [|c t] x y; cbn [parse_frac]; [intros [= _ <-]; done|].
    destruct (Ascii.eqb c _); [|intros [= _ <-]; done].
    intros (o & ?%digits1_length)%prepend_length. simpl. lia. }
  assert (∀ s d r, parse_exp s = Some (d, r) → (String.length r ≤ String.length s)%nat) as He.
  { intros [|c t] x y; cbn [parse_exp]; [intros [= _ <-]; done|].
    destruct (_ || _); [|intros [= _ <-]; done]. intros (o & H)%prepend_length.
    destruct t as [|g t]; [done|]. destruct (_ || _).
    - apply prepend_length in H as (o2 & ?%digits1_length). simpl. lia.
    - apply digits1_length in H. simpl in *. lia. }
  assert (∀ s d r, parse_unsigned s = Some (d, r) → (String.length r < String.length s)%nat) as Hu.
  { intros t x y. unfold parse_unsigned. destruct (parse_int_part t) as [[i t1]|] eqn:E; [|done].
    assert (String.length t1 < String.length t)%nat.
    { unfold parse_int_part in E. destruct t as [|c t]; [done|]. destruct (Ascii.eqb c _).
      - injection E as _ <-. simpl. lia.
      - by apply digits1_length in E. }
    destruct (parse_frac t1) as [[g t2]|] eqn:E2; [|done]. apply Hf in E2.
    intros (o & ?%He)%prepend_length. lia. }
  unfold parse_num. destruct s as [|c s]; [done|]. destruct (Ascii.eqb c _).
  - intros (o & ?%Hu)%prepend_length. simpl. lia.
  - apply Hu.
Qed.

Lemma strip_prefix_length p s r :
  strip_prefix p s = Some r → String.length s = (String.length p + String.length r)%nat.
Proof.
  revert s. induction p as [|a p IH]; intros [|b s]; simpl; try (by intros [= <-]).
  destruct (Ascii.eqb a b); [|done]. intros ?%IH. lia.
Qed.

Definition shrinks {A} (s : string) (r : option (A * string)) : Prop :=
  match r with Some (_, s') => (String.length s' < String.length s)%nat | None => True end.

Lemma parse_shrinks f :
  (∀ d s, shrinks s (parse_value f d s)) ∧ (∀ d s, shrinks s (parse_members f d s)) ∧
  (∀ d s, shrinks s (parse_elems f d s)).
Proof.
  induction f as [|f (IHv & IHm & IHe)]; [done|]. split_and!; intros d s.
  - cbn [parse_value]. pose proof (skip_ws_length s). destruct (skip_ws s) as [|c s1]; [done|].
    cbn [String.length] in *. pose proof (skip_ws_length s1).
    destruct (Ascii.eqb c "{"%char).
    { destruct (_ <=? _); [done|]. destruct (skip_ws s1) as [|c2 s2] eqn:E; [done|].
      destruct (Ascii.eqb c2 _); [simpl in *; lia|]. specialize (IHm (d + 1) (String c2 s2)).
      destruct (parse_members _ _ _) as [[]|]; [|done]. simpl in *. lia. }
    destruct (Ascii.eqb c "["%char).
    { destruct (_ <=? _); [done|]. destruct (skip_ws s1) as [|c2 s2] eqn:E; [done|].
      destruct (Ascii.eqb c2 _); [simpl in *; lia|]. specialize (IHe (d + 1) (String c2 s2)).
      destruct (parse_elems _ _ _) as [[]|]; [|done]. simpl in *. lia. }
    destruct (Ascii.eqb c dquote).
    { destruct (parse_string s1) as [[]|] eqn:E; [|done]. apply parse_str_length in E. simpl. lia. }
    unfold literal.
    destruct (Ascii.eqb c "t"%char); [|destruct (Ascii.eqb c "f"%char); [|destruct (Ascii.eqb c "n"%char)]].
    1-3: match goal with |- context [strip_prefix ?p ?x] => destruct (strip_prefix p x) eqn:E end; [|done];
      apply strip_prefix_length in E; simpl in *; lia.
    destruct (parse_num _) as [[]|] eqn:E; [|done]. apply parse_num_length in E. simpl in *. lia.
  - cbn [parse_members]. pose proof (skip_ws_length s). destruct (skip_ws s) as [|c s1]; [done|].
    destruct (Ascii.eqb c dquote); [|done].
    destruct (parse_string s1) as [[k s2]|] eqn:E; [|done]. apply parse_str_length in E.
    pose proof (skip_ws_length s2). destruct (skip_ws s2) as [|c3 s3]; [done|].
    destruct (Ascii.eqb c3 _); [|done]. specialize (IHv d s3).
    destruct (parse_value f d s3) as [[v s4]|]; [|done]. pose proof (skip_ws_length s4).
    destruct (skip_ws s4) as [|c5 s5]; [done|]. destruct (Ascii.eqb c5 _).
    + specialize (IHm d s5). destruct (parse_members f d s5) as [[]|]; [|done]. simpl in *. lia.
    + destruct (Ascii.eqb c5 _); [|done]. simpl in *. lia.
  - cbn [parse_elems]. specialize (IHv d s). destruct (parse_value f d s) as [[v s4]|]; [|done].
    pose proof (skip_ws_length s4). destruct (skip_ws s4) as [|c5 s5]; [done|]. destruct (Ascii.eqb c5 _).
    + specialize (IHe d s5). destruct (parse_elems f d s5) as [[]|]; [|done]. simpl in *. lia.
    + destruct (Ascii.eqb c5 _); [|done]. simpl in *. lia.
Qed.

(** More fuel than [fuel_for] changes nothing, so no text is refused for want of
    fuel. *)
Lemma parse_fuel n :
  (∀ s, (String.length s ≤ n)%nat → ∀ f f' d, (2 * n < f)%nat → (2 * n < f')%nat →
     parse_value f d s = parse_value f' d s) ∧
  (∀ s, (String.length s ≤ n)%nat → ∀ f f' d, (2 * n + 1 < f)%nat → (2 * n + 1 < f')%nat →
     parse_members f d s = parse_members f' d s ∧ parse_elems f d s = parse_elems f' d s).
Proof.
  induction n as [n IH] using lt_wf_ind.
  assert (∀ s, (String.length s ≤ n)%nat → ∀ f f' d, (2 * n < f)%nat → (2 * n < f')%nat →
     parse_value f d s = parse_value f' d s) as Hv.
  { intros s Hs [|f] [|f'] d Hf Hf'; try lia. cbn [parse_value].
    pose proof (skip_ws_length s). destruct (skip_ws s) as [|c s1]; [done|]. cbn [String.length] in *.
    pose proof (skip_ws_length s1).
    destruct (Ascii.eqb c "{"%char); [|destruct (Ascii.eqb c "["%char); [|done]];
      (destruct (_ <=? _); [done|]); (destruct (skip_ws s1) as [|c2 s2]; [done|]);
      (destruct (Ascii.eqb c2 _); [done|]);
      destruct (proj2 (IH (n - 1)%nat ltac:(lia)) (String c2 s2) ltac:(lia) f f' (d + 1)
        ltac:(lia) ltac:(lia)) as [E1 E2]; by rewrite ?E1, ?E2. }
  split; [exact Hv|]. intros s Hs [|f] [|f'] d Hf Hf'; try lia. split.
  - cbn [parse_members]. pose proof (skip_ws_length s). destruct (skip_ws s) as [|c s1]; [done|].
    destruct (Ascii.eqb c dquote); [|done].
    destruct (parse_string s1) as [[k s2]|] eqn:E; [|done]. apply parse_str_length in E.
    pose proof (skip_ws_length s2). destruct (skip_ws s2) as [|c3 s3]; [done|]. simpl in *.
    destruct (Ascii.eqb c3 _); [|done]. rewrite (Hv s3 ltac:(lia) f f') by lia.
    pose proof (proj1 (parse_shrinks f') d s3) as Hsh.
    destruct (parse_value f' d s3) as [[v s4]|]; [|done]. pose proof (skip_ws_length s4). simpl in Hsh.
    destruct (skip_ws s4) as [|c5 s5]; [done|]. simpl in *. destruct (Ascii.eqb c5 _); [|done].
    by rewrite (proj1 (proj2 (IH (n - 1)%nat ltac:(lia)) s5 ltac:(lia) f f' d ltac:(lia) ltac:(lia))).
  - cbn [parse_elems]. rewrite (Hv s Hs f f') by lia.
    pose proof (proj1 (parse_shrinks f') d s) as Hsh.
    destruct (parse_value f' d s) as [[v s4]|]; [|done]. pose proof (skip_ws_length s4). simpl in Hsh.
    destruct (skip_ws s4) as [|c5 s5]; [done|]. simpl in *. destruct (Ascii.eqb c5 _); [|done].
    by rewrite (proj2 (proj2 (IH (n - 1)%nat ltac:(lia)) s5 ltac:(lia) f f' d ltac:(lia) ltac:(lia))).
Qed.

(** The two readings of a text with nothing after it. *)
Lemma parse_marshal_end html v :
  int_numbers v → nesting v ≤ maxNestingDepth → parse (marshal html v) = Some (clean_json v).
Proof. intros. rewrite <- (append_nil_r (marshal html v)). by apply parse_marshal. Qed.

Lemma raw_object_marshal_end html kv l :
  int_numbers (JObj (kv :: l)) → nesting (JObj (kv :: l)) ≤ maxNestingDepth →
  raw_object (marshal html (JObj (kv :: l))) = map (λ kv, (clean kv.1, marshal html kv.2)) (kv :: l).
Proof. intros. rewrite <- (append_nil_r (marshal html _)). by apply raw_object_marshal. Qed.
