(* ===== verification/JsonStructs.v ===== *)
(** Structs over [encoding/json]: members with omitempty and pointer members on
    the encoding side, and what decoding stores from each kind of member. *)

From S2P Require Import Prelude Errors GoText Json JsonFacts.

(** ** Encoding members *)

(** A field with omitempty. *)
Definition omit {A} (empty : bool) (name : string) (v : A) : list (string * A) :=
  if empty then [] else [(name, v)].

Definition is_nil {A} (l : list A) : bool := match l with [] => true | _ => false end.

Definition strings_json (l : list string) : json := JArr (JStr <$> l).

(** A pointer with omitempty, and one without. *)
Definition opt_member {A} (name : string) (enc : A → json) (o : option A) : list (string * json) :=
  match o with Some a => [(name, enc a)] | None => [] end.
Definition nullable (o : option string) : json := match o with Some s => JStr s | None => JNull end.

(** Texts are UTF-8. *)
Definition valid_opt (o : option string) : Prop := ∀ s, o = Some s → ValidString s = true.

(** ** Facts: well-formed values are read back unchanged *)

Definition plain (n : Z) (v : json) : Prop := int_numbers v ∧ clean_json v = v ∧ nesting v ≤ n.

Lemma plain_str n s : 0 ≤ n → ValidString s = true → plain n (JStr s).
Proof. intros ? H. split_and!; [done|cbn [clean_json]; by rewrite clean_valid|done]. Qed.

Lemma plain_int n z : 0 ≤ n → in_int64 z → plain n (JInt z).
Proof. intros. split_and!; [by exists z|done|done]. Qed.

Lemma plain_nullable n o : 0 ≤ n → valid_opt o → plain n (nullable o).
Proof. intros Hn H. destruct o as [s|]; [apply plain_str; auto|done]. Qed.

Lemma plain_arr n l : 0 ≤ n → Forall (plain n) l → plain (n + 1) (JArr l).
Proof.
  intros Hn H. split_and!.
  - cbn [int_numbers]. apply foldr_and_Forall. eapply Forall_impl; [exact H|]. by intros ? [].
  - cbn [clean_json]. f_equal. induction H as [|x l (_ & E & _) _ IH]; [done|]. simpl. by rewrite E, IH.
  - cbn [nesting]. induction H as [|x l (_ & _ & E) _ IH]; simpl in *; lia.
Qed.

Lemma plain_obj n l :
  0 ≤ n → Forall (λ kv, ValidString kv.1 = true ∧ plain n kv.2) l → plain (n + 1) (JObj l).
Proof.
  intros Hn H. split_and!.
  - cbn [int_numbers]. apply (foldr_and_Forall (λ kv, int_numbers kv.2)).
    eapply Forall_impl; [exact H|]. by intros ? [_ []].
  - cbn [clean_json]. f_equal. induction H as [|[k x] l [V (_ & E & _)] _ IH]; [done|]. simpl in *.
    by rewrite E, IH, clean_valid.
  - cbn [nesting]. induction H as [|[k x] l [_ (_ & _ & E)] _ IH]; simpl in *; lia.
Qed.

Lemma Forall_opt_member {A} (P : string * json → Prop) name (enc : A → json) o :
  (∀ a, o = Some a → P (name, enc a)) → Forall P (opt_member name enc o).
Proof. intros H. destruct o; [|apply Forall_nil_2]. constructor; [by apply H|constructor]. Qed.

Ltac members := repeat first [apply Forall_nil_2 | apply Forall_cons_2].

Lemma plain_le n m v : n ≤ m → plain n v → plain m v.
Proof. intros ? (? & ? & ?). split_and!; [done|done|lia]. Qed.

Lemma plain_parse n v : n ≤ maxNestingDepth → plain n v → parse (Marshal v) = Some v.
Proof.
  intros Hn (Hi & Hc & Hd). unfold Marshal. rewrite parse_marshal_end by (done || lia). by rewrite Hc.
Qed.

(** ** Facts: what one member stores *)

Lemma decode_struct_obj {T} (fs : fields T) kvs t :
  decode_struct fs (JObj kvs) t = foldl (store_member fs) (t, None) kvs.
Proof. done. Qed.

Lemma store_int {T} (fs : fields T) set name z t e :
  find_field fs name = Some (int_field set) → in_int64 z →
  store_member fs (t, e) (name, JInt z) = (set z t, e).
Proof.
  intros Hf Hz. unfold store_member. cbn [fst]. rewrite Hf. cbn [int_field JInt snd fst].
  rewrite ParseInt_FormatInt_ok by done. by destruct e.
Qed.

Lemma store_str {T} (fs : fields T) set name s t e :
  find_field fs name = Some (string_field set) →
  store_member fs (t, e) (name, JStr s) = (set s t, e).
Proof. intros Hf. unfold store_member. cbn [fst]. rewrite Hf. by destruct e. Qed.

Lemma store_nullable {T} (fs : fields T) (get : T → option string) set name o t e :
  find_field fs name = Some (ptr_field "" get set (string_field (λ s _, s))) →
  store_member fs (t, e) (name, nullable o) = (set o t, e).
Proof. intros Hf. unfold store_member. cbn [fst]. rewrite Hf. by destruct o, e. Qed.

(** A pointer member that is not null. *)
Lemma store_ptr {T A} (fs : fields T) zero (get : T → option A) set dec name v a t e :
  find_field fs name = Some (ptr_field zero get set dec) → get t = None → v ≠ JNull →
  dec v zero = (a, None) → store_member fs (t, e) (name, v) = (set (Some a) t, e).
Proof.
  intros Hf Hg Hv Hd. unfold store_member. cbn [fst]. rewrite Hf. unfold ptr_field. cbn [snd fst].
  rewrite Hg. cbn [default]. rewrite Hd. by destruct v, e.
Qed.

(** A member that is present when its pointer is. *)
Lemma foldl_opt_member {T A} (fs : fields T) zero (get : T → option A) set dec name
    (enc : A → json) o t :
  find_field fs name = Some (ptr_field zero get set dec) → get t = None → set None t = t →
  (∀ a, o = Some a → enc a ≠ JNull) → (∀ a, o = Some a → dec (enc a) zero = (a, None)) →
  foldl (store_member fs) (t, None) (opt_member name enc o) = (set o t, None).
Proof.
  intros Hf Hg Hs Hn Hd. destruct o as [a|]; cbn [opt_member foldl]; [|by rewrite Hs].
  by rewrite (store_ptr fs zero get set dec name (enc a) a) by auto.
Qed.

(** The elements of an array that decode to those of a list. *)
Lemma decode_list {A} (zero : A) (dec : decoder A) (enc : A → json) l :
  Forall (λ a, dec (enc a) zero = (a, None)) l →
  decode_elems zero dec (enc <$> l) [] = (l, None).
Proof.
  induction 1 as [|a l Ha _ IH]; [done|]. cbn [fmap list_fmap decode_elems head tail default].
  rewrite Ha. by rewrite IH.
Qed.

Lemma plain_strings l : Forall (λ s, ValidString s = true) l → plain 1 (strings_json l).
Proof.
  intros H. apply (plain_arr 0); [done|]. rewrite Forall_fmap.
  eapply Forall_impl; [exact H|]. intros. by apply plain_str.
Qed.
