(* ===== verification/JsonOrder.v ===== *)
(** Decoding does not depend on the order of members.

    JSON that went through a JSONB column or through YAML is the same value with
    the members of its objects in another order.  A struct whose field decoders
    write different fields reads both alike, when no two members fold to the same
    field name.  It also skips members that it has no field for. *)

From S2P Require Import Prelude Errors GoText Json JsonFacts JsonStructs.

(** ** The same value *)

Inductive json_same : json → json → Prop :=
| same_atom v : (match v with JArr _ | JObj _ => False | _ => True end) → json_same v v
| same_arr l l' : Forall2 json_same l l' → json_same (JArr l) (JArr l')
| same_obj l l1 l' :
    l ≡ₚ l1 → Forall2 (λ a b, a.1 = b.1 ∧ json_same a.2 b.2) l1 l' →
    json_same (JObj l) (JObj l').

Lemma json_same_refl v : json_same v v.
Proof.
  induction v as [| | | |l IH|l IH] using json_ind_nested; try by constructor.
  - apply same_arr. by apply Forall_Forall2_diag.
  - eapply same_obj; [done|]. apply Forall_Forall2_diag. eapply Forall_impl; [exact IH|]. done.
Qed.

(** ** Decoders of fields *)

(** [dec] reads every order of [v] as it reads [v]. *)
Definition order_free {T} (dec : decoder T) (v : json) : Prop :=
  ∀ v' t a, json_same v v' → dec v t = (a, None) → dec v' t = (a, None).

(** Two decoders that write different parts of a struct. *)
Definition independent {T} (f g : decoder T) : Prop :=
  ∀ v w t, (f v (g w t).1).1 = (g w (f v t).1).1 ∧
    (f v (g w t).1).2 = (f v t).2 ∧ (g w (f v t).1).2 = (g w t).2.

Definition independent_fields {T} (fs : fields T) : Prop :=
  ∀ f g, f ∈ fs → g ∈ fs → foldName f.1 ≠ foldName g.1 → independent f.2 g.2.

Lemma order_free_atom {T} (dec : decoder T) v :
  (match v with JArr _ | JObj _ => False | _ => True end) → order_free dec v.
Proof. intros Hv v' t a S. inversion S; subst; done. Qed.

(** A decoder that wants an atom never reads an array or an object. *)
Definition wants_atom {T} (dec : decoder T) : Prop :=
  ∀ v t, match v with JArr _ | JObj _ => (dec v t).2 ≠ None | _ => True end.

Lemma order_free_wants {T} (dec : decoder T) v : wants_atom dec → order_free dec v.
Proof.
  intros W v' t a S E. specialize (W v t). rewrite E in W. by inversion S; subst.
Qed.

Lemma wants_string {T} (set : string → T → T) : wants_atom (string_field set).
Proof. by intros []. Qed.
Lemma wants_int {T} (set : Z → T → T) : wants_atom (int_field set).
Proof. by intros []. Qed.

Lemma order_free_ptr {T A} zero (get : T → option A) set dec v :
  order_free dec v → order_free (ptr_field zero get set dec) v.
Proof.
  intros H v' t a S. unfold ptr_field. inversion S; subst; [done| |].
  all: destruct (dec _ (default zero (get t))) as [x e] eqn:E; intros [= <- ->]; by rewrite (H _ _ _ S E).
Qed.

Lemma decode_elems_order {A} zero (dec : decoder A) vs vs' old l :
  Forall (order_free dec) vs → Forall2 json_same vs vs' →
  decode_elems zero dec vs old = (l, None) → decode_elems zero dec vs' old = (l, None).
Proof.
  intros HF HS. revert old l HF. induction HS as [|v v' vs vs' S _ IH]; intros old l HF; [done|].
  apply Forall_cons in HF as [Hv HF]. cbn [decode_elems].
  destruct (dec v _) as [a e] eqn:E. destruct (decode_elems zero dec vs (tail old)) as [l0 e0] eqn:E0.
  destruct e; [done|]. intros [= <- Hn]. cbn [first_error] in Hn. subst e0.
  by rewrite (Hv _ _ _ S E), (IH _ _ HF E0).
Qed.

Lemma order_free_slice {T A} zero (get : T → option (list A)) set dec v :
  (∀ vs, v = JArr vs → Forall (order_free dec) vs) → order_free (slice_field zero get set dec) v.
Proof.
  intros H v' t a S. unfold slice_field, slice_decoder. inversion S as [|vs vs' HS|]; subst; [done| |done].
  destruct (decode_elems zero dec vs _) as [l e] eqn:E. intros [= <- ->].
  by rewrite (decode_elems_order _ _ _ _ _ _ (H _ eq_refl) HS E).
Qed.

(** ** Structs *)

Section structs.
Context {T : Type} (fs : fields T).
Implicit Types (t : T).

Lemma find_field_folds k dec :
  find_field fs k = Some dec → ∃ f, f ∈ fs ∧ foldName f.1 = foldName k ∧ dec = f.2.
Proof.
  unfold find_field. destruct (list_find (λ f, f.1 = k) fs) as [[i f]|] eqn:E1.
  - intros [= <-]. apply list_find_Some in E1 as (Hl & Hk & _). exists f. split_and!; [|by rewrite Hk|done].
    by eapply list_elem_of_lookup_2.
  - destruct (list_find (λ f, foldName f.1 = foldName k) fs) as [[i f]|] eqn:E2; [|done].
    intros [= <-]. apply list_find_Some in E2 as (Hl & Hk & _). exists f. split_and!; [|done|done].
    by eapply list_elem_of_lookup_2.
Qed.

Lemma store_failed t e l : (foldl (store_member fs) (t, Some e) l).2 = Some e.
Proof.
  revert t. induction l as [|kv l IH]; intros t; [done|]. cbn [foldl]. unfold store_member at 2.
  destruct (find_field fs kv.1) as [dec|]; [|apply IH]. cbn [fst snd]. destruct (dec kv.2 t) as [t' e'].
  apply IH.
Qed.

(** A member that was read. *)
Definition stores (kv : string * json) t t' : Prop := store_member fs (t, None) kv = (t', None).

Lemma foldl_stores t kv l a :
  foldl (store_member fs) (t, None) (kv :: l) = (a, None) ↔
  ∃ t', stores kv t t' ∧ foldl (store_member fs) (t', None) l = (a, None).
Proof.
  cbn [foldl]. unfold stores. split.
  - destruct (store_member fs (t, None) kv) as [t' [e|]]; [|by eauto].
    intros E. pose proof (store_failed t' e l) as F. by rewrite E in F.
  - by intros (t' & -> & ?).
Qed.

Lemma stores_dec kv t t' :
  stores kv t t' ↔ match find_field fs kv.1 with Some dec => dec kv.2 t = (t', None) | None => t' = t end.
Proof.
  unfold stores, store_member. destruct (find_field fs kv.1) as [dec|]; [|split; [by intros [= <-]|by intros ->]].
  cbn [fst snd]. destruct (dec kv.2 t) as [x e]. cbn [first_error]. split; by intros [= -> ->].
Qed.

Lemma stores_commute x y t t1 t2 :
  independent_fields fs → foldName x.1 ≠ foldName y.1 → stores x t t1 → stores y t1 t2 →
  ∃ t1', stores y t t1' ∧ stores x t1' t2.
Proof.
  intros I Hn Hx%stores_dec Hy%stores_dec. setoid_rewrite stores_dec.
  destruct (find_field fs x.1) as [f|] eqn:Ef; [|subst t1; by eauto].
  destruct (find_field fs y.1) as [g|] eqn:Eg; [|subst t2; by eauto].
  destruct (find_field_folds _ _ Ef) as (pf & Hpf & Hf & ->).
  destruct (find_field_folds _ _ Eg) as (pg & Hpg & Hg & ->).
  destruct (I pf pg Hpf Hpg) with (v := x.2) (w := y.2) (t := t) as (H1 & H2 & H3); [congruence|].
  rewrite Hx in *. cbn [fst snd] in *. rewrite Hy in *. cbn [fst snd] in *.
  destruct (pg.2 y.2 t) as [t1' e] eqn:E. cbn [fst snd] in *. subst e. exists t1'. split; [done|].
  destruct (pf.2 x.2 t1') as [t2' e']. cbn [fst snd] in *. by subst.
Qed.

Lemma foldl_order l l' t a :
  independent_fields fs → l ≡ₚ l' → NoDup ((λ kv, foldName kv.1) <$> l) →
  foldl (store_member fs) (t, None) l = (a, None) → foldl (store_member fs) (t, None) l' = (a, None).
Proof.
  intros I HP. revert t. induction HP as [|x l l' HP IH|x y l|l1 l2 l3 H1 IH1 H2 IH2]; intros t Hn; [done| | |].
  - rewrite !foldl_stores. apply NoDup_cons in Hn as [_ Hn]. intros (t' & ? & ?). eauto.
  - rewrite !foldl_stores. intros (t1 & Hy & E). apply foldl_stores in E as (t2 & Hx & E).
    rewrite !fmap_cons, NoDup_cons in Hn. destruct Hn as [Hn _]. rewrite not_elem_of_cons in Hn.
    destruct (stores_commute y x t t1 t2 I (proj1 Hn) Hy Hx) as (t1' & ? & ?).
    exists t1'. split; [done|]. apply foldl_stores. eauto.
  - intros E. apply IH2; [|by apply IH1]. by rewrite <- H1.
Qed.

(** Every member is read alike in every order. *)
Definition member_free (kv : string * json) : Prop :=
  ∀ dec, find_field fs kv.1 = Some dec → order_free dec kv.2.

Lemma foldl_members l l' t a :
  Forall member_free l → Forall2 (λ x y, x.1 = y.1 ∧ json_same x.2 y.2) l l' →
  foldl (store_member fs) (t, None) l = (a, None) → foldl (store_member fs) (t, None) l' = (a, None).
Proof.
  intros HF HS. revert t HF. induction HS as [|x y l l' [Hk S] _ IH]; intros t HF; [done|].
  apply Forall_cons in HF as [Hx HF]. rewrite !foldl_stores. intros (t' & Ht & E). exists t'.
  split; [|by apply IH]. rewrite stores_dec in *. rewrite <- Hk.
  destruct (find_field fs x.1) as [dec|] eqn:Ed; [|done]. by apply (Hx _ Ed _ _ _ S).
Qed.

Lemma order_free_struct l :
  independent_fields fs → NoDup ((λ kv, foldName kv.1) <$> l) → Forall member_free l →
  order_free (decode_struct fs) (JObj l).
Proof.
  intros I Hn HF v' t a S. inversion S as [? Hv| |? l1 l' HP HS]; subst; [done|].
  rewrite !decode_struct_obj. intros E. eapply (foldl_members l1); [by rewrite <- HP|done|].
  by eapply foldl_order.
Qed.
End structs.

(** ** Independence of the usual fields *)

(** A decoder that writes through [set] what it computes from the value and from
    what [get] reads. *)
Definition writes {T A B} (dec : decoder T) (get : T → B) (set : A → T → T) : Prop :=
  ∃ f : json → B → option A * option error, ∀ v t,
    dec v t = (match (f v (get t)).1 with Some a => set a t | None => t end, (f v (get t)).2).

Lemma writes_independent {T A B A' B'} (d e : decoder T) (get : T → B) (set : A → T → T)
    (get' : T → B') (set' : A' → T → T) :
  writes d get set → writes e get' set' →
  (∀ a b t, set a (set' b t) = set' b (set a t)) → (∀ b t, get (set' b t) = get t) →
  (∀ a t, get' (set a t) = get' t) → independent d e.
Proof.
  intros [f Hf] [g Hg] Hc H1 H2 v w t. rewrite !Hf, !Hg. cbn [fst snd].
  destruct (f v (get t)) as [oa ea] eqn:Ef, (g w (get' t)) as [ob eb] eqn:Eg.
  destruct oa as [a|], ob as [b|]; cbn [fst snd]; rewrite ?H1, ?H2, ?Ef, ?Eg; cbn [fst snd]; by rewrite ?Hc.
Qed.

Lemma writes_string {T} (set : string → T → T) : writes (string_field set) (λ _, tt) set.
Proof.
  exists (λ v _, match v with JStr s => (Some s, None) | JNull => (None, None) | _ => (None, Some type_error) end).
  by intros [].
Qed.

Lemma writes_int {T} (set : Z → T → T) : writes (int_field set) (λ _, tt) set.
Proof.
  exists (λ v _, match v with
                 | JNum lit => match ParseInt lit with Ok z => (Some z, None) | Err _ => (None, Some type_error) end
                 | JNull => (None, None)
                 | _ => (None, Some type_error)
                 end).
  intros [] t; try done. simpl. by destruct (ParseInt _).
Qed.

Lemma writes_ptr {T A} zero (get : T → option A) set dec : writes (ptr_field zero get set dec) get set.
Proof.
  exists (λ v old, match v with
                   | JNull => (Some None, None)
                   | _ => let '(a, e) := dec v (default zero old) in (Some (Some a), e)
                   end).
  intros [] t; try done; unfold ptr_field; by destruct (dec _ (default zero (get t))).
Qed.

Lemma writes_slice {T A} zero (get : T → option (list A)) set dec : writes (slice_field zero get set dec) get set.
Proof.
  exists (λ v old, let '(l, e) := slice_decoder zero dec v old in (Some l, e)).
  intros v t. unfold slice_field. by destruct (slice_decoder zero dec v (get t)).
Qed.

Create HintDb fielddb.
#[export] Hint Resolve wants_string wants_int order_free_atom order_free_wants order_free_ptr : fielddb.

Lemma independent_sym {T} (d e : decoder T) : independent d e → independent e d.
Proof. intros H v w t. destruct (H w v t) as (-> & ? & ?). done. Qed.

(** It is enough to compare each field with those behind it. *)
Fixpoint pairwise {T} (fs : fields T) : Prop :=
  match fs with
  | [] => True
  | f :: fs' => foldr (λ g, and (independent f.2 g.2)) True fs' ∧ pairwise fs'
  end.

Lemma pairwise_independent {T} (fs : fields T) : pairwise fs → independent_fields fs.
Proof.
  induction fs as [|h fs IH]; intros Hp f g; [intros Hf; by apply not_elem_of_nil in Hf|].
  destruct Hp as [Hh Hp]. rewrite (foldr_and_Forall (λ g, independent h.2 g.2)) in Hh. rewrite Forall_forall in Hh.
  rewrite !elem_of_cons. intros [-> |Hf] [-> |Hg] Hn; [done|by apply Hh|by apply independent_sym, Hh|by apply IH].
Qed.

(** The fields of a struct, given by their setters. *)
Ltac field_writer :=
  first [apply writes_string | apply writes_int | apply writes_ptr | apply writes_slice].
Ltac independent_fields :=
  apply pairwise_independent;
  lazymatch goal with |- pairwise ?fs => let x := eval hnf in fs in change (pairwise x) end;
  cbn [pairwise foldr snd]; repeat split_and; try exact I;
  (eapply writes_independent; [field_writer|field_writer|..]; reflexivity).

(** ** JSONB columns *)

(** No object has a key twice. *)
Fixpoint unique_keys (v : json) : Prop :=
  match v with
  | JArr l => foldr (λ x P, unique_keys x ∧ P) True l
  | JObj l => NoDup l.*1 ∧ foldr (λ kv P, unique_keys kv.2 ∧ P) True l
  | _ => True
  end.

(** The text that a JSONB column returns for the text it was given.  White space,
    escapes and the order of keys are its own; it drops all but the last of equal
    keys and writes numbers its own way, but for integers. *)
Class Jsonb := {
  jsonb : string → string;
  jsonb_value w j : parse w = Some j → int_numbers j → unique_keys j →
    ∃ j', parse (jsonb w) = Some j' ∧ json_same j j';
}.

(** ** Further members *)

(** The members that a reader of a value knows. *)
Inductive schema :=
| SLeaf
| SArr (s : schema)
| SObj (fs : list (string * schema)).

(** [more s v v']: [v'] is [v] with the members of every object that the schema
    reaches in any order, and beside them any members that are not in the
    schema.  No two members of such an object fold to the same name. *)
Inductive more : schema → json → json → Prop :=
| more_leaf v : more SLeaf v v
| more_null s : more s JNull JNull
| more_arr s l l' : Forall2 (more s) l l' → more (SArr s) (JArr l) (JArr l')
| more_obj fs l l1 extra l' :
    Forall2 (λ a b, a.1 = b.1 ∧ ∃ s, (a.1, s) ∈ fs ∧ more s a.2 b.2) l l1 →
    Forall (λ kv, foldName kv.1 ∉ (λ f, foldName f.1) <$> fs) extra →
    l' ≡ₚ l1 ++ extra → NoDup ((λ kv, foldName kv.1) <$> l') →
    more (SObj fs) (JObj l) (JObj l').

(** [dec] reads [v] with further members as it reads [v]. *)
Definition reads_more {T} (s : schema) (dec : decoder T) (v : json) : Prop :=
  ∀ v' t a, more s v v' → dec v t = (a, None) → dec v' t = (a, None).

Lemma reads_more_leaf {T} (dec : decoder T) v : reads_more SLeaf dec v.
Proof. intros v' t a M. by inversion M; subst. Qed.

Lemma reads_more_ptr {T A} s zero (get : T → option A) set dec v :
  reads_more s dec v → reads_more s (ptr_field zero get set dec) v.
Proof.
  intros H v' t a M. unfold ptr_field. inversion M; subst; [done|done|..].
  all: destruct (dec _ (default zero (get t))) as [x e] eqn:E; intros [= <- ->]; by rewrite (H _ _ _ M E).
Qed.

Lemma decode_elems_more {A} s zero (dec : decoder A) vs vs' old l :
  Forall (reads_more s dec) vs → Forall2 (more s) vs vs' →
  decode_elems zero dec vs old = (l, None) → decode_elems zero dec vs' old = (l, None).
Proof.
  intros HF HS. revert old l HF. induction HS as [|v v' vs vs' S _ IH]; intros old l HF; [done|].
  apply Forall_cons in HF as [Hv HF]. cbn [decode_elems].
  destruct (dec v _) as [a e] eqn:E. destruct (decode_elems zero dec vs (tail old)) as [l0 e0] eqn:E0.
  destruct e; [done|]. intros [= <- Hn]. cbn [first_error] in Hn. subst e0.
  by rewrite (Hv _ _ _ S E), (IH _ _ HF E0).
Qed.

Lemma reads_more_slice {T A} s zero (get : T → option (list A)) set dec v :
  (∀ vs, v = JArr vs → Forall (reads_more s dec) vs) →
  reads_more (SArr s) (slice_field zero get set dec) v.
Proof.
  intros H v' t a M. unfold slice_field, slice_decoder. inversion M as [|?|? vs vs' HS|]; subst; [done|].
  destruct (decode_elems zero dec vs _) as [l e] eqn:E. intros [= <- ->].
  by rewrite (decode_elems_more _ _ _ _ _ _ _ (H _ eq_refl) HS E).
Qed.

Section more_structs.
Context {T : Type} (fs : fields T) (sf : list (string * schema)).
Context (Hnames : (λ f, foldName f.1) <$> sf = (λ f, foldName f.1) <$> fs).

Lemma store_unknown t kv :
  foldName kv.1 ∉ (λ f, foldName f.1) <$> sf → store_member fs (t, None) kv = (t, None).
Proof using Hnames.
  intros Hn. unfold store_member. destruct (find_field fs kv.1) as [dec|] eqn:E; [|done].
  apply find_field_folds in E as (f & Hf & Hk & _). exfalso. apply Hn. rewrite Hnames, <- Hk.
  by apply (list_elem_of_fmap_2 (λ f, foldName f.1)).
Qed.

Lemma foldl_unknown t extra :
  Forall (λ kv, foldName kv.1 ∉ (λ f, foldName f.1) <$> sf) extra →
  foldl (store_member fs) (t, None) extra = (t, None).
Proof using Hnames.
  induction 1 as [|kv extra Hkv _ IH]; [done|]. cbn [foldl]. by rewrite store_unknown.
Qed.

(** What is left to show of each member of a struct. *)
Definition member_more (kv : string * json) : Prop :=
  ∀ s dec, (kv.1, s) ∈ sf → find_field fs kv.1 = Some dec → reads_more s dec kv.2.

Lemma foldl_more l l1 t a :
  Forall member_more l →
  Forall2 (λ x y, x.1 = y.1 ∧ ∃ s, (x.1, s) ∈ sf ∧ more s x.2 y.2) l l1 →
  foldl (store_member fs) (t, None) l = (a, None) → foldl (store_member fs) (t, None) l1 = (a, None).
Proof using Type.
  intros HF HS. revert t HF. induction HS as [|x y l l1 [Hk (s & Hs & M)] _ IH]; intros t HF; [done|].
  apply Forall_cons in HF as [Hx HF]. rewrite !foldl_stores. intros (t' & Ht & E). exists t'.
  split; [|by apply IH]. rewrite stores_dec in *. rewrite <- Hk.
  destruct (find_field fs x.1) as [dec|] eqn:Ed; [|done]. by apply (Hx _ _ Hs Ed _ _ _ M).
Qed.

Lemma reads_more_struct l :
  independent_fields fs → Forall member_more l → reads_more (SObj sf) (decode_struct fs) (JObj l).
Proof using Hnames.
  intros I HF v' t a M. inversion M as [|?| |? ? l1 extra l' HS HE HP Hn]; subst.
  rewrite !decode_struct_obj. intros E. apply (foldl_more l l1) in E; [|done|done].
  eapply (foldl_order fs (l1 ++ extra)); [done|by symmetry|by rewrite <- HP|].
  by rewrite foldl_app, E, foldl_unknown.
Qed.
End more_structs.
