(* ===== verification/Attachments.v ===== *)
(** [internal/domain/attachments.go]: the JSON of the attachments column. *)

From Stdlib Require Import Ascii.
From S2P Require Import Prelude Errors Domain GoText Json JsonFacts JsonStructs JsonOrder.

(** The struct tags of [Attachment]: mimeType and size are omitted when empty. *)
Definition attachment_json (a : Attachment) : json :=
  JObj ([("bucket", JStr (att_Bucket a)); ("filename", JStr (att_Filename a))]
        ++ (if bool_decide (att_MimeType a = "") then [] else [("mimeType", JStr (att_MimeType a))])
        ++ (if att_Size a =? 0 then [] else [("size", JInt (att_Size a))])).

Definition zero_attachment : Attachment := MkAttachment "" "" "" 0.

Definition attachment_fields : fields Attachment :=
  [("bucket", string_field (λ s a, MkAttachment s (att_Filename a) (att_MimeType a) (att_Size a)));
   ("filename", string_field (λ s a, MkAttachment (att_Bucket a) s (att_MimeType a) (att_Size a)));
   ("mimeType", string_field (λ s a, MkAttachment (att_Bucket a) (att_Filename a) s (att_Size a)));
   ("size", int_field (λ z a, MkAttachment (att_Bucket a) (att_Filename a) (att_MimeType a) z))].

(** [Attachments.Value]; a nil slice is [None]. *)
Definition attachments_Value (a : option Attachments) : res driver_value :=
  match a with
  | None => Ok (DBytes "[]")
  | Some l => Ok (DBytes (Marshal (JArr (attachment_json <$> l))))
  end.

(** [( *Attachments).Scan]: the slice stored in the receiver, or an error. *)
Definition attachments_Scan (src : driver_value) : res (option Attachments) :=
  let scan (data : string) :=
    if bool_decide (data = "") then Ok None
    else match Unmarshal (slice_decoder zero_attachment (decode_struct attachment_fields)) data None with
         | (l, None) => Ok l
         | (_, Some e) => Err (Wrap e "unmarshal attachments")
         end in
  match src with
  | DNil => Ok None
  | DBytes v => scan v
  | DString v => scan v
  | DOther => Err (ErrMsg "attachments: cannot scan")
  end.

Example scan_value :
  let l := [MkAttachment "b" "7/a<1>.txt" "text/plain" 12; MkAttachment "b" "7/x" "" 0] in
  match attachments_Value (Some l) with Ok v => attachments_Scan v | Err e => Err e end = Ok (Some l).
Proof. vm_compute. reflexivity. Qed.

(** ** The column

    A JSONB column gives back the value it was given, not its text: white space,
    escapes and the order of object keys are its own. *)
Definition jsonb_returns (written read : string) : Prop :=
  ∃ j j', parse written = Some j ∧ parse read = Some j' ∧ json_same j j'.

(** ** Facts *)

Definition clean_attachment (a : Attachment) : Attachment :=
  MkAttachment (clean (att_Bucket a)) (clean (att_Filename a)) (clean (att_MimeType a)) (att_Size a).

Lemma encode_rune_nonempty r : encode_rune r ≠ "".
Proof. unfold encode_rune. cbv zeta. by repeat case_match. Qed.

Lemma clean_empty s : clean s = "" ↔ s = "".
Proof.
  split; [|by intros ->]. destruct s as [|c s]; [done|]. unfold clean. cbn [String.length clean_fuel].
  destruct (decode1 c s) as [r rs]. pose proof (encode_rune_nonempty r).
  by destruct (encode_rune r).
Qed.

Lemma clean_attachment_json a : clean_json (attachment_json a) = attachment_json (clean_attachment a).
Proof.
  unfold attachment_json, clean_attachment. cbn [clean_json]. rewrite !map_app. simpl.
  f_equal. f_equal. f_equal. f_equal.
  - destruct (decide (att_MimeType a = "")) as [->|E]; [done|].
    rewrite !bool_decide_eq_false_2 by (by rewrite ?clean_empty). done.
  - by destruct (att_Size a =? 0).
Qed.

Lemma clean_attachment_valid a :
  ValidString (att_Bucket a) = true → ValidString (att_Filename a) = true →
  ValidString (att_MimeType a) = true → clean_attachment a = a.
Proof. intros. unfold clean_attachment. rewrite !clean_valid by done. by destruct a. Qed.

Lemma attachment_independent : independent_fields attachment_fields.
Proof. independent_fields. Qed.

Lemma decode_stored_attachment a :
  in_int64 (att_Size a) → decode_struct attachment_fields (attachment_json a) zero_attachment = (a, None).
Proof.
  intros Hz. destruct a as [b f m z]. unfold attachment_json. rewrite decode_struct_obj.
  cbn [att_Bucket att_Filename att_MimeType att_Size] in *.
  rewrite !foldl_app. cbn [foldl].
  case_bool_decide as Em; destruct (Z.eqb_spec z 0) as [Ez|Ez]; subst; cbn [foldl];
    repeat first [erewrite store_str by reflexivity | erewrite store_int by done]; done.
Qed.

(** Members in any order build the same attachment. *)
Lemma attachment_order_free a : order_free (decode_struct attachment_fields) (attachment_json a).
Proof.
  apply order_free_struct; [apply attachment_independent| |].
  - destruct (bool_decide _), (att_Size a =? 0); apply (bool_decide_unpack _); vm_compute; done.
  - apply Forall_forall. intros kv Hkv dec Hd. apply find_field_folds in Hd as (f & Hf & _ & ->).
    unfold attachment_fields in Hf. rewrite !elem_of_cons, elem_of_nil in Hf.
    destruct Hf as [-> |[-> |[-> |[-> |[]]]]]; cbn [snd]; eauto with fielddb.
Qed.

Lemma scan_elems l vs :
  Forall (λ a, in_int64 (att_Size a)) l → Forall2 json_same (attachment_json <$> l) vs →
  decode_elems zero_attachment (decode_struct attachment_fields) vs [] = (l, None).
Proof.
  intros Hz H. apply (decode_elems_order _ _ (attachment_json <$> l)); [|done|].
  - apply Forall_fmap, Forall_true, attachment_order_free.
  - apply decode_list. eapply Forall_impl; [exact Hz|]. apply decode_stored_attachment.
Qed.

Lemma attachments_json_ok l :
  Forall (λ a, in_int64 (att_Size a)) l →
  int_numbers (JArr (attachment_json <$> l)) ∧ nesting (JArr (attachment_json <$> l)) ≤ 2.
Proof.
  intros H. induction H as [|a l Ha _ [IH1 IH2]]; [simpl; lia|]. split.
  - cbn [fmap list_fmap int_numbers foldr] in *. split; [|exact IH1].
    unfold attachment_json. cbn [int_numbers]. apply (foldr_and_Forall (λ kv, int_numbers kv.2)).
    destruct (bool_decide _), (att_Size a =? 0); simpl; repeat apply Forall_cons_2; simpl;
      eauto using Forall_nil_2.
  - cbn [fmap list_fmap nesting foldr] in *.
    assert (nesting (attachment_json a) = 1) by (unfold attachment_json; by destruct (bool_decide _), (att_Size a =? 0)).
    lia.
Qed.

(** ** Properties *)

(** C35: attachments written to the JSONB column are read back, whatever white
    space, escapes and key order Postgres returns: one for one and in order,
    with invalid UTF-8 bytes replaced by U+FFFD and nothing else changed. *)
Theorem attachments_survive_column l written read :
  Forall (λ a, in_int64 (att_Size a)) l →
  attachments_Value (Some l) = Ok (DBytes written) → jsonb_returns written read →
  attachments_Scan (DBytes read) = Ok (Some (clean_attachment <$> l)).
Proof.
  intros Hz [= <-] (j & j' & Hj & Hj' & Hs). destruct (attachments_json_ok l Hz) as [Hi Hn].
  unfold Marshal in Hj. rewrite parse_marshal_end in Hj; [|done|unfold maxNestingDepth; lia].
  injection Hj as <-. cbn [clean_json] in Hs.
  replace (map clean_json (attachment_json <$> l)) with (attachment_json <$> (clean_attachment <$> l)) in Hs.
  2:{ rewrite <- list_fmap_compose. change (map clean_json) with (fmap (M := list) clean_json).
      rewrite <- list_fmap_compose. apply list_fmap_ext. intros; symmetry; apply clean_attachment_json. }
  inversion Hs as [? Hv|? vs Hf|]; subst; [done|].
  assert (read ≠ "") as Hr by (intros ->; discriminate).
  unfold attachments_Scan. rewrite bool_decide_eq_false_2 by done. unfold Unmarshal. rewrite Hj'.
  cbn [slice_decoder default]. rewrite (scan_elems (clean_attachment <$> l)); [done| |done].
  rewrite Forall_fmap. exact Hz.
Qed.

(** The text Postgres would return for one attachment. *)
Definition pg_text : string :=
  String "[" (String "{" (quote false "size" +:+ ": 12, " +:+ quote false "bucket" +:+ ": " +:+
    quote false "b" +:+ ", " +:+ quote false "filename" +:+ ": " +:+ quote false "7/<a>" +:+ "}]")).

Lemma attachments_survive_column_witness :
  attachments_Scan (DBytes pg_text) = Ok (Some [MkAttachment "b" "7/<a>" "" 12]).
Proof.
  apply (attachments_survive_column [MkAttachment "b" "7/<a>" "" 12]
    (Marshal (JArr [attachment_json (MkAttachment "b" "7/<a>" "" 12)])) pg_text);
    [repeat constructor; vm_compute; congruence|reflexivity|].
  eexists _, _. split; [vm_compute; reflexivity|]. split; [vm_compute; reflexivity|].
  apply same_arr. constructor; [|constructor].
  eapply same_obj; [|repeat (constructor; [split; [reflexivity|by apply same_atom]|]); constructor].
  apply Permutation_sym.
  etrans; [apply perm_swap|]. apply perm_skip, perm_swap.
Defined.
