(* ===== verification/Backoff.v ===== *)
(** [internal/service/backoff.go], [jitter] of [internal/worker/worker.go] and
    [nextBackoff] of [internal/signal/tcp_client.go]: retry delays.

    [Backoff] computes in float64.  A finite float64 is a pair (mantissa,
    exponent) standing for [m * 2^e]; products round to nearest, ties to even,
    on 53 bits, and overflow to infinity at 2^1024.  The values [Backoff] meets
    never go below 2^-53, so subnormal numbers do not occur. *)

From S2P Require Import Prelude.

Inductive float64 :=
| Fin (m e : Z)          (* m * 2^e *)
| Inf (neg : bool)
| NaN.

(** Round [m * 2^e], [0 ≤ m], to 53 bits. *)
Definition round53 (m e : Z) : Z * Z :=
  let d := Z.log2 m + 1 - 53 in
  if d <=? 0 then (m, e)
  else
    let q := m / 2 ^ d in
    let r := m mod 2 ^ d in
    let h := 2 ^ (d - 1) in
    let q' := if r <? h then q
              else if h <? r then q + 1
              else if Z.even q then q else q + 1 in
    (q', e + d).

Definition mk_float (m e : Z) : float64 :=
  let '(q, e') := round53 (Z.abs m) e in
  if (0 <? q) && (1024 <=? Z.log2 q + e') then Inf (m <? 0)
  else Fin (Z.sgn m * q) e'.

(** [float64(z)]. *)
Definition of_int (z : Z) : float64 := mk_float z 0.

(** [math.Pow(2, n)] for a non-negative integer [n]. *)
Definition pow2 (n : Z) : float64 := if n <? 1024 then Fin 1 n else Inf false.

Definition fmul (x y : float64) : float64 :=
  match x, y with
  | NaN, _ | _, NaN => NaN
  | Fin m1 e1, Fin m2 e2 => mk_float (m1 * m2) (e1 + e2)
  | Fin m _, Inf n | Inf n, Fin m _ => if m =? 0 then NaN else Inf (xorb n (m <? 0))
  | Inf a, Inf b => Inf (xorb a b)
  end.

(** [x > y]; false when one side is NaN. *)
Definition fgt (x y : float64) : bool :=
  match x, y with
  | NaN, _ | _, NaN => false
  | Fin m1 e1, Fin m2 e2 =>
      let e := Z.min e1 e2 in m2 * 2 ^ (e2 - e) <? m1 * 2 ^ (e1 - e)
  | Fin _ _, Inf n => n
  | Inf n, Fin _ _ => negb n
  | Inf a, Inf b => negb a && b
  end.

(** Truncation toward zero of a finite float. *)
Definition ftrunc (m e : Z) : Z := if 0 <=? e then m * 2 ^ e else Z.quot m (2 ^ (- e)).

Section Backoff.

(** What the conversion [int64(x)] yields when [x] is NaN or out of range: the
    Go specification leaves it to the implementation. *)
Variable conv_undefined : float64 → Z.

(** [int64(x)]. *)
Definition to_int (x : float64) : Z :=
  match x with
  | Fin m e => let z := ftrunc m e in
               if (- 2 ^ 63 <=? z) && (z <? 2 ^ 63) then z else conv_undefined x
  | _ => conv_undefined x
  end.

(** [service.Backoff], with [k] the draw of [rand.Float64()], which is [k / 2^53]. *)
Definition Backoff (k : Z) (attempts : Z) (base max : duration) : duration :=
  if attempts <=? 0 then 0
  else
    let raw := fmul (of_int base) (pow2 (attempts - 1)) in
    let jitter := fmul (Fin k (-53)) raw in
    if fgt jitter (of_int max) then max
    else to_int jitter.

End Backoff.

(** [worker.jitter], with [n] the draw of [rand.Int64N(int64(d) / 2)]; that call
    panics ([None]) when its argument is not positive. *)
Definition jitter (n : Z) (d : duration) : option duration :=
  if d <=? 0 then Some d
  else if Z.quot d 2 <=? 0 then None
  else Some (int64 (int64 (d - Z.quot d 4) + n)).

(** [signal.nextBackoff]. *)
Definition nextBackoff (cur max : duration) : duration :=
  let next := int64 (cur * 2) in
  if max <? next then max else next.

(** ** Facts *)

Definition draw_ok (k : Z) : Prop := 0 ≤ k < 2 ^ 53.

Lemma log2_lt_pow m n : 0 ≤ n → 0 ≤ m < 2 ^ n → Z.log2 m < Z.max 1 n.
Proof.
  intros Hn Hm. destruct (decide (m = 0)) as [->|]; [simpl; lia|].
  apply Z.lt_le_trans with n; [|lia]. apply Z.log2_lt_pow2; lia.
Qed.

(** A mantissa of at most 53 bits is exact. *)
Lemma round53_exact m e : 0 ≤ m ≤ 2 ^ 53 → m ≠ 2 ^ 53 → round53 m e = (m, e).
Proof.
  intros Hm Hne. unfold round53.
  pose proof (log2_lt_pow m 53 ltac:(lia) ltac:(lia)).
  destruct (Z.leb_spec (Z.log2 m + 1 - 53) 0); [done|lia].
Qed.

Lemma mk_float_exact m e :
  0 ≤ m < 2 ^ 53 → e ≤ 960 → mk_float m e = Fin m e.
Proof.
  intros Hm He. unfold mk_float. rewrite Z.abs_eq by lia. rewrite round53_exact by lia.
  pose proof (log2_lt_pow m 53 ltac:(lia) ltac:(lia)).
  destruct (Z.ltb_spec 0 m); simpl.
  - destruct (Z.leb_spec 1024 (Z.log2 m + e)); [lia|]. rewrite Z.sgn_pos by lia.
    f_equal; lia.
  - replace m with 0 by lia. done.
Qed.

Lemma next_multiple P q r c m :
  0 < P → m = P * q + r → 0 < r → m ≤ c * P → (q + 1) * P ≤ c * P.
Proof.
  intros. apply Z.mul_le_mono_nonneg_r; [lia|].
  destruct (Z.le_gt_cases (q + 1) c); [done|]. exfalso.
  assert (c * P ≤ q * P) by (apply Z.mul_le_mono_nonneg_r; lia). lia.
Qed.

(** Rounding does not cross a multiple of the unit in the last place. *)
Lemma round53_le m e B :
  0 ≤ m ≤ B → (∀ d, 0 < d → d ≤ Z.log2 m + 1 - 53 → (2 ^ d | B)) →
  let '(q, e') := round53 m e in 0 ≤ q ∧ e ≤ e' ∧ q * 2 ^ (e' - e) ≤ B.
Proof.
  intros Hm Hdiv. unfold round53. set (d := Z.log2 m + 1 - 53).
  destruct (Z.leb_spec d 0).
  - rewrite Z.sub_diag. simpl. lia.
  - destruct (Hdiv d ltac:(lia) ltac:(lia)) as [c Hc].
    assert (0 < 2 ^ d) by (apply Z.pow_pos_nonneg; lia).
    pose proof (Z.div_mod m (2 ^ d) ltac:(lia)).
    pose proof (Z.mod_pos_bound m (2 ^ d) ltac:(lia)).
    pose proof (Z.div_pos m (2 ^ d) ltac:(lia) ltac:(lia)).
    replace (e + d - e) with d by lia.
    assert (0 < m mod 2 ^ d → (m / 2 ^ d + 1) * 2 ^ d ≤ B) as Hup
      by (intros; subst B; eapply next_multiple; [lia|eassumption|lia|lia]).
    assert (0 < 2 ^ (d - 1)) by (apply Z.pow_pos_nonneg; lia).
    split_and!; [|lia|]; repeat case_match; bools; lia.
Qed.

Lemma pow2_div n d : 0 ≤ d ≤ n → (2 ^ d | 2 ^ n).
Proof.
  intros. exists (2 ^ (n - d)). rewrite <- Z.pow_add_r by lia. f_equal. lia.
Qed.

(** The product of a draw and a finite [raw] lies between 0 and [raw]. *)
Lemma draw_times_raw k m n :
  draw_ok k → 0 ≤ m < 2 ^ 53 → 0 ≤ n ≤ 960 →
  ∃ q e', fmul (Fin k (-53)) (Fin m n) = Fin q e' ∧ 0 ≤ q ∧ n - 53 ≤ e' ∧
          q * 2 ^ (e' - (n - 53)) ≤ m * 2 ^ 53.
Proof.
  intros Hk Hm Hn. unfold fmul, draw_ok in *. set (e := -53 + n).
  assert (0 ≤ k * m) by nia.
  assert (k * m < 2 ^ 106) as Hlt by (change (2 ^ 106) with (2 ^ 53 * 2 ^ 53); nia).
  pose proof (log2_lt_pow (k * m) 106 ltac:(lia) ltac:(lia)) as Hlog.
  pose proof (round53_le (k * m) e (m * 2 ^ 53)) as R.
  unfold mk_float. rewrite Z.abs_eq by lia.
  destruct (decide (k * m = 0)) as [E|Hnz].
  { rewrite E. exists 0, e. simpl. split_and!; [done|lia|lia|nia]. }
  destruct (round53 (k * m) e) as [q e'].
  destruct R as (Hq & He & HB).
  { split; [lia|]. rewrite (Z.mul_comm k m). apply Z.mul_le_mono_nonneg_l; lia. }
  { intros d Hd Hd'. apply Z.divide_mul_r, pow2_div. lia. }
  assert (0 < q → Z.log2 q + e' < 1024) as Hfin.
  { intros Hq0. assert (0 < 2 ^ (e' - e)) by (apply Z.pow_pos_nonneg; lia).
    assert (Z.log2 (q * 2 ^ (e' - e)) < 106) as Hl.
    { apply Z.log2_lt_pow2; [nia|]. change (2 ^ 106) with (2 ^ 53 * 2 ^ 53). nia. }
    rewrite Z.log2_mul_pow2 in Hl by lia. lia. }
  exists q, e'. replace (n - 53) with e by lia. split_and!; [|lia|lia|done].
  destruct (Z.ltb_spec 0 q); simpl.
  - destruct (Z.leb_spec 1024 (Z.log2 q + e')); [lia|].
    rewrite Z.sgn_pos by lia. f_equal; lia.
  - replace q with 0 by lia. by rewrite Z.mul_0_r.
Qed.

Lemma ftrunc_nonneg m e : 0 ≤ m → 0 ≤ ftrunc m e.
Proof.
  intros. unfold ftrunc. destruct (Z.leb_spec 0 e).
  - apply Z.mul_nonneg_nonneg; [done|]. apply Z.pow_nonneg; lia.
  - apply Z.quot_pos; [done|]. apply Z.pow_pos_nonneg; lia.
Qed.

(** Truncation is at most any integer the exact value is at most. *)
Lemma ftrunc_le m e B e0 :
  0 ≤ m → e0 ≤ e → e0 ≤ 0 → m * 2 ^ (e - e0) ≤ B * 2 ^ (- e0) → ftrunc m e ≤ B.
Proof.
  intros Hm He H0 HB. unfold ftrunc.
  assert (0 < 2 ^ (- e0)) by (apply Z.pow_pos_nonneg; lia).
  destruct (Z.leb_spec 0 e).
  - replace (e - e0) with (e + - e0) in HB by lia. rewrite Z.pow_add_r in HB by lia.
    apply (Z.mul_le_mono_pos_r _ _ (2 ^ (- e0))); lia.
  - assert (0 < 2 ^ (- e)) by (apply Z.pow_pos_nonneg; lia).
    rewrite Z.quot_div_nonneg by lia. apply Z.div_le_upper_bound; [lia|].
    replace (- e0) with ((e - e0) + - e) in HB by lia. rewrite Z.pow_add_r in HB by lia.
    assert (0 < 2 ^ (e - e0)) by (apply Z.pow_pos_nonneg; lia).
    apply (Z.mul_le_mono_pos_r _ _ (2 ^ (e - e0))); [lia|].
    rewrite (Z.mul_comm (2 ^ (- e)) B). rewrite <- Z.mul_assoc, (Z.mul_comm (2 ^ (- e))). lia.
Qed.

Lemma of_int_exact z : 0 ≤ z < 2 ^ 53 → of_int z = Fin z 0.
Proof. intros. apply mk_float_exact; lia. Qed.

Lemma raw_exact base n :
  0 ≤ base < 2 ^ 53 → 0 ≤ n ≤ 960 → fmul (of_int base) (pow2 n) = Fin base n.
Proof.
  intros Hb Hn. rewrite of_int_exact by done. unfold pow2.
  destruct (Z.ltb_spec n 1024); [|lia]. unfold fmul. rewrite Z.mul_1_r.
  apply mk_float_exact; lia.
Qed.

(** Multiplying both sides by a power of two. *)
Lemma scale_pow2 x y a b c : 0 ≤ a → 0 ≤ b → 0 ≤ c →
  x * 2 ^ a ≤ y * 2 ^ b → x * 2 ^ (a + c) ≤ y * 2 ^ (b + c).
Proof.
  intros. rewrite !Z.pow_add_r, !Z.mul_assoc by lia.
  apply Z.mul_le_mono_nonneg_r; [apply Z.pow_nonneg; lia|done].
Qed.

Lemma raw_bound q e' base n :
  0 ≤ n → n - 53 ≤ e' → q * 2 ^ (e' - (n - 53)) ≤ base * 2 ^ 53 →
  q * 2 ^ (e' - Z.min (n - 53) 0) ≤ base * 2 ^ n * 2 ^ (- Z.min (n - 53) 0).
Proof.
  intros Hn He HB. set (e0 := Z.min (n - 53) 0).
  rewrite <- Z.mul_assoc, <- Z.pow_add_r by lia.
  apply (scale_pow2 _ _ _ _ (n - 53 - e0)) in HB; [|lia..].
  replace (e' - (n - 53) + (n - 53 - e0)) with (e' - e0) in HB by lia.
  by replace (53 + (n - 53 - e0)) with (n + - e0) in HB by lia.
Qed.

(** Both bounds at once: the delay is within [0, min(max, base * 2^(attempts-1))]. *)
Lemma Backoff_range_ok cu k attempts base max :
  draw_ok k → 0 ≤ base < 2 ^ 53 → 0 ≤ max < 2 ^ 53 → attempts ≤ 961 →
  0 ≤ Backoff cu k attempts base max ≤
    Z.min max (if attempts <=? 0 then 0 else base * 2 ^ (attempts - 1)).
Proof.
  intros Hk Hb Hm Ha. unfold Backoff. destruct (Z.leb_spec attempts 0); [lia|].
  rewrite raw_exact by lia.
  destruct (draw_times_raw k base (attempts - 1)) as (q & e' & -> & Hq & He & HB); [done|lia|lia|].
  rewrite (of_int_exact max) by lia. cbn [fgt].
  set (n := attempts - 1) in *. set (e := Z.min e' 0).
  assert (0 < 2 ^ n) by (apply Z.pow_pos_nonneg; lia).
  pose proof (raw_bound q e' base n ltac:(lia) He HB) as HR.
  set (e0 := Z.min (n - 53) 0) in HR.
  assert (ftrunc q e' ≤ base * 2 ^ n) as Hraw
    by (apply ftrunc_le with (e0 := e0); [lia|lia|lia|done]).
  assert (0 ≤ ftrunc q e') by (by apply ftrunc_nonneg).
  destruct (Z.ltb_spec (max * 2 ^ (0 - e)) (q * 2 ^ (e' - e))) as [Hgt|Hle].
  - split; [lia|]. apply Z.min_glb; [lia|]. apply Z.lt_le_incl in Hgt.
    apply (scale_pow2 _ _ _ _ (e - e0)) in Hgt; [|lia..].
    replace (0 - e + (e - e0)) with (- e0) in Hgt by lia.
    replace (e' - e + (e - e0)) with (e' - e0) in Hgt by lia.
    apply (Z.mul_le_mono_pos_r _ _ (2 ^ (- e0))); [apply Z.pow_pos_nonneg; lia|lia].
  - assert (ftrunc q e' ≤ max) as Hmax.
    { apply ftrunc_le with (e0 := e); [lia|lia|lia|]. by rewrite Z.sub_0_l in Hle. }
    unfold to_int. destruct (Z.leb_spec (- 2 ^ 63) (ftrunc q e')); [|lia].
    destruct (Z.ltb_spec (ftrunc q e') (2 ^ 63)); [|lia]. simpl. lia.
Qed.

(** ** Properties *)

(** C32: a retry delay is never negative and never exceeds the configured
    ceiling nor the exponential envelope [base * 2^(attempts-1)], whatever the
    random draw, as long as [base] and [max] are below 2^53 ns (104 days) and the
    power stays in float64 range. *)
Theorem Backoff_within_envelope cu k attempts base max :
  draw_ok k → 0 ≤ base < 2 ^ 53 → 0 ≤ max < 2 ^ 53 → attempts ≤ 961 →
  0 ≤ Backoff cu k attempts base max ≤
    Z.min max (if attempts <=? 0 then 0 else base * 2 ^ (attempts - 1)).
Proof. apply Backoff_range_ok. Qed.

Lemma Backoff_within_envelope_witness :
  0 ≤ Backoff (λ _, 0) (2 ^ 52) 3 (5 * Second) (3600 * Second) ≤ 20 * Second.
Proof.
  pose proof (Backoff_within_envelope (λ _, 0) (2 ^ 52) 3 (5 * Second) (3600 * Second)
    ltac:(vm_compute; split; congruence) ltac:(vm_compute; split; congruence)
    ltac:(vm_compute; split; congruence) ltac:(lia)) as H.
  exact H.
Defined.

(** With the defaults ([baseBackoff] 5 s, [maxBackoff] 1 h) a draw of one half
    gives 2.5 s at the first failure and the ceiling at the twentieth. *)
Example Backoff_defaults :
  Backoff (λ _, 0) (2 ^ 52) 1 (5 * Second) (3600 * Second) = 2500 * Millisecond ∧
  Backoff (λ _, 0) (2 ^ 52) 20 (5 * Second) (3600 * Second) = 3600 * Second.
Proof. by vm_compute. Qed.

(** The poll jitter keeps the period within 25% of the configured one, and
    panics exactly when the period is one nanosecond. *)
Theorem jitter_quarter n d :
  d ≤ 2 ^ 62 → 0 ≤ n < Z.max 1 (Z.quot d 2) →
  match jitter n d with
  | Some j => (d ≤ 0 ∧ j = d) ∨ (2 ≤ d ∧ d - d / 4 ≤ j < d - d / 4 + d / 2)
  | None => d = 1
  end.
Proof.
  intros Hd Hn. unfold jitter. destruct (Z.leb_spec d 0); [auto|].
  rewrite !Z.quot_div_nonneg in * by lia.
  pose proof (Z.div_mod d 2 ltac:(lia)). pose proof (Z.mod_pos_bound d 2 ltac:(lia)).
  pose proof (Z.div_mod d 4 ltac:(lia)). pose proof (Z.mod_pos_bound d 4 ltac:(lia)).
  destruct (Z.leb_spec (d / 2) 0); cbv beta iota; [lia|]. right.
  rewrite !int64_id by (unfold in_int64; rewrite ?int64_id by (unfold in_int64; lia); lia). lia.
Qed.

Lemma jitter_quarter_witness : jitter 7 100 = Some 82.
Proof.
  pose proof (jitter_quarter 7 100 ltac:(lia) ltac:(vm_compute; split; congruence)) as H.
  destruct (jitter 7 100) as [j|] eqn:E; [|exfalso; lia]. vm_compute in E. congruence.
Defined.

Fixpoint iter_backoff (n : nat) (cur max : duration) : duration :=
  match n with O => cur | S n' => iter_backoff n' (nextBackoff cur max) max end.

Lemma nextBackoff_double cur max :
  0 ≤ cur ≤ max → max < 2 ^ 62 → nextBackoff cur max = Z.min (cur * 2) max.
Proof.
  intros. unfold nextBackoff. rewrite int64_id by (unfold in_int64; lia).
  destruct (Z.ltb_spec max (cur * 2)); lia.
Qed.

(** After [n] failed dials the reconnect delay is exactly the doubled base
    capped at the ceiling, with no int64 overflow on the way. *)
Theorem nextBackoff_doubles_capped n cur max :
  0 ≤ cur ≤ max → max < 2 ^ 62 →
  iter_backoff n cur max = Z.min (cur * 2 ^ Z.of_nat n) max.
Proof.
  revert cur. induction n as [|n IH]; intros cur Hc Hm; cbn [iter_backoff].
  - rewrite Z.mul_1_r. lia.
  - rewrite nextBackoff_double by done. rewrite IH by lia.
    rewrite Nat2Z.inj_succ, Z.pow_succ_r by lia.
    assert (1 ≤ 2 ^ Z.of_nat n) by (pose proof (Z.pow_pos_nonneg 2 (Z.of_nat n)); lia).
    destruct (Z.le_gt_cases (cur * 2) max).
    + rewrite (Z.min_l (cur * 2)) by lia. f_equal. lia.
    + rewrite (Z.min_r (cur * 2)) by lia. rewrite !Z.min_r by nia. done.
Qed.

(** The delays of [dialLoop]: 500 ms, then doubling up to 30 s. *)
Lemma dialLoop_delays :
  iter_backoff 3 (500 * Millisecond) (30 * Second) = 4 * Second ∧
  iter_backoff 6 (500 * Millisecond) (30 * Second) = 30 * Second.
Proof.
  rewrite !nextBackoff_doubles_capped by (vm_compute; split; congruence) || done.
  by vm_compute.
Qed.
