(* ===== verification/MessageBuilder.v ===== *)
(** [internal/signal/message_builder.go]: the JSON-RPC "send" parameters. *)

From S2P Require Import Prelude Errors Domain Sqlc GoText.

(** [signal.SendParams]; empty slices, zero numbers and empty strings of the
    optional fields are omitted from the JSON. *)
Record SendParams := MkSendParams {
  sp_Account : string;
  sp_Message : string;
  sp_Attachments : list string;
  sp_Recipient : list string;
  sp_GroupID : list string;
  sp_QuoteTimestamp : Z;
  sp_QuoteAuthor : string;
}.

(** [p != nil && *p != ""]. *)
Definition set (p : option string) : bool :=
  match p with Some s => negb (bool_decide (s = "")) | None => false end.

(** The recipient switch: exactly one of the two lists, or an error. *)
Definition target_of (msg : SignalMessage) : res (list string * list string) :=
  if set (msg_Recipient msg) then Ok ([default "" (msg_Recipient msg)], [])
  else if set (msg_GroupID msg) then Ok ([], [default "" (msg_GroupID msg)])
  else Err (ErrMsg "send params: neither recipient nor groupId set").

(** [signal.BuildSendParams]. *)
Definition BuildSendParams (account : string) (msg : SignalMessage) (paths : list string)
    : res SendParams :=
  if bool_decide (account = "") then Err (ErrMsg "send params: empty account")
  else if bool_decide (msg_Content msg = "") then Err (ErrMsg "send params: empty content")
  else match target_of msg with
       | Err e => Err e
       | Ok (rcpt, grp) =>
           if set (msg_QuoteResultID msg) then
             match ParseInt (default "" (msg_QuoteResultID msg)) with
             | Err e => Err (Wrap e "send params: parse quoteResultId")
             | Ok ts => Ok (MkSendParams account (msg_Content msg) paths rcpt grp ts account)
             end
           else Ok (MkSendParams account (msg_Content msg) paths rcpt grp 0 "")
       end.

Lemma set_true p : set p = true → ∃ s, p = Some s ∧ s ≠ "".
Proof. unfold set. destruct p; [|done]. intros; bools. eauto. Qed.

Lemma target_of_ok msg rcpt grp :
  target_of msg = Ok (rcpt, grp) →
  (∃ r, msg_Recipient msg = Some r ∧ r ≠ "" ∧ rcpt = [r] ∧ grp = []) ∨
  (∃ g, msg_GroupID msg = Some g ∧ g ≠ "" ∧ set (msg_Recipient msg) = false ∧
        rcpt = [] ∧ grp = [g]).
Proof.
  unfold target_of.
  destruct (set (msg_Recipient msg)) eqn:R; [|destruct (set (msg_GroupID msg)) eqn:G];
    intros; simplify_eq.
  - apply set_true in R as (r & -> & ?). left. eauto.
  - apply set_true in G as (g & -> & ?). right. eauto 10.
Qed.

Lemma target_of_err msg :
  (∃ e, target_of msg = Err e) ↔ set (msg_Recipient msg) = false ∧ set (msg_GroupID msg) = false.
Proof.
  unfold target_of. destruct (set (msg_Recipient msg)), (set (msg_GroupID msg)); naive_solver.
Qed.

(** The builder succeeds exactly when the account and the content are
    non-empty, a recipient or a group is set and the quote id, if any, is an
    int64 in decimal; the payload then addresses exactly one target (the
    recipient first), carries the content and the downloaded paths, and quotes
    as the configured account. *)
Theorem BuildSendParams_spec account msg paths :
  match BuildSendParams account msg paths with
  | Ok p =>
      account ≠ "" ∧ msg_Content msg ≠ "" ∧
      sp_Account p = account ∧ sp_Message p = msg_Content msg ∧ sp_Attachments p = paths ∧
      (length (sp_Recipient p) + length (sp_GroupID p) = 1)%nat ∧
      (∀ r, sp_Recipient p = [r] → msg_Recipient msg = Some r ∧ r ≠ "") ∧
      (∀ g, sp_GroupID p = [g] → msg_GroupID msg = Some g ∧ g ≠ "" ∧ set (msg_Recipient msg) = false) ∧
      (if set (msg_QuoteResultID msg)
       then ParseInt (default "" (msg_QuoteResultID msg)) = Ok (sp_QuoteTimestamp p)
            ∧ sp_QuoteAuthor p = account
       else sp_QuoteTimestamp p = 0 ∧ sp_QuoteAuthor p = "")
  | Err _ =>
      account = "" ∨ msg_Content msg = "" ∨
      (set (msg_Recipient msg) = false ∧ set (msg_GroupID msg) = false) ∨
      (set (msg_QuoteResultID msg) = true ∧
       is_ok (ParseInt (default "" (msg_QuoteResultID msg))) = false)
  end.
Proof.
  unfold BuildSendParams.
  case_bool_decide; [auto|]. case_bool_decide; [auto|].
  destruct (target_of msg) as [[rcpt grp]|e] eqn:T.
  2: { right; right; left. apply target_of_err. eauto. }
  apply target_of_ok in T.
  destruct (set (msg_QuoteResultID msg)) eqn:S;
    [destruct (ParseInt _) eqn:Q; [|by right; right; right]|];
    destruct T as [(r & ? & ? & -> & ->)|(g & ? & ? & ? & -> & ->)]; simpl;
    split_and!; naive_solver.
Qed.
