(* ===== verification/Prog.v ===== *)
(** Effectful code as programs over an interface of calls.

    A goroutine is a program whose steps are the calls it makes through the
    interfaces it owns (repository, object store, signal-cli, clock, random
    source, metrics).  Such a program has two readings here: its traces, one
    for every way the environment may answer, and its execution by a handler
    that implements the calls. *)

From S2P Require Import Prelude.

Inductive prog (E : Type → Type) (A : Type) : Type :=
| Ret (a : A)
| Vis {X : Type} (e : E X) (k : X → prog E A).
Arguments Ret {E A} _.
Arguments Vis {E A X} _ _.

Fixpoint prog_bind {E A B} (m : prog E A) (k : A → prog E B) : prog E B :=
  match m with
  | Ret a => k a
  | Vis e c => Vis e (λ x, prog_bind (c x) k)
  end.

#[export] Instance prog_MRet {E} : MRet (prog E) := λ A, Ret.
#[export] Instance prog_MBind {E} : MBind (prog E) := λ A B k m, prog_bind m k.

(** One call. *)
Definition call {E X} (e : E X) : prog E X := Vis e Ret.

(** A call and the answer the environment gave. *)
Inductive event (E : Type → Type) : Type :=
| Ev {X : Type} (e : E X) (x : X).
Arguments Ev {E X} _ _.

Section runs.
Context {E : Type → Type} (allowed : ∀ X, E X → X → Prop).

(** [runs p tr a]: [p] may perform exactly the calls of [tr], with those
    answers, each of them allowed, and return [a]. *)
Fixpoint runs {A} (p : prog E A) (tr : list (event E)) (a : A) : Prop :=
  match p with
  | Ret b => tr = [] ∧ a = b
  | Vis e k => ∃ x tr', tr = Ev e x :: tr' ∧ allowed _ e x ∧ runs (k x) tr' a
  end.

Lemma runs_bind {A B} (m : prog E A) (k : A → prog E B) tr b :
  runs (m ≫= k) tr b ↔ ∃ tr1 a tr2, tr = tr1 ++ tr2 ∧ runs m tr1 a ∧ runs (k a) tr2 b.
Proof.
  revert tr. induction m as [a|X e c IH]; intros tr; simpl.
  - split; [intros H; exists [], a, tr; done|]. by intros (? & ? & ? & -> & [-> ->] & ?).
  - split.
    + intros (x & tr' & -> & Hok & H). apply IH in H as (t1 & a & t2 & -> & H1 & H2).
      exists (Ev e x :: t1), a, t2. split_and!; [done|exists x, t1; done|done].
    + intros (t1 & a & t2 & -> & (x & t' & -> & Hok & H1) & H2).
      exists x, (t' ++ t2). split_and!; [done|done|]. apply IH. exists t', a, t2. done.
Qed.

Lemma runs_call {X} (e : E X) tr x : runs (call e) tr x ↔ tr = [Ev e x] ∧ allowed _ e x.
Proof. simpl. naive_solver. Qed.

Lemma runs_ret {A} (a b : A) tr : runs (mret a) tr b ↔ tr = [] ∧ b = a.
Proof. done. Qed.
End runs.

Section interp.
Context {E : Type → Type} {S : Type} (h : ∀ X, E X → S → X * S).

(** Execution by a handler: the answer to each call and the new state. *)
Fixpoint interp {A} (p : prog E A) (s : S) : A * S :=
  match p with
  | Ret a => (a, s)
  | Vis e k => let '(x, s') := h _ e s in interp (k x) s'
  end.

Lemma interp_bind {A B} (m : prog E A) (k : A → prog E B) s :
  interp (m ≫= k) s = let '(a, s') := interp m s in interp (k a) s'.
Proof.
  revert s. induction m as [a|X e c IH]; intros s; simpl; [done|].
  destruct (h X e s) as [x s']. apply IH.
Qed.

(** An execution is one of the traces. *)
Lemma interp_runs {A} (p : prog E A) s :
  ∃ tr, runs (λ X e x, ∃ s, x = (h X e s).1) p tr (interp p s).1.
Proof.
  revert s. induction p as [a|X e k IH]; intros s; simpl; [eauto|].
  destruct (h X e s) as [x s'] eqn:Eh. destruct (IH x s') as [tr Htr].
  exists (Ev e x :: tr), x, tr. split_and!; [done|exists s; by rewrite Eh|done].
Qed.

(** The calls of an execution, with their answers. *)
Fixpoint calls_made {A} (p : prog E A) (s : S) : list (event E) :=
  match p with
  | Ret _ => []
  | Vis e k => let '(x, s') := h _ e s in Ev e x :: calls_made (k x) s'
  end.

Lemma calls_made_runs {A} (p : prog E A) s :
  runs (λ _ _ _, True) p (calls_made p s) (interp p s).1.
Proof.
  revert s. induction p as [a|X e k IH]; intros s; simpl; [done|].
  destruct (h X e s) as [x s'] eqn:Eh. exists x, (calls_made (k x) s'). by split_and!.
Qed.

(** Every call that a program can make satisfies [Q]. *)
Fixpoint all_calls (Q : ∀ X, E X → Prop) {A} (p : prog E A) : Prop :=
  match p with
  | Ret _ => True
  | Vis e k => Q _ e ∧ ∀ x, all_calls Q (k x)
  end.

Lemma all_calls_bind Q {A B} (m : prog E A) (k : A → prog E B) :
  all_calls Q m → (∀ a, all_calls Q (k a)) → all_calls Q (m ≫= k).
Proof.
  induction m as [a|X e c IH]; simpl; [auto|]. intros [He Hc] Hk.
  split; [done|]. intros x. by apply IH.
Qed.

Lemma all_calls_call Q {X} (e : E X) : Q _ e → all_calls Q (call e).
Proof. simpl. auto. Qed.

Lemma all_calls_ret Q {A} (a : A) : all_calls Q (mret a).
Proof. exact I. Qed.

(** What every call keeps, the program keeps. *)
Lemma interp_inv Q (P : S → Prop) {A} (p : prog E A) s :
  (∀ X (e : E X) s, Q X e → P s → P (h _ e s).2) →
  all_calls Q p → P s → P (interp p s).2.
Proof.
  intros HQ. revert s. induction p as [a|X e k IH]; intros s; simpl; [auto|].
  intros [He Hk] Hs. specialize (HQ X e s He Hs). destruct (h X e s) as [x s']. auto.
Qed.
End interp.
