(* ===== verification/Worker.v ===== *)
(** [internal/worker/worker.go]: the outbox worker.

    The worker's consumer-owned interfaces ([Repo], [Downloader], [Sender],
    [FailureNotifier], [Metrics]), its clock, its random source, its logger and
    its context are the calls of [WorkerE]; [tick], [dispatch], [markSent] and
    [fail] are programs over them, statement by statement. *)

From S2P Require Import Prelude Errors Domain Config Sqlc GoText Backoff MessageBuilder Prog.

(** [storage.ObjectRef]. *)
Record ObjectRef := MkObjectRef { ref_Bucket : string; ref_Key : string }.

(** [signal.SendResult]; the raw JSON it also carries is never read. *)
Record SendResult := MkSendResult { sr_Timestamp : Z }.

(** [SendResult.ResultID]. *)
Definition ResultID (r : SendResult) : string := FormatInt (sr_Timestamp r).

(** Terminal-status tags of [internal/metrics]. *)
Definition metric_StatusSent : string := "sent".
Definition metric_StatusPermanentFailed : string := "permanent_failed".
Definition metric_StatusTimedOut : string := "timed_out".

Inductive WorkerE : Type → Type :=
(* time and randomness *)
| Now : WorkerE time
| RandFloat64 : WorkerE Z
(* the attempt context: WithTimeout, its Err() != nil, sleepCtx, cancel *)
| WithTimeout (d : duration) : WorkerE unit
| CtxErr : WorkerE bool
| SleepCtx (d : duration) : WorkerE bool
| Cancel : WorkerE unit
(* the poll loop: rand.Int64N, time.NewTicker, and the select between the
   ticker (true) and ctx.Done() (false) *)
| Int64N (n : Z) : WorkerE Z
| NewTicker (d : duration) : WorkerE unit
| Select_ : WorkerE bool
(* Repo *)
| ClaimPending_ (lease : duration) : WorkerE (res SignalMessage)
| MarkSent_ (id : uuid) (resultID : string) : WorkerE (option error)
| MarkFailed_ (id : uuid) (lastErr : string) (nextAttemptAt : time) : WorkerE (option error)
(* Downloader *)
| DownloadAll_ (messageID : string) (refs : list ObjectRef) : WorkerE (res (list string))
| CleanupLocal_ (messageID : string) : WorkerE unit
(* Sender *)
| Send_ (params : SendParams) : WorkerE (res SendResult)
(* FailureNotifier *)
| Enabled_ : WorkerE bool
| NotifyPermanentFailure_ (m : SignalMessage) (cause : error) : WorkerE unit
(* Metrics *)
| ObserveClaim (d : duration) : WorkerE unit
| ObserveSend (d : duration) (ok : bool) : WorkerE unit
| IncTerminal (st : string) : WorkerE unit
| IncRetry : WorkerE unit
(* logger *)
| Log (msg : string) : WorkerE unit.

(** [toRefs]. *)
Definition toRefs (att : Attachments) : list ObjectRef :=
  (λ a, MkObjectRef (att_Bucket a) (att_Filename a)) <$> att.

Section Worker.

(** Text of an error ([err.Error()]) and of an id ([id.String()]), owned by the
    error and UUID packages. *)
Variable errorText : error → string.
Variable uuidString : uuid → string.
Variable conv_undefined : float64 → Z.

(** The fields of [Worker] that its methods read. *)
Variable cfg : WorkerConfig.
Variable account : string.
Variable has_notifier : bool.

(** [( *Worker).markSent]: at most [attempts] tries, 50 ms then 100 ms apart. *)
Fixpoint markSent_loop (attempts : nat) (i : Z) (id : uuid) (resultID : string)
    (err : option error) : prog WorkerE (option error) :=
  match attempts with
  | O => mret err
  | S n =>
      err' ← call (MarkSent_ id resultID);
      match err' with
      | None => mret None
      | Some _ =>
          done_ ← call CtxErr;
          if (done_ : bool) then mret err'
          else if i <? 3 - 1 then
            slept ← call (SleepCtx ((i + 1) * 50 * Millisecond));
            if (slept : bool) then markSent_loop n (i + 1) id resultID err' else mret err'
          else markSent_loop n (i + 1) id resultID err'
      end
  end.

Definition markSent (id : uuid) (resultID : string) : prog WorkerE (option error) :=
  markSent_loop 3 0 id resultID None.

(** [( *Worker).fail]. *)
Definition fail (msg : SignalMessage) (cause : error) : prog WorkerE unit :=
  now ← call Now;
  k ← call RandFloat64;
  let next := now + Backoff conv_undefined k (msg_Attempts msg) (wc_BaseBackoff cfg) (wc_MaxBackoff cfg) in
  err ← call (MarkFailed_ (msg_ID msg) (errorText cause) next);
  match err with
  | Some _ => call (Log "mark failed failed")
  | None =>
      _ ← call (Log "signal-message attempt failed");
      if msg_MaxAttempts msg <=? msg_Attempts msg then
        _ ← call (IncTerminal metric_StatusPermanentFailed);
        if has_notifier then
          on ← call Enabled_;
          if (on : bool) then call (NotifyPermanentFailure_ msg cause) else mret tt
        else mret tt
      else call IncRetry
  end.

(** The part of [dispatch] after a successful download. *)
Definition send_claimed (msg : SignalMessage) (paths : list string) : prog WorkerE unit :=
  match BuildSendParams account msg paths with
  | Err e => fail msg e
  | Ok params =>
      sendStart ← call Now;
      r ← call (Send_ params);
      t ← call Now;
      _ ← call (ObserveSend (t - sendStart) (is_ok r));
      match r with
      | Err e => fail msg e
      | Ok result =>
          err ← markSent (msg_ID msg) (ResultID result);
          match err with
          | Some _ => call (Log "mark sent failed")
          | None => call (IncTerminal metric_StatusSent)
          end
      end
  end.

(** [( *Worker).dispatch]; the deferred calls run at each return, the cleanup
    before the cancel. *)
Definition dispatch (msg : SignalMessage) : prog WorkerE unit :=
  _ ← call (WithTimeout (wc_PerAttemptTimeout cfg));
  let refs := toRefs (msg_Attachments msg) in
  r ← call (DownloadAll_ (uuidString (msg_ID msg)) refs);
  match r with
  | Err e =>
      _ ← fail msg (Wrap e "download attachments");
      call Cancel
  | Ok paths =>
      _ ← send_claimed msg paths;
      _ ← call (CleanupLocal_ (uuidString (msg_ID msg)));
      call Cancel
  end.

(** [( *Worker).tick]: true iff a row was claimed. *)
Definition tick : prog WorkerE bool :=
  start ← call Now;
  r ← call (ClaimPending_ (wc_LeaseDuration cfg));
  t ← call Now;
  _ ← call (ObserveClaim (t - start));
  match r with
  | Err e =>
      if Is e ErrNotFound then mret false
      else _ ← call (Log "claim pending failed"); mret false
  | Ok msg => _ ← dispatch msg; mret true
  end.

(** The hot loop of [runSingle]: [for w.tick(ctx) { if ctx.Err() != nil { return } }],
    for at most [fuel] ticks.  [Some true]: [runSingle] returned; [Some false]:
    nothing was left to claim; [None]: out of fuel. *)
Fixpoint hot_loop (fuel : nat) : prog WorkerE (option bool) :=
  match fuel with
  | O => mret None
  | S f =>
      claimed_ ← tick;
      if (claimed_ : bool) then
        stop ← call CtxErr;
        if (stop : bool) then mret (Some true) else hot_loop f
      else mret (Some false)
  end.

(** The [case <-t.C] of [runSingle]. *)
Definition ticker_fired (fuel : nat) : prog WorkerE (option bool) :=
  claimed_ ← tick;
  if (claimed_ : bool) then hot_loop fuel else mret (Some false).

(** How a worker goroutine ends: it returned, it was still running when the
    fuel ran out, or it panicked. *)
Inductive loop_end := Returned | OutOfFuel | Panicked.

(** The [for { select ... }] of [runSingle], for at most [rounds] rounds. *)
Fixpoint select_loop (rounds fuel : nat) : prog WorkerE loop_end :=
  match rounds with
  | O => mret OutOfFuel
  | S n =>
      fired ← call Select_;
      if (fired : bool) then
        o ← ticker_fired fuel;
        match o with
        | None => mret OutOfFuel
        | Some true => mret Returned
        | Some false => select_loop n fuel
        end
      else mret Returned
  end.

(** [( *Worker).runSingle]; [time.NewTicker] panics on a duration that is not
    positive. *)
Definition runSingle (rounds fuel : nat) (poll : duration) : prog WorkerE loop_end :=
  draw ← (if poll <=? 0 then mret 0 else call (Int64N (Z.quot poll 2)));
  match jitter draw poll with
  | None => mret Panicked
  | Some d =>
      if d <=? 0 then mret Panicked
      else _ ← call (NewTicker d); select_loop rounds fuel
  end.

(** [( *Worker).Run]: the goroutines it runs and waits for ([runConcurrent] for
    more than one). *)
Definition Run (rounds fuel : nat) : list (prog WorkerE loop_end) :=
  let poll := if wc_PollInterval cfg <=? 0 then Second else wc_PollInterval cfg in
  if wc_Concurrency cfg <=? 1 then [runSingle rounds fuel poll]
  else replicate (Z.to_nat (wc_Concurrency cfg)) (runSingle rounds fuel poll).

End Worker.
