(* ===== verification/WorkerFacts.v ===== *)
(** What the worker does for every way its environment may answer: the shape of
    a dispatch, of a failure and of the bounded [MarkSent] retry. *)

From S2P Require Import Prelude Errors Domain Config Sqlc GoText Backoff MessageBuilder Prog Worker.

(** The calls that matter outside the process, with their answers. *)
Inductive obs :=
| ODownload (r : res (list string))
| OSend (p : SendParams) (r : res SendResult)
| OMarkSent (id : uuid) (resultID : string) (err : option error)
| OMarkFailed (id : uuid) (lastErr : string) (next : time) (err : option error)
| OCleanup (messageID : string)
| OTerminal (st : string)
| ORetry
| ONotify (m : SignalMessage) (cause : error).

Definition observe (ev : event WorkerE) : option obs :=
  match ev with
  | @Ev _ X e x =>
      match e in WorkerE X return X → option obs with
      | DownloadAll_ _ _ => λ r, Some (ODownload r)
      | Send_ p => λ r, Some (OSend p r)
      | MarkSent_ id rid => λ err, Some (OMarkSent id rid err)
      | MarkFailed_ id txt next => λ err, Some (OMarkFailed id txt next err)
      | CleanupLocal_ m => λ _, Some (OCleanup m)
      | IncTerminal st => λ _, Some (OTerminal st)
      | IncRetry => λ _, Some ORetry
      | NotifyPermanentFailure_ m c => λ _, Some (ONotify m c)
      | _ => λ _, None
      end x
  end.

(** The only answers constrained: [rand.Float64] lies in [0, 1). *)
Definition allowed (X : Type) (e : WorkerE X) : X → Prop :=
  match e in WorkerE X return X → Prop with
  | RandFloat64 => λ k, draw_ok k
  | _ => λ _, True
  end.

Abbreviation wruns p tr a := (runs allowed p tr a).

Ltac runs_inv :=
  repeat match goal with
  | H : runs _ (_ ≫= _) _ _ |- _ => apply runs_bind in H as (? & ? & ? & -> & ? & ?)
  | H : runs _ (call _) _ _ |- _ => apply runs_call in H as [-> ?]
  | H : runs _ (mret _) _ _ |- _ => apply runs_ret in H as [-> ?]
  | H : _ ∧ _ |- _ => destruct H
  end; subst; csimpl.

Ltac destruct_unit := repeat match goal with u : unit |- _ => destruct u end.

Section facts.
Context (errorText : error → string) (uuidString : uuid → string)
  (conv_undefined : float64 → Z) (cfg : WorkerConfig) (account : string) (has_notifier : bool).

Abbreviation fail' := (fail errorText conv_undefined cfg has_notifier).
Abbreviation dispatch' := (dispatch errorText uuidString conv_undefined cfg account has_notifier).
Abbreviation send_claimed' := (send_claimed errorText conv_undefined cfg account has_notifier).

(** What [fail] does: one MarkFailed with the backed-off time; on success one
    metric, and the alert only for a message out of attempts. *)
Definition failure (msg : SignalMessage) (cause : error) (l : list obs) : Prop :=
  ∃ now k err rest,
    draw_ok k ∧
    l = OMarkFailed (msg_ID msg) (errorText cause)
          (now + Backoff conv_undefined k (msg_Attempts msg) (wc_BaseBackoff cfg) (wc_MaxBackoff cfg)) err
        :: rest ∧
    match err with
    | Some _ => rest = []
    | None => if msg_MaxAttempts msg <=? msg_Attempts msg
              then rest = [OTerminal metric_StatusPermanentFailed]
                   ∨ has_notifier = true ∧
                     rest = [OTerminal metric_StatusPermanentFailed; ONotify msg cause]
              else rest = [ORetry]
    end.

Lemma fail_runs msg cause tr :
  wruns (fail' msg cause) tr tt → failure msg cause (omap observe tr).
Proof.
  unfold fail. intros H. runs_inv.
  match goal with H : runs _ (match ?e with _ => _ end) _ _ |- _ => destruct e as [e|] end;
    runs_inv; eexists _, _, _, _; split_and!; try done.
  case_match; runs_inv; [|done].
  destruct has_notifier; runs_inv; [|by left].
  match goal with H : runs _ (if ?b then _ else _) _ _ |- _ => destruct b end;
    runs_inv; [by right|by left].
Qed.

(** The retry loop: failed marks, then success or giving up. *)
Definition marks (n : nat) (id : uuid) (rid : string) (r : option error) (l : list obs) : Prop :=
  ∃ fails, Forall (λ o, ∃ e, o = OMarkSent id rid (Some e)) fails ∧
    match r with
    | None => l = fails ++ [OMarkSent id rid None] ∧ (length fails < n)%nat
    | Some _ => l = fails ∧ (length fails ≤ n)%nat ∧ ((0 < n)%nat → fails ≠ [])
    end.

Lemma marks_failed n id rid e r l :
  marks n id rid r l → marks (S n) id rid r (OMarkSent id rid (Some e) :: l).
Proof.
  intros (fails & HF & H). exists (OMarkSent id rid (Some e) :: fails).
  split; [by constructor; eauto|].
  destruct r; [destruct H as (-> & ? & ?)|destruct H as [-> ?]]; simpl; split_and!; done || lia.
Qed.

Lemma marks_stop n id rid e : marks (S n) id rid (Some e) [OMarkSent id rid (Some e)].
Proof.
  eexists [_]. split; [by repeat constructor; eauto|]. simpl. split_and!; [done|lia|done].
Qed.

Lemma markSent_loop_runs n i id rid err0 tr r :
  err0 ≠ None ∨ (0 < n)%nat →
  wruns (markSent_loop n i id rid err0) tr r → marks n id rid r (omap observe tr).
Proof.
  revert i err0 tr. induction n as [|n IH]; intros i err0 tr Hn H.
  - simpl in H. runs_inv. destruct err0; [|by destruct Hn as [|?%Nat.nlt_0_r]].
    exists []. split_and!; [constructor|done|simpl; lia|lia].
  - cbn [markSent_loop] in H. runs_inv.
    match goal with H : runs _ (match ?e with _ => _ end) _ _ |- _ => destruct e as [e|] end;
      runs_inv; [|exists []; split_and!; [constructor|done|simpl; lia]].
    match goal with H : runs _ (if ?b then _ else _) _ _ |- _ => destruct b end;
      runs_inv; [by apply marks_stop|].
    case_match; runs_inv; [|eapply marks_failed, IH; [|eassumption]; by left].
    match goal with H : runs _ (if ?b then _ else _) _ _ |- _ => destruct b end;
      runs_inv; [eapply marks_failed, IH; [|eassumption]; by left|by apply marks_stop].
Qed.

(** The five ways a dispatch ends. *)
Inductive dispatched (msg : SignalMessage) : list obs → Prop :=
| out_download e l :
    failure msg (Wrap e "download attachments") l →
    dispatched msg (ODownload (Err e) :: l)
| out_build paths e l :
    BuildSendParams account msg paths = Err e → failure msg e l →
    dispatched msg (ODownload (Ok paths) :: l ++ [OCleanup (uuidString (msg_ID msg))])
| out_rejected paths params e l :
    BuildSendParams account msg paths = Ok params → failure msg e l →
    dispatched msg
      (ODownload (Ok paths) :: OSend params (Err e) :: l ++ [OCleanup (uuidString (msg_ID msg))])
| out_sent paths params r l :
    BuildSendParams account msg paths = Ok params →
    marks 3 (msg_ID msg) (ResultID r) None l →
    dispatched msg
      (ODownload (Ok paths) :: OSend params (Ok r)
         :: l ++ [OTerminal metric_StatusSent; OCleanup (uuidString (msg_ID msg))])
| out_unrecorded paths params r e l :
    BuildSendParams account msg paths = Ok params →
    marks 3 (msg_ID msg) (ResultID r) (Some e) l →
    dispatched msg
      (ODownload (Ok paths) :: OSend params (Ok r)
         :: l ++ [OCleanup (uuidString (msg_ID msg))]).

Lemma dispatch_runs msg tr :
  wruns (dispatch' msg) tr tt → dispatched msg (omap observe tr).
Proof.
  unfold dispatch. intros H. runs_inv.
  match goal with H : runs _ (match ?e with _ => _ end) _ _ |- _ => destruct e as [paths|e] end;
    runs_inv; rewrite ?omap_app; csimpl; rewrite ?app_nil_r.
  2: { apply out_download. destruct_unit. by apply fail_runs. }
  unfold send_claimed in *. destruct (BuildSendParams account msg paths) as [params|e] eqn:B;
    runs_inv; [|by eapply out_build; eauto; destruct_unit; apply fail_runs].
  match goal with H : runs _ (match ?e with _ => _ end) _ _ |- _ => destruct e as [r|e] end;
    runs_inv; [|by eapply out_rejected; eauto; destruct_unit; apply fail_runs].
  match goal with H : runs _ (markSent _ _) _ ?e |- _ =>
    apply markSent_loop_runs in H; [|lia]; destruct e end;
    runs_inv; rewrite ?omap_app; csimpl; rewrite ?app_nil_r, <- ?app_assoc.
  - by eapply out_unrecorded.
  - by eapply out_sent.
Qed.
End facts.

(** ** Properties *)

(** C8: whatever the store, the database, signal-cli and the clock answer, a
    dispatch ends in one of five ways: a failed download, a failed build, a
    rejected send (each followed by exactly one MarkFailed), a send recorded
    after at most three MarkSent calls, or an accepted send left unrecorded
    after one to three failed ones.  So there is at most one send, MarkSent
    happens only after an accepted send and with its id, never with MarkFailed,
    and the downloaded files are always removed. *)
Theorem dispatch_outcomes errorText uuidString conv_undefined cfg account has_notifier msg tr :
  runs allowed (dispatch errorText uuidString conv_undefined cfg account has_notifier msg) tr tt →
  dispatched errorText uuidString conv_undefined cfg account has_notifier msg (omap observe tr).
Proof. apply dispatch_runs. Qed.

(** A message claimed for its first attempt, used by the witnesses. *)
Definition sample_msg : SignalMessage :=
  {| msg_ID := 7%N; msg_ExternalID := "ext-1"; msg_IdempotencyKey := None;
     msg_Recipient := Some "+380111111111"; msg_GroupID := None;
     msg_SenderPhoneNumber := "+380000000000"; msg_Content := "hi"; msg_Attachments := [];
     msg_Attempts := 1; msg_MaxAttempts := 5; msg_NextAttemptAt := 300 * Second;
     msg_TimeoutAt := None; msg_Status := StatusSending; msg_LastError := None;
     msg_ResultID := None; msg_QuoteResultID := None; msg_CorrelationID := "c";
     msg_CreatedAt := 0; msg_ModifiedAt := 0 |}.

Definition sample_params : SendParams :=
  MkSendParams "+380000000000" "hi" [] ["+380111111111"] [] 0 "".

(** A run in which the send is accepted and the first MarkSent fails. *)
Definition sample_run : list (event WorkerE) :=
  [Ev (WithTimeout Minute) tt; Ev (DownloadAll_ "7" []) (Ok []); Ev Now 10;
   Ev (Send_ sample_params) (Ok (MkSendResult 1700000001)); Ev Now 20;
   Ev (ObserveSend 10 true) tt;
   Ev (MarkSent_ 7%N "1700000001") (Some (ErrPg ConnectionFailure)); Ev CtxErr false;
   Ev (SleepCtx (50 * Millisecond)) true; Ev (MarkSent_ 7%N "1700000001") None;
   Ev (IncTerminal "sent") tt; Ev (CleanupLocal_ "7") tt; Ev Cancel tt].

Lemma dispatch_outcomes_witness :
  dispatched (λ _, "") (λ _, "7") (λ _, 0) default_worker "+380000000000" false sample_msg
    (omap observe sample_run).
Proof.
  apply dispatch_outcomes. unfold sample_run. cbn.
  repeat (eexists _, _; split_and!; [reflexivity|exact I|]; cbn).
  by exists tt, [].
Defined.

(** The result id of any int64 timestamp has at most 20 characters, so the
    [VARCHAR(25)] column never refuses it and MarkSent cannot fail on it. *)
Theorem ResultID_fits r now id t :
  in_int64 (sr_Timestamp r) →
  char_length (ResultID r) ≤ 20 ∧
  (MarkSent now (Some (ResultID r)) id t).1 = Ok tt.
Proof.
  intros H. pose proof (FormatInt_length _ H) as L. split; [exact L|].
  unfold MarkSent, ResultID. destruct (Z.ltb_spec 25 (char_length (FormatInt (sr_Timestamp r))));
    [lia|]. by rewrite andb_false_r.
Qed.

Lemma ResultID_fits_witness :
  char_length (ResultID (MkSendResult (- 2 ^ 63))) ≤ 20 ∧
  (MarkSent 0 (Some (ResultID (MkSendResult (- 2 ^ 63)))) (MkPgUUID 1%N true) []).1 = Ok tt.
Proof. apply ResultID_fits. vm_compute. split; congruence. Defined.

(** Quoting the message that a [ResultID] names gives signal-cli back the
    timestamp it returned for it, with the configured account as the author:
    the decimal text stored in [result_id] loses nothing of an [int64]. *)
Theorem quote_round_trip account msg paths r :
  in_int64 (sr_Timestamp r) →
  msg_QuoteResultID msg = Some (ResultID r) →
  account ≠ "" → msg_Content msg ≠ "" →
  set (msg_Recipient msg) || set (msg_GroupID msg) = true →
  ∃ p, BuildSendParams account msg paths = Ok p ∧
       sp_QuoteTimestamp p = sr_Timestamp r ∧ sp_QuoteAuthor p = account.
Proof.
  intros Hr Hq Ha Hc Ht. unfold BuildSendParams, target_of. rewrite !bool_decide_eq_false_2 by done.
  pose proof (ParseInt_FormatInt_ok _ Hr) as Hp.
  assert (set (msg_QuoteResultID msg) = true) as Hs.
  { rewrite Hq. simpl. case_bool_decide as He; [|done]. unfold ResultID in He. by rewrite He in Hp. }
  rewrite Hs, Hq. simpl. unfold ResultID. rewrite Hp.
  destruct (set (msg_Recipient msg)), (set (msg_GroupID msg)); [..|done]; eauto.
Qed.

Lemma quote_round_trip_witness :
  let msg := MkSignalMessage 1%N "e" None (Some "+1") None "+2" "hi" [] 0 5 0 None StatusPending
               None None (Some "-7") "c" 0 0 in
  ∃ p, BuildSendParams "+2" msg [] = Ok p ∧ sp_QuoteTimestamp p = -7 ∧ sp_QuoteAuthor p = "+2".
Proof.
  apply (quote_round_trip "+2" _ [] (MkSendResult (-7))); [|reflexivity|done|done|reflexivity].
  vm_compute. split; congruence.
Defined.
