(* ===== verification/Drain.v ===== *)
(** The hot loop of the worker over a real table: it stops.

    [WorkerEnv] is what the worker needs of its environment: a table behind its
    repository and a clock; every other answer is free.  The loop is proved to
    end against that interface. *)

From S2P Require Import Prelude Errors Domain Config Sqlc SqlcFacts Outbox Repo Backoff Prog Worker.

(** The calls that reach the table. *)
Definition touches {X} (e : WorkerE X) : bool :=
  match e with
  | ClaimPending_ _ | MarkSent_ _ _ | MarkFailed_ _ _ _ => true
  | _ => false
  end.

(** An environment: repository calls run the statements of [Repo] at the current
    time, or fail without an effect; a mark may also take effect and be reported
    as failed. *)
Class WorkerEnv (S : Type) := {
  env_do : ∀ X, WorkerE X → S → X * S;
  env_table : S → table;
  env_now : S → time;
  env_claim : ∀ lease s,
    (∃ locked, ((env_do _ (ClaimPending_ lease) s).1, env_table (env_do _ (ClaimPending_ lease) s).2)
               = repo_ClaimPending (env_now s) locked lease (env_table s)) ∨
    ((∃ e, (env_do _ (ClaimPending_ lease) s).1 = Err e) ∧
     env_table (env_do _ (ClaimPending_ lease) s).2 = env_table s);
  env_sent : ∀ id rid s,
    env_table (env_do _ (MarkSent_ id rid) s).2
      = (repo_MarkSent (env_now s) id rid (env_table s)).2 ∨
    env_table (env_do _ (MarkSent_ id rid) s).2 = env_table s;
  env_failed : ∀ id txt next s,
    env_table (env_do _ (MarkFailed_ id txt next) s).2
      = (repo_MarkFailed (env_now s) id txt next (env_table s)).2 ∨
    env_table (env_do _ (MarkFailed_ id txt next) s).2 = env_table s;
  env_other : ∀ X (e : WorkerE X) s, touches e = false → env_table (env_do _ e s).2 = env_table s;
}.

(** ** Counting rows under an update *)

Definition count {A} (p : A → bool) (l : list A) : nat := length (filter (λ x, p x) l).

Lemma count_cons {A} (p : A → bool) x l :
  count p (x :: l) = ((if p x then 1 else 0) + count p l)%nat.
Proof. unfold count. rewrite filter_cons. destruct (p x); case_decide; naive_solver. Qed.

Lemma count_update_le {A} (q p : A → bool) f (l : list A) :
  (∀ x, q (f x) = true → q x = true) → (count q (update_where p f l) ≤ count q l)%nat.
Proof.
  intros H. induction l as [|x l IH]; [done|]. rewrite update_where_cons, !count_cons.
  destruct (p x); [|lia]. specialize (H x). destruct (q (f x)), (q x); (lia || naive_solver).
Qed.

Lemma count_update_lt {A} (q p : A → bool) f (l : list A) x :
  (∀ y, q (f y) = false) → x ∈ l → p x = true → q x = true →
  (count q (update_where p f l) < count q l)%nat.
Proof.
  intros H Hin Hp Hq. induction Hin as [y l|x y l Hin IH]; rewrite update_where_cons, !count_cons.
  - rewrite Hp, Hq, H. assert (count q (update_where p f l) ≤ count q l)%nat; [|lia].
    apply count_update_le. intros z. by rewrite H.
  - specialize (IH Hp Hq). destruct (p y); rewrite ?H; destruct (q y); lia.
Qed.

Section Drain.
Context {S : Type} `{Env : WorkerEnv S}.
Variable errorText : error → string.
Variable uuidString : uuid → string.
Variable conv_undefined : float64 → Z.
Variable cfg : WorkerConfig.
Variable account : string.
Variable has_notifier : bool.

(** Everything happens within one lease of [t0]. *)
Variable t0 : time.
Definition lease : duration := Microseconds (wc_LeaseDuration cfg) * Microsecond.
Hypothesis within_lease : ∀ s, t0 ≤ env_now s < t0 + lease.

Abbreviation tick' := (tick errorText uuidString conv_undefined cfg account has_notifier).
Abbreviation dispatch' := (dispatch errorText uuidString conv_undefined cfg account has_notifier).
Abbreviation hot_loop' := (hot_loop errorText uuidString conv_undefined cfg account has_notifier).

(** Rows that could still be claimed in this window. *)
Definition todo (r : row) : bool :=
  status_in [PENDING; SENDING] r && (next_attempt_at r <? t0 + lease).

Lemma claimable_todo s r : claimable (env_now s) r = true → todo r = true.
Proof.
  intros (_ & Hs & Hn & _)%claimable_spec. unfold todo, status_in.
  pose proof (within_lease s). apply andb_true_iff. split; [|apply Z.ltb_lt; lia].
  apply bool_decide_eq_true. destruct Hs as [->|[-> _]]; set_solver.
Qed.

(** A call other than a claim leaves no more to do. *)
Definition quiet (X : Type) (e : WorkerE X) : Prop :=
  match e with ClaimPending_ _ => False | _ => True end.

Definition below (n : nat) (s : S) : Prop :=
  table_wf (env_table s) ∧ (count todo (env_table s) ≤ n)%nat.

Lemma quiet_below X (e : WorkerE X) n s : quiet X e → below n s → below n (env_do _ e s).2.
Proof.
  intros He [W Hc]. unfold below. destruct (touches e) eqn:Ht; [|by rewrite env_other].
  destruct e; try done.
  - destruct (env_sent id resultID s) as [E|E]; rewrite E; [|done].
    pose proof (exec_wf (env_now s) (SMarkSent (Some resultID) (uuidToPg id)) _ W) as W'.
    revert W'. unfold repo_MarkSent, exec, MarkSent. destruct (_ && _); simpl; [done|].
    intros W'. split; [done|]. etrans; [|exact Hc]. by apply count_update_le.
  - destruct (env_failed id lastErr nextAttemptAt s) as [E|E]; rewrite E; [|done].
    pose proof (exec_wf (env_now s)
      (SMarkFailed (Some lastErr) (tsTz (Some nextAttemptAt)) (uuidToPg id)) _ W) as W'.
    revert W'. unfold repo_MarkFailed, exec, MarkFailed.
    destruct (tz_param _); simpl; [|by destruct (existsb _ _)].
    intros W'. split; [done|]. etrans; [|exact Hc]. apply count_update_le.
    intros r. unfold todo, failed_row, status_in. simpl. by destruct (_ <=? _).
Qed.

Ltac all_quiet :=
  repeat first
    [ apply all_calls_ret | apply all_calls_call; exact I
    | apply all_calls_bind; [|intros] | case_match ].

Lemma dispatch_quiet msg : all_calls quiet (dispatch' msg).
Proof.
  unfold dispatch, send_claimed, fail, markSent. all_quiet.
Qed.

(** A tick that claimed a row left fewer to do. *)
Lemma tick_progress s :
  table_wf (env_table s) →
  let '(b, s') := interp env_do tick' s in
  table_wf (env_table s') ∧
  (count todo (env_table s') + (if b then 1 else 0) ≤ count todo (env_table s))%nat.
Proof.
  intros W. unfold tick. rewrite interp_bind. cbn [interp call].
  pose proof (env_other _ Now s eq_refl) as E1.
  destruct (env_do _ Now s) as [start s1]. simpl in E1. rewrite <- E1 in *. clear E1 s.
  rewrite interp_bind. cbn [interp call].
  pose proof (env_claim (wc_LeaseDuration cfg) s1) as C.
  destruct (env_do _ (ClaimPending_ _) s1) as [r s2]. simpl in C.
  rewrite interp_bind. cbn [interp call].
  pose proof (env_other _ Now s2 eq_refl) as E2.
  destruct (env_do _ Now s2) as [t s3]. simpl in E2. rewrite <- E2 in C. clear E2 s2.
  rewrite interp_bind. cbn [interp call].
  pose proof (env_other _ (ObserveClaim (t - start)) s3 eq_refl) as E3.
  destruct (env_do _ (ObserveClaim _) s3) as [u s4]. simpl in E3. rewrite <- E3 in C. clear E3 s3 u.
  destruct r as [msg|e].
  - destruct C as [[locked C]|[[e C] _]]; [|done].
    rewrite interp_bind.
    assert (below (count todo (env_table s1) - 1) s4 ∧ (1 ≤ count todo (env_table s1))%nat)
      as [B H1].
    { revert C. unfold repo_ClaimPending.
      pose proof (ClaimPending_wf (env_now s1) locked
        (intervalFromDuration (wc_LeaseDuration cfg)) _ W) as W'. revert W'.
      unfold ClaimPending. destruct (claimed _ _ _) as [r|] eqn:Hc; [|done]. simpl.
      destruct (in_int32b _); [|done]. simpl. intros W' [= _ Ht]. unfold below. rewrite Ht.
      apply claimed_spec in Hc as (Hin & Hr & _).
      assert (count todo (update_where (has_id (Some (signal_message_id r)))
        (claim_row (env_now s1) lease) (env_table s1)) < count todo (env_table s1))%nat as Hlt.
      { apply (count_update_lt _ _ _ _ r); [|done|by apply has_id_Some_true|by eapply claimable_todo].
        intros y. unfold todo. apply andb_false_iff. right. apply Z.ltb_ge. simpl.
        pose proof (within_lease s1). lia. }
      split; [split; [exact W'|]|]; unfold lease, iv_param, intervalFromDuration in *; simpl in *; lia. }
    pose proof (interp_inv env_do quiet (below _) (dispatch' msg) s4
      (λ X e s, quiet_below X e _ s) (dispatch_quiet msg) B) as B'.
    destruct (interp env_do (dispatch' msg) s4) as [[] s5]. simpl. destruct B' as [??].
    split; [done|]. simpl in *. lia.
  - assert (env_table s4 = env_table s1) as E.
    { destruct C as [[locked C]|[_ C]]; [|done]. revert C. unfold repo_ClaimPending, ClaimPending.
      repeat case_match; simplify_eq; intros C; simplify_eq; done. }
    destruct (Is e ErrNotFound).
    + simpl. rewrite E. split; [done|lia].
    + rewrite interp_bind. cbn [interp call].
      pose proof (env_other _ (Log "claim pending failed") s4 eq_refl) as E3.
      destruct (env_do _ (Log _) s4) as [u s5]. simpl in *. rewrite E3, E. split; [done|lia].
Qed.

Lemma hot_loop_stops fuel s :
  table_wf (env_table s) → (count todo (env_table s) < fuel)%nat →
  (interp env_do (hot_loop' fuel) s).1 ≠ None.
Proof.
  revert s. induction fuel as [|fuel IH]; intros s W Hf; [lia|].
  cbn [hot_loop]. rewrite interp_bind. pose proof (tick_progress s W) as P.
  destruct (interp env_do tick' s) as [[] s1]; [|done]. destruct P as [W1 Hc].
  rewrite interp_bind. cbn [interp call]. pose proof (env_other _ CtxErr s1 eq_refl) as E.
  destruct (env_do _ CtxErr s1) as [[] s2]; [done|]. simpl in E.
  apply IH; rewrite E; [done|lia].
Qed.
End Drain.

(** ** Properties *)

(** C9: the worker's hot loop drains the backlog and stops: within one lease of
    [t0], whatever is downloaded, sent, refused or logged and whichever
    repository calls fail, it runs at most one tick more than there are rows
    that are claimable in that window, because every claimed row is SENT,
    FAILED, PERMANENT_FAILED or leased beyond the window. *)
Theorem hot_loop_terminates {S} `{Env : WorkerEnv S} errorText uuidString conv_undefined cfg account
    has_notifier t0 fuel (s : S) :
  (∀ s : S, t0 ≤ env_now s < t0 + lease cfg) →
  table_wf (env_table s) → (count (todo cfg t0) (env_table s) < fuel)%nat →
  (interp env_do (hot_loop errorText uuidString conv_undefined cfg account has_notifier fuel) s).1
    ≠ None.
Proof. intros. by eapply hot_loop_stops. Qed.

(** An environment at time 100 in which signal-cli refuses every send. *)
Definition refusing (X : Type) (e : WorkerE X) : table → X * table :=
  match e in WorkerE X return table → X * table with
  | Now => λ t, (100, t)
  | RandFloat64 => λ t, (0, t)
  | WithTimeout _ | Cancel | NewTicker _ => λ t, (tt, t)
  | CtxErr => λ t, (false, t)
  | SleepCtx _ | Select_ => λ t, (true, t)
  | Int64N _ => λ t, (0, t)
  | ClaimPending_ l => repo_ClaimPending 100 ∅ l
  | MarkSent_ id rid => repo_MarkSent 100 id rid
  | MarkFailed_ id txt next => repo_MarkFailed 100 id txt next
  | DownloadAll_ _ _ => λ t, (Ok [], t)
  | CleanupLocal_ _ => λ t, (tt, t)
  | Send_ _ => λ t, (Err ErrDisconnected, t)
  | Enabled_ => λ t, (false, t)
  | NotifyPermanentFailure_ _ _ => λ t, (tt, t)
  | ObserveClaim _ | ObserveSend _ _ | IncTerminal _ | IncRetry | Log _ => λ t, (tt, t)
  end.

#[export] Program Instance refusing_env : WorkerEnv table :=
  {| env_do := refusing; env_table t := t; env_now _ := 100 |}.
Next Obligation. intros l s. left. exists ∅. simpl. by destruct (repo_ClaimPending 100 ∅ l s). Qed.
Next Obligation. intros. by left. Qed.
Next Obligation. intros. by left. Qed.
Next Obligation. by intros X [] s. Qed.

Lemma hot_loop_terminates_witness :
  (interp env_do (hot_loop (λ _, "") (λ _, "") (λ _, 0) default_worker "+380000000000" false 3)
     sample_table).1 ≠ None.
Proof.
  apply (hot_loop_terminates (Env := refusing_env) _ _ _ _ _ _ 100).
  - intros s. vm_compute. split; [discriminate|reflexivity].
  - apply sample_table_wf.
  - apply Nat.ltb_lt. vm_compute. reflexivity.
Defined.
