(* ===== verification/Metrics.v ===== *)
(** [internal/metrics/outbox.go]: the custom metrics, as updates of a registry of
    counters, gauges and timers keyed by name and tags. *)

From S2P Require Import Prelude Errors Backoff.

Abbreviation metric_key := (string * list (string * string))%type.

Record registry := MkRegistry {
  counters : gmap metric_key Z;
  gauges : gmap metric_key Z;
  timers : gmap metric_key (list duration);
}.

Definition empty_registry : registry := MkRegistry ∅ ∅ ∅.

(** Metric names, tag keys and terminal-status tags. *)
Definition claimLatency : string := "signalium.outbox.claim".
Definition sendLatency : string := "signalium.outbox.send".
Definition terminal : string := "signalium.outbox.terminal".
Definition retry : string := "signalium.outbox.retry".
Definition inboundDropped : string := "signalium.outbox.inbound.dropped".
Definition backlogDepth : string := "signalium.outbox.backlog.depth".
Definition backlogOldestAge : string := "signalium.outbox.backlog.oldest_age_seconds".
Definition tagOutcome : string := "outcome".
Definition tagStatus : string := "status".
Definition tagMethod : string := "method".

(** [Counter(k).Inc(n)], an atomic int64 addition; [Gauge(k).Update]; [Timer(k).Update]. *)
Definition counter_value (k : metric_key) (g : registry) : Z := default 0 (counters g !! k).

Definition Counter_Inc (k : metric_key) (n : Z) (g : registry) : registry :=
  MkRegistry (<[k := int64 (counter_value k g + n)]> (counters g)) (gauges g) (timers g).

Definition Gauge_Update (k : metric_key) (v : Z) (g : registry) : registry :=
  MkRegistry (counters g) (<[k := v]> (gauges g)) (timers g).

Definition Timer_Update (k : metric_key) (d : duration) (g : registry) : registry :=
  MkRegistry (counters g) (gauges g) (<[k := default [] (timers g !! k) ++ [d]]> (timers g)).

(** ** [time.Duration.Seconds] *)

(** [float64(n) / d], correctly rounded, for [0 ≤ |n| < 2^30] and [0 < d < 2^30]:
    120 fractional bits and a sticky bit decide the rounding. *)
Definition fdiv_small (n d : Z) : float64 :=
  let q := Z.abs n * 2 ^ 120 / d in
  let sticky := if Z.abs n * 2 ^ 120 mod d =? 0 then 0 else 1 in
  mk_float (Z.sgn n * (2 * q + sticky)) (-121).

Definition fadd (x y : float64) : float64 :=
  match x, y with
  | Fin m1 e1, Fin m2 e2 =>
      if m2 =? 0 then x
      else let e := Z.min e1 e2 in mk_float (m1 * 2 ^ (e1 - e) + m2 * 2 ^ (e2 - e)) e
  | _, _ => NaN                                        (* not reached from Seconds *)
  end.

Definition Seconds (d : duration) : float64 :=
  fadd (of_int (Z.quot d Second)) (fdiv_small (Z.rem d Second) (10 ^ 9)).

Lemma Seconds_whole cu n : 0 ≤ n < 2 ^ 53 → to_int cu (Seconds (n * Second)) = n.
Proof.
  intros Hn. unfold Seconds. rewrite Z.quot_mul, Z.rem_mul by done.
  rewrite of_int_exact by done. change (fdiv_small 0 (10 ^ 9)) with (Fin 0 (-121)).
  cbn [fadd Z.eqb to_int]. change (ftrunc n 0) with (n * 1).
  destruct (Z.leb_spec (- 2 ^ 63) (n * 1)), (Z.ltb_spec (n * 1) (2 ^ 63)); simpl; lia.
Qed.

(** ** The methods of [Outbox] *)

Definition metrics_ObserveClaim (d : duration) : registry → registry :=
  Timer_Update (claimLatency, []) d.

Definition metrics_ObserveSend (d : duration) (ok : bool) : registry → registry :=
  let outcome := if ok then "success" else "error" in
  Timer_Update (sendLatency, [(tagOutcome, outcome)]) d.

Definition metrics_IncTerminalN (status : string) (n : Z) (g : registry) : registry :=
  if n <=? 0 then g else Counter_Inc (terminal, [(tagStatus, status)]) n g.

Definition metrics_IncTerminal (status : string) : registry → registry :=
  metrics_IncTerminalN status 1.

Definition metrics_IncRetry : registry → registry := Counter_Inc (retry, []) 1.

(** The tag constructor of the metrics package: the value when it is a valid
    tag, else the fallback. *)
Definition metrics_IncInboundDropped (NewTagWithFallbackValue : string → string → string → string * string)
    (method : string) : registry → registry :=
  Counter_Inc (inboundDropped, [NewTagWithFallbackValue tagMethod method "unknown"]) 1.

Definition metrics_SetBacklog (conv_undefined : float64 → Z) (depth : Z) (oldestAge : duration)
    (g : registry) : registry :=
  Gauge_Update (backlogOldestAge, []) (to_int conv_undefined (Seconds oldestAge))
    (Gauge_Update (backlogDepth, []) depth g).
