(* ===== verification/Reaper.v ===== *)
(** [internal/worker/timeout_reaper.go]: the job that times overdue rows out and
    samples the backlog. *)

From S2P Require Import Prelude Errors Domain Config Sqlc SqlcFacts Outbox Repo Backoff Prog Queries Metrics Worker.

Inductive ReaperE : Type → Type :=
| MarkTimedOut_ : ReaperE (res Z)
| BacklogStats_ : ReaperE (res (Z * duration))
| IncTerminalN_ (st : string) (n : Z) : ReaperE unit
| SetBacklog_ (depth : Z) (oldest : duration) : ReaperE unit
| ReaperTicker (d : duration) : ReaperE unit
| ReaperSelect : ReaperE bool            (* true: the ticker, false: ctx.Done() *)
| ReaperLog (msg : string) : ReaperE unit.

Definition timeoutReaperInterval : duration := Minute.

(** [( *TimeoutReaper).reap]. *)
Definition reap : prog ReaperE unit :=
  r ← call MarkTimedOut_;
  _ ← match r with
      | Err _ => call (ReaperLog "timeout reaper sweep failed")
      | Ok n =>
          if 0 <? n then
            _ ← call (IncTerminalN_ metric_StatusTimedOut n);
            call (ReaperLog "timeout reaper sweep")
          else mret tt
      end;
  b ← call BacklogStats_;
  match b with
  | Err _ => call (ReaperLog "backlog sample failed")
  | Ok (depth, oldest) => call (SetBacklog_ depth oldest)
  end.

(** [( *TimeoutReaper).run], for at most [rounds] ticks: true when the loop
    returned. *)
Fixpoint reaper_loop (rounds : nat) : prog ReaperE bool :=
  match rounds with
  | O => mret false
  | S n =>
      fired ← call ReaperSelect;
      if (fired : bool) then _ ← reap; reaper_loop n else mret true
  end.

Definition reaper_run (rounds : nat) : prog ReaperE bool :=
  _ ← call (ReaperTicker timeoutReaperInterval);
  _ ← reap;
  reaper_loop rounds.

(** [( *TimeoutReaper).Start]: the goroutine it launches, if any. *)
Definition reaper_Start (enabled : bool) (rounds : nat)
    : prog ReaperE (option (prog ReaperE bool)) :=
  if enabled then
    _ ← call (ReaperLog "timeout reaper started"); mret (Some (reaper_run rounds))
  else _ ← call (ReaperLog "timeout reaper disabled"); mret None.

(** ** The reaper over the table and the metrics registry *)

Record reaper_state := MkReaperState { rs_table : table; rs_metrics : registry; rs_ticks : list bool }.

Section Reaper.
Variable conv_undefined : float64 → Z.
Variable now : time.

(** Every call reaches the database; [rs_ticks] scripts the select. *)
Definition reaper_do (X : Type) (e : ReaperE X) : reaper_state → X * reaper_state :=
  match e in ReaperE X return reaper_state → X * reaper_state with
  | MarkTimedOut_ => λ s,
      let '(r, t') := repo_MarkTimedOut now (rs_table s) in
      (r, MkReaperState t' (rs_metrics s) (rs_ticks s))
  | BacklogStats_ => λ s, (repo_BacklogStats now (rs_table s), s)
  | IncTerminalN_ st n => λ s,
      (tt, MkReaperState (rs_table s) (metrics_IncTerminalN st n (rs_metrics s)) (rs_ticks s))
  | SetBacklog_ d o => λ s,
      (tt, MkReaperState (rs_table s) (metrics_SetBacklog conv_undefined d o (rs_metrics s))
             (rs_ticks s))
  | ReaperTicker _ | ReaperLog _ => λ s, (tt, s)
  | ReaperSelect => λ s,
      match rs_ticks s with
      | b :: l => (b, MkReaperState (rs_table s) (rs_metrics s) l)
      | [] => (false, s)
      end
  end.

Definition timed_out_key : metric_key := (terminal, [(tagStatus, metric_StatusTimedOut)]).

(** The rows waiting for delivery, as the backlog gauge counts them. *)
Definition waiting (t : table) : list row := with_status [PENDING; FAILED] (live t).
End Reaper.

(** ** Properties *)

Lemma waiting_spec t :
  waiting t = filter (λ r, deleted_at r = None ∧ (status r = PENDING ∨ status r = FAILED)) t.
Proof.
  unfold waiting, with_status, live. rewrite list_filter_filter. apply list_filter_iff. intros r.
  unfold status_in. rewrite bool_decide_spec, !elem_of_cons, elem_of_nil.
  destruct (deleted_at r); simpl; naive_solver.
Qed.

(** The sweep, row by row. *)
Definition swept (now : time) (t t' : table) : Prop :=
  Forall2 (λ r r',
    (expired now r → delivery r r' TIMED_OUT (attempts r) (next_attempt_at r) (last_error r)
                       (result_id r) now) ∧
    (¬ expired now r → r' = r)) t t'.

Lemma MarkTimedOut_swept now t : swept now t (update_where (overdue now) (timed_out_row now) t).
Proof.
  unfold swept, update_where. apply Forall2_fmap_r. apply Forall_Forall2_diag, Forall_true.
  intros r. simpl. rewrite <- overdue_expired. by destruct (overdue now r); split.
Qed.

Lemma swept_none_left now t t' : swept now t t' → Forall (λ r, ¬ expired now r) t'.
Proof.
  intros H. induction H as [|r r' t t' [H1 H2] _ IH]; constructor; [|done]. intros E.
  destruct (decide (expired now r)) as [X|X]; [|by rewrite H2 in E].
  destruct E as (_ & Hs & _). rewrite (dl_status _ _ _ _ _ _ _ _ (H1 X)) in Hs. naive_solver.
Qed.

(** C20: one pass of the reaper, with the database at hand, turns exactly the
    live rows in PENDING, SENDING or FAILED whose deadline has passed into
    TIMED_OUT, keeping every other column, and leaves none behind; it adds their
    number to the timed-out counter, and publishes the number of live PENDING and
    FAILED rows as the backlog depth. *)
Theorem reap_sweeps_and_counts cu now s :
  Z.of_nat (length (rs_table s)) < 2 ^ 31 →
  let s' := (interp (reaper_do cu now) reap s).2 in
  let n := Z.of_nat (length (filter (λ r, expired now r) (rs_table s))) in
  swept now (rs_table s) (rs_table s') ∧
  Forall (λ r, ¬ expired now r) (rs_table s') ∧
  (0 < n → counter_value timed_out_key (rs_metrics s')
           = int64 (counter_value timed_out_key (rs_metrics s) + n)) ∧
  (n = 0 → counter_value timed_out_key (rs_metrics s')
           = counter_value timed_out_key (rs_metrics s)) ∧
  gauges (rs_metrics s') !! (backlogDepth, [])
  = Some (Z.of_nat (length (filter (λ r, deleted_at r = None ∧ (status r = PENDING ∨ status r = FAILED))
                              (rs_table s')))).
Proof.
  intros Hlen. unfold reap. rewrite interp_bind. cbn [call interp reaper_do].
  unfold repo_MarkTimedOut, MarkTimedOut.
  rewrite (list_filter_iff (λ r, overdue now r) (λ r, expired now r))
    by (intros r; by rewrite Is_true_true, overdue_expired).
  set (t' := update_where _ _ (rs_table s)). set (n := Z.of_nat (length (filter _ (rs_table s)))).
  rewrite interp_bind.
  set (s1 := MkReaperState t' (if 0 <? n then metrics_IncTerminalN metric_StatusTimedOut n (rs_metrics s)
                               else rs_metrics s) (rs_ticks s)).
  replace (interp (reaper_do cu now) _ _) with (tt, s1)
    by (subst s1; by destruct (0 <? n) eqn:?).
  cbn [call interp reaper_do]. rewrite interp_bind. cbn [call interp reaper_do].
  unfold repo_BacklogStats, BacklogStats. unfold cast_int4, in_int32b. fold (waiting (rs_table s1)).
  assert (Z.of_nat (length (waiting (rs_table s1))) < 2 ^ 31) as Hw.
  { rewrite waiting_spec. simpl. rewrite <- (update_where_length (overdue now) (timed_out_row now)) in Hlen.
    fold t' in Hlen. eapply Z.le_lt_trans; [|exact Hlen]. apply inj_le, length_filter. }
  destruct (Z.leb_spec (- 2 ^ 31) (Z.of_nat (length (waiting (rs_table s1))))); [|lia].
  destruct (Z.ltb_spec (Z.of_nat (length (waiting (rs_table s1)))) (2 ^ 31)); [|lia].
  cbn [andb interp call reaper_do snd rs_table rs_metrics].
  pose proof (MarkTimedOut_swept now (rs_table s)) as Hsw. fold t' in Hsw.
  split_and!; [done|by eapply swept_none_left| | |].
  - intros Hn. unfold counter_value. simpl. destruct (Z.ltb_spec 0 n); [|lia].
    unfold metrics_IncTerminalN. destruct (Z.leb_spec n 0); [lia|]. simpl.
    fold timed_out_key. by rewrite lookup_insert_eq.
  - intros Hn. unfold counter_value. simpl. destruct (Z.ltb_spec 0 n); [lia|done].
  - unfold metrics_SetBacklog. simpl. rewrite lookup_insert_ne by done.
    by rewrite lookup_insert_eq, waiting_spec.
Qed.

(** A claimed row and a waiting one past their deadline, and one before it. *)
Definition late_table : table :=
  exec_all [(100, SInsert 1%N (MkInsertParams "ext-1" None (Some "+380111111111") None
                                 "+380000000000" "a" [] 5 (tsTz (Some 5000)) "c1"));
            (200, SInsert 2%N (MkInsertParams "ext-2" None (Some "+380111111111") None
                                 "+380000000000" "b" [] 5 (tsTz (Some 5000)) "c2"));
            (300, SInsert 3%N (MkInsertParams "ext-3" None (Some "+380111111111") None
                                 "+380000000000" "c" [] 5 (tsTz (Some 9000)) "c3"));
            (400, SClaim ∅ (MkInterval 60 true))] [].

Lemma reap_sweeps_and_counts_witness :
  let s := MkReaperState late_table empty_registry [] in
  let s' := (interp (reaper_do (λ _, 0) 7000) reap s).2 in
  let n := Z.of_nat (length (filter (λ r, expired 7000 r) (rs_table s))) in
  n = 2 ∧
  swept 7000 (rs_table s) (rs_table s') ∧
  Forall (λ r, ¬ expired 7000 r) (rs_table s') ∧
  (0 < n → counter_value timed_out_key (rs_metrics s')
           = int64 (counter_value timed_out_key (rs_metrics s) + n)) ∧
  (n = 0 → counter_value timed_out_key (rs_metrics s')
           = counter_value timed_out_key (rs_metrics s)) ∧
  gauges (rs_metrics s') !! (backlogDepth, [])
  = Some (Z.of_nat (length (filter (λ r, deleted_at r = None ∧ (status r = PENDING ∨ status r = FAILED))
                              (rs_table s')))).
Proof.
  split; [vm_compute; reflexivity|]. apply reap_sweeps_and_counts. vm_compute. reflexivity.
Defined.
