(* ===== verification/SendMessage.v ===== *)
(** [internal/service/send_message.go] and [internal/service/errors.go]: the
    enqueue path.

    The repository, the object store, the multipart stream, the clock and the
    UUID generator are the calls of [EnqueueE]; the service's methods are
    programs over them. *)

From Stdlib Require Import Ascii.
From S2P Require Import Prelude Errors Domain Sqlc SqlcFacts Outbox GoText Repo Prog.

(** ** Data *)

Record CreateMessage := MkCreateMessage {
  cm_ExternalID : string;
  cm_IdempotencyKey : option string;
  cm_Recipient : option string;
  cm_GroupID : option string;
  cm_SenderPhoneNumber : option string;
  cm_Content : string;
  cm_QuoteResultID : option string;
  cm_TimeoutSeconds : option Z;
  cm_MaxAttempts : option Z;
}.

(** A part of the stream; [part_Body] is what its reader yields. *)
Record AttachmentPart := MkAttachmentPart {
  part_Filename : string;
  part_ContentType : string;
  part_Body : string;
}.

Record EnqueueResult := MkEnqueueResult { er_ID : uuid; er_Idempotent : bool }.

Inductive EnqueueE : Type → Type :=
(* MessageInserter *)
| GetByIdempotencyKey_ (key : string) : EnqueueE (res SignalMessage)
| Insert_ (p : RepoInsertParams) : EnqueueE (res SignalMessage)
(* AttachmentParts *)
| NextPart : EnqueueE (res AttachmentPart)
(* AttachmentUploader *)
| Put_ (key : string) (body : string) (size : Z) (contentType : string)
    : EnqueueE (res (string * string))
| Remove_ (bucket key : string) : EnqueueE (option error)
(* uuid.New, time.Now, the logger *)
| NewUUID : EnqueueE uuid
| EnqueueNow : EnqueueE time
| EnqueueLog (msg : string) : EnqueueE unit.

(** ** Errors *)

Definition invalid (field reason : string) : error :=
  Conjure (InvalidSignalMessage field reason) (ErrMsg "invalid signal message").

Definition senderMismatch (configured requested : string) : error :=
  Conjure (SenderMismatch configured requested)
    (ErrMsg "sender phone number does not match configured").

Definition attachmentUploadFailed (filename : string) (cause : error) : error :=
  Conjure (AttachmentUploadFailed filename) (Wrap cause "attachment upload failed").

(** ** Validation *)

Definition nonempty (s : option string) : bool :=
  match s with Some v => negb (bool_decide (v = "")) | None => false end.

Definition validate (senderPhone : string) (m : CreateMessage) : option error :=
  if TrimSpace_empty (cm_ExternalID m) then Some (invalid "externalId" "must not be empty")
  else if 255 <? Z.of_nat (String.length (cm_ExternalID m))
  then Some (invalid "externalId" "must be ≤ 255 chars")
  else if TrimSpace_empty (cm_Content m) then Some (invalid "content" "must not be empty")
  else if eqb (nonempty (cm_Recipient m)) (nonempty (cm_GroupID m))
  then Some (invalid "recipient|groupId" "exactly one of recipient or groupId must be set")
  else match cm_SenderPhoneNumber m with
       | Some p => if negb (bool_decide (p = "")) && negb (bool_decide (p = senderPhone))
                   then Some (senderMismatch senderPhone p) else None
       | None => None
       end.

(** [filenameAllowed]: the characters that are kept. *)
Definition filename_char (r : Z) : bool :=
  ((65 <=? r) && (r <=? 90)) || ((97 <=? r) && (r <=? 122)) || ((48 <=? r) && (r <=? 57))
  || (r =? 46) || (r =? 95) || (r =? 45).

Definition ReplaceAll (s : string) : string :=
  String.string_of_list_ascii ((λ r, if filename_char r then chr r else chr 95) <$> runes s).

Definition sanitizeFilename (raw : string) : string :=
  let base := Base raw in
  if bool_decide (base = "" ∨ base = "." ∨ base = "/") then ""
  else
    let cleaned := ReplaceAll base in
    if bool_decide (cleaned = "") || HasPrefixDot cleaned then "" else cleaned.

(** ** Enqueue *)

Section SendMessage.
Variable uuidString : uuid → string.
Variable senderPhone : string.

Fixpoint rollback (refs : Attachments) : prog EnqueueE unit :=
  match refs with
  | [] => mret tt
  | ref :: refs' =>
      err ← call (Remove_ (att_Bucket ref) (att_Filename ref));
      _ ← match err with
          | Some _ => call (EnqueueLog "rollback attachment failed")
          | None => mret tt
          end;
      rollback refs'
  end.

(** The loop of [uploadAll], for at most [fuel] parts; [None] when the stream is
    longer than that. *)
Fixpoint upload_loop (fuel : nat) (id : uuid) (attachments : Attachments)
    : prog EnqueueE (option (res Attachments)) :=
  match fuel with
  | O => mret None
  | S f =>
      r ← call NextPart;
      match r with
      | Err e =>
          if Is e EOF then mret (Some (Ok attachments))
          else _ ← rollback attachments; mret (Some (Err (attachmentUploadFailed "" e)))
      | Ok part =>
          let filename := sanitizeFilename (part_Filename part) in
          if bool_decide (filename = "") then
            _ ← rollback attachments;
            mret (Some (Err (invalid "attachments" "rejected attachment with empty filename")))
          else
            let key := uuidString id +:+ "/" +:+ filename in
            stored ← call (Put_ key (part_Body part) (-1) (part_ContentType part));
            match stored with
            | Err e =>
                _ ← rollback attachments;
                mret (Some (Err (attachmentUploadFailed filename e)))
            | Ok (bucket, storedKey) =>
                upload_loop f id
                  (attachments ++ [MkAttachment bucket storedKey (part_ContentType part) 0])
            end
      end
  end.

(** [uploadAll]; [has_parts] is [parts != nil]. *)
Definition uploadAll (fuel : nat) (id : uuid) (has_parts : bool)
    : prog EnqueueE (option (res Attachments)) :=
  if has_parts then upload_loop fuel id [] else mret (Some (Ok [])).

Definition correlationFromCtx (id : uuid) : string := uuidString id.

(** The part of [Enqueue] after the idempotency lookup. *)
Definition enqueue_fresh (fuel : nat) (m : CreateMessage) (has_parts : bool)
    : prog EnqueueE (option (res EnqueueResult)) :=
  id ← call NewUUID;
  up ← uploadAll fuel id has_parts;
  match up with
  | None => mret None
  | Some (Err e) => mret (Some (Err e))
  | Some (Ok attachments) =>
      let maxAttempts := match cm_MaxAttempts m with
                         | Some n => if 0 <? n then int32 n else 5
                         | None => 5
                         end in
      timeoutAt ← match cm_TimeoutSeconds m with
                  | Some n => if 0 <? n
                              then now ← call EnqueueNow; mret (Some (now + int64 (n * Second)))
                              else mret None
                  | None => mret None
                  end;
      r ← call (Insert_ (MkRepoInsertParams (cm_ExternalID m) (cm_IdempotencyKey m)
                           (cm_Recipient m) (cm_GroupID m) senderPhone (cm_Content m)
                           attachments maxAttempts timeoutAt (correlationFromCtx id)));
      match r with
      | Err e => _ ← rollback attachments; mret (Some (Err e))
      | Ok row => mret (Some (Ok (MkEnqueueResult (msg_ID row) false)))
      end
  end.

Definition Enqueue (fuel : nat) (m : CreateMessage) (has_parts : bool)
    : prog EnqueueE (option (res EnqueueResult)) :=
  match validate senderPhone m with
  | Some e => mret (Some (Err e))
  | None =>
      match cm_IdempotencyKey m with
      | Some k =>
          if negb (bool_decide (k = "")) then
            r ← call (GetByIdempotencyKey_ k);
            match r with
            | Ok existing => mret (Some (Ok (MkEnqueueResult (msg_ID existing) true)))
            | Err e => if Is e ErrNotFound then enqueue_fresh fuel m has_parts
                       else mret (Some (Err (Wrap e "idempotency lookup")))
            end
          else enqueue_fresh fuel m has_parts
      | None => enqueue_fresh fuel m has_parts
      end
  end.
End SendMessage.

(** ** What an enqueue does, for every way its environment may answer *)

(** Objects stored, objects removed and rows inserted along a trace. *)
Definition put_of (ev : event EnqueueE) : option (string * string) :=
  match ev with
  | @Ev _ X e x =>
      match e in EnqueueE X return X → option (string * string) with
      | Put_ _ _ _ _ => λ r, match r with Ok ref => Some ref | Err _ => None end
      | _ => λ _, None
      end x
  end.

Definition removed_of (ev : event EnqueueE) : option (string * string) :=
  match ev with
  | @Ev _ X e x =>
      match e with Remove_ b k => Some (b, k) | _ => None end
  end.

Definition inserted_of (ev : event EnqueueE) : option (RepoInsertParams * res SignalMessage) :=
  match ev with
  | @Ev _ X e x =>
      match e in EnqueueE X return X → option (RepoInsertParams * res SignalMessage) with
      | Insert_ p => λ r, Some (p, r)
      | _ => λ _, None
      end x
  end.

Definition puts (tr : list (event EnqueueE)) := omap put_of tr.
Definition removes (tr : list (event EnqueueE)) := omap removed_of tr.
Definition inserts (tr : list (event EnqueueE)) := omap inserted_of tr.

Definition refs (a : Attachments) : list (string * string) :=
  (λ x, (att_Bucket x, att_Filename x)) <$> a.

Definition anything (X : Type) (e : EnqueueE X) (x : X) : Prop := True.

Ltac eruns_inv :=
  repeat match goal with
  | H : runs _ (_ ≫= _) _ _ |- _ => apply runs_bind in H as (? & ? & ? & -> & ? & ?)
  | H : runs _ (call _) _ _ |- _ => apply runs_call in H as [-> ?]
  | H : runs _ (mret _) _ _ |- _ => apply runs_ret in H as [-> ?]
  | H : _ ∧ _ |- _ => destruct H
  | H : Some _ = Some _ |- _ => injection H as H
  end; subst.

Ltac eruns_case :=
  match goal with
  | H : runs _ (match ?e with _ => _ end) _ _ |- _ => destruct e eqn:?
  end.

Lemma rollback_runs r tr u :
  runs anything (rollback r) tr u → removes tr = refs r ∧ puts tr = [] ∧ inserts tr = [].
Proof.
  revert tr. induction r as [|x r IH]; intros tr H; cbn [rollback] in H; eruns_inv; [done|].
  match goal with H : runs _ (rollback r) _ _ |- _ => apply IH in H as (H1 & H2 & H3) end.
  eruns_case; eruns_inv; unfold removes, puts, inserts, refs in *; csimpl;
    rewrite H1; by split_and!.
Qed.

Lemma upload_loop_runs uuidString fuel id att tr r :
  runs anything (upload_loop uuidString fuel id att) tr r →
  inserts tr = [] ∧
  match r with
  | None => True
  | Some (Ok a) => refs a = refs att ++ puts tr ∧ removes tr = []
  | Some (Err _) => removes tr = refs att ++ puts tr
  end.
Proof.
  revert att tr. induction fuel as [|fuel IH]; intros att tr H; cbn [upload_loop] in H; eruns_inv;
    [done|].
  eruns_case.
  - destruct (bool_decide _); eruns_inv.
    + match goal with H : runs _ (rollback _) _ _ |- _ =>
        apply rollback_runs in H as (H1 & H2 & H3) end.
      unfold removes, puts, inserts in *. csimpl. rewrite !omap_app, H1, H2, H3. csimpl.
      by rewrite !app_nil_r.
    + eruns_case; [match goal with p : (string * string)%type |- _ => destruct p as [b k] end|].
      * match goal with H : runs _ (upload_loop _ _ _ _) _ _ |- _ => apply IH in H as [H1 H2] end.
        unfold removes, puts, inserts, refs in *. csimpl. split; [done|].
        rewrite fmap_app in H2. csimpl in H2. rewrite <- app_assoc in H2. exact H2.
      * eruns_inv. match goal with H : runs _ (rollback _) _ _ |- _ =>
          apply rollback_runs in H as (H1 & H2 & H3) end.
        unfold removes, puts, inserts in *. csimpl. rewrite !omap_app, H1, H2, H3. csimpl.
        by rewrite !app_nil_r.
  - destruct (Is e EOF); eruns_inv;
      [unfold removes, puts, inserts; csimpl; by rewrite app_nil_r|].
    match goal with H : runs _ (rollback _) _ _ |- _ =>
      apply rollback_runs in H as (H1 & H2 & H3) end.
    unfold removes, puts, inserts in *. csimpl. rewrite !omap_app, H1, H2, H3. csimpl.
    by rewrite !app_nil_r.
Qed.

(** The life of the objects of one request. *)
Definition accounted (tr : list (event EnqueueE)) (r : option (res EnqueueResult)) : Prop :=
  match r with
  | None => inserts tr = []
  | Some (Err _) =>
      removes tr = puts tr ∧
      Forall (λ i, is_ok (snd i) = false ∧ refs (rp_Attachments (fst i)) = puts tr) (inserts tr)
  | Some (Ok res) =>
      removes tr = [] ∧
      if er_Idempotent res then puts tr = [] ∧ inserts tr = []
      else ∃ p row, inserts tr = [(p, Ok row)] ∧ er_ID res = msg_ID row ∧
             refs (rp_Attachments p) = puts tr
  end.

Lemma enqueue_fresh_runs uuidString senderPhone fuel m has_parts tr r :
  runs anything (enqueue_fresh uuidString senderPhone fuel m has_parts) tr r → accounted tr r.
Proof.
  unfold enqueue_fresh. intros H. eruns_inv.
  match goal with H : runs _ (uploadAll _ _ _ _) _ ?u |- _ =>
    assert (inserts x2 = [] ∧ match u with
      | None => True
      | Some (Ok a) => refs a = puts x2 ∧ removes x2 = []
      | Some (Err _) => removes x2 = puts x2 end) as [HI HU] end.
  { unfold uploadAll in *. destruct has_parts; [|by eruns_inv].
    match goal with H : runs _ (upload_loop _ _ _ _) _ _ |- _ => apply upload_loop_runs in H end.
    done. }
  unfold accounted, inserts, puts, removes in *.
  match goal with H : runs _ (match ?e with _ => _ end) _ _ |- _ => destruct e as [[a|e]|] end;
    eruns_inv; csimpl; rewrite ?omap_app; csimpl; rewrite ?HI, ?HU, ?app_nil_r; [|by split|done].
  match goal with H : runs _ (match cm_TimeoutSeconds m with _ => _ end) ?t _ |- _ =>
    assert (omap put_of t = [] ∧ omap removed_of t = [] ∧ omap inserted_of t = []) as (T1 & T2 & T3)
      by (destruct (cm_TimeoutSeconds m) as [n|]; [destruct (0 <? n)|]; by eruns_inv) end.
  match goal with H : runs _ (match ?e with _ => _ end) _ _ |- _ => destruct e as [row|e] end;
    eruns_inv; csimpl; rewrite ?omap_app; csimpl;
    rewrite ?HI, ?T1, ?T2, ?T3, ?app_nil_r; csimpl; rewrite ?app_nil_r.
  - split; [congruence|]. eexists _, row. split_and!; [reflexivity|done|]. simpl. congruence.
  - match goal with H : runs _ (rollback _) _ _ |- _ =>
      apply rollback_runs in H as (R1 & R2 & R3) end.
    unfold inserts, puts, removes in *. rewrite R1, R2, R3, !app_nil_r.
    match goal with H : omap removed_of _ = [] |- _ => rewrite H end.
    split; [done|]. repeat constructor. simpl. congruence.
Qed.

(** ** Properties *)

(** C10: whatever the stream, the object store and the database answer, a request
    leaves no orphan: when it is rejected, every object it stored is removed
    again, in order, after at most one refused insert; when it is accepted, it
    inserts exactly one row whose attachments are exactly the objects stored,
    and removes nothing; when the idempotency key is known it stores, removes
    and inserts nothing. *)
Theorem enqueue_leaves_no_orphans uuidString senderPhone fuel m has_parts tr r :
  runs anything (Enqueue uuidString senderPhone fuel m has_parts) tr r → accounted tr r.
Proof.
  unfold Enqueue. intros H. destruct (validate senderPhone m); [by eruns_inv|].
  destruct (cm_IdempotencyKey m) as [k|]; [|by eapply enqueue_fresh_runs].
  destruct (negb _); [|by eapply enqueue_fresh_runs]. eruns_inv.
  match goal with H : runs _ (match ?y with _ => _ end) _ _ |- _ => destruct y as [row|err] end;
    [by eruns_inv|].
  destruct (Is err ErrNotFound); [|by eruns_inv].
  match goal with H : runs _ (enqueue_fresh _ _ _ _ _) _ _ |- _ => apply enqueue_fresh_runs in H as F end.
  unfold accounted, inserts, puts, removes in *. by csimpl.
Qed.

Definition sample_create : CreateMessage :=
  MkCreateMessage "ext-1" None (Some "+380111111111") None None "hi" None None None.

(** Two parts are stored, then the stream breaks. *)
Definition broken_upload : list (event EnqueueE) :=
  [Ev NewUUID 9%N; Ev NextPart (Ok (MkAttachmentPart "a.txt" "text/plain" "A"));
   Ev (Put_ "9/a.txt" "A" (-1) "text/plain") (Ok ("b", "9/a.txt"));
   Ev NextPart (Err (ErrMsg "unexpected EOF"));
   Ev (Remove_ "b" "9/a.txt") None].

Lemma enqueue_leaves_no_orphans_witness :
  accounted broken_upload
    (Some (Err (attachmentUploadFailed "" (ErrMsg "unexpected EOF")))).
Proof.
  apply (enqueue_leaves_no_orphans (λ _, "9") "+380000000000" 5 sample_create true).
  repeat (hnf; eexists _, _; split; [reflexivity|split; [exact I|]]). by split.
Defined.

(** ** File names *)

Abbreviation chars := String.list_ascii_of_string.

Definition clean_name (s : string) : Prop :=
  Forall (λ c, filename_char (byte_val c) = true) (chars s).

Lemma filename_char_ascii r : filename_char r = true → 0 ≤ r < 128 ∧ r ≠ 47.
Proof. unfold filename_char. rewrite !orb_true_iff, !andb_true_iff, !Z.leb_le, !Z.eqb_eq. lia. Qed.

Lemma chars_of_list l : chars (String.string_of_list_ascii l) = l.
Proof. apply String.list_ascii_of_string_of_list_ascii. Qed.

Lemma ReplaceAll_clean s : clean_name (ReplaceAll s).
Proof.
  unfold clean_name, ReplaceAll. rewrite chars_of_list. apply Forall_fmap, Forall_forall.
  intros r _. simpl. destruct (filename_char r) eqn:E; [|done].
  apply filename_char_ascii in E as H. by rewrite byte_val_chr by lia.
Qed.

Lemma runes_clean s : clean_name s → runes s = byte_val <$> chars s.
Proof.
  unfold runes, clean_name. induction s as [|c s IH]; intros H; [done|].
  cbn [String.list_ascii_of_string] in *. apply Forall_cons in H as [Hc Hs].
  cbn [String.length runes_fuel]. unfold decode1. apply filename_char_ascii in Hc as [? _].
  destruct (Z.ltb_spec (byte_val c) 128); [|lia]. csimpl. by rewrite IH.
Qed.

Lemma chr_byte_val c : chr (byte_val c) = c.
Proof. unfold chr, byte_val. by rewrite N2Z.id, ascii_N_embedding. Qed.

Lemma ReplaceAll_id s : clean_name s → ReplaceAll s = s.
Proof.
  intros H. unfold ReplaceAll. rewrite runes_clean by done. rewrite <- list_fmap_compose.
  trans (String.string_of_list_ascii (chars s)); [|apply String.string_of_list_ascii_of_string].
  f_equal. unfold clean_name in H. induction H as [|c l Hc _ IH]; [done|].
  csimpl. rewrite Hc, chr_byte_val. by f_equal.
Qed.

Lemma no_slash_base_list l :
  Forall (λ c, c ≠ "/"%char) l → l ≠ [] →
  strip_trailing_slashes l = l ∧ ∀ acc, after_last_slash l acc = rev acc ++ l.
Proof.
  intros H _. split.
  - induction H as [|c l Hc _ IH]; [done|]. simpl. rewrite IH.
    destruct l; [|done]. by destruct (ascii_dec c "/").
  - induction H as [|c l Hc _ IH]; intros acc; simpl; [by rewrite app_nil_r|].
    destruct (ascii_dec c "/"); [done|]. rewrite IH. simpl. by rewrite <- app_assoc.
Qed.

Lemma clean_no_slash s : clean_name s → Forall (λ c, c ≠ "/"%char) (chars s).
Proof.
  intros H. eapply Forall_impl; [exact H|]. intros c Hc ->.
  apply filename_char_ascii in Hc as [_ Hc]. by apply Hc.
Qed.

Lemma Base_clean s : clean_name s → s ≠ "" → Base s = s.
Proof.
  intros H Hs. destruct s as [|c s]; [done|]. unfold Base.
  destruct (no_slash_base_list (chars (String c s)) (clean_no_slash _ H)) as [-> E]; [done|].
  cbn [String.list_ascii_of_string]. cbn [String.list_ascii_of_string] in E. rewrite E. simpl.
  f_equal. apply String.string_of_list_ascii_of_string.
Qed.

(** C31: a sanitized file name is empty (and the upload is then refused) or a
    plain name: only letters, digits, dot, dash and underscore, so no path
    separator, and no leading dot, so neither "." nor ".." nor a hidden file;
    and sanitizing it again changes nothing, so the key of an upload names one
    object directly under the message's prefix. *)
Theorem sanitizeFilename_safe raw :
  sanitizeFilename raw = "" ∨
  clean_name (sanitizeFilename raw) ∧
  "/"%char ∉ chars (sanitizeFilename raw) ∧
  HasPrefixDot (sanitizeFilename raw) = false ∧
  sanitizeFilename (sanitizeFilename raw) = sanitizeFilename raw.
Proof.
  assert (∀ c, clean_name c → c ≠ "" → HasPrefixDot c = false → sanitizeFilename c = c) as Hid.
  { intros c Hc Hne Hd. unfold sanitizeFilename. rewrite Base_clean, ReplaceAll_id by done.
    rewrite Hd, (bool_decide_eq_false_2 (c = "")) by done.
    rewrite bool_decide_eq_false_2; [done|].
    intros [->|[->| ->]]; [done|done|]. apply clean_no_slash in Hc. by inversion Hc. }
  destruct (decide (sanitizeFilename raw = "")) as [E|E]; [by left|right].
  assert (clean_name (sanitizeFilename raw) ∧ HasPrefixDot (sanitizeFilename raw) = false)
    as [Hc Hd].
  { unfold sanitizeFilename in *. destruct (bool_decide (Base raw = "" ∨ _)); [done|].
    destruct (bool_decide _), (HasPrefixDot _) eqn:?; try done.
    split; [apply ReplaceAll_clean|done]. }
  split_and!; [done| |done|by apply Hid]. intros Hin. apply clean_no_slash in Hc.
  rewrite Forall_forall in Hc. by eapply Hc.
Qed.

(** ** The service over a table and an object store *)

Record enqueue_state := MkEnqueueState {
  en_now : time;
  en_table : table;
  en_ids : list uuid;                        (* UUIDs still to be drawn *)
  en_parts : list AttachmentPart;            (* parts still to be read *)
  en_objects : gmap (string * string) string;
}.

Definition set_table (s : enqueue_state) (t : table) : enqueue_state :=
  MkEnqueueState (en_now s) t (tail (en_ids s)) (en_parts s) (en_objects s).

Definition set_objects (s : enqueue_state) (o : gmap (string * string) string) : enqueue_state :=
  MkEnqueueState (en_now s) (en_table s) (en_ids s) (en_parts s) o.

Definition draw (s : enqueue_state) : uuid := default uuid_Nil (head (en_ids s)).

Definition enqueue_do (bucket : string) (X : Type) (e : EnqueueE X)
    : enqueue_state → X * enqueue_state :=
  match e in EnqueueE X return enqueue_state → X * enqueue_state with
  | GetByIdempotencyKey_ k => λ s, (repo_GetByIdempotencyKey k (en_table s), s)
  | Insert_ p => λ s,
      let '(r, t') := repo_Insert (draw s) (en_now s) p (en_table s) in (r, set_table s t')
  | NextPart => λ s,
      match en_parts s with
      | p :: l => (Ok p, MkEnqueueState (en_now s) (en_table s) (en_ids s) l (en_objects s))
      | [] => (Err EOF, s)
      end
  | Put_ key body _ _ => λ s,
      (Ok (bucket, key), set_objects s (<[(bucket, key) := body]> (en_objects s)))
  | Remove_ b k => λ s, (None, set_objects s (delete (b, k) (en_objects s)))
  | NewUUID => λ s, (draw s, set_table s (en_table s))
  | EnqueueNow => λ s, (en_now s, s)
  | EnqueueLog _ => λ s, (tt, s)
  end.

(** Calls that leave the table alone. *)
Definition no_insert (X : Type) (e : EnqueueE X) : Prop :=
  match e with Insert_ _ => False | _ => True end.

Lemma no_insert_table bucket X (e : EnqueueE X) t s :
  no_insert X e → en_table s = t → en_table (enqueue_do bucket X e s).2 = t.
Proof. destruct e; try done. simpl. by destruct (en_parts s). Qed.

Ltac all_no_insert :=
  repeat first
    [ apply all_calls_ret | apply all_calls_call; exact I
    | apply all_calls_bind; [|intros] | case_match ].

Lemma rollback_no_insert r : all_calls no_insert (rollback r).
Proof. induction r as [|x r IH]; cbn [rollback]; all_no_insert. done. Qed.

Lemma upload_loop_no_insert uuidString fuel id att :
  all_calls no_insert (upload_loop uuidString fuel id att).
Proof.
  revert att. induction fuel as [|fuel IH]; intros att; cbn [upload_loop]; all_no_insert;
    done || apply rollback_no_insert.
Qed.

Lemma interp_no_insert {A} bucket (p : prog EnqueueE A) s a s' :
  all_calls no_insert p → interp (enqueue_do bucket) p s = (a, s') → en_table s' = en_table s.
Proof.
  intros H E. replace s' with (interp (enqueue_do bucket) p s).2 by (by rewrite E).
  apply (interp_inv (enqueue_do bucket) no_insert (λ x, en_table x = en_table s)); [|done..].
  intros X e x. apply no_insert_table.
Qed.

Section over_table.
Context (bucket : string) (uuidString : uuid → string) (senderPhone : string).

(** An accepted fresh request: the table gained its row. *)
Lemma enqueue_fresh_row fuel m hp s res s' :
  interp (enqueue_do bucket) (enqueue_fresh uuidString senderPhone fuel m hp) s
    = (Some (Ok res), s') →
  ∃ r, er_Idempotent res = false ∧ en_table s' = en_table s ++ [r] ∧ id_of r = er_ID res ∧
    idempotency_key r = cm_IdempotencyKey m ∧ deleted_at r = None ∧ quote_result_id r = None ∧
    (table_wf (en_table s) → table_wf (en_table s')).
Proof.
  unfold enqueue_fresh. rewrite interp_bind. cbn [call interp enqueue_do].
  rewrite interp_bind. destruct (interp _ (uploadAll _ _ _ _) _) as [up s2] eqn:E2.
  apply interp_no_insert in E2;
    [|unfold uploadAll; destruct hp; [apply upload_loop_no_insert|exact I]].
  simpl in E2. destruct up as [[a|e]|]; [|by intros [= ]..].
  rewrite interp_bind. destruct (interp _ (match cm_TimeoutSeconds m with _ => _ end) _) as [ta s3] eqn:E3.
  apply interp_no_insert in E3; [|all_no_insert]. rewrite interp_bind. cbn [call interp enqueue_do].
  rewrite E3, E2. destruct (repo_Insert _ _ _ _) as [[row|e] t'] eqn:EI; simpl.
  - intros [= <- <-]. pose proof EI as F. apply repo_Insert_ok in F.
    destruct F as (r & -> & _ & Hid & _ & Hk & Hd & _ & _ & _ & Ht & _ & Hq).
    exists r. split_and!; try done. intros W. by apply (repo_Insert_wf _ _ _ _ W) in EI.
  - rewrite interp_bind. destruct (interp _ (rollback a) _). by intros [= ].
Qed.
End over_table.

Lemma GetByIdempotencyKey_row t k m :
  repo_GetByIdempotencyKey k t = Ok m →
  ∃ r, r ∈ t ∧ idempotency_key r = Some k ∧ m = domain_of r.
Proof.
  unfold repo_GetByIdempotencyKey, GetByIdempotencyKey.
  intros (s & (r & l & E & ->)%one_spec & ->)%or_not_found_ok.
  assert (r ∈ r :: l) as Hin by left. rewrite <- E in Hin.
  apply list_elem_of_filter in Hin as [[_ Hk] Hin]. eauto.
Qed.

(** The key is found whatever the row's state, deleted or not. *)
Lemma GetByIdempotencyKey_found t r k :
  table_wf t → r ∈ t → idempotency_key r = Some k →
  repo_GetByIdempotencyKey k t = Ok (domain_of r).
Proof.
  intros W Hin Hk. unfold repo_GetByIdempotencyKey, GetByIdempotencyKey.
  erewrite one_filter_unique; [done|exact Hin|split; [by eexists|done]|].
  intros x Hx [_ He]. by eapply NoDup_omap_inj; [apply (wf_idem _ W)| | | |].
Qed.

Lemma Enqueue_row bucket uuidString senderPhone fuel m hp k s res s' :
  table_wf (en_table s) → cm_IdempotencyKey m = Some k → k ≠ "" →
  interp (enqueue_do bucket) (Enqueue uuidString senderPhone fuel m hp) s = (Some (Ok res), s') →
  table_wf (en_table s') ∧
  ∃ r, r ∈ en_table s' ∧ id_of r = er_ID res ∧ idempotency_key r = Some k.
Proof.
  intros W Hk Hne. unfold Enqueue. destruct (validate senderPhone m); [by intros [= ]|].
  rewrite Hk, (bool_decide_eq_false_2 _ Hne). cbn [negb]. rewrite interp_bind.
  cbn [call interp enqueue_do].
  destruct (repo_GetByIdempotencyKey k (en_table s)) as [x|e] eqn:EG.
  - intros [= <- <-]. split; [done|].
    apply GetByIdempotencyKey_row in EG as (r & Hin & Hr & ->). by exists r.
  - destruct (Is e ErrNotFound); [|by intros [= ]].
    intros (r & _ & -> & Hid & Hr & _ & _ & W')%enqueue_fresh_row. split; [auto|].
    exists r. split_and!; [apply elem_of_app; right; by left|done|congruence].
Qed.

(** C11: after a request with an idempotency key was accepted, every later valid
    request with the same key, whatever it asks for and whatever happened to the
    table in between, answers with the same message id, flagged idempotent, and
    stores, uploads and changes nothing. *)
Theorem enqueue_idempotent bucket uuidString senderPhone fuel m hp k s res s1 l s2 fuel' m' hp' :
  table_wf (en_table s) → k ≠ "" →
  cm_IdempotencyKey m = Some k → cm_IdempotencyKey m' = Some k →
  validate senderPhone m' = None →
  interp (enqueue_do bucket) (Enqueue uuidString senderPhone fuel m hp) s = (Some (Ok res), s1) →
  en_table s2 = exec_all l (en_table s1) →
  interp (enqueue_do bucket) (Enqueue uuidString senderPhone fuel' m' hp') s2
    = (Some (Ok (MkEnqueueResult (er_ID res) true)), s2).
Proof.
  intros W Hne Hk Hk' Hv H1 H2.
  destruct (Enqueue_row _ _ _ _ _ _ _ _ _ _ W Hk Hne H1) as (W1 & r & Hin & Hid & Hr).
  pose proof (to_map_elem _ r (wf_pkey _ W1) Hin) as L.
  destruct (exec_all_keeps l _ _ _ W1 L) as (r' & L' & _ & Hr').
  apply to_map_lookup_Some in L' as [Hin' Hid'].
  unfold Enqueue. rewrite Hv, Hk', (bool_decide_eq_false_2 _ Hne). cbn [negb].
  rewrite interp_bind. cbn [call interp enqueue_do].
  rewrite H2. erewrite GetByIdempotencyKey_found; [|by apply exec_all_wf|exact Hin'|congruence].
  cbn [interp mret prog_MRet]. change (msg_ID (domain_of r')) with (id_of r').
  by rewrite Hid', Hid.
Qed.

Definition keyed_create (content : string) : CreateMessage :=
  MkCreateMessage "ext-1" (Some "key-1") (Some "+380111111111") None None content None None None.

Definition fresh_state : enqueue_state := MkEnqueueState 100 [] [5%N; 6%N] [] ∅.

Lemma enqueue_idempotent_witness :
  ∃ res s1,
    interp (enqueue_do "b") (Enqueue (λ _, "5") "+380000000000" 1 (keyed_create "hi") true) fresh_state
      = (Some (Ok res), s1) ∧
    interp (enqueue_do "b") (Enqueue (λ _, "5") "+380000000000" 1 (keyed_create "other") true)
      (MkEnqueueState 900 (exec_all [(600, SMarkTimedOut)] (en_table s1)) [] [] ∅)
    = (Some (Ok (MkEnqueueResult (er_ID res) true)),
       MkEnqueueState 900 (exec_all [(600, SMarkTimedOut)] (en_table s1)) [] [] ∅).
Proof.
  destruct (interp (enqueue_do "b") (Enqueue (λ _, "5") "+380000000000" 1 (keyed_create "hi") true)
              fresh_state) as [o s1] eqn:E.
  assert (o = Some (Ok (MkEnqueueResult 6%N false))) as ->
    by (apply (f_equal fst) in E; vm_compute in E; by rewrite <- E).
  exists (MkEnqueueResult 6%N false), s1. split; [reflexivity|].
  apply (enqueue_idempotent "b" (λ _, "5") "+380000000000" 1 (keyed_create "hi") true "key-1"
    fresh_state _ s1 [(600, SMarkTimedOut)]);
    [apply table_wf_nil|discriminate|reflexivity|reflexivity|vm_compute; reflexivity|exact E|
     reflexivity].
Defined.

(** ** What an upload leaves in the object store *)

Section stored.
Context (bucket : string) (uuidString : uuid → string) (id : uuid).

Definition part_name (p : AttachmentPart) : string := sanitizeFilename (part_Filename p).
Definition part_key (p : AttachmentPart) : string := uuidString id +:+ "/" +:+ part_name p.
Definition part_attachment (p : AttachmentPart) : Attachment :=
  MkAttachment bucket (part_key p) (part_ContentType p) 0.

Definition put_part (o : gmap (string * string) string) (p : AttachmentPart) :=
  <[(bucket, part_key p) := part_Body p]> o.

Lemma part_key_inj p q : part_key p = part_key q → part_name p = part_name q.
Proof. unfold part_key. intros H. by do 2 apply (inj (String.append _)) in H. Qed.

(** The object under a name is the body of the last part with that name. *)
Lemma put_parts_lookup parts p o :
  p ∈ parts →
  ∃ pre q post, parts = pre ++ q :: post ∧ part_name q = part_name p ∧
    part_name p ∉ part_name <$> post ∧
    foldl put_part o parts !! (bucket, part_key p) = Some (part_Body q).
Proof.
  revert o. induction parts as [|x parts IH] using rev_ind; intros o Hp; [by apply elem_of_nil in Hp|].
  rewrite foldl_app. simpl. destruct (decide (part_name x = part_name p)) as [E|E].
  - exists parts, x, []. split_and!; [done|done|by apply not_elem_of_nil|].
    unfold put_part at 1. unfold part_key. rewrite E. apply lookup_insert_eq.
  - apply elem_of_app in Hp as [Hp| ->%list_elem_of_singleton]; [|done].
    destruct (IH o Hp) as (pre & q & post & -> & Eq & Hpost & Hl). exists pre, q, (post ++ [x]).
    rewrite <- app_assoc. split_and!; [done|done| |].
    + rewrite fmap_app. simpl. rewrite elem_of_app, list_elem_of_singleton. naive_solver.
    + unfold put_part at 1. rewrite lookup_insert_ne; [done|]. by intros [= ?%part_key_inj].
Qed.

Lemma upload_loop_stored parts fuel att s :
  en_parts s = parts → Forall (λ p, part_name p ≠ "") parts → (length parts < fuel)%nat →
  interp (enqueue_do bucket) (upload_loop uuidString fuel id att) s
  = (Some (Ok (att ++ (part_attachment <$> parts))),
     MkEnqueueState (en_now s) (en_table s) (en_ids s) [] (foldl put_part (en_objects s) parts)).
Proof.
  revert fuel att s. induction parts as [|p parts IH]; intros [|fuel] att s Hs Hn Hf; simpl in Hf; try lia;
    cbn [upload_loop]; rewrite interp_bind; cbn [call interp enqueue_do]; rewrite Hs.
  - simpl. rewrite app_nil_r. destruct s; simpl in *. by subst.
  - apply Forall_cons in Hn as [Hp Hn]. unfold part_name in Hp. rewrite bool_decide_eq_false_2 by done.
    rewrite interp_bind. cbn [call interp enqueue_do].
    rewrite IH by (done || lia). simpl. by rewrite <- app_assoc.
Qed.
End stored.

(** C40: an upload of parts with acceptable names stores one reference per part,
    in order, under the key of its sanitized name; the object found under a
    part's reference is the body of the last part whose name sanitizes to the
    same text.  So every reference yields its own part exactly when no later
    part has the same sanitized name: an earlier one is overwritten and its
    reference yields the other file. *)
Theorem uploads_last_name_wins bucket uuidString fuel id s :
  Forall (λ p, part_name p ≠ "") (en_parts s) → (length (en_parts s) < fuel)%nat →
  ∃ s', interp (enqueue_do bucket) (uploadAll uuidString fuel id true) s
        = (Some (Ok (part_attachment bucket uuidString id <$> en_parts s)), s') ∧
    ∀ p, p ∈ en_parts s →
      ∃ pre q post, en_parts s = pre ++ q :: post ∧ part_name q = part_name p ∧
        part_name p ∉ part_name <$> post ∧
        en_objects s' !! (bucket, part_key uuidString id p) = Some (part_Body q).
Proof.
  intros Hn Hf. eexists.
  split; [exact (upload_loop_stored bucket uuidString id _ fuel [] s eq_refl Hn Hf)|]. intros p Hp.
  by apply put_parts_lookup.
Qed.

Lemma uploads_last_name_wins_witness :
  let a := MkAttachmentPart "dir/photo 1.jpg" "image/jpeg" "AAA" in
  let b := MkAttachmentPart "photo_1.jpg" "image/jpeg" "BBB" in
  ∃ s', interp (enqueue_do "b") (uploadAll (λ _, "5") 3 5%N true)
          (MkEnqueueState 0 [] [] [a; b] ∅)
        = (Some (Ok (part_attachment "b" (λ _, "5") 5%N <$> [a; b])), s') ∧
    ∀ p, p ∈ [a; b] →
      ∃ pre q post, [a; b] = pre ++ q :: post ∧ part_name q = part_name p ∧
        part_name p ∉ part_name <$> post ∧
        en_objects s' !! ("b", part_key (λ _, "5") 5%N p) = Some (part_Body q).
Proof.
  apply (uploads_last_name_wins "b" (λ _, "5") 3 5%N (MkEnqueueState 0 [] [] [_; _] ∅));
    [|simpl; lia].
  repeat constructor; vm_compute; congruence.
Defined.

(** ** Requests that name both targets *)

(** A key that no row carries, or none at all. *)
Definition fresh_key (m : CreateMessage) (t : table) : Prop :=
  ∀ k, cm_IdempotencyKey m = Some k → Forall (λ r, idempotency_key r ≠ Some k) t.

Lemma fresh_key_not_found m t k :
  fresh_key m t → cm_IdempotencyKey m = Some k → repo_GetByIdempotencyKey k t = Err ErrNotFound.
Proof.
  intros Hf Hk. unfold repo_GetByIdempotencyKey, GetByIdempotencyKey.
  destruct (filter _ t) as [|x l] eqn:E; [done|]. exfalso.
  assert (x ∈ x :: l) as Hx by left. rewrite <- E in Hx. apply list_elem_of_filter in Hx as [[_ Hx] Hin].
  by apply (proj1 (Forall_forall _ _) (Hf k Hk) x Hin).
Qed.

(** Two targets given, one of them empty. *)
Definition one_empty_target (m : CreateMessage) : Prop :=
  ∃ r g, cm_Recipient m = Some r ∧ cm_GroupID m = Some g ∧ (r = "" ∧ g ≠ "" ∨ r ≠ "" ∧ g = "").

(** Everything else about the request is in order. *)
Definition otherwise_valid (senderPhone : string) (m : CreateMessage) : Prop :=
  TrimSpace_empty (cm_ExternalID m) = false ∧ Z.of_nat (String.length (cm_ExternalID m)) ≤ 255 ∧
  TrimSpace_empty (cm_Content m) = false ∧
  (∀ p, cm_SenderPhoneNumber m = Some p → p = "" ∨ p = senderPhone).

Lemma one_empty_target_validates senderPhone m :
  otherwise_valid senderPhone m → one_empty_target m → validate senderPhone m = None.
Proof.
  intros (He & Hl & Hc & Hs) (r & g & Hr & Hg & Hrg). unfold validate.
  rewrite He, Hc, Hr, Hg. destruct (Z.ltb_spec 255 (Z.of_nat (String.length (cm_ExternalID m)))); [lia|].
  assert (eqb (nonempty (Some r)) (nonempty (Some g)) = false) as ->.
  { unfold nonempty. destruct Hrg as [[-> Hn]|[Hn ->]];
      rewrite (bool_decide_eq_false_2 _ Hn), bool_decide_eq_true_2; done. }
  destruct (cm_SenderPhoneNumber m) as [p|]; [|done]. destruct (Hs p eq_refl) as [->| ->].
  - by rewrite bool_decide_eq_true_2.
  - by rewrite (bool_decide_eq_true_2 (senderPhone = senderPhone)), andb_false_r.
Qed.

Lemma repo_Insert_two_targets u now p t :
  is_Some (rp_Recipient p) → is_Some (rp_GroupID p) →
  repo_Insert u now p t
  = (Err (Wrap (ErrPg (CheckViolation "exactly_one_target")) "insert signal message"), t).
Proof. intros [r Hr] [g Hg]. unfold repo_Insert, Insert, exactly_one_target. simpl. by rewrite Hr, Hg. Qed.

Lemma enqueue_fresh_two_targets bucket uuidString senderPhone fuel m hp s :
  is_Some (cm_Recipient m) → is_Some (cm_GroupID m) →
  Forall (λ p, part_name p ≠ "") (en_parts s) → (length (en_parts s) < fuel)%nat →
  ∃ s', interp (enqueue_do bucket) (enqueue_fresh uuidString senderPhone fuel m hp) s
        = (Some (Err (Wrap (ErrPg (CheckViolation "exactly_one_target")) "insert signal message")), s') ∧
        en_table s' = en_table s.
Proof.
  intros Hr Hg Hp Hf. unfold enqueue_fresh. rewrite interp_bind. cbn [call interp enqueue_do].
  rewrite interp_bind. set (s1 := set_table s (en_table s)).
  assert (∃ a s2, interp (enqueue_do bucket) (uploadAll uuidString fuel (draw s) hp) s1
                  = (Some (Ok a), s2) ∧ en_table s2 = en_table s) as (a & s2 & -> & E2).
  { destruct hp; [|by eexists _, s1]. unfold uploadAll. eexists _, _.
    by rewrite (upload_loop_stored bucket uuidString (draw s) (en_parts s) fuel [] s1) by done. }
  rewrite interp_bind.
  destruct (interp _ (match cm_TimeoutSeconds m with _ => _ end) _) as [ta s3] eqn:E3.
  apply interp_no_insert in E3; [|all_no_insert]. rewrite interp_bind. cbn [call interp enqueue_do].
  rewrite repo_Insert_two_targets by done. rewrite interp_bind.
  destruct (interp _ (rollback a) _) as [u s4] eqn:E4.
  apply interp_no_insert in E4; [|apply rollback_no_insert]. eexists. split; [done|].
  rewrite E4. cbn. congruence.
Qed.

(** C39: a request that names both targets, one of them with an empty string, and
    is in order otherwise passes validation, whatever attachments come with it
    and whether or not it carries an idempotency key not used before; its
    attachments are uploaded, and then the table refuses the row: the service
    answers with the wrapped [exactly_one_target] violation, not with a
    validation error, and inserts nothing. *)
Theorem empty_target_refused_by_table bucket uuidString senderPhone m fuel s :
  otherwise_valid senderPhone m → one_empty_target m → fresh_key m (en_table s) →
  Forall (λ p, part_name p ≠ "") (en_parts s) → (length (en_parts s) < fuel)%nat →
  validate senderPhone m = None ∧
  ∃ s', interp (enqueue_do bucket) (Enqueue uuidString senderPhone fuel m true) s
        = (Some (Err (Wrap (ErrPg (CheckViolation "exactly_one_target")) "insert signal message")), s') ∧
        en_table s' = en_table s.
Proof.
  intros Hv Ht Hk Hp Hf. pose proof (one_empty_target_validates senderPhone m Hv Ht) as V.
  split; [done|]. destruct Ht as (r & g & Hr & Hg & _).
  destruct (enqueue_fresh_two_targets bucket uuidString senderPhone fuel m true s) as (s' & E & Es);
    [by eexists|by eexists|done|done|].
  exists s'. split; [|done]. unfold Enqueue. rewrite V.
  destruct (cm_IdempotencyKey m) as [k|] eqn:Ek; [|done]. destruct (negb _); [|done].
  rewrite interp_bind. cbn [call interp enqueue_do]. by rewrite (fresh_key_not_found m).
Qed.

Lemma empty_target_refused_by_table_witness :
  let m := MkCreateMessage "ext-1" (Some "key-1") (Some "") (Some "group") None "hi" None None None in
  let s := MkEnqueueState 100 [] [5%N; 6%N] [MkAttachmentPart "a.txt" "text/plain" "A"] ∅ in
  validate "+380000000000" m = None ∧
  ∃ s', interp (enqueue_do "b") (Enqueue (λ _, "5") "+380000000000" 2 m true) s
        = (Some (Err (Wrap (ErrPg (CheckViolation "exactly_one_target")) "insert signal message")), s') ∧
        en_table s' = en_table s.
Proof.
  intros m s. apply empty_target_refused_by_table.
  - split_and!; [vm_compute; reflexivity|vm_compute; discriminate|vm_compute; reflexivity|].
    intros p Hp. discriminate Hp.
  - exists "", "group". split; [reflexivity|]. split; [reflexivity|]. left. split; [reflexivity|discriminate].
  - intros k _. constructor.
  - repeat constructor. vm_compute. discriminate.
  - vm_compute. repeat constructor.
Defined.
