(* ===== verification/TcpClient.v ===== *)
(** [internal/signal/tcp_client.go]: the JSON-RPC client over one connection.

    Any number of [Send] calls, the dial loop with its reader, and [Close] run
    concurrently.  Each atomic action below is one critical section, channel
    operation or system call of one goroutine; a goroutine is its program
    counter ([sender] for a Send call, [dialer] for the dial loop) and its next
    actions follow the code.  Channels of capacity one are lists of at most one
    element, the [dialOnce] gates are numbered, and a panic or a blocked channel
    send is an outcome of its own. *)

From Stdlib Require Import Ascii.
From S2P Require Import Prelude Errors Config Backoff Worker.

(** ** Wire data; JSON text is decoded by the functions the model is given *)

Record rpcError := MkRpcError { re_Code : Z; re_Message : string }.

Record rpcFrame := MkRpcFrame {
  fr_ID : option string;
  fr_Method : string;
  fr_Params : string;
  fr_Result : string;
  fr_Error : option rpcError;
}.

Record rpcResponse := MkRpcResponse {
  rsp_result : string;
  rsp_err : option rpcError;
  rsp_disconnect : bool;
}.

Record Event := MkEvent { ev_Method : string; ev_Params : string }.

(** ** Goroutines *)

(** A Send call: [SWaiting] in the select of waitConnected, [SReady] past it,
    [SRegistered] before the write, [SAwaiting] in the final select,
    [SReturning] before its deferred delete, [SDone] returned; the request id is
    kept where there is one. *)
Inductive sender :=
| SWaiting (gate : nat)
| SReady
| SRegistered (id : string) (ch : nat)
| SAwaiting (id : string) (ch : nat)
| SReturning (id : string) (r : res SendResult)
| SDone (id : option string) (r : res SendResult).

(** The dial loop, with the reader it runs inline. *)
Inductive dialer :=
| DLoop (backoff : duration)
| DDialing (backoff : duration)
| DSleeping (backoff : duration)
| DReading
| DDelivering (ch : nat) (resp : rpcResponse)
| DReadDone
| DFailed
| DRearm
| DShutdown
| DShutdown2
| DStopped.

Record TCPClient := MkTCPClient {
  c_closed : bool;
  c_runDone : bool;                          (* runCtx is cancelled *)
  c_conn : option nat;
  c_connGen : nat;
  c_dialOnce : nat;                          (* the current gate *)
  c_gates : gset nat;                        (* closed gates *)
  c_pending : gmap string nat;               (* request id to channel *)
  c_chans : gmap nat (string * list rpcResponse);  (* request id and buffer *)
  c_events : list Event;
  c_dropped : list string;                   (* IncInboundDropped calls *)
  c_dialer : dialer;
  c_senders : gmap nat sender;
  c_frames : list (string * rpcResponse);    (* responses matched so far, by id *)
}.

Definition baseBackoff : duration := 500 * Millisecond.
Definition maxBackoff : duration := 30 * Second.
Definition events_cap : nat := 64.

(** [NewTCPClient] followed by [Start]. *)
Definition new_client : TCPClient :=
  MkTCPClient false false None 0 0 ∅ ∅ ∅ [] [] (DLoop baseBackoff) ∅ [].

(** ** Record updates *)

Definition set_closed (c : TCPClient) : TCPClient :=
  MkTCPClient true (c_runDone c) (c_conn c) (c_connGen c) (c_dialOnce c) (c_gates c)
    (c_pending c) (c_chans c) (c_events c) (c_dropped c) (c_dialer c) (c_senders c) (c_frames c).
Definition set_runDone (c : TCPClient) : TCPClient :=
  MkTCPClient (c_closed c) true (c_conn c) (c_connGen c) (c_dialOnce c) (c_gates c)
    (c_pending c) (c_chans c) (c_events c) (c_dropped c) (c_dialer c) (c_senders c) (c_frames c).
Definition set_conn (x : option nat) (g : nat) (c : TCPClient) : TCPClient :=
  MkTCPClient (c_closed c) (c_runDone c) x g (c_dialOnce c) (c_gates c)
    (c_pending c) (c_chans c) (c_events c) (c_dropped c) (c_dialer c) (c_senders c) (c_frames c).
Definition set_gates (d : nat) (g : gset nat) (c : TCPClient) : TCPClient :=
  MkTCPClient (c_closed c) (c_runDone c) (c_conn c) (c_connGen c) d g
    (c_pending c) (c_chans c) (c_events c) (c_dropped c) (c_dialer c) (c_senders c) (c_frames c).
Definition set_pending (p : gmap string nat) (ch : gmap nat (string * list rpcResponse))
    (c : TCPClient) : TCPClient :=
  MkTCPClient (c_closed c) (c_runDone c) (c_conn c) (c_connGen c) (c_dialOnce c) (c_gates c)
    p ch (c_events c) (c_dropped c) (c_dialer c) (c_senders c) (c_frames c).
Definition set_events (e : list Event) (d : list string) (c : TCPClient) : TCPClient :=
  MkTCPClient (c_closed c) (c_runDone c) (c_conn c) (c_connGen c) (c_dialOnce c) (c_gates c)
    (c_pending c) (c_chans c) e d (c_dialer c) (c_senders c) (c_frames c).
Definition set_dialer (d : dialer) (c : TCPClient) : TCPClient :=
  MkTCPClient (c_closed c) (c_runDone c) (c_conn c) (c_connGen c) (c_dialOnce c) (c_gates c)
    (c_pending c) (c_chans c) (c_events c) (c_dropped c) d (c_senders c) (c_frames c).
Definition set_sender (k : nat) (s : sender) (c : TCPClient) : TCPClient :=
  MkTCPClient (c_closed c) (c_runDone c) (c_conn c) (c_connGen c) (c_dialOnce c) (c_gates c)
    (c_pending c) (c_chans c) (c_events c) (c_dropped c) (c_dialer c)
    (<[k := s]> (c_senders c)) (c_frames c).
Definition log_frame (id : string) (r : rpcResponse) (c : TCPClient) : TCPClient :=
  MkTCPClient (c_closed c) (c_runDone c) (c_conn c) (c_connGen c) (c_dialOnce c) (c_gates c)
    (c_pending c) (c_chans c) (c_events c) (c_dropped c) (c_dialer c) (c_senders c)
    ((id, r) :: c_frames c).

(** What an action does: a new state, nothing because it cannot happen now, a
    goroutine stuck on a full channel, or a panic. *)
Inductive outcome := Next (c : TCPClient) | Disabled | Stuck | Panic.

Inductive taction :=
(* a Send call [k] *)
| TSend (k : nat)
| TGate (k : nat)
| TWaitCtx (k : nat) (e : error)
| TWaitRun (k : nat)
| TRegister (k : nat) (id : string)
| TWrite (k : nat) (werr : option error)
| TFire (k : nat) (werr : option error)
| TAwaitCtx (k : nat) (e : error)
| TAwaitRun (k : nat)
| TAwaitTimeout (k : nat)
| TReceive (k : nat)
| TDefer (k : nat)
(* the dial loop *)
| TLoop
| TDialOk
| TDialErr
| TSleep (woke : bool)
| TLine (line : list ascii)
| TDeliver
| TReadErr
| TFailPending
| TClear
| TRearm
| TShutdown
| TShutdown2
(* Close: the critical section, then runCancel *)
| TClose
| TCancel
(* the consumer of Events() *)
| TConsume.

Section Client.

(** [json.Unmarshal] of a frame, [None] when malformed, and the best-effort
    timestamp of a result. *)
Variable Unmarshal : list ascii → option rpcFrame.
Variable timestamp_of : string → Z.
Variable cfg : SignalCliTCP.

(** ** Steps *)

(** The trailing bytes [dispatchFrame] trims. *)
Definition is_trailer (a : ascii) : bool :=
  bool_decide (a = "010"%char ∨ a = "013"%char ∨ a = " "%char).

Fixpoint trim_right (l : list ascii) : list ascii :=
  match l with
  | [] => []
  | a :: l' => match trim_right l' with
               | [] => if is_trailer a then [] else [a]
               | t => a :: t
               end
  end.

(** A notification goes to the events channel, or is dropped when it is full. *)
Definition notify (frame : rpcFrame) (c : TCPClient) : TCPClient :=
  if bool_decide (fr_Method frame = "") then c
  else if (length (c_events c) <? events_cap)%nat
  then set_events (c_events c ++ [MkEvent (fr_Method frame) (fr_Params frame)]) (c_dropped c) c
  else set_events (c_events c) (c_dropped c ++ [fr_Method frame]) c.

(** The lookup and delete under the lock; the channel send follows. *)
Definition respond (id : string) (frame : rpcFrame) (c : TCPClient) : TCPClient :=
  let resp := MkRpcResponse (fr_Result frame) (fr_Error frame) false in
  match c_pending c !! id with
  | Some ch =>
      set_dialer (DDelivering ch resp)
        (log_frame id resp (set_pending (delete id (c_pending c)) (c_chans c) c))
  | None => c
  end.

Definition dispatchFrame (line : list ascii) (c : TCPClient) : TCPClient :=
  match trim_right line with
  | [] => c
  | l =>
      match Unmarshal l with
      | None => c
      | Some frame =>
          match fr_ID frame with
          | Some id => if negb (bool_decide (id = "")) then respond id frame c else notify frame c
          | None => notify frame c
          end
      end
  end.

(** [ch <- resp] on a channel of capacity one: [None] when it would block. *)
Definition chan_send (ch : nat) (resp : rpcResponse) (m : gmap nat (string * list rpcResponse))
    : option (gmap nat (string * list rpcResponse)) :=
  match m !! ch with
  | Some (id, []) => Some (<[ch := (id, [resp])]> m)
  | _ => None
  end.

Definition disconnect_response : rpcResponse := MkRpcResponse "" None true.

(** [failPending]: the loop over the pending map, in some order, under the lock;
    the select's default case drops the response. *)
Definition failPending (c : TCPClient) : TCPClient :=
  set_pending ∅
    (foldr (λ '(_, ch) m, default m (chan_send ch disconnect_response m)) (c_chans c)
       (map_to_list (c_pending c))) c.

Definition new_chan (c : TCPClient) : nat := fresh (dom (c_chans c)).

(** The result that the response on a channel becomes. *)
Definition response_result (resp : rpcResponse) : res SendResult :=
  if rsp_disconnect resp then Err ErrDisconnected
  else match rsp_err resp with
       | Some _ => Err (ErrMsg "signal-cli error")
       | None => Ok (MkSendResult (timestamp_of (rsp_result resp)))
       end.

Definition step_sender (k : nat) (a : taction) (c : TCPClient) : outcome :=
  match a, c_senders c !! k with
  | TSend _, None =>
      if c_closed c then Next (set_sender k (SDone None (Err ErrShutdown)) c)
      else Next (set_sender k (SWaiting (c_dialOnce c)) c)
  | TGate _, Some (SWaiting g) =>
      if bool_decide (g ∈ c_gates c) then Next (set_sender k SReady c) else Disabled
  | TWaitCtx _ e, Some (SWaiting _) =>
      Next (set_sender k (SDone None (Err (Wrap e "signal-cli waiting for dial"))) c)
  | TWaitRun _, Some (SWaiting _) =>
      if c_runDone c then Next (set_sender k (SDone None (Err ErrShutdown)) c) else Disabled
  | TRegister _ id, Some SReady =>
      if tcp_IgnoreResults cfg then Disabled
      else if c_closed c then Next (set_sender k (SDone None (Err ErrShutdown)) c)
      else let ch := new_chan c in
           Next (set_sender k (SRegistered id ch)
                   (set_pending (<[id := ch]> (c_pending c)) (<[ch := (id, [])]> (c_chans c)) c))
  | TWrite _ werr, Some (SRegistered id ch) =>
      match c_conn c, werr with
      | None, _ => Next (set_sender k (SReturning id (Err ErrDisconnected)) c)
      | Some _, Some e => Next (set_sender k (SReturning id (Err (Wrap e "tcp write"))) c)
      | Some _, None => Next (set_sender k (SAwaiting id ch) c)
      end
  | TFire _ werr, Some SReady =>
      if tcp_IgnoreResults cfg then
        match c_conn c, werr with
        | None, _ => Next (set_sender k (SDone None (Err ErrDisconnected)) c)
        | Some _, Some e => Next (set_sender k (SDone None (Err (Wrap e "tcp write"))) c)
        | Some _, None => Next (set_sender k (SDone None (Ok (MkSendResult 0))) c)
        end
      else Disabled
  | TAwaitCtx _ e, Some (SAwaiting id _) =>
      Next (set_sender k (SReturning id (Err (Wrap e "signal-cli send ctx"))) c)
  | TAwaitRun _, Some (SAwaiting id _) =>
      if c_runDone c then Next (set_sender k (SReturning id (Err ErrShutdown)) c) else Disabled
  | TAwaitTimeout _, Some (SAwaiting id _) =>
      Next (set_sender k (SReturning id (Err (ErrMsg "signal-cli send timeout"))) c)
  | TReceive _, Some (SAwaiting id ch) =>
      match c_chans c !! ch with
      | Some (o, resp :: l) =>
          Next (set_sender k (SReturning id (response_result resp))
                  (set_pending (c_pending c) (<[ch := (o, l)]> (c_chans c)) c))
      | _ => Disabled
      end
  | TDefer _, Some (SReturning id r) =>
      Next (set_sender k (SDone (Some id) r)
              (set_pending (delete id (c_pending c)) (c_chans c) c))
  | _, _ => Disabled
  end.

Definition step_dialer (a : taction) (c : TCPClient) : outcome :=
  match a, c_dialer c with
  | TLoop, DLoop b =>
      if c_runDone c then Next (set_dialer DShutdown c) else Next (set_dialer (DDialing b) c)
  | TDialOk, DDialing _ =>
      if bool_decide (c_dialOnce c ∈ c_gates c) then Panic      (* close of a closed channel *)
      else Next (set_dialer DReading
                   (set_conn (Some (c_connGen c)) (S (c_connGen c))
                      (set_gates (c_dialOnce c) ({[c_dialOnce c]} ∪ c_gates c) c)))
  | TDialErr, DDialing b => Next (set_dialer (DSleeping b) c)
  | TSleep woke, DSleeping b =>
      if woke then Next (set_dialer (DLoop (nextBackoff b maxBackoff)) c)
      else if c_runDone c then Next (set_dialer DShutdown c) else Disabled
  | TLine line, DReading => Next (dispatchFrame line c)
  | TDeliver, DDelivering ch resp =>
      match chan_send ch resp (c_chans c) with
      | Some m => Next (set_dialer DReading (set_pending (c_pending c) m c))
      | None => Stuck
      end
  | TReadErr, DReading => Next (set_dialer DReadDone c)
  | TFailPending, DReadDone => Next (set_dialer DFailed (failPending c))
  | TClear, DFailed =>
      let c' := set_conn None (c_connGen c) c in
      if c_closed c || c_runDone c then Next (set_dialer DShutdown c')
      else Next (set_dialer DRearm c')
  | TRearm, DRearm =>
      Next (set_dialer (DLoop baseBackoff) (set_gates (fresh (c_gates c)) (c_gates c) c))
  | TShutdown, DShutdown => Next (set_dialer DShutdown2 (failPending c))
  | TShutdown2, DShutdown2 =>
      let c' := set_closed c in
      if bool_decide (c_dialOnce c ∈ c_gates c) then Next (set_dialer DStopped c')
      else Next (set_dialer DStopped
                   (set_gates (c_dialOnce c) ({[c_dialOnce c]} ∪ c_gates c) c'))
  | _, _ => Disabled
  end.

Definition tstep (a : taction) (c : TCPClient) : outcome :=
  match a with
  | TSend k | TGate k | TWaitCtx k _ | TWaitRun k | TRegister k _ | TWrite k _ | TFire k _
  | TAwaitCtx k _ | TAwaitRun k | TAwaitTimeout k | TReceive k | TDefer k => step_sender k a c
  | TClose => Next (set_closed c)
  | TCancel => if c_closed c then Next (set_runDone c) else Disabled
  | TConsume => match c_events c with
                | [] => Disabled
                | _ :: l => Next (set_events l (c_dropped c) c)
                end
  | _ => step_dialer a c
  end.

(** The states the client can get into. *)
Inductive reachable : TCPClient → Prop :=
| reach_new : reachable new_client
| reach_step a c c' : reachable c → tstep a c = Next c' → reachable c'.


(** ** The invariant *)

Definition gate_ok (c : TCPClient) : Prop :=
  match c_dialer c with
  | DLoop _ | DDialing _ | DSleeping _ => c_dialOnce c ∉ c_gates c
  | DReading | DDelivering _ _ | DReadDone | DFailed | DRearm => c_dialOnce c ∈ c_gates c
  | DShutdown | DShutdown2 => True
  | DStopped => c_dialOnce c ∈ c_gates c ∧ c_closed c = true
  end.

Definition deliver_ok (c : TCPClient) : Prop :=
  match c_dialer c with
  | DDelivering ch resp =>
      ∃ id, c_chans c !! ch = Some (id, []) ∧ (∀ id', c_pending c !! id' ≠ Some ch) ∧
            (id, resp) ∈ c_frames c
  | _ => True
  end.

(** Where a Send call stands, and where its result came from. *)
Definition sender_ok (c : TCPClient) (s : sender) : Prop :=
  match s with
  | SWaiting g => g ∈ c_gates c ∨ g = c_dialOnce c
  | SReady => True
  | SRegistered id ch | SAwaiting id ch => ∃ l, c_chans c !! ch = Some (id, l)
  | SReturning id r | SDone (Some id) r =>
      ∀ v, r = Ok v → ∃ resp, (id, resp) ∈ c_frames c ∧ rsp_err resp = None ∧
             v = MkSendResult (timestamp_of (rsp_result resp))
  | SDone None r => ∀ v, r = Ok v → tcp_IgnoreResults cfg = true
  end.

Record tinv (c : TCPClient) : Prop := MkTinv {
  ti_gate : gate_ok c;
  ti_deliver : deliver_ok c;
  ti_pending : ∀ id ch, c_pending c !! id = Some ch → c_chans c !! ch = Some (id, []);
  ti_chan : ∀ ch id l, c_chans c !! ch = Some (id, l) →
    (length l ≤ 1)%nat ∧ ∀ resp, resp ∈ l → rsp_disconnect resp = true ∨ (id, resp) ∈ c_frames c;
  ti_sender : ∀ k s, c_senders c !! k = Some s → sender_ok c s;
  ti_events : (length (c_events c) ≤ events_cap)%nat;
}.

Lemma tinv_new : tinv new_client.
Proof. split; simpl; try done; try (intros; simplify_map_eq; done). lia. Qed.

(** One sender moves on, nothing else changes. *)
Lemma tinv_sender k s c : tinv c → sender_ok c s → tinv (set_sender k s c).
Proof.
  intros [G D P C S E] Hs. split; try done. intros k' s'. simpl. rewrite lookup_insert.
  case_decide; [|apply S]. by intros [= <-].
Qed.

(** The dial loop moves on. *)
Lemma tinv_dialer d c :
  tinv c → gate_ok (set_dialer d c) → deliver_ok (set_dialer d c) → tinv (set_dialer d c).
Proof. intros [G D P C S E] Hg Hd. split; try done. Qed.

Lemma tinv_closed c : tinv c → tinv (set_closed c).
Proof.
  intros [G D P C S E]. split; try done. unfold gate_ok in *. simpl. destruct (c_dialer c); tauto.
Qed.

Lemma tinv_runDone c : tinv c → tinv (set_runDone c).
Proof. intros [G D P C S E]. by split. Qed.

Lemma tinv_conn x g c : tinv c → tinv (set_conn x g c).
Proof. intros [G D P C S E]. by split. Qed.

Lemma tinv_events e d c : tinv c → (length e ≤ events_cap)%nat → tinv (set_events e d c).
Proof. intros [G D P C S E] He. by split. Qed.

(** Channels: buffers may change, owners and pending entries must fit. *)
Lemma tinv_pending p m c :
  tinv c →
  (∀ id ch, p !! id = Some ch → m !! ch = Some (id, [])) →
  (∀ ch id l, c_chans c !! ch = Some (id, l) → ∃ l', m !! ch = Some (id, l')) →
  (∀ ch id l, m !! ch = Some (id, l) → (length l ≤ 1)%nat ∧
     ∀ resp, resp ∈ l → rsp_disconnect resp = true ∨ (id, resp) ∈ c_frames c) →
  deliver_ok (set_pending p m c) → tinv (set_pending p m c).
Proof.
  intros [G D P C S E] Hp Hm Hc Hd. split; try done.
  intros k s Hk. specialize (S k s Hk). destruct s as [| |id ch|id ch| |[] ]; try done;
    destruct S as [l Hl]; by eapply Hm.
Qed.

Lemma tinv_delete_pending id c : tinv c → tinv (set_pending (delete id (c_pending c)) (c_chans c) c).
Proof.
  intros I. apply tinv_pending; [done| |eauto|apply I|].
  - intros i ch Hi. apply lookup_delete_Some in Hi as [_ Hi]. by apply I.
  - pose proof (ti_deliver _ I) as D. unfold deliver_ok in *. simpl. destruct (c_dialer c); try done.
    destruct D as (o & ? & Hn & ?). exists o. split_and!; try done.
    intros i Hi. apply lookup_delete_Some in Hi as [_ Hi]. by eapply Hn.
Qed.

Lemma fail_fold (l : list (string * nat)) m ch :
  let m' := foldr (λ '(_, ch) m, default m (chan_send ch disconnect_response m)) m l in
  m' !! ch = m !! ch ∨
  ∃ id, m !! ch = Some (id, []) ∧ m' !! ch = Some (id, [disconnect_response]).
Proof.
  induction l as [|[i c] l IH]; simpl in *; [by left|].
  set (m1 := foldr _ m l) in *. unfold chan_send. destruct (m1 !! c) as [[id [|]]|] eqn:E; simpl; try done.
  rewrite lookup_insert. case_decide; [|done]. subst c. right. exists id.
  destruct IH as [IH|(o & H1 & H2)]; [by rewrite <- IH|]. rewrite H2 in E. congruence.
Qed.

Lemma tinv_failPending c :
  tinv c → (∀ ch resp, c_dialer c ≠ DDelivering ch resp) → tinv (failPending c).
Proof.
  intros I Hd. unfold failPending. set (m := foldr _ _ _).
  assert (∀ ch, m !! ch = c_chans c !! ch ∨
    ∃ id, c_chans c !! ch = Some (id, []) ∧ m !! ch = Some (id, [disconnect_response])) as F
    by (intros ch; apply fail_fold).
  apply tinv_pending; [done|by intros ??; rewrite lookup_empty| | |].
  - intros ch id l Hl. destruct (F ch) as [->|(o & Ho & ->)]; [by eauto|].
    rewrite Ho in Hl. injection Hl as -> ->. eauto.
  - intros ch id l. destruct (F ch) as [->|(o & Ho & ->)]; [apply I|].
    intros [= -> <-]. simpl. split; [lia|]. intros r ->%list_elem_of_singleton. by left.
  - unfold deliver_ok. simpl. destruct (c_dialer c) eqn:E; try done. by destruct (Hd ch resp).
Qed.

Lemma tinv_register id c k :
  tinv c →
  tinv (set_sender k (SRegistered id (new_chan c))
          (set_pending (<[id := new_chan c]> (c_pending c))
             (<[new_chan c := (id, [])]> (c_chans c)) c)).
Proof.
  intros I. assert (c_chans c !! new_chan c = None) as Hf
    by (apply not_elem_of_dom; exact (is_fresh (dom (c_chans c)))).
  apply tinv_sender; [|simpl; exists []; by rewrite lookup_insert_eq].
  apply tinv_pending; [done| | | |].
  - intros i ch. rewrite lookup_insert. case_decide.
    + intros [= <-]. subst i. by rewrite lookup_insert_eq.
    + intros Hi. apply (ti_pending _ I) in Hi. rewrite lookup_insert_ne; [done|congruence].
  - intros ch i l Hl. rewrite lookup_insert_ne by congruence. eauto.
  - intros ch i l. rewrite lookup_insert. case_decide; [|apply I].
    intros [= <- <-]. simpl. split; [lia|]. by intros r ?%not_elem_of_nil.
  - pose proof (ti_deliver _ I) as D. unfold deliver_ok in *. simpl. destruct (c_dialer c); try done.
    destruct D as (o & Ho & Hn & ?). exists o. rewrite lookup_insert_ne by congruence.
    split_and!; try done. intros i. rewrite lookup_insert. case_decide; [congruence|apply Hn].
Qed.

Lemma tinv_receive k id ch o resp l c :
  tinv c → c_senders c !! k = Some (SAwaiting id ch) → c_chans c !! ch = Some (o, resp :: l) →
  tinv (set_sender k (SReturning id (response_result resp))
          (set_pending (c_pending c) (<[ch := (o, l)]> (c_chans c)) c)).
Proof.
  intros I Hk Hch. destruct (ti_sender _ I k _ Hk) as [l0 Hl0]. rewrite Hch in Hl0.
  injection Hl0 as -> <-. destruct (ti_chan _ I _ _ _ Hch) as [Hlen Hresp].
  apply tinv_sender.
  - apply tinv_pending; [done| | | |].
    + intros i c' Hi. apply (ti_pending _ I) in Hi. rewrite lookup_insert_ne; [done|congruence].
    + intros c' i l' Hl'. rewrite lookup_insert. case_decide; [|eauto]. subst c'.
      rewrite Hch in Hl'. injection Hl' as <- <-. eauto.
    + intros c' i l'. rewrite lookup_insert. case_decide; [|apply I]. intros [= <- <-].
      split; [simpl in Hlen; lia|]. intros r Hr. apply Hresp. by right.
    + pose proof (ti_deliver _ I) as D. unfold deliver_ok in *. simpl.
      destruct (c_dialer c); try done. destruct D as (o & Ho & ?). exists o.
      by rewrite lookup_insert_ne by congruence.
  - simpl. intros v. unfold response_result. destruct (rsp_disconnect resp) eqn:Ed; [done|].
    destruct (rsp_err resp) eqn:Ee; [done|]. intros [= <-]. exists resp. split_and!; try done.
    destruct (Hresp resp ltac:(by left)) as [|]; [congruence|done].
Qed.

Lemma step_sender_ok k a c :
  tinv c →
  match step_sender k a c with Next c' => tinv c' | Disabled => True | _ => False end.
Proof.
  intros I. unfold step_sender. destruct (c_senders c !! k) as [s|] eqn:Hk; destruct a; try done.
  all: try (destruct s; try done).
  all: repeat case_match; simplify_eq; try done; try by (apply tinv_sender; simpl; auto).
  all: try by apply tinv_register.
  all: try by eapply tinv_receive.
  all: try by (apply tinv_sender; [done|]; intros v [= ]).
  - apply tinv_sender; [done|]. by apply (ti_sender _ I k) in Hk.
  - apply tinv_sender; [by apply tinv_delete_pending|]. by apply (ti_sender _ I k) in Hk.
Qed.

Lemma tinv_gates d g dl c :
  tinv c → c_gates c ⊆ g → c_dialOnce c = d ∨ c_dialOnce c ∈ g →
  gate_ok (set_dialer dl (set_gates d g c)) → (∀ ch resp, dl ≠ DDelivering ch resp) →
  tinv (set_dialer dl (set_gates d g c)).
Proof.
  intros [G D P C S E] Hg Hd Hok Hdl. split; try done.
  - unfold deliver_ok. simpl. destruct dl; try done. by destruct (Hdl ch resp).
  - intros k s Hk. specialize (S k s Hk). destruct s; try done. simpl in *.
    destruct S as [H| ->]; [left; set_solver|]. destruct Hd as [->|]; auto.
Qed.

Lemma tinv_notify f c : tinv c → tinv (notify f c).
Proof.
  intros I. unfold notify. destruct (bool_decide _); [done|].
  destruct (Nat.ltb_spec (length (c_events c)) events_cap).
  - apply tinv_events; [done|]. rewrite length_app. simpl. lia.
  - apply tinv_events; [done|apply I].
Qed.

Lemma tinv_respond id f c : tinv c → c_dialer c = DReading → tinv (respond id f c).
Proof.
  intros I Hr. unfold respond. destruct (c_pending c !! id) as [ch|] eqn:Hp; [|done].
  pose proof (ti_pending _ I _ _ Hp) as Hch. set (resp := MkRpcResponse _ _ _).
  assert (∀ i ch', delete id (c_pending c) !! i = Some ch' → c_pending c !! i = Some ch' ∧ i ≠ id) as Hdel
    by (intros i ch' [? ?]%lookup_delete_Some; auto).
  destruct I as [G D P C S E]. split; simpl.
  - unfold gate_ok in *. simpl. by rewrite Hr in G.
  - unfold deliver_ok. simpl. exists id. split_and!; [done| |by left].
    intros i Hi. apply Hdel in Hi as [Hi Hne]. apply P in Hi. congruence.
  - intros i ch' Hi. apply Hdel in Hi as [Hi _]. by apply P.
  - intros c' i l Hl. destruct (C c' i l Hl) as [? H]. split; [done|]. intros r Hrr.
    destruct (H r Hrr); [by left|right; by right].
  - intros k s Hk. specialize (S k s Hk). destruct s as [| |??|??|i r|[i|] r]; try done; simpl in *;
      intros v Hv; destruct (S v Hv) as (x & ? & ?); exists x; (split; [by right|done]).
  - done.
Qed.

Lemma tinv_dispatchFrame line c : tinv c → c_dialer c = DReading → tinv (dispatchFrame line c).
Proof.
  intros I Hr. unfold dispatchFrame. destruct (trim_right line); [done|].
  destruct (Unmarshal _) as [f|]; [|done]. destruct (fr_ID f) as [id|]; [|by apply tinv_notify].
  destruct (negb _); [by apply tinv_respond|by apply tinv_notify].
Qed.

Lemma tinv_deliver ch resp m c :
  tinv c → c_dialer c = DDelivering ch resp → chan_send ch resp (c_chans c) = Some m →
  tinv (set_dialer DReading (set_pending (c_pending c) m c)).
Proof.
  intros I Hd. pose proof (ti_deliver _ I) as D. pose proof (ti_gate _ I) as G.
  unfold deliver_ok, gate_ok in D, G. rewrite Hd in D, G.
  destruct D as (o & Ho & Hn & Hf). unfold chan_send. rewrite Ho. intros [= <-].
  destruct I as [_ _ P C S E]. split; try done.
  - intros i c' Hi. simpl. rewrite lookup_insert_ne; [by apply P|]. intros ->. by eapply Hn.
  - intros c' i l. simpl. rewrite lookup_insert. case_decide; [|apply C]. intros [= <- <-].
    simpl. split; [lia|]. intros r ->%list_elem_of_singleton. by right.
  - intros k s Hk. specialize (S k s Hk). destruct s as [| |id c'|id c'| |[] ]; try done; simpl in *;
      destruct S as [l Hl]; (destruct (decide (ch = c')) as [<-|];
        [rewrite Ho in Hl; injection Hl as <- _; rewrite lookup_insert_eq; eauto
        |rewrite lookup_insert_ne by done; eauto]).
Qed.

(** The dial loop neither panics nor blocks on a response channel. *)
Lemma step_dialer_ok a c :
  tinv c → match step_dialer a c with Next c' => tinv c' | Disabled => True | _ => False end.
Proof.
  intros I. pose proof (ti_gate _ I) as G. unfold gate_ok in G.
  unfold step_dialer. destruct a; try done; destruct (c_dialer c) as [b|b|b| |ch resp| | | | | |] eqn:Hd;
    try done.
  - destruct (c_runDone c); by apply tinv_dialer.
  - rewrite bool_decide_eq_false_2 by done.
    apply (tinv_conn _ _ (set_dialer DReading
      (set_gates (c_dialOnce c) ({[c_dialOnce c]} ∪ c_gates c) c))).
    apply tinv_gates; [done|set_solver|by left| |done]. unfold gate_ok. simpl. set_solver.
  - by apply tinv_dialer.
  - destruct woke; [by apply tinv_dialer|]. destruct (c_runDone c); [by apply tinv_dialer|done].
  - by apply tinv_dispatchFrame.
  - pose proof (ti_deliver _ I) as D. unfold deliver_ok in D. rewrite Hd in D.
    destruct D as (o & Ho & _). destruct (chan_send ch resp (c_chans c)) as [m|] eqn:E.
    + by eapply tinv_deliver.
    + unfold chan_send in E. by rewrite Ho in E.
  - by apply tinv_dialer.
  - apply tinv_dialer; [apply tinv_failPending; [done|by rewrite Hd]|done|done].
  - destruct (_ || _); apply tinv_dialer; try done; by apply tinv_conn.
  - apply tinv_gates; [done|done|by right| |done].
    unfold gate_ok. simpl. exact (is_fresh (c_gates c)).
  - apply tinv_dialer; [apply tinv_failPending; [done|by rewrite Hd]|done|done].
  - destruct (bool_decide _) eqn:E; bools.
    + apply tinv_dialer; [by apply tinv_closed|done|done].
    + apply tinv_gates; [by apply tinv_closed|set_solver|by left| |done].
      unfold gate_ok. simpl. split; [set_solver|done].
Qed.

Lemma tstep_ok a c :
  tinv c → match tstep a c with Next c' => tinv c' | Disabled => True | _ => False end.
Proof.
  intros I. destruct a; cbn [tstep]; try (by apply step_sender_ok); try (by apply step_dialer_ok).
  - by apply tinv_closed.
  - destruct (c_closed c); [by apply tinv_runDone|done].
  - destruct (c_events c) as [|e l] eqn:E; [done|]. apply tinv_events; [done|].
    pose proof (ti_events _ I) as H. rewrite E in H. simpl in H. lia.
Qed.

Lemma reachable_tinv c : reachable c → tinv c.
Proof.
  induction 1 as [|a c c' _ IH Hs]; [apply tinv_new|].
  pose proof (tstep_ok a c IH) as H. by rewrite Hs in H.
Qed.
End Client.

(** ** Properties *)

(** C17: in no interleaving of Send calls, dials, reads, disconnects and shutdown
    does the client panic on a closed channel or block its reader: a gate is
    closed at most once, the channel a response is delivered to has room, and
    the events buffer never exceeds its 64 entries. *)
Theorem tcp_never_panics_or_blocks Unmarshal timestamp_of cfg a c :
  reachable Unmarshal timestamp_of cfg c →
  tstep Unmarshal timestamp_of cfg a c ≠ Panic ∧ tstep Unmarshal timestamp_of cfg a c ≠ Stuck ∧
  (length (c_events c) ≤ events_cap)%nat.
Proof.
  intros R. apply reachable_tinv in R. pose proof (tstep_ok Unmarshal timestamp_of cfg a c R) as H.
  split_and!; [by destruct (tstep _ _ _ a c)..|apply R].
Qed.

(** C18: a Send that returns success returns the result of a response frame that
    carried its own request id and no error; only the fire-and-forget mode
    reports success without one. *)
Theorem tcp_send_answered_by_own_id Unmarshal timestamp_of cfg c k id v :
  reachable Unmarshal timestamp_of cfg c →
  c_senders c !! k = Some (SDone id (Ok v)) →
  match id with
  | Some i => ∃ resp, (i, resp) ∈ c_frames c ∧ rsp_err resp = None ∧
                      v = MkSendResult (timestamp_of (rsp_result resp))
  | None => tcp_IgnoreResults cfg = true
  end.
Proof.
  intros R Hk. apply reachable_tinv in R. apply (ti_sender _ _ _ R) in Hk.
  destruct id; by eapply Hk.
Qed.

(** C19: once the dial loop has stopped, nobody waits for a connection that will
    not come: every Send still waiting finds its gate closed and can go on, the
    client is marked closed, and a Send that starts or registers from then on
    gets [ErrShutdown]. *)
Theorem tcp_shutdown_releases Unmarshal timestamp_of cfg c :
  reachable Unmarshal timestamp_of cfg c → c_dialer c = DStopped →
  (∀ k g, c_senders c !! k = Some (SWaiting g) →
     tstep Unmarshal timestamp_of cfg (TGate k) c = Next (set_sender k SReady c)) ∧
  (∀ k, c_senders c !! k = None →
     tstep Unmarshal timestamp_of cfg (TSend k) c
       = Next (set_sender k (SDone None (Err ErrShutdown)) c)) ∧
  (∀ k i, c_senders c !! k = Some SReady → tcp_IgnoreResults cfg = false →
     tstep Unmarshal timestamp_of cfg (TRegister k i) c
       = Next (set_sender k (SDone None (Err ErrShutdown)) c)).
Proof.
  intros R Hd. apply reachable_tinv in R. pose proof (ti_gate _ _ _ R) as G.
  unfold gate_ok in G. rewrite Hd in G. destruct G as [G1 G2]. split_and!.
  - intros k g Hk. cbn [tstep step_sender]. rewrite Hk. apply (ti_sender _ _ _ R) in Hk.
    rewrite bool_decide_eq_true_2; [done|]. destruct Hk as [?| ->]; done.
  - intros k Hk. cbn [tstep step_sender]. by rewrite Hk, G2.
  - intros k i Hk Hc. cbn [tstep step_sender]. by rewrite Hk, Hc, G2.
Qed.

(** A session used by the witnesses: connect, one request answered, shutdown. *)
Definition tcp_cfg : SignalCliTCP := MkSignalCliTCP "localhost" 7583 (10 * Second) false.
Definition one_frame (_ : list ascii) : option rpcFrame :=
  Some (MkRpcFrame (Some "id-1") "" "" "42" None).

Fixpoint play (acts : list taction) (c : TCPClient) : option TCPClient :=
  match acts with
  | [] => Some c
  | a :: l => match tstep one_frame (λ _, 42) tcp_cfg a c with Next c' => play l c' | _ => None end
  end.

Lemma play_reachable acts c c' :
  reachable one_frame (λ _, 42) tcp_cfg c → play acts c = Some c' →
  reachable one_frame (λ _, 42) tcp_cfg c'.
Proof.
  revert c. induction acts as [|a l IH]; intros c R; simpl; [by intros [= <-]|].
  destruct (tstep _ _ _ a c) as [c1| | |] eqn:E; try done. apply IH. by eapply reach_step.
Qed.

Definition session : list taction :=
  [TLoop; TSend 0; TDialOk; TGate 0; TRegister 0 "id-1"; TWrite 0 None;
   TLine ["{"%char]; TDeliver; TReceive 0; TDefer 0].

Definition shutdown : list taction :=
  [TSend 1; TClose; TCancel; TReadErr; TFailPending; TClear; TShutdown; TShutdown2].

Lemma tcp_never_panics_or_blocks_witness :
  ∃ c, play (take 7 session) new_client = Some c ∧
    tstep one_frame (λ _, 42) tcp_cfg TDeliver c ≠ Stuck.
Proof.
  destruct (play (take 7 session) new_client) as [c|] eqn:E; [|vm_compute in E; discriminate].
  exists c. split; [reflexivity|].
  apply (tcp_never_panics_or_blocks one_frame (λ _, 42) tcp_cfg TDeliver c).
  by eapply play_reachable; [apply reach_new|].
Defined.

Lemma tcp_send_answered_by_own_id_witness :
  ∃ c, play session new_client = Some c ∧
    ∃ resp, ("id-1", resp) ∈ c_frames c ∧ rsp_err resp = None ∧ MkSendResult 42 = MkSendResult 42.
Proof.
  destruct (play session new_client) as [c|] eqn:E; [|vm_compute in E; discriminate].
  exists c. split; [reflexivity|].
  apply (tcp_send_answered_by_own_id one_frame (λ _, 42) tcp_cfg c 0 (Some "id-1") (MkSendResult 42));
    [by eapply play_reachable; [apply reach_new|]|].
  assert ((c_senders <$> play session new_client) ≫= (lookup 0%nat)
    = Some (SDone (Some "id-1") (Ok (MkSendResult 42)))) as H by (vm_compute; reflexivity).
  by rewrite E in H.
Defined.

Lemma tcp_shutdown_releases_witness :
  ∃ c, play (session ++ shutdown) new_client = Some c ∧
    tstep one_frame (λ _, 42) tcp_cfg (TGate 1) c = Next (set_sender 1 SReady c).
Proof.
  destruct (play (session ++ shutdown) new_client) as [c|] eqn:E; [|vm_compute in E; discriminate].
  exists c. split; [reflexivity|].
  assert (c_dialer <$> play (session ++ shutdown) new_client = Some DStopped) as H
    by (vm_compute; reflexivity).
  assert ((c_senders <$> play (session ++ shutdown) new_client) ≫= (lookup 1%nat)
    = Some (SWaiting 0)) as H1 by (vm_compute; reflexivity).
  rewrite E in H, H1. injection H as H.
  apply (tcp_shutdown_releases one_frame (λ _, 42) tcp_cfg c) with (g := 0%nat);
    [by eapply play_reachable; [apply reach_new|]|exact H|exact H1].
Defined.
