(* ===== verification/HttpClient.v ===== *)
(** [internal/signal/http_client.go]: the synchronous JSON-RPC proxy used for the
    group listing, with its retry loop. *)

From S2P Require Import Prelude Errors Config Prog.

(** ** Data *)

Record jsonRPCError := MkJsonRPCError { je_Code : Z; je_Message : string }.
Record groupMember := MkGroupMember { gm_Number : option string; gm_UUID : string }.
Record listedGroup := MkListedGroup {
  lg_ID : string;
  lg_Name : string;
  lg_Description : string;
  lg_Members : list groupMember;
}.
Record listGroupsResponse := MkListGroupsResponse {
  lr_Result : list listedGroup;
  lr_Error : option jsonRPCError;
}.

(** [signalapi.SignalGroupInfo]. *)
Record SignalGroupInfo := MkSignalGroupInfo {
  sg_Id : string;
  sg_Name : string;
  sg_Description : option string;
  sg_Members : option (list string);
}.

(** One HTTP exchange: a transport error, or a status with a body that could be
    read in full or not. *)
Record httpResponse := MkHttpResponse { hr_Status : Z; hr_Body : res string }.

Inductive HttpE : Type → Type :=
| Do_ : HttpE (res httpResponse)                 (* c.http.Do *)
| AfterOrDone (d : duration) : HttpE bool        (* true: time.After(d), false: ctx.Done() *)
| HttpCtxErr : HttpE error.                      (* ctx.Err() *)

(** ** Mapping *)

Definition member_name (m : groupMember) : option string :=
  match gm_Number m with
  | Some n => if bool_decide (n = "") then
                if bool_decide (gm_UUID m = "") then None else Some (gm_UUID m)
              else Some n
  | None => if bool_decide (gm_UUID m = "") then None else Some (gm_UUID m)
  end.

Definition mapListedGroup (g : listedGroup) : SignalGroupInfo :=
  MkSignalGroupInfo (lg_ID g) (lg_Name g)
    (if bool_decide (lg_Description g = "") then None else Some (lg_Description g))
    (match lg_Members g with [] => None | l => Some (omap member_name l) end).

(** ** Calls *)

Section HttpClient.
Variable decode : string → option listGroupsResponse.     (* json.Unmarshal *)
Variable cfg : SignalCliHTTP.

Definition unavailable (cause : error) : error :=
  Conjure (SignalCliUnavailable (http_Host cfg) (http_Port cfg)) cause.

Definition do_ : prog HttpE (res httpResponse) :=
  r ← call Do_;
  mret (match r with Err e => Err (Wrap e "signal-cli http call") | Ok x => Ok x end).

(** What one exchange means: final answer, or an error worth a retry. *)
Definition verdict (r : res httpResponse) : res listGroupsResponse + error :=
  match r with
  | Err e => inr e
  | Ok resp =>
      match hr_Body resp with
      | Ok body =>
          if hr_Status resp <? 500 then
            if 400 <=? hr_Status resp then inl (Err (ErrMsg "signal-cli http error"))
            else match decode body with
                 | None => inl (Err (Wrap (ErrMsg "json") "decode jsonrpc response"))
                 | Some x => inl (Ok x)
                 end
          else inr (ErrMsg "signal-cli 5xx")
      | Err _ => inr (ErrMsg "signal-cli 5xx")
      end
  end.

(** The next delay: doubled, at most 5 s. *)
Definition next_delay (b : duration) : duration :=
  let b' := int64 (b * 2) in if 5 * Second <? b' then 5 * Second else b'.

(** The loop of [callWithRetry] with [left] retries left. *)
Fixpoint retry_loop (left : nat) (backoff : duration) : prog HttpE (res listGroupsResponse) :=
  r ← do_;
  match verdict r with
  | inl answer => mret answer
  | inr lastErr =>
      match left with
      | O => mret (Err (unavailable (Wrap lastErr "signal-cli http unreachable")))
      | S n =>
          woke ← call (AfterOrDone backoff);
          if (woke : bool) then retry_loop n (next_delay backoff)
          else e ← call HttpCtxErr;
               mret (Err (unavailable (Wrap e "signal-cli http ctx")))
      end
  end.

Definition maxRetries : Z := if http_MaxRetries cfg <=? 0 then 3 else http_MaxRetries cfg.

Definition callWithRetry : prog HttpE (res listGroupsResponse) :=
  retry_loop (Z.to_nat maxRetries) (200 * Millisecond).

Definition ListGroups : prog HttpE (res (list SignalGroupInfo)) :=
  r ← callWithRetry;
  mret (match r with
        | Err e => Err e
        | Ok resp =>
            match lr_Error resp with
            | Some _ => Err (ErrMsg "signal-cli listGroups error")
            | None => Ok (mapListedGroup <$> lr_Result resp)
            end
        end).

(** ** Facts *)

(** The exchanges and the delays of a run. *)
Definition exchange_of (ev : event HttpE) : option (res httpResponse) :=
  match ev with
  | @Ev _ X e x => match e in HttpE X return X → option (res httpResponse) with
                   | Do_ => λ r, Some r
                   | _ => λ _, None
                   end x
  end.

Definition delay_of (ev : event HttpE) : option duration :=
  match ev with
  | @Ev _ X e x => match e with AfterOrDone d => Some d | _ => None end
  end.

Definition exchanges (tr : list (event HttpE)) := omap exchange_of tr.
Definition delays (tr : list (event HttpE)) := omap delay_of tr.
Definition any_answer (X : Type) (e : HttpE X) (x : X) : Prop := True.

(** The verdict on a raw exchange. *)
Definition raw_verdict (r : res httpResponse) : res listGroupsResponse + error :=
  verdict (match r with Err e => Err (Wrap e "signal-cli http call") | Ok x => Ok x end).

Definition retryable (r : res httpResponse) : Prop := ∃ e, raw_verdict r = inr e.

(** [n] delays that start at [b]. *)
Fixpoint delay_seq (n : nat) (b : duration) : list duration :=
  match n with O => [] | S m => b :: delay_seq m (next_delay b) end.

(** How the loop ends: some retryable exchanges, then an answer, or the retries are
    used up, or the context ends during a delay. *)
Definition loop_shape (left : nat) (b : duration) (tr : list (event HttpE))
    (a : res listGroupsResponse) : Prop :=
  ∃ fails, Forall retryable fails ∧
    ((∃ last, exchanges tr = fails ++ [last] ∧ raw_verdict last = inl a ∧
        (length fails ≤ left)%nat ∧ delays tr = delay_seq (length fails) b) ∨
     (exchanges tr = fails ∧ length fails = S left ∧ delays tr = delay_seq left b ∧
        ∃ e, a = Err (unavailable (Wrap e "signal-cli http unreachable"))) ∨
     (exchanges tr = fails ∧ fails ≠ [] ∧ (length fails ≤ left)%nat ∧
        delays tr = delay_seq (length fails) b ∧
        ∃ e, a = Err (unavailable (Wrap e "signal-cli http ctx")))).

Lemma retry_loop_shape left b tr a :
  runs any_answer (retry_loop left b) tr a → loop_shape left b tr a.
Proof.
  revert b tr. induction left as [|left IH]; intros b tr H; cbn [retry_loop] in H;
    apply runs_bind in H as (t1 & r & t2 & -> & H1 & H2);
    apply runs_bind in H1 as (t1a & x & t1b & -> & [-> _]%runs_call & [-> ->]%runs_ret).
  - change (verdict _) with (raw_verdict x) in H2. destruct (raw_verdict x) as [ans|e] eqn:V;
      apply runs_ret in H2 as [-> ->].
    + exists []. split; [constructor|]. left. exists x. by split_and!.
    + exists [x]. split; [by repeat econstructor|]. right; left. split_and!; try done. by eexists.
  - change (verdict _) with (raw_verdict x) in H2. destruct (raw_verdict x) as [ans|e] eqn:V.
    + apply runs_ret in H2 as [-> ->]. exists []. split; [constructor|]. left. exists x.
      split_and!; try done. simpl. lia.
    + apply runs_bind in H2 as (t3 & woke & t4 & -> & [-> _]%runs_call & H2). destruct woke.
      * apply IH in H2 as (fails & HF & S). exists (x :: fails).
        split; [constructor; [by exists e|done]|].
        unfold exchanges, delays in *. csimpl.
        destruct S as [(last & -> & ? & ? & ->)|[(-> & ? & -> & ?)|(-> & ? & ? & -> & ?)]];
          [left; exists last|right; left|right; right]; split_and!; simpl; try done; lia.
      * apply runs_bind in H2 as (t5 & ce & t6 & -> & [-> _]%runs_call & [-> ->]%runs_ret).
        exists [x]. split; [by repeat econstructor|]. right; right.
        split_and!; try done; [simpl; lia|by eexists].
Qed.

Lemma iter_next_delay i :
  Nat.iter i next_delay (200 * Millisecond) = Z.min (200 * 2 ^ Z.of_nat i * Millisecond) (5 * Second).
Proof.
  destruct (decide (i ≤ 4)%nat) as [H|H].
  { do 5 (destruct i as [|i]; [vm_compute; reflexivity|]). lia. }
  assert (i = (i - 5) + 5)%nat as -> by lia. set (k := (i - 5)%nat).
  rewrite Nat.iter_add. change (Nat.iter 5 next_delay (200 * Millisecond)) with (5 * Second).
  trans (5 * Second).
  - clear H. induction k as [|k IH]; [done|]. rewrite Nat.iter_succ, IH. reflexivity.
  - symmetry. apply Z.min_r. rewrite Nat2Z.inj_add, Z.pow_add_r by lia.
    pose proof (Z.pow_pos_nonneg 2 (Z.of_nat k)). unfold Second, Millisecond, Microsecond. lia.
Qed.

Lemma delay_seq_lookup n b i d : delay_seq n b !! i = Some d → d = Nat.iter i next_delay b.
Proof.
  revert b i. induction n as [|n IH]; intros b [|i]; simpl; try done.
  - by intros [= <-].
  - intros H. apply IH in H as ->. clear IH. induction i as [|i IH]; simpl; [done|].
    by rewrite <- IH.
Qed.

(** ** What a call is meant to do *)

(** An exchange that is tried again: no response, a server error, or a body that
    could not be read in full. *)
Definition worth_retry (r : res httpResponse) : Prop :=
  match r with
  | Err _ => True
  | Ok resp => 500 ≤ hr_Status resp ∨ ∃ e, hr_Body resp = Err e
  end.

(** An exchange that settles the call, and how: a complete response below 500,
    an error when it is a 4xx or its body does not decode. *)
Definition settles (r : res httpResponse) (a : res listGroupsResponse) : Prop :=
  ∃ code body, r = Ok (MkHttpResponse code (Ok body)) ∧ code < 500 ∧
    ((400 ≤ code ∧ ∃ e, a = Err e) ∨
     (code < 400 ∧ decode body = None ∧ ∃ e, a = Err e) ∨
     (code < 400 ∧ ∃ x, decode body = Some x ∧ a = Ok x)).

(** The error for a daemon that does not answer. *)
Definition reports_unavailable (a : res listGroupsResponse) : Prop :=
  ∃ cause, a = Err (Conjure (SignalCliUnavailable (http_Host cfg) (http_Port cfg)) cause).

(** A call of at most [S n] requests, with a pause after every failed one but
    the last of all. *)
Definition call_shape (n : nat) (tr : list (event HttpE)) (a : res listGroupsResponse) : Prop :=
  ∃ fails, Forall worth_retry fails ∧
    ((∃ last, exchanges tr = fails ++ [last] ∧ settles last a ∧
        (length fails ≤ n)%nat ∧ length (delays tr) = length fails) ∨
     (exchanges tr = fails ∧ length fails = S n ∧ length (delays tr) = n ∧
        reports_unavailable a) ∨
     (exchanges tr = fails ∧ (0 < length fails ≤ n)%nat ∧ length (delays tr) = length fails ∧
        reports_unavailable a)).

Lemma retryable_worth r : retryable r → worth_retry r.
Proof.
  intros [e He]. destruct r as [[code body]|e']; [|done]. revert He.
  unfold raw_verdict, verdict, worth_retry. simpl. destruct body as [b|eb]; [|by eauto].
  destruct (Z.ltb_spec code 500); [|by auto]. destruct (400 <=? code); [done|].
  by destruct (decode b).
Qed.

Lemma final_settles r a : raw_verdict r = inl a → settles r a.
Proof.
  destruct r as [[code [b|eb]]|e]; [|done..]. unfold raw_verdict, verdict. simpl.
  destruct (Z.ltb_spec code 500); [|done]. intros V. exists code, b. split; [done|]. split; [done|].
  revert V. destruct (Z.leb_spec 400 code); [intros [= <-]; left; eauto|].
  destruct (decode b) as [x|] eqn:E; intros [= <-]; right; [right|left]; eauto.
Qed.

Lemma delay_seq_length n b : length (delay_seq n b) = n.
Proof. revert b. induction n; simpl; auto. Qed.

Lemma loop_call_shape left b tr a : loop_shape left b tr a → call_shape left tr a.
Proof.
  intros (fails & HF & S). exists fails. split.
  { eapply Forall_impl; [exact HF|]. apply retryable_worth. }
  destruct S as [(last & E & V & L & ->)|[(E & L & -> & e & ->)|(E & N & L & -> & e & ->)]];
    rewrite delay_seq_length.
  - left. exists last. split_and!; [done|by apply final_settles|done|done].
  - right; left. split_and!; [done..|by eexists].
  - right; right. split_and!; [done| |done|done|by eexists]. destruct fails; [done|simpl; lia].
Qed.
End HttpClient.

(** ** Properties *)

(** C27: a group listing makes at most [n + 1] requests, where [n] is the
    configured number of retries, or 3 when none is configured; they are 200 ms,
    400 ms, 800 ms, ... and at most 5 s apart.  Every request before the last
    one met a transport error, a status of 500 or more, or a body that could not
    be read; a complete response below 500 is final, as the decoded answer or,
    when it is a 4xx or does not decode, as an error without a retry; and
    [SignalCliUnavailable] is reported when the retries are used up or the
    context ended while waiting. *)
Theorem callWithRetry_bounded decode cfg tr a :
  runs any_answer (callWithRetry decode cfg) tr a →
  let n := Z.to_nat (if decide (http_MaxRetries cfg ≤ 0) then 3 else http_MaxRetries cfg) in
  call_shape decode cfg n tr a ∧
  (length (exchanges tr) ≤ S n)%nat ∧
  ∀ i d, delays tr !! i = Some d → d = Z.min (200 * 2 ^ Z.of_nat i * Millisecond) (5 * Second).
Proof.
  intros H n. apply retry_loop_shape in H as S.
  assert (Z.to_nat (maxRetries cfg) = n) as E.
  { unfold n, maxRetries. case_decide; destruct (Z.leb_spec (http_MaxRetries cfg) 0); done || lia. }
  rewrite E in S. split; [by eapply loop_call_shape|].
  destruct S as (fails & _ & [(last & -> & _ & ? & ->)|[(-> & ? & -> & _)|(-> & _ & ? & -> & _)]]);
    (split; [rewrite ?length_app; simpl; lia|]);
    intros i d ->%delay_seq_lookup; apply iter_next_delay.
Qed.

Definition http_cfg : SignalCliHTTP := MkSignalCliHTTP "localhost" 8080 (10 * Second) 1.

Definition flaky_run : list (event HttpE) :=
  [Ev Do_ (Ok (MkHttpResponse 503 (Ok ""))); Ev (AfterOrDone (200 * Millisecond)) true;
   Ev Do_ (Ok (MkHttpResponse 200 (Ok "{}")))].

Lemma callWithRetry_bounded_witness :
  let decode := λ _ : string, Some (MkListGroupsResponse [] None) in
  call_shape decode http_cfg 1 flaky_run (Ok (MkListGroupsResponse [] None)) ∧
  (length (exchanges flaky_run) ≤ 2)%nat ∧
  ∀ i d, delays flaky_run !! i = Some d →
    d = Z.min (200 * 2 ^ Z.of_nat i * Millisecond) (5 * Second).
Proof.
  intros decode. apply (callWithRetry_bounded decode http_cfg flaky_run).
  repeat (hnf; eexists _, _; split; [reflexivity|split; [exact I|]]). by split.
Defined.
