(* ===== verification/Inbound.v ===== *)
(** [internal/service/inbound_listener.go], [internal/repo/inbound.go] and the
    [InsertInbound] statement: capturing asynchronous signal-cli events. *)

From S2P Require Import Prelude Errors Domain Config Prog Worker TcpClient.

(** ** The table [signalium.inbound_signal_messages]

    Its columns [attachments] and [raw] are JSONB; [in_attachments] and [in_raw]
    are the texts a reader of the column gets. *)

Record inbound_row := MkInboundRow {
  in_id : uuid;
  in_source : string;
  in_source_uuid : option string;
  in_source_timestamp : Z;
  in_group_id : option string;
  in_content : option string;
  in_attachments : string;
  in_raw : string;
  in_received_at : time;
}.

Record InsertInboundParams := MkInsertInboundParams {
  ii_Source : string;
  ii_SourceUuid : option string;
  ii_SourceTimestamp : Z;
  ii_GroupID : option string;
  ii_Content : option string;
  ii_Attachments : string;
  ii_Raw : string;
}.

Definition key_of (r : inbound_row) : string * Z := (in_source r, in_source_timestamp r).

Section Inbound.

(** What Postgres accepts as values of these columns (texts without NUL, JSONB
    without \u0000), and the text that a JSONB column returns for the text it was
    given. *)
Variable storable : InsertInboundParams → bool.
Variable jsonb : string → string.

(** [INSERT ... ON CONFLICT (source, source_timestamp) DO NOTHING]: the number of
    rows inserted. *)
Definition InsertInbound (gen_random_uuid : uuid) (now : time) (arg : InsertInboundParams)
    (t : list inbound_row) : res Z * list inbound_row :=
  if negb (storable arg) then (Err (ErrPg InvalidTextRepresentation), t)
  else if existsb (λ r, bool_decide (key_of r = (ii_Source arg, ii_SourceTimestamp arg))) t
  then (Ok 0, t)
  else if existsb (λ r, bool_decide (in_id r = gen_random_uuid)) t
  then (Err (ErrPg (UniqueViolation "inbound_signal_messages_pkey")), t)
  else (Ok 1, t ++ [MkInboundRow gen_random_uuid (ii_Source arg) (ii_SourceUuid arg)
                      (ii_SourceTimestamp arg) (ii_GroupID arg) (ii_Content arg)
                      (jsonb (ii_Attachments arg)) (jsonb (ii_Raw arg)) now]).

(** [( *Inbound).Insert]. *)
Definition inbound_Insert (gen_random_uuid : uuid) (now : time) (p : InsertInboundParams)
    (t : list inbound_row) : res bool * list inbound_row :=
  let '(r, t') := InsertInbound gen_random_uuid now p t in
  (match r with
   | Err e => Err (Wrap e "insert inbound message")
   | Ok rows => Ok (0 <? rows)
   end, t').

(** ** Envelopes *)

Record envAttachment := MkEnvAttachment {
  ea_ID : string;
  ea_ContentType : string;
  ea_Size : Z;
  ea_Filename : string;
}.

Record envGroupInfo := MkEnvGroupInfo { gi_GroupID : string }.

(** [envData] and [envSyncSent] have the same fields. *)
Record envData := MkEnvData {
  ed_Message : option string;
  ed_Attachments : list envAttachment;
  ed_GroupInfo : option envGroupInfo;
}.

Record inboundEnvelope := MkInboundEnvelope {
  ie_Source : string;
  ie_SourceUUID : option string;
  ie_Timestamp : Z;
  ie_Data : option envData;
  ie_Edit : option (option envData);          (* editMessage.dataMessage *)
  ie_Receipt : option unit;
  ie_Sync : option (option envData);          (* syncMessage.sentMessage *)
  ie_Typing : option unit;
  ie_Call : option unit;
}.

Definition nonempty_str (s : string) : option string :=
  if bool_decide (s = "") then None else Some s.

(** A [case] of the switches below: the field of one variant, when it is there
    and not empty. *)
Definition group_in (d : option envData) : option string :=
  match d with
  | Some x => match ed_GroupInfo x with Some g => nonempty_str (gi_GroupID g) | None => None end
  | None => None
  end.

Definition message_in (d : option envData) : option string :=
  match d with
  | Some x => match ed_Message x with Some m => nonempty_str m | None => None end
  | None => None
  end.

Definition attachments_in (d : option envData) : list envAttachment :=
  match d with Some x => ed_Attachments x | None => [] end.

Definition inner (d : option (option envData)) : option envData :=
  match d with Some x => x | None => None end.

Definition groupIDOf (env : inboundEnvelope) : option string :=
  match group_in (ie_Data env) with
  | Some v => Some v
  | None => match group_in (inner (ie_Edit env)) with
            | Some v => Some v
            | None => group_in (inner (ie_Sync env))
            end
  end.

Definition contentOf (env : inboundEnvelope) : option string :=
  match message_in (ie_Data env) with
  | Some v => Some v
  | None => match message_in (inner (ie_Edit env)) with
            | Some v => Some v
            | None => message_in (inner (ie_Sync env))
            end
  end.

Definition attachmentsOf (env : inboundEnvelope) : list envAttachment :=
  match attachments_in (ie_Data env) with
  | [] => match attachments_in (inner (ie_Edit env)) with
          | [] => attachments_in (inner (ie_Sync env))
          | l => l
          end
  | l => l
  end.

Definition present {A} (o : option A) : bool := match o with Some _ => true | None => false end.

Definition filtered (ignore : InboundIgnoreConfig) (env : inboundEnvelope) : bool :=
  if ig_Typing ignore && present (ie_Typing env) then true
  else if ig_Receipt ignore && present (ie_Receipt env) then true
  else if ig_SyncMessage ignore && present (ie_Sync env) then true
  else if ig_CallMessage ignore && present (ie_Call env) then true
  else false.

(** ** The listener *)

Inductive InboundE : Type → Type :=
| NextEvent : InboundE (option Event)        (* None: ctx.Done() or a closed channel *)
| InsertInbound_ (p : InsertInboundParams) : InboundE (res bool)
| InboundLog (msg : string) : InboundE unit.

(** JSON: the raw [envelope] member of the params, the typed envelope, and the
    marshalled attachments. *)
Variable unmarshal_wrapper : string → option string.
Variable unmarshal_envelope : string → option inboundEnvelope.
Variable marshal_attachments : list envAttachment → string.
Variable ignore : InboundIgnoreConfig.

Definition parseEnvelope (params : string) : option (inboundEnvelope * string) :=
  match unmarshal_wrapper params with
  | None => None
  | Some raw =>
      if bool_decide (raw = "") then None
      else match unmarshal_envelope raw with
           | None => None
           | Some env => Some (env, raw)
           end
  end.

Definition handle (ev : Event) : prog InboundE unit :=
  if negb (bool_decide (ev_Method ev = "receive")) then mret tt
  else
    match parseEnvelope (ev_Params ev) with
    | None => call (InboundLog "inbound: malformed envelope, dropping")
    | Some (env, raw) =>
        if filtered ignore env then mret tt
        else if bool_decide (ie_Source env = "") || (ie_Timestamp env =? 0) then
          call (InboundLog "inbound: envelope missing source/timestamp, dropping")
        else
          r ← call (InsertInbound_ (MkInsertInboundParams (ie_Source env) (ie_SourceUUID env)
                 (ie_Timestamp env) (groupIDOf env) (contentOf env)
                 (marshal_attachments (attachmentsOf env)) raw));
          match r with
          | Err _ => call (InboundLog "inbound: insert failed")
          | Ok inserted =>
              if (inserted : bool) then call (InboundLog "inbound: persisted")
              else call (InboundLog "inbound: duplicate redelivery skipped")
          end
    end.

(** [run], for at most [fuel] events: true when the loop returned. *)
Fixpoint listener_run (fuel : nat) : prog InboundE bool :=
  match fuel with
  | O => mret false
  | S f =>
      ev ← call NextEvent;
      match ev with
      | None => mret true
      | Some e => _ ← handle e; listener_run f
      end
  end.

(** [Start]: the goroutine it launches, if listening is enabled. *)
Definition listener_Start (enabled : bool) (fuel : nat)
    : prog InboundE (option (prog InboundE bool)) :=
  if enabled then mret (Some (listener_run fuel))
  else _ ← call (InboundLog "inbound listener disabled (signalCli.enableListening=false)");
       mret None.

(** ** The listener over its table *)

Record inbound_state := MkInboundState {
  is_table : list inbound_row;
  is_events : list Event;
  is_now : time;
  is_ids : list uuid;
}.

Definition inbound_do (X : Type) (e : InboundE X) : inbound_state → X * inbound_state :=
  match e in InboundE X return inbound_state → X * inbound_state with
  | NextEvent => λ s,
      match is_events s with
      | [] => (None, s)
      | ev :: l => (Some ev, MkInboundState (is_table s) l (is_now s) (is_ids s))
      end
  | InsertInbound_ p => λ s,
      let '(r, t') := inbound_Insert (default uuid_Nil (head (is_ids s))) (is_now s) p (is_table s) in
      (r, MkInboundState t' (is_events s) (is_now s) (tail (is_ids s)))
  | InboundLog _ => λ s, (tt, s)
  end.

(** The insert that an event leads to, if any. *)
Definition wanted (ev : Event) : option InsertInboundParams :=
  if negb (bool_decide (ev_Method ev = "receive")) then None
  else match parseEnvelope (ev_Params ev) with
       | None => None
       | Some (env, raw) =>
           if filtered ignore env || (bool_decide (ie_Source env = "") || (ie_Timestamp env =? 0))
           then None
           else Some (MkInsertInboundParams (ie_Source env) (ie_SourceUUID env)
                        (ie_Timestamp env) (groupIDOf env) (contentOf env)
                        (marshal_attachments (attachmentsOf env)) raw)
       end.

Definition key_of_params (p : InsertInboundParams) : string * Z :=
  (ii_Source p, ii_SourceTimestamp p).

Definition same_key (p : InsertInboundParams) (r : inbound_row) : Prop :=
  key_of r = key_of_params p.

Lemma handle_table ev s :
  is_table (interp inbound_do (handle ev) s).2 =
  match wanted ev with
  | Some p => (inbound_Insert (default uuid_Nil (head (is_ids s))) (is_now s) p (is_table s)).2
  | None => is_table s
  end.
Proof.
  unfold handle, wanted. destruct (negb _); [done|].
  destruct (parseEnvelope _) as [[env raw]|]; [|done].
  destruct (filtered ignore env); [done|]. cbn [orb]. destruct (_ || _); [done|].
  rewrite interp_bind. cbn [call interp inbound_do].
  destruct (inbound_Insert _ _ _ _) as [[[]|e] t']; done.
Qed.

Lemma InsertInbound_known u now p t r :
  r ∈ t → same_key p r → (inbound_Insert u now p t).2 = t.
Proof.
  intros Hin Hk. unfold inbound_Insert, InsertInbound. destruct (storable p); simpl; [|done].
  assert (existsb (λ r, bool_decide (key_of r = (ii_Source p, ii_SourceTimestamp p))) t = true) as ->;
    [|done].
  apply existsb_exists. exists r. split; [by apply list_elem_of_In|]. by apply bool_decide_eq_true.
Qed.

(** Every insert keeps the rows there are and the keys unique. *)
Lemma inbound_Insert_grows u now p t :
  NoDup (key_of <$> t) →
  let t' := (inbound_Insert u now p t).2 in
  NoDup (key_of <$> t') ∧
  (t' = t ∨ ∃ r, t' = t ++ [r] ∧ same_key p r).
Proof.
  intros W. unfold inbound_Insert, InsertInbound. destruct (storable p); simpl; [|by auto].
  destruct (existsb _ t) eqn:E; simpl; [by auto|].
  destruct (existsb (λ r, bool_decide (in_id r = u)) t); simpl; [by auto|]. split.
  - rewrite fmap_app. apply NoDup_app. split_and!; [done| |apply NoDup_singleton].
    intros k Hk ->%list_elem_of_singleton. apply list_elem_of_fmap in Hk as (r & Hr & Hin).
    assert (existsb (λ r, bool_decide (key_of r = (ii_Source p, ii_SourceTimestamp p))) t = true);
      [|congruence].
    apply existsb_exists. exists r. split; [by apply list_elem_of_In|].
    apply bool_decide_eq_true. by rewrite <- Hr.
  - right. eexists. split; [done|]. done.
Qed.

(** Handling a list of events, one after the other. *)
Definition handle_all (evs : list Event) (s : inbound_state) : inbound_state :=
  foldl (λ s ev, (interp inbound_do (handle ev) s).2) s evs.

Lemma handle_keeps ev s :
  NoDup (key_of <$> is_table s) →
  NoDup (key_of <$> is_table (interp inbound_do (handle ev) s).2) ∧
  is_table s ⊆ is_table (interp inbound_do (handle ev) s).2.
Proof.
  intros W. rewrite handle_table. destruct (wanted ev) as [p|]; [|done].
  destruct (inbound_Insert_grows (default uuid_Nil (head (is_ids s))) (is_now s) p _ W)
    as [W' [E|(r & E & _)]]; rewrite E in *; [done|]. split; [done|set_solver].
Qed.

Lemma handle_all_keeps evs s :
  NoDup (key_of <$> is_table s) →
  NoDup (key_of <$> is_table (handle_all evs s)) ∧ is_table s ⊆ is_table (handle_all evs s).
Proof.
  revert s. induction evs as [|ev evs IH]; intros s W; [done|].
  destruct (handle_keeps ev s W) as [W1 H1]. destruct (IH _ W1) as [W2 H2].
  split; [done|]. etrans; [exact H1|exact H2].
Qed.

Lemma handle_known ev p s r :
  wanted ev = Some p → r ∈ is_table s → same_key p r →
  is_table (interp inbound_do (handle ev) s).2 = is_table s.
Proof. intros Hw Hin Hk. rewrite handle_table, Hw. by eapply InsertInbound_known. Qed.

Lemma handle_stores ev p s :
  wanted ev = Some p → storable p = true →
  (∀ r, r ∈ is_table s → in_id r ≠ default uuid_Nil (head (is_ids s))) →
  ∃ r, r ∈ is_table (interp inbound_do (handle ev) s).2 ∧ same_key p r.
Proof.
  intros Hw Hs Hf. rewrite handle_table, Hw. unfold inbound_Insert, InsertInbound.
  rewrite Hs. simpl. destruct (existsb _ _) eqn:E; simpl.
  - apply existsb_exists in E as (r & Hin & Hr). apply bool_decide_eq_true in Hr.
    exists r. split; [by apply list_elem_of_In|done].
  - destruct (existsb (λ r, bool_decide (in_id r = _)) _) eqn:E2; simpl.
    + apply existsb_exists in E2 as (r & Hin & Hr). apply bool_decide_eq_true in Hr.
      by apply list_elem_of_In, Hf in Hin.
    + eexists. split; [apply elem_of_app; right; by left|done].
Qed.

End Inbound.

(** ** Properties *)

(** C26: signal-cli may deliver an event again after a reconnect, any number of
    events later: once the envelope is stored, handling it again changes
    nothing, no two rows share source and timestamp, and no stored row is ever
    lost. *)
Theorem redelivery_is_noop storable jsonb uw ue ma ignore ev p evs s :
  NoDup (key_of <$> is_table s) →
  wanted uw ue ma ignore ev = Some p → storable p = true →
  (∀ r, r ∈ is_table s → in_id r ≠ default uuid_Nil (head (is_ids s))) →
  let once := is_table (handle_all storable jsonb uw ue ma ignore (ev :: evs) s) in
  is_table (handle_all storable jsonb uw ue ma ignore (ev :: evs ++ [ev]) s) = once ∧
  NoDup (key_of <$> once) ∧ is_table s ⊆ once ∧ ∃ r, r ∈ once ∧ same_key p r.
Proof.
  intros W Hw Hs Hf once.
  destruct (handle_all_keeps storable jsonb uw ue ma ignore (ev :: evs) s W) as [W' Hsub].
  assert (∃ r, r ∈ once ∧ same_key p r) as (r & Hin & Hk).
  { destruct (handle_stores storable jsonb uw ue ma ignore ev p s Hw Hs Hf) as (r & Hin & Hk).
    exists r. split; [|done]. destruct (handle_keeps storable jsonb uw ue ma ignore ev s W) as [W1 _].
    by apply (handle_all_keeps storable jsonb uw ue ma ignore evs _ W1). }
  split_and!; [|done|done|by exists r].
  unfold handle_all. rewrite app_comm_cons, foldl_app. cbn [foldl].
  by eapply handle_known.
Qed.

(** One envelope, in a tiny decoding. *)
Definition demo_envelope : inboundEnvelope :=
  MkInboundEnvelope "+380111111111" None 1700000001 (Some (MkEnvData (Some "hi") [] None))
    None None None None None.
Definition demo_event : Event := MkEvent "receive" "p".
Definition demo_state : inbound_state := MkInboundState [] [] 100 [1%N; 2%N; 3%N].
Definition demo_ignore : InboundIgnoreConfig := MkInboundIgnoreConfig true true true true.

Lemma redelivery_is_noop_witness :
  is_table (handle_all (λ _, true) (λ s, s) (λ _, Some "raw") (λ _, Some demo_envelope) (λ _, "[]")
    demo_ignore [demo_event; demo_event] demo_state)
  = is_table (handle_all (λ _, true) (λ s, s) (λ _, Some "raw") (λ _, Some demo_envelope) (λ _, "[]")
    demo_ignore [demo_event] demo_state).
Proof.
  apply (redelivery_is_noop (λ _, true) (λ s, s) (λ _, Some "raw") (λ _, Some demo_envelope) (λ _, "[]")
    demo_ignore demo_event
    (MkInsertInboundParams "+380111111111" None 1700000001 None (Some "hi") "[]" "raw") [] demo_state);
    [constructor|vm_compute; reflexivity|reflexivity|].
  intros r Hr. by apply not_elem_of_nil in Hr.
Defined.
