(* ===== verification/Wire.v ===== *)
(** The JSON-RPC dialect spoken with signal-cli: the frames that
    [internal/signal/tcp_client.go] writes and reads, the responses of
    [internal/signal/http_client.go], the envelopes of
    [internal/service/inbound_listener.go], and the in-process peer of
    [internal/signal/testfake/daemon.go]. *)

From Stdlib Require Import Ascii.
From S2P Require Import Prelude Errors Config GoText Json JsonFacts JsonStructs MessageBuilder Worker TcpClient HttpClient Inbound.

Definition newline : string := String "010" "".

(** ** Requests *)

(** [json.Marshal] of [SendParams]. *)
Definition SendParams_json (p : SendParams) : json :=
  JObj ([("account", JStr (sp_Account p)); ("message", JStr (sp_Message p))]
        ++ omit (is_nil (sp_Attachments p)) "attachments" (strings_json (sp_Attachments p))
        ++ omit (is_nil (sp_Recipient p)) "recipient" (strings_json (sp_Recipient p))
        ++ omit (is_nil (sp_GroupID p)) "groupId" (strings_json (sp_GroupID p))
        ++ omit (sp_QuoteTimestamp p =? 0) "quoteTimestamp" (JInt (sp_QuoteTimestamp p))
        ++ omit (bool_decide (sp_QuoteAuthor p = "")) "quoteAuthor" (JStr (sp_QuoteAuthor p))).

(** [rpcRequest]; a request of [fireAndForget] has no id. *)
Definition rpcRequest_json (params : json) (id : string) : json :=
  JObj ([("jsonrpc", JStr "2.0"); ("method", JStr "send"); ("params", params)]
        ++ omit (bool_decide (id = "")) "id" (JStr id)).

(** The bytes of [writeFrame]. *)
Definition request_frame (p : SendParams) (id : string) : string :=
  Marshal (rpcRequest_json (SendParams_json p) id) +:+ newline.

(** The request of [ListGroups]: the keys of a struct, and of a map, which are
    sorted. *)
Definition listGroups_request (account id : string) : string :=
  Marshal (JObj [("jsonrpc", JStr "2.0"); ("method", JStr "listGroups"); ("id", JStr id);
                 ("params", JObj [("account", JStr account)])]).

(** ** Frames read by the TCP client *)

Definition zero_frame : rpcFrame := MkRpcFrame None "" "" "" None.

Definition rpcError_fields : fields rpcError :=
  [("code", int_field (λ z e, MkRpcError z (re_Message e)));
   ("message", string_field (λ s e, MkRpcError (re_Code e) s));
   ("data", λ _ e, (e, None))].

Definition rpcFrame_fields : fields rpcFrame :=
  [("jsonrpc", string_field (λ _ f, f));
   ("id", ptr_field "" fr_ID (λ i f, MkRpcFrame i (fr_Method f) (fr_Params f) (fr_Result f) (fr_Error f))
            (string_field (λ s _, s)));
   ("method", string_field (λ s f, MkRpcFrame (fr_ID f) s (fr_Params f) (fr_Result f) (fr_Error f)));
   ("params", λ _ f, (f, None));
   ("result", λ _ f, (f, None));
   ("error", ptr_field (MkRpcError 0 "") fr_Error
               (λ e f, MkRpcFrame (fr_ID f) (fr_Method f) (fr_Params f) (fr_Result f) e)
               (decode_struct rpcError_fields))].

(** [json.Unmarshal(line, &frame)], the raw members filled in. *)
Definition decode_frame (line : string) : option rpcFrame :=
  match Unmarshal_ok (decode_struct rpcFrame_fields) line zero_frame with
  | None => None
  | Some f => Some (MkRpcFrame (fr_ID f) (fr_Method f) (raw_field "params" line) (raw_field "result" line)
                      (fr_Error f))
  end.

Definition frame_Unmarshal (line : list ascii) : option rpcFrame :=
  decode_frame (String.string_of_list_ascii line).

(** The best-effort decoding of a result into [SendResult]: errors are ignored,
    what was stored before them stays. *)
Definition SendResult_fields : fields SendResult :=
  [("timestamp", int_field (λ z _, MkSendResult z))].
Definition timestamp_of (result : string) : Z :=
  sr_Timestamp (Unmarshal (decode_struct SendResult_fields) result (MkSendResult 0)).1.

(** ** The group listing *)

Definition groupMember_fields : fields groupMember :=
  [("number", ptr_field "" gm_Number (λ n m, MkGroupMember n (gm_UUID m)) (string_field (λ s _, s)));
   ("uuid", string_field (λ s m, MkGroupMember (gm_Number m) s))].

Definition listedGroup_fields : fields listedGroup :=
  [("id", string_field (λ s g, MkListedGroup s (lg_Name g) (lg_Description g) (lg_Members g)));
   ("name", string_field (λ s g, MkListedGroup (lg_ID g) s (lg_Description g) (lg_Members g)));
   ("description", string_field (λ s g, MkListedGroup (lg_ID g) (lg_Name g) s (lg_Members g)));
   ("members", slice_field (MkGroupMember None "") (λ g, Some (lg_Members g))
      (λ l g, MkListedGroup (lg_ID g) (lg_Name g) (lg_Description g) (default [] l))
      (decode_struct groupMember_fields))].

Definition jsonRPCError_fields : fields jsonRPCError :=
  [("code", int_field (λ z e, MkJsonRPCError z (je_Message e)));
   ("message", string_field (λ s e, MkJsonRPCError (je_Code e) s));
   ("data", λ _ e, (e, None))].

Definition listGroupsResponse_fields : fields listGroupsResponse :=
  [("jsonrpc", string_field (λ _ r, r));
   ("result", slice_field (MkListedGroup "" "" "" []) (λ r, Some (lr_Result r))
      (λ l r, MkListGroupsResponse (default [] l) (lr_Error r)) (decode_struct listedGroup_fields));
   ("id", string_field (λ _ r, r));
   ("error", ptr_field (MkJsonRPCError 0 "") lr_Error (λ e r, MkListGroupsResponse (lr_Result r) e)
      (decode_struct jsonRPCError_fields))].

Definition decode_groups (body : string) : option listGroupsResponse :=
  Unmarshal_ok (decode_struct listGroupsResponse_fields) body (MkListGroupsResponse [] None).

(** ** Envelopes *)

Definition envAttachment_fields : fields envAttachment :=
  [("id", string_field (λ s a, MkEnvAttachment s (ea_ContentType a) (ea_Size a) (ea_Filename a)));
   ("contentType", string_field (λ s a, MkEnvAttachment (ea_ID a) s (ea_Size a) (ea_Filename a)));
   ("size", int_field (λ z a, MkEnvAttachment (ea_ID a) (ea_ContentType a) z (ea_Filename a)));
   ("filename", string_field (λ s a, MkEnvAttachment (ea_ID a) (ea_ContentType a) (ea_Size a) s))].

Definition envGroupInfo_fields : fields envGroupInfo :=
  [("groupId", string_field (λ s _, MkEnvGroupInfo s))].

Definition zero_envData : envData := MkEnvData None [] None.

(** [envData], and [envSyncSent] with the same tags. *)
Definition envData_fields : fields envData :=
  [("message", ptr_field "" ed_Message (λ m d, MkEnvData m (ed_Attachments d) (ed_GroupInfo d))
      (string_field (λ s _, s)));
   ("attachments", slice_field (MkEnvAttachment "" "" 0 "") (λ d, Some (ed_Attachments d))
      (λ l d, MkEnvData (ed_Message d) (default [] l) (ed_GroupInfo d)) (decode_struct envAttachment_fields));
   ("groupInfo", ptr_field (MkEnvGroupInfo "") ed_GroupInfo
      (λ g d, MkEnvData (ed_Message d) (ed_Attachments d) g) (decode_struct envGroupInfo_fields))].

(** [envEdit] and [envSync]: one pointer each. *)
Definition wrapped_data (name : string) : fields (option envData) :=
  [(name, ptr_field zero_envData (λ d, d) (λ d _, d) (decode_struct envData_fields))].

Definition zero_envelope : inboundEnvelope := MkInboundEnvelope "" None 0 None None None None None None.

(** Setters for one field of an envelope. *)
Definition inboundEnvelope_fields : fields inboundEnvelope :=
  [("source", string_field (λ s e, MkInboundEnvelope s (ie_SourceUUID e) (ie_Timestamp e) (ie_Data e)
      (ie_Edit e) (ie_Receipt e) (ie_Sync e) (ie_Typing e) (ie_Call e)));
   ("sourceUuid", ptr_field "" ie_SourceUUID (λ u e, MkInboundEnvelope (ie_Source e) u (ie_Timestamp e)
      (ie_Data e) (ie_Edit e) (ie_Receipt e) (ie_Sync e) (ie_Typing e) (ie_Call e))
      (string_field (λ s _, s)));
   ("timestamp", int_field (λ z e, MkInboundEnvelope (ie_Source e) (ie_SourceUUID e) z (ie_Data e)
      (ie_Edit e) (ie_Receipt e) (ie_Sync e) (ie_Typing e) (ie_Call e)));
   ("dataMessage", ptr_field zero_envData ie_Data (λ d e, MkInboundEnvelope (ie_Source e) (ie_SourceUUID e)
      (ie_Timestamp e) d (ie_Edit e) (ie_Receipt e) (ie_Sync e) (ie_Typing e) (ie_Call e))
      (decode_struct envData_fields));
   ("editMessage", ptr_field None ie_Edit (λ d e, MkInboundEnvelope (ie_Source e) (ie_SourceUUID e)
      (ie_Timestamp e) (ie_Data e) d (ie_Receipt e) (ie_Sync e) (ie_Typing e) (ie_Call e))
      (decode_struct (wrapped_data "dataMessage")));
   ("receiptMessage", ptr_field tt ie_Receipt (λ d e, MkInboundEnvelope (ie_Source e) (ie_SourceUUID e)
      (ie_Timestamp e) (ie_Data e) (ie_Edit e) d (ie_Sync e) (ie_Typing e) (ie_Call e))
      (decode_struct []));
   ("syncMessage", ptr_field None ie_Sync (λ d e, MkInboundEnvelope (ie_Source e) (ie_SourceUUID e)
      (ie_Timestamp e) (ie_Data e) (ie_Edit e) (ie_Receipt e) d (ie_Typing e) (ie_Call e))
      (decode_struct (wrapped_data "sentMessage")));
   ("typingMessage", ptr_field tt ie_Typing (λ d e, MkInboundEnvelope (ie_Source e) (ie_SourceUUID e)
      (ie_Timestamp e) (ie_Data e) (ie_Edit e) (ie_Receipt e) (ie_Sync e) d (ie_Call e))
      (decode_struct []));
   ("callMessage", ptr_field tt ie_Call (λ d e, MkInboundEnvelope (ie_Source e) (ie_SourceUUID e)
      (ie_Timestamp e) (ie_Data e) (ie_Edit e) (ie_Receipt e) (ie_Sync e) (ie_Typing e) d)
      (decode_struct []))].

(** The two decodings of [parseEnvelope], and the attachments it stores. *)
Definition decode_wrapper (params : string) : option string :=
  match Unmarshal_ok (decode_struct [("envelope", λ _ u, (u, None))]) params tt with
  | None => None
  | Some _ => Some (raw_field "envelope" params)
  end.

Definition decode_envelope (raw : string) : option inboundEnvelope :=
  Unmarshal_ok (decode_struct inboundEnvelope_fields) raw zero_envelope.

Definition envAttachment_json (a : envAttachment) : json :=
  JObj ([("id", JStr (ea_ID a)); ("contentType", JStr (ea_ContentType a))]
        ++ omit (ea_Size a =? 0) "size" (JInt (ea_Size a))
        ++ omit (bool_decide (ea_Filename a = "")) "filename" (JStr (ea_Filename a))).

Definition marshal_env_attachments (l : list envAttachment) : string :=
  Marshal (JArr (envAttachment_json <$> l)).
