(* ===== verification/Daemon.v ===== *)
(** [internal/signal/testfake/daemon.go]: the in-process peer that speaks the
    dialect of signal-cli, and a Send call against it. *)

From Stdlib Require Import Ascii.
From S2P Require Import Prelude Errors Config GoText Json JsonFacts JsonStructs MessageBuilder Worker TcpClient Wire.

(** ** Reading lines *)

(** [bufio.Reader.ReadBytes('\n')] on a stream that ends: the line with its
    newline, or what is left. *)
Fixpoint read_line (s : string) : string * string :=
  match s with
  | EmptyString => ("", "")
  | String c s' =>
      if byte_val c =? 10 then (String c "", s')
      else let '(l, r) := read_line s' in (String c l, r)
  end.

(** The lines of a stream, each read by one call; the length bounds their number. *)
Fixpoint lines_fuel (fuel : nat) (s : string) : list string :=
  match fuel, s with
  | S f, String _ _ => let '(l, r) := read_line s in l :: lines_fuel f r
  | _, _ => []
  end.
Definition lines (s : string) : list string := lines_fuel (String.length s) s.

(** ** The daemon *)

Record IncomingRequest := MkIncomingRequest {
  ir_JSONRPC : string;
  ir_Method : string;
  ir_Params : string;
  ir_ID : string;
}.

Definition IncomingRequest_fields : fields IncomingRequest :=
  [("jsonrpc", string_field (λ s r, MkIncomingRequest s (ir_Method r) (ir_Params r) (ir_ID r)));
   ("method", string_field (λ s r, MkIncomingRequest (ir_JSONRPC r) s (ir_Params r) (ir_ID r)));
   ("params", λ _ r, (r, None));
   ("id", string_field (λ s r, MkIncomingRequest (ir_JSONRPC r) (ir_Method r) (ir_Params r) s))].

Definition decode_request (line : string) : option IncomingRequest :=
  match Unmarshal_ok (decode_struct IncomingRequest_fields) line (MkIncomingRequest "" "" "" "") with
  | None => None
  | Some r => Some (MkIncomingRequest (ir_JSONRPC r) (ir_Method r) (raw_field "params" line) (ir_ID r))
  end.

Record ReceivedRequest := MkReceivedRequest { rr_Method : string; rr_ID : string; rr_Raw : string }.

(** The calls a responder makes on its [FrameWriter]. *)
Inductive frame_out :=
| WriteResult (id : string) (result : json)
| WriteError (id : string) (code : Z) (message : string)
| WriteNotification (method : string) (params : json)
| Disconnect.

(** A [connWriter] call: the bytes it writes; a map is encoded with its keys
    sorted. *)
Definition write_frame (o : frame_out) : string :=
  match o with
  | WriteResult id r =>
      Marshal (JObj [("id", JStr id); ("jsonrpc", JStr "2.0"); ("result", r)]) +:+ newline
  | WriteError id code msg =>
      Marshal (JObj [("error", JObj [("code", JInt code); ("message", JStr msg)]); ("id", JStr id);
                     ("jsonrpc", JStr "2.0")]) +:+ newline
  | WriteNotification method params =>
      Marshal (JObj [("jsonrpc", JStr "2.0"); ("method", JStr method); ("params", params)]) +:+ newline
  | Disconnect => ""
  end.

(** A responder, with the counter that [SuccessResponder] closes over. *)
Definition Responder : Type := IncomingRequest → Z → list frame_out * Z.

Definition SuccessResponder : Responder := λ req seq,
  let n := int64 (seq + 1) in
  ([WriteResult (ir_ID req) (JObj [("timestamp", JInt (int64 (1700000000 + n)))])], n).
Definition ErrorResponder (code : Z) (message : string) : Responder := λ req seq,
  ([WriteError (ir_ID req) code message], seq).
Definition DisconnectResponder : Responder := λ _ seq, ([Disconnect], seq).

Record Daemon := MkDaemon { d_requests : list ReceivedRequest; d_seq : Z }.

Definition is_disconnect (o : frame_out) : bool := match o with Disconnect => true | _ => false end.

(** Bytes written until the connection is closed, and whether it was. *)
Fixpoint write_all (os : list frame_out) : string * bool :=
  match os with
  | [] => ("", false)
  | o :: os' => if is_disconnect o then ("", true)
                else let '(s, b) := write_all os' in (write_frame o +:+ s, b)
  end.

(** One line of [handle]: a malformed one is skipped. *)
Definition handle_line (responder : Responder) (line : string) (d : Daemon) : string * bool * Daemon :=
  match decode_request line with
  | None => ("", false, d)
  | Some req =>
      let '(os, seq) := responder req (d_seq d) in
      let '(out, closed) := write_all os in
      (out, closed, MkDaemon (d_requests d ++ [MkReceivedRequest (ir_Method req) (ir_ID req) line]) seq)
  end.

(** [handle] on a connection that sends [ls] and then ends. *)
Fixpoint handle_conn (responder : Responder) (ls : list string) (d : Daemon) : string * Daemon :=
  match ls with
  | [] => ("", d)
  | l :: ls' =>
      let '(out, closed, d') := handle_line responder l d in
      if closed then (out, d')
      else let '(out', d'') := handle_conn responder ls' d' in (out +:+ out', d'')
  end.

Example daemon_answers :
  handle_conn SuccessResponder
    (lines (request_frame (MkSendParams "+1" "hi <you>" [] ["+2"] [] 0 "") "abc")) (MkDaemon [] 0)
  = (Marshal (JObj [("id", JStr "abc"); ("jsonrpc", JStr "2.0");
                    ("result", JObj [("timestamp", JInt 1700000001)])]) +:+ newline,
     MkDaemon [MkReceivedRequest "send" "abc"
       (request_frame (MkSendParams "+1" "hi <you>" [] ["+2"] [] 0 "") "abc")] 1).
Proof. vm_compute. reflexivity. Qed.

(** ** Facts: frames *)

Lemma read_line_frame b rest :
  nl_free b = true → read_line (b +:+ newline +:+ rest) = (b +:+ newline, rest).
Proof.
  induction b as [|c b IH]; [done|]. rewrite !append_cons. cbn [nl_free read_line].
  intros [Hc Hb]%andb_true_iff. apply negb_true_iff in Hc. rewrite Hc. by rewrite IH.
Qed.

(** A stream of frames is read frame by frame. *)
Lemma lines_frames bs :
  Forall (λ b, nl_free b = true) bs →
  lines (foldr (λ b acc, b +:+ newline +:+ acc) "" bs) = (λ b, b +:+ newline) <$> bs.
Proof.
  intros H. unfold lines. set (s := foldr _ _ _).
  assert (∀ f, (String.length s ≤ f)%nat → lines_fuel f s = (λ b, b +:+ newline) <$> bs) as G;
    [|by apply G]. subst s.
  induction H as [|b bs Hb _ IH]; intros f; cbn [foldr]; [by destruct f|].
  set (s := foldr _ _ bs) in *. intros Hf.
  assert (∃ c t, b +:+ newline +:+ s = String c t) as (c & t & E) by (destruct b; eauto).
  rewrite length_append in Hf.
  change (String.length (newline +:+ s)) with (S (String.length s)) in Hf.
  destruct f as [|f]; [lia|]. cbn [lines_fuel]. rewrite E, <- E, read_line_frame by done.
  rewrite IH by lia. done.
Qed.

Lemma lines_one b : nl_free b = true → lines (b +:+ newline) = [b +:+ newline].
Proof.
  intros H. pose proof (lines_frames [b] ltac:(by constructor)) as L. cbn [foldr] in L.
  by rewrite append_nil_r in L.
Qed.

Lemma list_ascii_app a b :
  String.list_ascii_of_string (a +:+ b) = String.list_ascii_of_string a ++ String.list_ascii_of_string b.
Proof. induction a as [|c a IH]; [done|]. rewrite append_cons. simpl. by rewrite IH. Qed.

Lemma trim_right_frame l x :
  is_trailer x = false → trim_right (l ++ [x; "010"%char]) = l ++ [x].
Proof.
  intros Hx. induction l as [|a l IH]; simpl in *.
  - by rewrite Hx.
  - rewrite IH. by destruct l.
Qed.

(** What the client decodes from a frame whose text ends in a brace. *)
Lemma frame_trimmed b :
  trim_right (String.list_ascii_of_string ((b +:+ "}") +:+ newline))
  = String.list_ascii_of_string (b +:+ "}").
Proof. rewrite !list_ascii_app, <- app_assoc. simpl. by rewrite trim_right_frame. Qed.

(** ** Facts: the request as the daemon sees it *)

Lemma strings_json_ok l : int_numbers (strings_json l) ∧ nesting (strings_json l) = 1.
Proof.
  unfold strings_json. induction l as [|s l [IH1 IH2]]; [done|]. split; [by split|].
  cbn [fmap list_fmap nesting foldr] in *. lia.
Qed.

Lemma SendParams_json_ok p :
  in_int64 (sp_QuoteTimestamp p) →
  int_numbers (SendParams_json p) ∧ nesting (SendParams_json p) ≤ 2.
Proof.
  intros Hq. unfold SendParams_json, omit.
  destruct (strings_json_ok (sp_Attachments p)) as [A1 A2], (strings_json_ok (sp_Recipient p)) as [R1 R2],
    (strings_json_ok (sp_GroupID p)) as [G1 G2].
  destruct (is_nil (sp_Attachments p)), (is_nil (sp_Recipient p)), (is_nil (sp_GroupID p)),
    (sp_QuoteTimestamp p =? 0), (bool_decide _); cbn -[strings_json] in *; rewrite ?A2, ?R2, ?G2;
    (split; [split_and!; eauto|lia]).
Qed.

Lemma request_json_ok p id :
  in_int64 (sp_QuoteTimestamp p) →
  int_numbers (rpcRequest_json (SendParams_json p) id) ∧
  nesting (rpcRequest_json (SendParams_json p) id) ≤ 3.
Proof.
  intros [H1 H2]%SendParams_json_ok. unfold rpcRequest_json, omit.
  destruct (bool_decide (id = "")); cbn -[SendParams_json]; (split; [split_and!; auto|lia]).
Qed.

Lemma decode_request_frame p id :
  in_int64 (sp_QuoteTimestamp p) → ValidString id = true → id ≠ "" →
  decode_request (request_frame p id)
  = Some (MkIncomingRequest "2.0" "send" (Marshal (SendParams_json p)) id).
Proof.
  intros Hq Hv Hid. destruct (request_json_ok p id Hq) as [Hi Hn].
  unfold decode_request, Unmarshal_ok, Unmarshal, request_frame, raw_field, Marshal.
  rewrite parse_marshal by (done || (unfold maxNestingDepth; lia)).
  unfold rpcRequest_json, omit in *. rewrite bool_decide_eq_false_2 in * by done. cbn [app] in *.
  rewrite raw_object_marshal by (done || (unfold maxNestingDepth; lia)).
  cbn [clean_json map fst snd]. rewrite (clean_valid id Hv).
  generalize (marshal true (SendParams_json p)) (clean_json (SendParams_json p)). reflexivity.
Qed.

(** ** Facts: the reply as the client sees it *)

Definition reply_json (id : string) (ts : Z) : json :=
  JObj [("id", JStr id); ("jsonrpc", JStr "2.0"); ("result", JObj [("timestamp", JInt ts)])].
Definition error_json (id : string) (code : Z) (msg : string) : json :=
  JObj [("error", JObj [("code", JInt code); ("message", JStr msg)]); ("id", JStr id);
        ("jsonrpc", JStr "2.0")].

(** The text of an object ends in its brace. *)
Lemma marshal_obj_brace html l : ∃ b, marshal html (JObj l) = b +:+ "}".
Proof. cbn [marshal]. eexists (String "{" _). by rewrite append_cons. Qed.

Lemma frame_Unmarshal_html html l :
  trim_right (String.list_ascii_of_string (marshal html (JObj l) +:+ newline))
  = String.list_ascii_of_string (marshal html (JObj l)) ∧
  frame_Unmarshal (String.list_ascii_of_string (marshal html (JObj l))) = decode_frame (marshal html (JObj l)).
Proof.
  destruct (marshal_obj_brace html l) as [b ->]. split; [apply frame_trimmed|].
  unfold frame_Unmarshal. by rewrite String.string_of_list_ascii_of_string.
Qed.

Lemma frame_Unmarshal_obj l :
  trim_right (String.list_ascii_of_string (Marshal (JObj l) +:+ newline))
  = String.list_ascii_of_string (Marshal (JObj l)) ∧
  frame_Unmarshal (String.list_ascii_of_string (Marshal (JObj l))) = decode_frame (Marshal (JObj l)).
Proof. apply frame_Unmarshal_html. Qed.

Lemma timestamp_of_json ts :
  in_int64 ts → timestamp_of (Marshal (JObj [("timestamp", JInt ts)])) = ts.
Proof.
  intros Hz. unfold timestamp_of, Unmarshal, Marshal.
  rewrite parse_marshal_end; [|by simpl; eauto 10|done].
  cbn [clean_json map fst snd JInt]. rewrite decode_struct_obj. cbn [foldl]. unfold store_member.
  change (find_field SendResult_fields _) with (Some (int_field (λ z (_ : SendResult), MkSendResult z))).
  cbn [int_field snd fst]. by rewrite ParseInt_FormatInt_ok.
Qed.

Lemma decode_reply id ts :
  in_int64 ts → ValidString id = true →
  decode_frame (Marshal (reply_json id ts))
  = Some (MkRpcFrame (Some id) "" "" (Marshal (JObj [("timestamp", JInt ts)])) None).
Proof.
  intros Hz Hv. unfold decode_frame, Unmarshal_ok, Unmarshal, raw_field, Marshal, reply_json.
  assert (int_numbers (JObj [("id", JStr id); ("jsonrpc", JStr "2.0"); ("result", JObj [("timestamp", JInt ts)])]))
    as Hi by (simpl; eauto 10).
  rewrite parse_marshal_end by done. rewrite !raw_object_marshal_end by done.
  cbn [clean_json map fst snd]. rewrite (clean_valid id Hv).
  generalize (marshal true (JObj [("timestamp", JInt ts)])) (JInt ts). reflexivity.
Qed.

Lemma decode_error id code msg :
  in_int64 code → ValidString id = true →
  decode_frame (Marshal (error_json id code msg))
  = Some (MkRpcFrame (Some id) "" "" "" (Some (MkRpcError code (clean msg)))).
Proof.
  intros Hz Hv. unfold decode_frame, Unmarshal_ok, Unmarshal, raw_field, Marshal, error_json.
  assert (int_numbers (JObj [("error", JObj [("code", JInt code); ("message", JStr msg)]); ("id", JStr id);
        ("jsonrpc", JStr "2.0")])) as Hi by (simpl; eauto 10).
  rewrite parse_marshal_end by done. rewrite !raw_object_marshal_end by done.
  cbn [clean_json map fst snd JInt]. rewrite (clean_valid id Hv).
  assert (decode_struct rpcError_fields
    (JObj [(clean "code", JNum (FormatInt code)); (clean "message", JStr (clean msg))]) (MkRpcError 0 "")
    = (MkRpcError code (clean msg), None)) as E.
  { rewrite decode_struct_obj. cbn [foldl]. unfold store_member.
    change (find_field rpcError_fields (clean "code", JNum (FormatInt code)).1) with
      (Some (int_field (λ z e, MkRpcError z (re_Message e)))).
    cbn [int_field snd fst]. rewrite ParseInt_FormatInt_ok by done. reflexivity. }
  rewrite decode_struct_obj. cbn [foldl]. unfold store_member at 3.
  change (find_field rpcFrame_fields (clean "error", _).1) with
    (Some (ptr_field (MkRpcError 0 "") fr_Error
               (λ e f, MkRpcFrame (fr_ID f) (fr_Method f) (fr_Params f) (fr_Result f) e)
               (decode_struct rpcError_fields))).
  cbn [snd fst]. unfold ptr_field. cbn [default fr_Error zero_frame]. rewrite E. reflexivity.
Qed.

(** ** A Send against the daemon *)

Section exchange.
Context (cfg : SignalCliTCP).

Fixpoint perform (acts : list taction) (c : TCPClient) : option TCPClient :=
  match acts with
  | [] => Some c
  | a :: l => match tstep frame_Unmarshal timestamp_of cfg a c with
              | Next c' => perform l c'
              | _ => None
              end
  end.

(** What happens at the client once the daemon has handled a connection: its
    reader gets the lines, or the end of the stream when there is none, and the
    Send [k] receives what its channel holds. *)
Definition after_reply (k : nat) (reply : string) : list taction :=
  match lines reply with
  | [] => [TReadErr; TFailPending; TReceive k]
  | l :: _ => [TLine (String.list_ascii_of_string l); TDeliver; TReceive k]
  end.

Definition send_via (responder : Responder) (p : SendParams) (id : string) (k : nat)
    (d : Daemon) (c : TCPClient) : option sender * Daemon :=
  let '(reply, d') := handle_conn responder (lines (request_frame p id)) d in
  (perform (after_reply k reply) c ≫= λ c', c_senders c' !! k, d').

(** A Send [k] that wrote request [id] and waits on channel [ch]. *)
Definition awaiting (k : nat) (id : string) (ch : nat) (c : TCPClient) : Prop :=
  c_dialer c = DReading ∧ c_senders c !! k = Some (SAwaiting id ch) ∧
  c_pending c !! id = Some ch ∧ c_chans c !! ch = Some (id, []).

Lemma handle_request responder p id d :
  in_int64 (sp_QuoteTimestamp p) → ValidString id = true → id ≠ "" →
  handle_conn responder (lines (request_frame p id)) d
  = let '(os, seq) := responder (MkIncomingRequest "2.0" "send" (Marshal (SendParams_json p)) id) (d_seq d) in
    ((write_all os).1,
     MkDaemon (d_requests d ++ [MkReceivedRequest "send" id (request_frame p id)]) seq).
Proof.
  intros Hq Hv Hid. unfold request_frame at 1. rewrite lines_one.
  2:{ apply marshal_nl_free. by apply request_json_ok. }
  fold (request_frame p id). cbn [handle_conn]. unfold handle_line.
  rewrite (decode_request_frame p id) by done.
  destruct (responder _ _) as [os seq]. destruct (write_all os) as [out []]; simpl; [done|].
  by rewrite append_nil_r.
Qed.

(** A frame with the id of a waiting Send completes it. *)
Lemma perform_reply l id ch k c result err :
  int_numbers (JObj l) →
  decode_frame (Marshal (JObj l)) = Some (MkRpcFrame (Some id) "" "" result err) →
  id ≠ "" → awaiting k id ch c →
  perform (after_reply k (Marshal (JObj l) +:+ newline)) c ≫= (λ c', c_senders c' !! k)
  = Some (SReturning id (response_result timestamp_of (MkRpcResponse result err false))).
Proof.
  intros Hi Hf Hid (Hd & Hs & Hp & Hc).
  unfold after_reply. rewrite lines_one by (by apply marshal_nl_free).
  cbn [perform tstep step_dialer]. rewrite Hd. unfold dispatchFrame.
  destruct (frame_Unmarshal_obj l) as [-> HU].
  destruct (String.list_ascii_of_string (Marshal (JObj l))) as [|a rest] eqn:El; [done|].
  rewrite HU, Hf. cbn [fr_ID]. rewrite bool_decide_eq_false_2 by done. cbn [negb].
  unfold respond. rewrite Hp. cbn [step_dialer c_dialer set_dialer c_chans log_frame set_pending].
  unfold chan_send. rewrite Hc. cbn [step_sender c_senders set_dialer set_pending log_frame c_chans].
  rewrite Hs. rewrite lookup_insert_eq. cbn [set_sender c_senders]. simpl. by rewrite lookup_insert_eq.
Qed.

Lemma fail_fold_hit (l : list (string * nat)) m ch id :
  ch ∈ l.*2 → m !! ch = Some (id, []) →
  foldr (λ '(_, ch) m, default m (chan_send ch disconnect_response m)) m l !! ch
  = Some (id, [disconnect_response]).
Proof.
  intros Hin Hm. induction l as [|[i x] l IH]; [by apply elem_of_nil in Hin|].
  cbn [foldr]. pose proof (fail_fold l m ch) as F. cbv zeta in F.
  set (m1 := foldr _ m l) in *. clearbody m1. destruct F as [E|(o & E1 & E)].
  - destruct (decide (x = ch)) as [->|Hx].
    + unfold chan_send. rewrite E, Hm. simpl. by rewrite lookup_insert_eq.
    + csimpl in Hin. apply elem_of_cons in Hin as [?|Hin]; [congruence|].
      specialize (IH Hin). rewrite IH in E. congruence.
  - rewrite Hm in E1. injection E1 as <-. unfold chan_send.
    destruct (m1 !! x) as [[o [|]]|] eqn:Ex; simpl; try done.
    rewrite lookup_insert_ne; [done|]. intros ->. congruence.
Qed.

Lemma perform_disconnect id ch k c :
  awaiting k id ch c →
  perform (after_reply k "") c ≫= (λ c', c_senders c' !! k)
  = Some (SReturning id (Err ErrDisconnected)).
Proof.
  intros (Hd & Hs & Hp & Hc). unfold after_reply. cbn [lines lines_fuel String.length].
  cbn [perform tstep step_dialer]. rewrite Hd. cbn [step_dialer c_dialer set_dialer].
  cbn [step_sender c_senders set_dialer failPending set_pending c_chans]. rewrite Hs.
  rewrite (fail_fold_hit _ _ ch id); [|apply list_elem_of_fmap; exists (id, ch); split; [done|];
    by apply elem_of_map_to_list|done].
  cbn [set_sender c_senders]. simpl. by rewrite lookup_insert_eq.
Qed.
End exchange.

(** ** Properties *)

(** C15: a Send whose request reaches the in-process daemon gets that daemon's
    answer.  The request travels as exactly one line, which the daemon decodes to
    method "send" with the same id; with the success responder the call returns
    the timestamp 1700000000 + n of its own reply, with an error responder the
    error "signal-cli error", and with a disconnecting one [ErrDisconnected],
    whatever other Sends are pending. *)
Theorem send_against_daemon cfg p id k ch d c code msg :
  in_int64 (sp_QuoteTimestamp p) → ValidString id = true → id ≠ "" →
  0 ≤ d_seq d < 2 ^ 62 → in_int64 code → awaiting k id ch c →
  let seen := d_requests d ++ [MkReceivedRequest "send" id (request_frame p id)] in
  send_via cfg SuccessResponder p id k d c
    = (Some (SReturning id (Ok (MkSendResult (1700000001 + d_seq d)))), MkDaemon seen (d_seq d + 1)) ∧
  send_via cfg (ErrorResponder code msg) p id k d c
    = (Some (SReturning id (Err (ErrMsg "signal-cli error"))), MkDaemon seen (d_seq d)) ∧
  send_via cfg DisconnectResponder p id k d c
    = (Some (SReturning id (Err ErrDisconnected)), MkDaemon seen (d_seq d)).
Proof.
  intros Hq Hv Hid Hn Hcode Ha seen. unfold send_via. split_and!; rewrite handle_request by done;
    cbn [SuccessResponder ErrorResponder DisconnectResponder write_all is_disconnect ir_ID fst write_frame].
  - assert (int64 (d_seq d + 1) = d_seq d + 1) as -> by (apply int64_id; unfold in_int64; lia).
    assert (int64 (1700000000 + (d_seq d + 1)) = 1700000001 + d_seq d) as ->
      by (rewrite int64_id by (unfold in_int64; lia); lia).
    rewrite append_nil_r. f_equal.
    assert (in_int64 (1700000001 + d_seq d)) as Hts by (unfold in_int64; lia).
    rewrite (perform_reply cfg _ id ch k c (Marshal (JObj [("timestamp", JInt (1700000001 + d_seq d))])) None);
      [|by simpl; eauto 10|by apply decode_reply|done|done].
    unfold response_result. cbn [rsp_disconnect rsp_err rsp_result]. by rewrite timestamp_of_json.
  - rewrite append_nil_r. f_equal.
    by rewrite (perform_reply cfg _ id ch k c "" (Some (MkRpcError code (clean msg))));
      [|simpl; eauto 10|apply decode_error|..].
  - f_equal. by eapply perform_disconnect.
Qed.

Lemma send_against_daemon_witness :
  let c := MkTCPClient false false (Some 0%nat) 1 0 {[0%nat]} {["abc" := 7%nat]} {[7%nat := ("abc", [])]}
             [] [] DReading {[3%nat := SAwaiting "abc" 7]} [] in
  send_via tcp_cfg SuccessResponder (MkSendParams "+1" "hi" [] ["+2"] [] 0 "") "abc" 3 (MkDaemon [] 0) c
  = (Some (SReturning "abc" (Ok (MkSendResult 1700000001))),
     MkDaemon [MkReceivedRequest "send" "abc"
       (request_frame (MkSendParams "+1" "hi" [] ["+2"] [] 0 "") "abc")] 1).
Proof.
  intros c. apply (send_against_daemon tcp_cfg (MkSendParams "+1" "hi" [] ["+2"] [] 0 "") "abc" 3 7
    (MkDaemon [] 0) c (-1) "boom"); [vm_compute; split; congruence|reflexivity|done|simpl; lia|
    vm_compute; split; congruence|].
  split_and!; reflexivity.
Defined.
