(* ===== verification/DaemonLife.v ===== *)
(** Listening and tear-down of [internal/signal/testfake/daemon.go]: [New], the
    accept loop, the goroutine of each connection and [Close] interleave, and
    share the connection list and the request log under one mutex. *)

From stdpp Require Import fin_maps gmap sets.
From S2P Require Import Prelude Errors GoText Json JsonFacts JsonStructs Daemon.

(** ** Goroutines *)

(** Where the accept loop is. *)
Inductive accepting :=
| InAccept                              (* in ln.Accept *)
| Accepted (c : nat)                    (* holds a connection that is not in conns yet *)
| Registered (c : nat)                  (* appended under the lock, wg.Add not called *)
| Added (c : nat)                       (* wg.Add called, handler not launched *)
| Exited.

(** Where the handler of a connection is; [last] is the read error seen with the
    line. *)
Inductive handling :=
| Reading
| Responding (req : IncomingRequest) (last : bool)
| Returning                             (* deferred: conn.Close, then wg.Done *)
| ConnClosed.

(** Where the first caller of [Close] is. *)
Inductive closing :=
| NotClosing
| Swapped                               (* closed flag set *)
| ListenerClosed                        (* about to take the lock *)
| AwaitGroup                            (* in the select *)
| CloseReturned (drained : bool).

Record life := MkLife {
  dl_listening : bool;
  dl_accept : accepting;
  dl_next : nat;                        (* the next connection *)
  dl_conns : list nat;                  (* d.conns *)
  dl_open : gset nat;                   (* connections whose own end is not closed *)
  dl_handlers : gmap nat handling;      (* running handlers *)
  dl_sent : gmap nat string;            (* bytes written to each connection *)
  dl_wg : Z;                            (* d.wg *)
  dl_closed : bool;                     (* d.closed *)
  dl_closer : closing;
  dl_daemon : Daemon;                   (* d.requests, and the responder's counter *)
}.

(** [New]: listening, with the accept loop counted in the group. *)
Definition New : life :=
  MkLife true InAccept 0 [] ∅ ∅ ∅ 1 false NotClosing (MkDaemon [] 0).

(** The responder it is given; nil is [SuccessResponder]. *)
Definition responder_of (r : option Responder) : Responder :=
  match r with Some f => f | None => SuccessResponder end.

(** [Requests]: a copy of the log. *)
Definition Requests (s : life) : list ReceivedRequest := d_requests (dl_daemon s).

(** ** Steps *)

Definition with_accept (a : accepting) (s : life) : life :=
  MkLife (dl_listening s) a (dl_next s) (dl_conns s) (dl_open s) (dl_handlers s) (dl_sent s) (dl_wg s)
    (dl_closed s) (dl_closer s) (dl_daemon s).
Definition with_wg (n : Z) (s : life) : life :=
  MkLife (dl_listening s) (dl_accept s) (dl_next s) (dl_conns s) (dl_open s) (dl_handlers s) (dl_sent s) n
    (dl_closed s) (dl_closer s) (dl_daemon s).
Definition with_handlers (h : gmap nat handling) (s : life) : life :=
  MkLife (dl_listening s) (dl_accept s) (dl_next s) (dl_conns s) (dl_open s) h (dl_sent s) (dl_wg s)
    (dl_closed s) (dl_closer s) (dl_daemon s).
Definition with_open (o : gset nat) (s : life) : life :=
  MkLife (dl_listening s) (dl_accept s) (dl_next s) (dl_conns s) o (dl_handlers s) (dl_sent s) (dl_wg s)
    (dl_closed s) (dl_closer s) (dl_daemon s).
Definition with_closer (k : closing) (s : life) : life :=
  MkLife (dl_listening s) (dl_accept s) (dl_next s) (dl_conns s) (dl_open s) (dl_handlers s) (dl_sent s)
    (dl_wg s) (dl_closed s) k (dl_daemon s).

Inductive daction :=
| AcceptOk                              (* ln.Accept returns a connection *)
| AcceptFail                            (* ln.Accept fails *)
| AcceptGo                              (* the next statement of the accept loop *)
| HandlerRead (c : nat) (line : string) (err : bool)   (* ReadBytes returns *)
| HandlerGo (c : nat)                   (* the next statement of a handler *)
| CloseCall                             (* a call of Close *)
| CloseGo                               (* the next statement of the first Close *)
| CloseTimeout.                         (* its two seconds are over *)

Section steps.
Context (responder : Responder).

(** The body of [acceptLoop] after a successful Accept. *)
Definition acceptLoop_step (s : life) : option life :=
  match dl_accept s with
  | Accepted c =>
      Some (MkLife (dl_listening s) (Registered c) (dl_next s) (dl_conns s ++ [c]) (dl_open s)
              (dl_handlers s) (dl_sent s) (dl_wg s) (dl_closed s) (dl_closer s) (dl_daemon s))
  | Registered c => Some (with_accept (Added c) (with_wg (dl_wg s + 1) s))
  | Added c => Some (with_accept InAccept (with_handlers (<[c := Reading]> (dl_handlers s)) s))
  | InAccept | Exited => None
  end.

(** A read of [handle]: a line that parses is logged under the lock; what comes
    with an error is the last. *)
Definition handle_read (c : nat) (line : string) (err : bool) (s : life) : life :=
  let rest := if err then Returning else Reading in
  match (if String.eqb line "" then None else decode_request line) with
  | Some req =>
      let d := dl_daemon s in
      MkLife (dl_listening s) (dl_accept s) (dl_next s) (dl_conns s) (dl_open s)
        (<[c := Responding req err]> (dl_handlers s)) (dl_sent s) (dl_wg s) (dl_closed s) (dl_closer s)
        (MkDaemon (d_requests d ++ [MkReceivedRequest (ir_Method req) (ir_ID req) line]) (d_seq d))
  | None => with_handlers (<[c := rest]> (dl_handlers s)) s
  end.

(** The responder runs; what it writes to a closed connection is lost, and
    [Disconnect] closes it. *)
Definition handle_respond (c : nat) (req : IncomingRequest) (last : bool) (s : life) : life :=
  let '(os, seq) := responder req (d_seq (dl_daemon s)) in
  let '(out, gone) := write_all os in
  let sent := if decide (c ∈ dl_open s)
              then <[c := default "" (dl_sent s !! c) +:+ out]> (dl_sent s) else dl_sent s in
  MkLife (dl_listening s) (dl_accept s) (dl_next s) (dl_conns s)
    (if gone then dl_open s ∖ {[c]} else dl_open s)
    (<[c := if gone || last then Returning else Reading]> (dl_handlers s)) sent (dl_wg s) (dl_closed s)
    (dl_closer s) (MkDaemon (d_requests (dl_daemon s)) seq).

Definition handle_step (c : nat) (s : life) : option life :=
  match dl_handlers s !! c with
  | Some (Responding req last) => Some (handle_respond c req last s)
  | Some Returning =>
      Some (with_open (dl_open s ∖ {[c]}) (with_handlers (<[c := ConnClosed]> (dl_handlers s)) s))
  | Some ConnClosed => Some (with_wg (dl_wg s - 1) (with_handlers (delete c (dl_handlers s)) s))
  | Some Reading | None => None
  end.

(** [Close]: only the caller that sets the flag goes on. *)
Definition Close (s : life) : life :=
  if dl_closed s then s
  else MkLife (dl_listening s) (dl_accept s) (dl_next s) (dl_conns s) (dl_open s) (dl_handlers s) (dl_sent s)
         (dl_wg s) true Swapped (dl_daemon s).

Definition Close_step (s : life) : option life :=
  match dl_closer s with
  | Swapped =>
      Some (MkLife false (dl_accept s) (dl_next s) (dl_conns s) (dl_open s) (dl_handlers s) (dl_sent s)
              (dl_wg s) (dl_closed s) ListenerClosed (dl_daemon s))
  | ListenerClosed =>
      Some (with_closer AwaitGroup (with_open (dl_open s ∖ list_to_set (dl_conns s)) s))
  | AwaitGroup => if dl_wg s =? 0 then Some (with_closer (CloseReturned true) s) else None
  | NotClosing | CloseReturned _ => None
  end.

Definition dstep (a : daction) (s : life) : option life :=
  match a with
  | AcceptOk =>
      match dl_accept s with
      | InAccept =>
          if dl_listening s
          then Some (MkLife true (Accepted (dl_next s)) (S (dl_next s)) (dl_conns s)
                       ({[dl_next s]} ∪ dl_open s) (dl_handlers s) (dl_sent s) (dl_wg s) (dl_closed s)
                       (dl_closer s) (dl_daemon s))
          else None
      | _ => None
      end
  | AcceptFail =>
      match dl_accept s with
      | InAccept => Some (with_accept Exited (with_wg (dl_wg s - 1) s))
      | _ => None
      end
  | AcceptGo => acceptLoop_step s
  | HandlerRead c line err =>
      match dl_handlers s !! c with
      | Some Reading => if String.eqb line "" && negb err then None else Some (handle_read c line err s)
      | _ => None
      end
  | HandlerGo c => handle_step c s
  | CloseCall => Some (Close s)
  | CloseGo => Close_step s
  | CloseTimeout =>
      match dl_closer s with AwaitGroup => Some (with_closer (CloseReturned false) s) | _ => None end
  end.

Inductive dreachable : life → Prop :=
| dreach_new : dreachable New
| dreach_step a s s' : dreachable s → dstep a s = Some s' → dreachable s'.

Fixpoint dperform (acts : list daction) (s : life) : option life :=
  match acts with
  | [] => Some s
  | a :: l => match dstep a s with Some s' => dperform l s' | None => None end
  end.

Lemma dperform_app a b s :
  dperform (a ++ b) s = match dperform a s with Some s' => dperform b s' | None => None end.
Proof. revert s. induction a as [|x a IH]; intros s; [done|]. cbn [app dperform]. by destruct (dstep x s). Qed.

Lemma dperform_reachable acts s s' : dreachable s → dperform acts s = Some s' → dreachable s'.
Proof.
  revert s. induction acts as [|a acts IH]; intros s R; cbn [dperform]; [by intros [= <-]|].
  destruct (dstep a s) as [s1|] eqn:E; [|done]. apply IH. by eapply dreach_step.
Qed.
End steps.

(** ** The invariant *)

(** The connection the accept loop is about to hand over. *)
Definition held (a : accepting) : option nat :=
  match a with
  | Accepted c | Registered c | Added c => Some c
  | InAccept | Exited => None
  end.

(** What the accept loop adds to the group. *)
Definition accept_weight (a : accepting) : Z :=
  match a with Exited => 0 | Added _ => 2 | InAccept | Accepted _ | Registered _ => 1 end.

Definition registered (a : accepting) : Prop := match a with Accepted _ => False | _ => True end.

(** [Close] has swept the connections. *)
Definition swept (k : closing) : Prop :=
  match k with AwaitGroup | CloseReturned _ => True | NotClosing | Swapped | ListenerClosed => False end.
Definition past_listener (k : closing) : Prop := k = ListenerClosed ∨ swept k.

(** The group counts the goroutines; an open connection has somebody who will
    close it; after the sweep only the latest connection can be open. *)
Record dinv (s : life) : Prop := {
  di_wg : dl_wg s = accept_weight (dl_accept s) + Z.of_nat (size (dl_handlers s));
  di_held : ∀ c, held (dl_accept s) = Some c → S c = dl_next s ∧ dl_handlers s !! c = None;
  di_listed : ∀ c, held (dl_accept s) = Some c → registered (dl_accept s) → c ∈ dl_conns s;
  di_handlers : ∀ c, is_Some (dl_handlers s !! c) → (c < dl_next s)%nat ∧ c ∈ dl_conns s;
  di_conns : ∀ c, c ∈ dl_conns s → (c < dl_next s)%nat;
  di_open : ∀ c, c ∈ dl_open s →
    held (dl_accept s) = Some c ∨ ∃ h, dl_handlers s !! c = Some h ∧ h ≠ ConnClosed;
  di_listener : past_listener (dl_closer s) → dl_listening s = false;
  di_swept : swept (dl_closer s) → ∀ c, c ∈ dl_open s → S c = dl_next s;
  di_closed : dl_closed s = false ↔ dl_closer s = NotClosing;
  di_drained : dl_closer s = CloseReturned true → dl_wg s = 0;
}.

Lemma dinv_New : dinv New.
Proof.
  split; simpl; try done; try set_solver; try (intros c [? ?]; simplify_map_eq).
  all: intros [?|?]; done.
Qed.

(** Nothing is left once the group is empty. *)
Lemma group_empty s :
  dinv s → dl_wg s = 0 → dl_accept s = Exited ∧ dl_handlers s = ∅ ∧ dl_open s = ∅.
Proof.
  intros I Hw. pose proof (di_wg _ I) as E. rewrite Hw in E.
  assert (dl_accept s = Exited) as Ha by (destruct (dl_accept s); simpl in E; lia || done).
  rewrite Ha in E. simpl in E. assert (dl_handlers s = ∅) as Hh by (apply map_size_empty_inv; lia).
  split_and!; [done..|]. apply set_eq. intros c. split; [|set_solver]. intros Hc.
  destruct (di_open _ I c Hc) as [?|(h & Hx & _)]; [by rewrite Ha in *|by rewrite Hh in Hx].
Qed.

(** The handler of one connection moves on, possibly closing it. *)
Lemma dinv_handler c h h' o sent d s :
  dinv s → dl_handlers s !! c = Some h →
  (o = dl_open s ∧ h' ≠ ConnClosed ∨ o = dl_open s ∖ {[c]}) →
  dinv (MkLife (dl_listening s) (dl_accept s) (dl_next s) (dl_conns s) o (<[c := h']> (dl_handlers s)) sent
          (dl_wg s) (dl_closed s) (dl_closer s) d).
Proof.
  intros I Hc Ho. assert (o ⊆ dl_open s) as Hsub by (destruct Ho as [[-> _]| ->]; set_solver).
  split; simpl; try apply I.
  - rewrite map_size_insert_Some by by eexists. apply I.
  - intros k Hk. destruct (di_held _ I k Hk) as [? Hn]. split; [done|].
    rewrite lookup_insert_ne; [done|]. intros ->. congruence.
  - intros k Hk. apply (di_handlers _ I). destruct (decide (c = k)) as [->|]; [by eexists|].
    by rewrite lookup_insert_ne in Hk.
  - intros k Hk. destruct (decide (c = k)) as [->|Hne].
    + right. exists h'. rewrite lookup_insert_eq. split; [done|]. destruct Ho as [[_ ?]| ->]; [done|set_solver].
    + rewrite lookup_insert_ne by done. apply (di_open _ I). set_solver.
  - intros Hs k Hk. apply (di_swept _ I Hs). set_solver.
Qed.

Lemma dinv_accept s s' : dinv s → acceptLoop_step s = Some s' → dinv s'.
Proof.
  intros I. unfold acceptLoop_step. pose proof (di_wg _ I) as Hw. pose proof (di_held _ I) as Hh.
  pose proof (di_listed _ I) as Hl. pose proof (di_open _ I) as Ho. pose proof (di_drained _ I) as Hd.
  pose proof (λ H, group_empty s I H) as G.
  destruct (dl_accept s) as [|c|c|c|] eqn:Ea; intros [= <-]; simpl in *.
  - split; simpl; try apply I; try done.
    + intros k [= <-] _. set_solver.
    + intros k Hk. destruct (di_handlers _ I k Hk). set_solver.
    + intros k Hk. apply elem_of_app in Hk as [Hk|Hk]; [by apply (di_conns _ I)|].
      destruct (Hh c eq_refl). set_solver by lia.
  - split; simpl; try apply I; try done; [lia|]. intros E. specialize (Hd E). destruct (G Hd). done.
  - destruct (Hh c eq_refl) as [Hn Hnone]. split; simpl; try apply I; try done.
    + rewrite map_size_insert_None by done. lia.
    + intros k [h Hk]. destruct (decide (c = k)) as [->|].
      * split; [lia|]. by apply Hl.
      * rewrite lookup_insert_ne in Hk by done. apply (di_handlers _ I). by eexists.
    + intros k Hk. right. destruct (decide (c = k)) as [->|].
      * eexists. rewrite lookup_insert_eq. done.
      * rewrite lookup_insert_ne by done. destruct (Ho k Hk) as [[= ->]|?]; done.
Qed.

Lemma dinv_handle responder c s s' : dinv s → handle_step responder c s = Some s' → dinv s'.
Proof.
  intros I. unfold handle_step. destruct (dl_handlers s !! c) as [[|req last| |]|] eqn:Hc; try done.
  - intros [= <-]. unfold handle_respond. destruct (responder req _) as [os seq]. destruct (write_all os) as [out gone].
    eapply dinv_handler; [done..|]. destruct gone; [by right|]. left. split; [done|]. by destruct last.
  - intros [= <-]. apply (dinv_handler c Returning ConnClosed _ (dl_sent s) (dl_daemon s) s I Hc). by right.
  - intros [= <-]. pose proof (di_drained _ I) as Hd. split; simpl; try apply I.
    + rewrite map_size_delete, Hc. simpl. pose proof (di_wg _ I).
      assert (size (dl_handlers s) ≠ 0%nat).
      { intros E. apply map_size_empty_inv in E. by rewrite E in Hc. } lia.
    + intros k Hk. destruct (di_held _ I k Hk). split; [done|]. rewrite lookup_delete_None. by right.
    + intros k [h Hk]. apply lookup_delete_Some in Hk as [_ Hk]. apply (di_handlers _ I). by eexists.
    + intros k Hk. destruct (di_open _ I k Hk) as [?|(h & Hh & Hne)]; [by left|right]. exists h.
      split; [|done]. apply lookup_delete_Some. split; [|done]. intros ->. congruence.
    + intros E. destruct (group_empty s I (Hd E)) as (_ & Hn & _). by rewrite Hn in Hc.
Qed.

Lemma dinv_close s s' : dinv s → Close_step s = Some s' → dinv s'.
Proof.
  intros I. unfold Close_step. pose proof (di_closed _ I) as Hcl. pose proof (di_listener _ I) as Hli.
  pose proof (di_open _ I) as Ho. pose proof (di_swept _ I) as Hs. unfold past_listener in *.
  destruct (dl_closer s) eqn:Ek; simpl in *; try done.
  - intros [= <-]. split; simpl; try apply I; try done. split; [|done]. intros E. apply Hcl in E. done.
  - intros [= <-]. split; simpl; try apply I; try done.
    + intros k Hk. apply Ho. set_solver.
    + intros _. apply Hli. by left.
    + intros _ k Hk. apply elem_of_difference in Hk as [Hk Hn]. destruct (Ho k Hk) as [Hx|(h & Hx & _)].
      * by apply (di_held _ I).
      * exfalso. apply Hn. apply elem_of_list_to_set. apply (di_handlers _ I). by eexists.
    + split; [|done]. intros E. by apply Hcl in E.
  - destruct (Z.eqb_spec (dl_wg s) 0); [|done]. intros [= <-]. split; simpl; try apply I; try done.
    + intros _. apply Hli. by right.
    + split; [|done]. intros E. by apply Hcl in E.
Qed.

(** Every step keeps it. *)
Lemma dinv_step responder a s s' : dinv s → dstep responder a s = Some s' → dinv s'.
Proof.
  intros I. pose proof (di_wg _ I) as Hw. pose proof (di_drained _ I) as Hd. pose proof (di_open _ I) as Ho.
  pose proof (di_closed _ I) as Hcl. pose proof (di_listener _ I) as Hli. pose proof (di_swept _ I) as Hsw.
  destruct a as [| | |c line err|c| | |]; cbn [dstep].
  - destruct (dl_accept s) eqn:Ea; try done. destruct (dl_listening s) eqn:El; [|done]. intros [= <-].
    pose proof (di_handlers _ I) as Hh. split; simpl; try apply I; try done.
    + intros k [= <-]. split; [done|]. apply eq_None_not_Some. intros Hx. destruct (Hh _ Hx). lia.
    + intros k Hk. destruct (Hh k Hk). split; [lia|done].
    + intros k Hk. pose proof (di_conns _ I k Hk). lia.
    + intros k Hk. apply elem_of_union in Hk as [Hk|Hk]; [left; set_solver|]. right. by destruct (Ho k Hk).
    + intros Hp. by specialize (Hli (or_intror Hp)).
  - destruct (dl_accept s) eqn:Ea; try done. intros [= <-]. simpl in Hw. split; simpl; try apply I; try done; [lia|].
    intros E. destruct (group_empty s I (Hd E)). congruence.
  - apply dinv_accept; done.
  - destruct (dl_handlers s !! c) as [[| | |]|] eqn:Hc; try done.
    destruct (String.eqb line "" && negb err); [done|]. intros [= <-]. unfold handle_read.
    destruct (if String.eqb line "" then None else decode_request line); (eapply dinv_handler; [done..|]);
      left; (split; [done|]); by destruct err.
  - by apply dinv_handle.
  - intros [= <-]. unfold Close. destruct (dl_closed s) eqn:Ec; [done|]. destruct Hcl as [Hcl _].
    split; simpl; try apply I; try done. intros [?|?]; done.
  - by apply dinv_close.
  - destruct (dl_closer s) eqn:Ek; try done. intros [= <-]. split; simpl; try apply I; try done.
    + intros _. apply Hli. by right.
    + split; [|done]. intros E. by apply Hcl in E.
Qed.

Lemma dreachable_dinv responder s : dreachable responder s → dinv s.
Proof. induction 1; [apply dinv_New|by eapply dinv_step]. Qed.

Lemma dinv_perform responder acts s s' : dinv s → dperform responder acts s = Some s' → dinv s'.
Proof.
  revert s. induction acts as [|a acts IH]; intros s I; cbn [dperform]; [by intros [= <-]|].
  destruct (dstep responder a s) eqn:E; [|done]. apply IH. by eapply dinv_step.
Qed.

(** ** Facts *)

Section facts.
Context (responder : Responder).

(** The log only grows. *)
Lemma requests_grow a s s' : dstep responder a s = Some s' → Requests s `prefix_of` Requests s'.
Proof.
  unfold Requests. destruct a; cbn [dstep]; unfold acceptLoop_step, handle_step, handle_read, handle_respond, Close, Close_step; intros E;
    repeat case_match; simplify_eq/=; try done; by eexists.
Qed.

(** A drained Close: nothing runs any more, and nothing changes afterwards. *)
Lemma drained_is_final a s s' :
  dinv s → dl_closer s = CloseReturned true → dstep responder a s = Some s' → s' = s.
Proof.
  intros I Hk. destruct (group_empty s I (di_drained _ I Hk)) as (Ha & Hh & _).
  assert (dl_closed s = true) as Hc.
  { destruct (dl_closed s) eqn:E; [done|]. apply (di_closed _ I) in E. congruence. }
  destruct a; cbn [dstep]; unfold acceptLoop_step, handle_step, Close, Close_step; rewrite ?Ha, ?Hh, ?Hk, ?Hc; try done.
  by intros [= <-].
Qed.

(** The handler of [c] can leave: its read fails, the responder returns. *)
Definition leaving (c : nat) (a : daction) : Prop := a = HandlerGo c ∨ a = HandlerRead c "" true.
Definition can_leave (c : nat) (s : life) : Prop :=
  ∃ acts s', dperform responder acts s = Some s' ∧ dl_handlers s' = delete c (dl_handlers s) ∧
    dl_accept s' = dl_accept s ∧ dl_closer s' = dl_closer s ∧ Forall (leaving c) acts.

Lemma can_leave_step c a h s s' :
  leaving c a → dstep responder a s = Some s' → dl_handlers s' = <[c := h]> (dl_handlers s) →
  dl_accept s' = dl_accept s → dl_closer s' = dl_closer s → can_leave c s' → can_leave c s.
Proof.
  intros Ha E Hh Hc Hk (acts & s2 & E2 & Hh2 & Hc2 & Hk2 & Hf). exists (a :: acts), s2.
  split_and!; [cbn [dperform]; by rewrite E| |congruence..|by apply Forall_cons_2].
  by rewrite Hh2, Hh, delete_insert_eq.
Qed.

Lemma handler_leaves_closed c s : dl_handlers s !! c = Some ConnClosed → can_leave c s.
Proof.
  intros Hc. exists [HandlerGo c]. cbn [dperform dstep]. unfold handle_step. rewrite Hc. eexists.
  split_and!; try done. apply Forall_singleton. by left.
Qed.

Lemma handler_leaves_returning c s : dl_handlers s !! c = Some Returning → can_leave c s.
Proof.
  intros Hc. eapply (can_leave_step c (HandlerGo c)); [by left|cbn [dstep]; unfold handle_step; by rewrite Hc|done..|].
  apply handler_leaves_closed. simpl. by rewrite lookup_insert_eq.
Qed.

Lemma handler_leaves_reading c s : dl_handlers s !! c = Some Reading → can_leave c s.
Proof.
  intros Hc. eapply (can_leave_step c (HandlerRead c "" true)); [by right|cbn [dstep]; by rewrite Hc|done..|].
  apply handler_leaves_returning. simpl. by rewrite lookup_insert_eq.
Qed.

Lemma respond_frame c req last s :
  ∃ h, (h = Returning ∨ h = Reading) ∧
    let s' := handle_respond responder c req last s in
    dl_handlers s' = <[c := h]> (dl_handlers s) ∧ dl_accept s' = dl_accept s ∧ dl_closer s' = dl_closer s.
Proof.
  unfold handle_respond. destruct (responder req _) as [os seq]. destruct (write_all os) as [out gone].
  exists (if gone || last then Returning else Reading). split; [destruct (gone || last); auto|done].
Qed.

Lemma handler_leaves c h s : dl_handlers s !! c = Some h → can_leave c s.
Proof.
  intros Hc. destruct h as [|req last| |].
  - by apply handler_leaves_reading.
  - destruct (respond_frame c req last s) as (h & Hor & Hh & Ha & Hk).
    apply (can_leave_step c (HandlerGo c) h _ _ (or_introl eq_refl)) in Hh; [done| |done..|].
    + cbn [dstep]. unfold handle_step. by rewrite Hc.
    + assert (dl_handlers (handle_respond responder c req last s) !! c = Some h) as Hx
        by (rewrite Hh; apply lookup_insert_eq).
      destruct Hor as [-> | ->]; [by apply handler_leaves_returning|by apply handler_leaves_reading].
  - by apply handler_leaves_returning.
  - by apply handler_leaves_closed.
Qed.

(** One line of the loop, alone: what [handle_line] says. *)
Lemma handler_line c line s :
  dl_handlers s !! c = Some Reading → c ∈ dl_open s → line ≠ "" →
  ∃ acts s', dperform responder acts s = Some s' ∧
    let '(out, gone, d) := handle_line responder line (dl_daemon s) in
    dl_daemon s' = d ∧ default "" (dl_sent s' !! c) = default "" (dl_sent s !! c) +:+ out ∧
    dl_handlers s' !! c = Some (if gone then Returning else Reading) ∧ (gone = false → c ∈ dl_open s').
Proof.
  intros Hc Ho Hl. assert (String.eqb line "" = false) as Hl' by by apply String.eqb_neq.
  assert (dstep responder (HandlerRead c line false) s = Some (handle_read c line false s)) as E1
    by (cbn [dstep]; by rewrite Hc, Hl').
  unfold handle_line. unfold handle_read in E1. rewrite Hl' in E1.
  destruct (decode_request line) as [req|].
  - eexists [HandlerRead c line false; HandlerGo c], _. split.
    { cbn [dperform]. rewrite E1. cbn [dstep]. unfold handle_step. cbn. rewrite lookup_insert_eq. reflexivity. }
    unfold handle_respond. cbn. destruct (responder req _) as [os seq]. destruct (write_all os) as [out gone].
    rewrite decide_True by done. cbn. rewrite !lookup_insert_eq, orb_false_r. split_and!; try done. by intros ->.
  - eexists [HandlerRead c line false], _. split; [cbn [dperform]; by rewrite E1|]. cbn.
    rewrite lookup_insert_eq. split_and!; try done. by rewrite append_nil_r.
Qed.

(** A connection served alone: what [handle_conn] says. *)
Lemma handler_conn c ls s :
  dl_handlers s !! c = Some Reading → c ∈ dl_open s → Forall (λ l, l ≠ "") ls →
  ∃ acts s', dperform responder acts s = Some s' ∧
    let '(out, d) := handle_conn responder ls (dl_daemon s) in
    dl_daemon s' = d ∧ default "" (dl_sent s' !! c) = default "" (dl_sent s !! c) +:+ out ∧
    dl_handlers s' !! c = Some Returning.
Proof.
  intros Hc Ho Hf. revert s Hc Ho. induction Hf as [|l ls Hl Hf IH]; intros s Hc Ho.
  - eexists [HandlerRead c "" true], _. split; [cbn; by rewrite Hc|]. cbn. rewrite lookup_insert_eq.
    split_and!; try done. by rewrite append_nil_r.
  - destruct (handler_line c l s Hc Ho Hl) as (a1 & s1 & E1 & H1). cbn [handle_conn].
    destruct (handle_line responder l (dl_daemon s)) as [[out gone] d]. destruct H1 as (Hd & Hs & Hh & Hg).
    destruct gone; [by exists a1, s1|]. destruct (IH s1 Hh (Hg eq_refl)) as (a2 & s2 & E2 & H2).
    exists (a1 ++ a2), s2. rewrite dperform_app, E1. split; [done|]. subst d.
    destruct (handle_conn responder ls (dl_daemon s1)) as [out' d']. destruct H2 as (? & H2 & ?).
    split_and!; try done. rewrite H2, Hs. by rewrite append_assoc.
Qed.

(** All of them can, one after the other. *)
Lemma handlers_leave n s :
  size (dl_handlers s) = n →
  ∃ acts s', dperform responder acts s = Some s' ∧ dl_handlers s' = ∅ ∧
    dl_accept s' = dl_accept s ∧ dl_closer s' = dl_closer s ∧
    Forall (λ a, ∃ c, is_Some (dl_handlers s !! c) ∧ leaving c a) acts.
Proof.
  revert s. induction n as [|n IH]; intros s Hn.
  - exists [], s. split_and!; try done. by apply map_size_empty_inv.
  - destruct (map_choose (dl_handlers s)) as (c & h & Hc).
    { intros E. rewrite E in Hn. by rewrite map_size_empty in Hn. }
    destruct (handler_leaves c h s Hc) as (acts & s1 & E & Hh & Ha & Hk & Hf).
    destruct (IH s1) as (acts2 & s2 & E2 & Hh2 & Ha2 & Hk2 & Hf2).
    { rewrite Hh, map_size_delete, Hc. simpl. lia. }
    exists (acts ++ acts2), s2. rewrite dperform_app, E. split_and!; [done..|congruence|congruence|].
    apply Forall_app. split; [eapply Forall_impl; [done|]; intros a ?; exists c; split; [by eexists|done]|].
    eapply Forall_impl; [done|]. intros a (k & [h' Hk'] & Hl). exists k. split; [|done].
    rewrite Hh in Hk'. apply lookup_delete_Some in Hk' as [_ ?]. by eexists.
Qed.

(** The accept loop ends once the listener is closed. *)
Lemma accept_leaves s :
  ∃ acts s', dperform responder acts s = Some s' ∧ dl_accept s' = Exited ∧ dl_closer s' = dl_closer s ∧
    Forall (λ a, a = AcceptGo ∨ a = AcceptFail) acts.
Proof.
  set (run n := replicate n AcceptGo ++ [AcceptFail]).
  destruct (dl_accept s) as [|c|c|c|] eqn:Ea;
    [exists (run 0%nat)|exists (run 3%nat)|exists (run 2%nat)|exists (run 1%nat)|exists []; by exists s].
  all: eexists; split; [cbn; unfold acceptLoop_step; rewrite Ea; cbn; reflexivity|].
  all: split_and!; [done..|]; apply Forall_app; split; [apply Forall_replicate; auto|apply Forall_singleton; auto].
Qed.

(** A waiting Close can return drained: the accept loop and the handlers leave. *)
Lemma close_drains s :
  dinv s → dl_closer s = AwaitGroup →
  ∃ acts s', dperform responder acts s = Some s' ∧ dl_closer s' = CloseReturned true.
Proof.
  intros I Hk. destruct (accept_leaves s) as (a1 & s1 & E1 & Ha1 & Hk1 & _).
  destruct (handlers_leave _ s1 eq_refl) as (a2 & s2 & E2 & Hh2 & Ha2 & Hk2 & _).
  assert (dinv s2) as I2 by eauto using dinv_perform.
  assert (dl_wg s2 = 0) as Hw by (rewrite (di_wg _ I2), Ha2, Ha1, Hh2; done).
  exists (a1 ++ a2 ++ [CloseGo]), (with_closer (CloseReturned true) s2).
  rewrite !dperform_app, E1, dperform_app, E2. cbn [dperform dstep]. unfold Close_step.
  by rewrite Hk2, Hk1, Hk, Hw.
Qed.
End facts.

(** ** Tear-down *)

(** Tear-down of the in-process daemon.  Whatever the interleaving of the
    accept loop, the handlers and Close: a Close that saw its group empty leaves
    no goroutine and no open connection, and nothing happens afterwards; once
    Close has swept the connections at most one is still open, the one that was
    accepted last; a Close that waits can return drained; and the group is never
    added to when it is empty. *)
Theorem close_tears_down responder s :
  dreachable responder s →
  (dl_closer s = CloseReturned true →
     dl_accept s = Exited ∧ dl_handlers s = ∅ ∧ dl_open s = ∅ ∧
     ∀ acts s', dperform responder acts s = Some s' → s' = s) ∧
  (swept (dl_closer s) → ∀ c, c ∈ dl_open s → S c = dl_next s) ∧
  (dl_closer s = AwaitGroup →
     ∃ acts s', dperform responder acts s = Some s' ∧ dl_closer s' = CloseReturned true) ∧
  (∀ c, dl_accept s = Registered c → 0 < dl_wg s).
Proof.
  intros R. pose proof (dreachable_dinv _ _ R) as I. split_and!.
  - intros Hk. destruct (group_empty s I (di_drained _ I Hk)) as (? & ? & ?). split_and!; [done..|].
    induction acts as [|a acts IH]; intros s'; cbn [dperform]; [by intros [= <-]|].
    destruct (dstep responder a s) as [s1|] eqn:E; [|done].
    rewrite (drained_is_final _ _ _ _ I Hk E). apply IH.
  - apply (di_swept _ I).
  - by apply close_drains.
  - intros c Ha. rewrite (di_wg _ I), Ha. simpl. lia.
Qed.

(** One connection served and closed by the sweep; a second, accepted before the
    listener was closed and registered after the sweep, stays open. *)
Definition race : list daction :=
  [AcceptOk; AcceptGo; AcceptGo; AcceptGo; AcceptOk; CloseCall; CloseGo; CloseGo; AcceptGo; AcceptGo; AcceptGo;
   CloseCall; HandlerRead 0 "" true; HandlerGo 0; HandlerGo 0; AcceptFail].

Lemma close_tears_down_witness :
  ∃ s, dperform SuccessResponder race New = Some s ∧ dl_closer s = AwaitGroup ∧ dl_open s = {[1%nat]} ∧
    dl_wg s = 1 ∧
    ∃ acts s', dperform SuccessResponder acts s = Some s' ∧ dl_closer s' = CloseReturned true.
Proof.
  eexists. split; [vm_compute; reflexivity|]. split; [reflexivity|]. split; [vm_compute; reflexivity|].
  split; [reflexivity|]. apply (close_tears_down SuccessResponder); [|reflexivity].
  apply (dperform_reachable _ race New); [constructor|vm_compute; reflexivity].
Defined.
