(* ===== verification/InboundWire.v ===== *)
(** From a notification on the socket to a captured row: the frames of
    [internal/signal/tcp_client.go] and the envelopes of
    [internal/service/inbound_listener.go], decoded by [encoding/json]. *)

From Stdlib Require Import Ascii.
From S2P Require Import Prelude Errors Domain Config GoText Json JsonFacts JsonStructs JsonOrder Prog Worker TcpClient Inbound Wire Daemon.

(** ** Envelopes as signal-cli sends them *)

Definition empty_object (_ : unit) : json := JObj [].

Definition envGroupInfo_json (g : envGroupInfo) : json := JObj [("groupId", JStr (gi_GroupID g))].

Definition envData_json (d : envData) : json :=
  JObj ([("message", nullable (ed_Message d))]
        ++ omit (is_nil (ed_Attachments d)) "attachments" (JArr (envAttachment_json <$> ed_Attachments d))
        ++ opt_member "groupInfo" envGroupInfo_json (ed_GroupInfo d)).

Definition wrapped_json (name : string) (d : option envData) : json :=
  JObj (opt_member name envData_json d).

Definition envelope_json (e : inboundEnvelope) : json :=
  JObj ([("source", JStr (ie_Source e)); ("sourceUuid", nullable (ie_SourceUUID e));
         ("timestamp", JInt (ie_Timestamp e))]
        ++ opt_member "dataMessage" envData_json (ie_Data e)
        ++ opt_member "editMessage" (wrapped_json "dataMessage") (ie_Edit e)
        ++ opt_member "receiptMessage" empty_object (ie_Receipt e)
        ++ opt_member "syncMessage" (wrapped_json "sentMessage") (ie_Sync e)
        ++ opt_member "typingMessage" empty_object (ie_Typing e)
        ++ opt_member "callMessage" empty_object (ie_Call e)).

(** What signal-cli may add to it: the members that the listener knows, at each
    level; members of other names may stand beside them. *)
Definition attachment_schema : schema :=
  SObj [("id", SLeaf); ("contentType", SLeaf); ("size", SLeaf); ("filename", SLeaf)].
Definition data_schema : schema :=
  SObj [("message", SLeaf); ("attachments", SArr attachment_schema);
        ("groupInfo", SObj [("groupId", SLeaf)])].
Definition envelope_schema : schema :=
  SObj [("source", SLeaf); ("sourceUuid", SLeaf); ("timestamp", SLeaf); ("dataMessage", data_schema);
        ("editMessage", SObj [("dataMessage", data_schema)]); ("receiptMessage", SObj []);
        ("syncMessage", SObj [("sentMessage", data_schema)]); ("typingMessage", SObj []);
        ("callMessage", SObj [])].

(** Texts are UTF-8 and numbers are [int64]s. *)
Definition attachment_valid (a : envAttachment) : Prop :=
  ValidString (ea_ID a) = true ∧ ValidString (ea_ContentType a) = true ∧ in_int64 (ea_Size a) ∧
  ValidString (ea_Filename a) = true.
Definition data_valid (o : option envData) : Prop :=
  ∀ d, o = Some d → valid_opt (ed_Message d) ∧ Forall attachment_valid (ed_Attachments d) ∧
    valid_opt (gi_GroupID <$> ed_GroupInfo d).
Definition envelope_valid (e : inboundEnvelope) : Prop :=
  ValidString (ie_Source e) = true ∧ valid_opt (ie_SourceUUID e) ∧ in_int64 (ie_Timestamp e) ∧
  data_valid (ie_Data e) ∧ data_valid (inner (ie_Edit e)) ∧ data_valid (inner (ie_Sync e)).

Lemma plain_attachment a : attachment_valid a → plain 1 (envAttachment_json a).
Proof.
  intros (H1 & H2 & H3 & H4). apply (plain_obj 0); [done|]. unfold omit.
  destruct (_ =? 0), (bool_decide _); cbn [app]; members; cbn [fst snd]; (split; [done|]);
    by apply plain_str || apply plain_int.
Qed.

(** ** Facts: decoding inverts the encoding of each part *)

Lemma decode_attachment a :
  in_int64 (ea_Size a) →
  decode_struct envAttachment_fields (envAttachment_json a) (MkEnvAttachment "" "" 0 "") = (a, None).
Proof.
  intros Hz. unfold envAttachment_json, omit. rewrite decode_struct_obj, !foldl_app.
  cbn [foldl]. rewrite (store_str envAttachment_fields _ "id" _ _ _ eq_refl).
  rewrite (store_str envAttachment_fields _ "contentType" _ _ _ eq_refl). destruct a as [i ct z fn]. cbn [ea_ID ea_ContentType ea_Size ea_Filename] in *.
  destruct (Z.eqb_spec z 0) as [->|]; case_bool_decide; subst; cbn [foldl];
    rewrite ?(store_int envAttachment_fields _ "size" z _ _ eq_refl Hz); done.
Qed.

Lemma decode_attachments l :
  Forall (λ a, in_int64 (ea_Size a)) l →
  decode_elems (MkEnvAttachment "" "" 0 "") (decode_struct envAttachment_fields) (envAttachment_json <$> l) []
  = (l, None).
Proof.
  intros H. apply decode_list. eapply Forall_impl; [exact H|]. apply decode_attachment.
Qed.

Lemma store_attachments l d e :
  Forall (λ a, in_int64 (ea_Size a)) l → ed_Attachments d = [] →
  store_member envData_fields (d, e) ("attachments", JArr (envAttachment_json <$> l))
  = (MkEnvData (ed_Message d) l (ed_GroupInfo d), e).
Proof.
  intros Hl Hd. unfold store_member.
  change (find_field envData_fields _) with (Some (slice_field (MkEnvAttachment "" "" 0 "")
    (λ d, Some (ed_Attachments d)) (λ l d, MkEnvData (ed_Message d) (default [] l) (ed_GroupInfo d))
    (decode_struct envAttachment_fields))).
  cbn [snd fst]. unfold slice_field, slice_decoder. rewrite Hd. cbn [default].
  rewrite decode_attachments by done. by destruct e.
Qed.

Lemma decode_data d :
  data_valid (Some d) → decode_struct envData_fields (envData_json d) zero_envData = (d, None).
Proof.
  intros Hv. destruct (Hv d eq_refl) as (_ & Ha & _).
  assert (Forall (λ a, in_int64 (ea_Size a)) (ed_Attachments d)) as Hz
    by (eapply Forall_impl; [exact Ha|]; by intros ? (_ & _ & ? & _)).
  unfold envData_json. rewrite decode_struct_obj, !foldl_app. cbn [foldl].
  rewrite (store_nullable envData_fields _ _ "message" _ _ _ eq_refl).
  destruct d as [m att g]. cbn [ed_Message ed_Attachments ed_GroupInfo] in *.
  assert (foldl (store_member envData_fields)
     (MkEnvData m (ed_Attachments zero_envData) (ed_GroupInfo zero_envData), None)
     (omit (is_nil att) "attachments" (JArr (envAttachment_json <$> att)))
     = (MkEnvData m att None, None)) as ->.
  { destruct att as [|a att]; [done|]. cbn [omit is_nil foldl]. by rewrite store_attachments. }
  destruct g as [[g]|]; [|done]. cbn [opt_member foldl]. unfold envGroupInfo_json. cbn [gi_GroupID].
  by rewrite (store_ptr envData_fields _ _ _ _ "groupInfo" _ (MkEnvGroupInfo g) _ _ eq_refl).
Qed.

Lemma decode_wrapped name o :
  find_field (wrapped_data name) name
    = Some (ptr_field zero_envData (λ d, d) (λ d _, d) (decode_struct envData_fields)) →
  data_valid o → decode_struct (wrapped_data name) (wrapped_json name o) None = (o, None).
Proof.
  intros Hf Hv. unfold wrapped_json. rewrite decode_struct_obj. destruct o as [d|]; [|done].
  cbn [opt_member foldl]. pose proof (decode_data d Hv) as Hd. unfold envData_json in *.
  by rewrite (store_ptr (wrapped_data name) _ _ _ _ name _ d _ _ Hf).
Qed.

(** The fields of an envelope known so far. *)
Ltac known_fields :=
  unfold zero_envelope;
  cbn [ie_Source ie_SourceUUID ie_Timestamp ie_Data ie_Edit ie_Receipt ie_Sync ie_Typing ie_Call].

Lemma decode_envelope_value e :
  envelope_valid e → decode_struct inboundEnvelope_fields (envelope_json e) zero_envelope = (e, None).
Proof.
  intros (_ & _ & Hz & Hd & He & Hy). unfold envelope_json. rewrite decode_struct_obj, !foldl_app.
  cbn [foldl]. rewrite (store_str inboundEnvelope_fields _ "source" _ _ _ eq_refl).
  known_fields. rewrite (store_nullable inboundEnvelope_fields _ _ "sourceUuid" _ _ _ eq_refl).
  known_fields. rewrite (store_int inboundEnvelope_fields _ "timestamp" _ _ _ eq_refl Hz).
  known_fields. rewrite (foldl_opt_member inboundEnvelope_fields _ _ _ _ "dataMessage" _ _ _ eq_refl);
    [|done|done|done|intros d E; apply decode_data; by rewrite <- E].
  known_fields. rewrite (foldl_opt_member inboundEnvelope_fields _ _ _ _ "editMessage" _ _ _ eq_refl);
    [|done|done|done|intros d E; apply decode_wrapped; [done|by rewrite E in He]].
  known_fields. rewrite (foldl_opt_member inboundEnvelope_fields _ _ _ _ "receiptMessage" _ _ _ eq_refl);
    [|done|done|done|by intros []].
  known_fields. rewrite (foldl_opt_member inboundEnvelope_fields _ _ _ _ "syncMessage" _ _ _ eq_refl);
    [|done|done|done|intros d E; apply decode_wrapped; [done|by rewrite E in Hy]].
  known_fields. rewrite (foldl_opt_member inboundEnvelope_fields _ _ _ _ "typingMessage" _ _ _ eq_refl);
    [|done|done|done|by intros []].
  known_fields. rewrite (foldl_opt_member inboundEnvelope_fields _ _ _ _ "callMessage" _ _ _ eq_refl);
    [|done|done|done|by intros []].
  by destruct e.
Qed.

(** ** Facts: further members are skipped *)

Lemma data_independent : independent_fields envData_fields.
Proof. independent_fields. Qed.
Lemma env_attachment_independent : independent_fields envAttachment_fields.
Proof. independent_fields. Qed.
Lemma group_independent : independent_fields envGroupInfo_fields.
Proof. independent_fields. Qed.
Lemma wrapped_independent name : independent_fields (wrapped_data name).
Proof. unfold wrapped_data. independent_fields. Qed.
Lemma envelope_independent : independent_fields inboundEnvelope_fields.
Proof. independent_fields. Qed.
Lemma nothing_independent {T} : independent_fields ([] : fields T).
Proof. intros f g H. by apply not_elem_of_nil in H. Qed.

(** The one field of a known member, and its schema. *)
Ltac known_member :=
  let s := fresh "s" in let dec := fresh "dec" in let f := fresh "f" in
  let Hs := fresh "Hs" in let Hd := fresh "Hd" in let Hf := fresh "Hf" in let Hk := fresh "Hk" in
  intros s dec Hs Hd; apply find_field_folds in Hd as (f & Hf & Hk & ->); cbn [fst] in Hs, Hk;
  rewrite !elem_of_cons, elem_of_nil in Hs; rewrite !elem_of_cons, elem_of_nil in Hf;
  repeat (destruct Hs as [Hs|Hs]; [try discriminate Hs; injection Hs as ->|]); try done;
  repeat (destruct Hf as [->|Hf]; [cbn [fst] in Hk; try (exfalso; vm_compute in Hk; discriminate Hk)|]);
  try done; clear Hk; cbn [snd].

Lemma group_reads_more g :
  reads_more (SObj [("groupId", SLeaf)]) (decode_struct envGroupInfo_fields) (envGroupInfo_json g).
Proof.
  apply reads_more_struct; [done|apply group_independent|]. unfold envGroupInfo_json.
  members. unfold envGroupInfo_fields. known_member. apply reads_more_leaf.
Qed.

Lemma attachment_reads_more a :
  reads_more attachment_schema (decode_struct envAttachment_fields) (envAttachment_json a).
Proof.
  apply reads_more_struct; [done|apply env_attachment_independent|]. unfold omit, envAttachment_fields.
  destruct (_ =? 0), (bool_decide _); cbn [app]; members; known_member; apply reads_more_leaf.
Qed.

Lemma data_reads_more d : reads_more data_schema (decode_struct envData_fields) (envData_json d).
Proof.
  apply reads_more_struct; [done|apply data_independent|].
  apply Forall_app; split; [|apply Forall_app; split].
  - members. unfold envData_fields. known_member. apply reads_more_leaf.
  - unfold omit. destruct (is_nil _); members. unfold envData_fields. known_member.
    apply reads_more_slice. intros vs [= <-]. apply Forall_fmap, Forall_true. apply attachment_reads_more.
  - apply Forall_opt_member. intros g _. unfold envData_fields. known_member.
    apply reads_more_ptr, group_reads_more.
Qed.

Lemma wrapped_reads_more name o :
  reads_more (SObj [(name, data_schema)]) (decode_struct (wrapped_data name)) (wrapped_json name o).
Proof.
  apply reads_more_struct; [done|apply wrapped_independent|].
  apply Forall_opt_member. intros d _ s dec Hs Hd. cbn [fst snd] in *.
  apply list_elem_of_singleton in Hs as [= ->].
  apply find_field_folds in Hd as (f & Hf & _ & ->). unfold wrapped_data in Hf.
  apply list_elem_of_singleton in Hf as ->. apply reads_more_ptr, data_reads_more.
Qed.

Lemma envelope_reads_more e :
  reads_more envelope_schema (decode_struct inboundEnvelope_fields) (envelope_json e).
Proof.
  apply reads_more_struct; [done|apply envelope_independent|].
  repeat (apply Forall_app; split); [|apply Forall_opt_member; intros ? _..].
  - members; unfold inboundEnvelope_fields; known_member; apply reads_more_leaf.
  - unfold inboundEnvelope_fields; known_member. apply reads_more_ptr, data_reads_more.
  - unfold inboundEnvelope_fields; known_member. apply reads_more_ptr, wrapped_reads_more.
  - unfold inboundEnvelope_fields; known_member.
    apply reads_more_ptr, reads_more_struct; [done|apply nothing_independent|constructor].
  - unfold inboundEnvelope_fields; known_member. apply reads_more_ptr, wrapped_reads_more.
  - unfold inboundEnvelope_fields; known_member.
    apply reads_more_ptr, reads_more_struct; [done|apply nothing_independent|constructor].
  - unfold inboundEnvelope_fields; known_member.
    apply reads_more_ptr, reads_more_struct; [done|apply nothing_independent|constructor].
Qed.

(** ** The whole path *)

(** The params of a "receive" notification: the envelope among other members. *)
Definition receive_json (before : list (string * json)) (w : json) (after : list (string * json)) : json :=
  JObj (before ++ ("envelope", w) :: after).

Definition notification_json (params : json) : json :=
  JObj [("jsonrpc", JStr "2.0"); ("method", JStr "receive"); ("params", params)].

Lemma plain_notification params n : 0 ≤ n → plain n params → plain (n + 1) (notification_json params).
Proof.
  intros Hn Hp. apply plain_obj; [done|]. members; (split; [done|]); cbn [snd]; by (apply plain_str || done).
Qed.

Lemma parse_plain html n v : n ≤ maxNestingDepth → plain n v → parse (marshal html v) = Some v.
Proof. intros Hn (Hi & Hc & Hd). rewrite parse_marshal_end by (done || lia). by rewrite Hc. Qed.

(** The frame of a notification, as the client decodes it. *)
Lemma decode_notification html params :
  plain (maxNestingDepth - 1) params →
  decode_frame (marshal html (notification_json params))
  = Some (MkRpcFrame None "receive" (marshal html params) "" None).
Proof.
  intros Hp. pose proof (plain_notification params (maxNestingDepth - 1) ltac:(done) Hp) as Hn.
  unfold decode_frame, Unmarshal_ok, Unmarshal, raw_field.
  rewrite (parse_plain html (maxNestingDepth - 1 + 1)) by done. destruct Hn as (Hi & _ & Hd).
  unfold notification_json in *. replace (maxNestingDepth - 1 + 1) with maxNestingDepth in Hd by done.
  rewrite !raw_object_marshal_end by done.
  cbn [map fst snd]. generalize (marshal html params). revert params Hp Hi Hd. reflexivity.
Qed.

Lemma list_filter_none_fmap {A} (f : string * json → string * A) (l : list (string * json)) name :
  (∀ kv, (f kv).1 = kv.1) → Forall (λ kv, foldName kv.1 ≠ foldName name) l →
  filter (λ kv, foldName kv.1 = foldName name) (f <$> l) = [].
Proof.
  intros Hf. induction 1 as [|kv l Hkv _ IH]; [done|]. cbn [fmap list_fmap].
  rewrite filter_cons_False; [done|]. by rewrite Hf.
Qed.

Lemma more_object fs l v' : more (SObj fs) (JObj l) v' → ∃ l', v' = JObj l'.
Proof. inversion 1; eauto. Qed.

(** The raw envelope is the text of its member. *)
Lemma raw_envelope html before w after n :
  n ≤ maxNestingDepth → plain n (receive_json before w after) →
  Forall (λ kv, foldName kv.1 ≠ foldName "envelope") (before ++ after) →
  raw_field "envelope" (marshal html (receive_json before w after)) = marshal html w.
Proof.
  intros Hn (Hi & Hc & Hd) Hk. unfold raw_field, receive_json in *.
  assert (Forall (λ kv, clean kv.1 = kv.1) (before ++ ("envelope", w) :: after)) as Hcl.
  { cbn [clean_json] in Hc. injection Hc as Hc. revert Hc. generalize (before ++ ("envelope", w) :: after).
    induction l as [|kv l IH]; intros Hc; [constructor|]. cbn [map] in Hc. injection Hc as H1 H2.
    constructor; [by rewrite <- H1 at 2|by apply IH]. }
  assert (raw_object (marshal html (JObj (before ++ ("envelope", w) :: after)))
          = (λ kv, (kv.1, marshal html kv.2)) <$> (before ++ ("envelope", w) :: after)) as ->.
  { assert (∃ kv l, before ++ ("envelope", w) :: after = kv :: l) as (kv & l & E)
      by (destruct before; eauto). rewrite E in *. rewrite raw_object_marshal_end by (done || lia).
    apply list_fmap_ext. intros i x Hx. by rewrite (Forall_lookup_1 _ _ _ _ Hcl Hx). }
  apply Forall_app in Hk as [Hb Ha]. rewrite fmap_app, filter_app.
  rewrite list_filter_none_fmap by done. cbn [app fmap list_fmap].
  rewrite filter_cons_True by done. by rewrite list_filter_none_fmap.
Qed.

(** Reading the wrapper never fails on an object. *)
Lemma wrapper_reads l :
  (foldl (store_member [("envelope", λ _ u, (u, None))]) (tt, None) l).2 = None.
Proof.
  induction l as [|kv l IH] using rev_ind; [done|]. rewrite foldl_app. cbn [foldl]. unfold store_member at 1.
  destruct (find_field _ kv.1) as [dec|] eqn:E; [|done].
  apply find_field_folds in E as (f & ->%list_elem_of_singleton & _ & ->). cbn. by rewrite IH.
Qed.

Lemma plain_member n l kv : kv ∈ l → plain n (JObj l) → plain n kv.2.
Proof.
  intros Hin (Hi & Hc & Hd). split_and!.
  - cbn [int_numbers] in Hi. rewrite (foldr_and_Forall (λ kv, int_numbers kv.2)), Forall_forall in Hi.
    by apply Hi.
  - cbn [clean_json] in Hc. injection Hc as Hc. clear Hi Hd. revert Hc.
    induction Hin as [kv l|kv x l _ IH]; cbn [map]; intros [= H1 H2]; [by destruct kv; injection H1|by apply IH].
  - clear Hi Hc. revert Hd. cbn [nesting]. induction Hin as [kv l|kv x l _ IH]; cbn [foldr]; lia.
Qed.

(** The two decodings of [parseEnvelope] on the params of a notification. *)
Lemma parse_receive html before w after e :
  envelope_valid e → more envelope_schema (envelope_json e) w →
  plain (maxNestingDepth - 1) (receive_json before w after) →
  Forall (λ kv, foldName kv.1 ≠ foldName "envelope") (before ++ after) →
  parseEnvelope decode_wrapper decode_envelope (marshal html (receive_json before w after))
  = Some (e, marshal html w).
Proof.
  intros He Hm Hp Hk.
  assert (plain (maxNestingDepth - 1) w) as Hw by (eapply (plain_member _ _ ("envelope", w)); [|exact Hp];
    apply elem_of_app; right; left).
  unfold parseEnvelope, decode_wrapper, Unmarshal_ok, Unmarshal.
  rewrite (parse_plain html (maxNestingDepth - 1)) by done.
  rewrite (raw_envelope html before w after (maxNestingDepth - 1)) by done.
  unfold receive_json. rewrite decode_struct_obj.
  pose proof (wrapper_reads (before ++ ("envelope", w) :: after)) as Hr.
  destruct (foldl _ _ _) as [u [err|]]; [done|]. clear Hr.
  assert (marshal html w ≠ "") as Hne.
  { destruct (more_object _ _ _ Hm) as [l ->]. by destruct (marshal_obj_brace html l) as [b ->]; destruct b. }
  rewrite bool_decide_eq_false_2 by done.
  unfold decode_envelope, Unmarshal_ok, Unmarshal. rewrite (parse_plain html (maxNestingDepth - 1)) by done.
  by rewrite (envelope_reads_more e w _ e Hm (decode_envelope_value e He)).
Qed.

(** The insert an envelope asks for. *)
Definition capture (html : bool) (w : json) (e : inboundEnvelope) : InsertInboundParams :=
  MkInsertInboundParams (ie_Source e) (ie_SourceUUID e) (ie_Timestamp e) (groupIDOf e) (contentOf e)
    (marshal_env_attachments (attachmentsOf e)) (marshal html w).

Definition row_of (jsonb : string → string) (u : uuid) (now : time) (p : InsertInboundParams) : inbound_row :=
  MkInboundRow u (ii_Source p) (ii_SourceUuid p) (ii_SourceTimestamp p) (ii_GroupID p) (ii_Content p)
    (jsonb (ii_Attachments p)) (jsonb (ii_Raw p)) now.

Lemma Insert_fresh storable jsonb u now p t :
  storable p = true → (∀ r, r ∈ t → ¬ same_key p r ∧ in_id r ≠ u) →
  (inbound_Insert storable jsonb u now p t).2 = t ++ [row_of jsonb u now p].
Proof.
  intros Hs Hf. unfold inbound_Insert, InsertInbound. rewrite Hs. cbn [negb].
  assert (∀ f : inbound_row → bool, (∀ r, r ∈ t → f r = false) → existsb f t = false) as G.
  { intros f Hn. apply not_true_is_false. intros (r & Hin & Hr)%existsb_exists.
    rewrite (Hn r) in Hr; [done|by apply list_elem_of_In]. }
  rewrite G by (intros r Hr; apply bool_decide_eq_false; by apply (Hf r Hr)).
  rewrite G by (intros r Hr; apply bool_decide_eq_false; by apply (Hf r Hr)). done.
Qed.

(** ** What a captured row holds *)

(** The messages an envelope can carry, in the order of preference. *)
Definition messages (e : inboundEnvelope) : list envData :=
  omap id [ie_Data e; mjoin (ie_Edit e); mjoin (ie_Sync e)].

Definition text_of (d : envData) : option string := t ← ed_Message d; guard (t ≠ "");; Some t.
Definition group_of (d : envData) : option string :=
  g ← ed_GroupInfo d; guard (gi_GroupID g ≠ "");; Some (gi_GroupID g).
Definition files_of (d : envData) : option (list envAttachment) :=
  guard (ed_Attachments d ≠ []);; Some (ed_Attachments d).

(** The columns of the row of envelope [e], whose JSON is [w]: each of group, text
    and attachments from the first message that has one, and the JSON columns
    with the same value. *)
Record captured (e : inboundEnvelope) (w : json) (r : inbound_row) : Prop := MkCaptured {
  cap_source : in_source r = ie_Source e;
  cap_source_uuid : in_source_uuid r = ie_SourceUUID e;
  cap_timestamp : in_source_timestamp r = ie_Timestamp e;
  cap_group : in_group_id r = head (omap group_of (messages e));
  cap_text : in_content r = head (omap text_of (messages e));
  cap_attachments : ∃ j, parse (in_attachments r) = Some j ∧
    json_same (JArr (envAttachment_json <$> default [] (head (omap files_of (messages e))))) j;
  cap_raw : ∃ j, parse (in_raw r) = Some j ∧ json_same w j;
}.

Lemma contentOf_first e : contentOf e = head (omap text_of (messages e)).
Proof.
  unfold contentOf, messages, message_in, nonempty_str, text_of, inner.
  destruct (ie_Data e) as [[[m1|] ? ?]|], (ie_Edit e) as [[[[m2|] ? ?]|]|],
    (ie_Sync e) as [[[[m3|] ? ?]|]|]; csimpl; repeat case_bool_decide; repeat case_guard; done.
Qed.

Lemma groupIDOf_first e : groupIDOf e = head (omap group_of (messages e)).
Proof.
  unfold groupIDOf, messages, group_in, nonempty_str, group_of, inner.
  destruct (ie_Data e) as [[? ? [[g1]|]]|], (ie_Edit e) as [[[? ? [[g2]|]]|]|],
    (ie_Sync e) as [[[? ? [[g3]|]]|]|]; csimpl; repeat case_bool_decide; repeat case_guard; done.
Qed.

Lemma attachmentsOf_first e : attachmentsOf e = default [] (head (omap files_of (messages e))).
Proof.
  unfold attachmentsOf, messages, attachments_in, files_of, inner.
  destruct (ie_Data e) as [[? [|a1 l1] ?]|], (ie_Edit e) as [[[? [|a2 l2] ?]|]|],
    (ie_Sync e) as [[[? [|a3 l3] ?]|]|]; csimpl; repeat case_guard; done.
Qed.

Lemma attachmentsOf_valid e : envelope_valid e → Forall attachment_valid (attachmentsOf e).
Proof.
  intros (_ & _ & _ & Hd & He & Hy). unfold attachmentsOf.
  assert (∀ o, data_valid o → Forall attachment_valid (attachments_in o)) as V.
  { intros [d|] H; [|constructor]. by destruct (H d eq_refl) as (_ & ? & _). }
  pose proof (V _ Hd) as V1. pose proof (V _ He) as V2. pose proof (V _ Hy) as V3.
  destruct (attachments_in (ie_Data e)); [|done]. by destruct (attachments_in (inner (ie_Edit e))).
Qed.

Lemma attachments_unique l : unique_keys (JArr (envAttachment_json <$> l)).
Proof.
  cbn [unique_keys]. apply (foldr_and_Forall unique_keys), Forall_fmap, Forall_true. intros a.
  change (unique_keys (envAttachment_json a)). unfold envAttachment_json, omit.
  destruct (ea_Size a =? 0), (bool_decide (ea_Filename a = "")); cbn; (split; [|by repeat split]);
    apply (bool_decide_unpack _); vm_compute; done.
Qed.

Lemma captured_row `{Jsonb} html w e u now :
  envelope_valid e → plain (maxNestingDepth - 1) w → unique_keys w →
  captured e w (row_of jsonb u now (capture html w e)).
Proof.
  intros He Hw Hu. split; cbn [row_of capture in_source in_source_uuid in_source_timestamp in_group_id
    in_content in_attachments in_raw ii_Source ii_SourceUuid ii_SourceTimestamp ii_GroupID ii_Content
    ii_Attachments ii_Raw]; try done.
  - apply groupIDOf_first.
  - apply contentOf_first.
  - rewrite <- attachmentsOf_first. unfold marshal_env_attachments.
    assert (plain 2 (JArr (envAttachment_json <$> attachmentsOf e))) as Hp.
    { apply (plain_arr 1); [done|]. rewrite Forall_fmap.
      eapply Forall_impl; [by apply attachmentsOf_valid|]. apply plain_attachment. }
    apply jsonb_value; [by apply (plain_parse 2)|apply Hp|apply attachments_unique].
  - apply jsonb_value; [by apply (parse_plain html (maxNestingDepth - 1))|apply Hw|done].
Qed.

(** ** Properties *)

(** C14: a message that signal-cli publishes is captured whole.  The notification
    is one line in the compact form of [encoding/json], with or without HTML
    escapes, in UTF-8 and with integers for numbers; its envelope may have its
    members in any order and any further members at every level.  When the
    reader gets that line and the events channel has room, it queues the event
    and changes nothing else.  Handling the event, when its kind is not ignored,
    Postgres accepts its texts and no row has its source and timestamp, adds
    exactly one row: with the
    envelope's source, source uuid and timestamp; with the group, the text and
    the attachments of the first of its data, edited and synced message that has
    one; and with the same JSON value as the whole envelope in the JSONB column
    [raw]. *)
Theorem received_message_is_captured `{Jsonb} cfg storable ignore html before w after e c s :
  envelope_valid e → more envelope_schema (envelope_json e) w → unique_keys w →
  plain (maxNestingDepth - 1) (receive_json before w after) →
  Forall (λ kv, foldName kv.1 ≠ foldName "envelope") (before ++ after) →
  ie_Source e ≠ "" → ie_Timestamp e ≠ 0 → filtered ignore e = false →
  c_dialer c = DReading → (length (c_events c) < events_cap)%nat →
  storable (capture html w e) = true →
  (∀ r, r ∈ is_table s → key_of r ≠ (ie_Source e, ie_Timestamp e) ∧
                         in_id r ≠ default uuid_Nil (head (is_ids s))) →
  let line := marshal html (notification_json (receive_json before w after)) +:+ newline in
  let ev := MkEvent "receive" (marshal html (receive_json before w after)) in
  tstep frame_Unmarshal timestamp_of cfg (TLine (String.list_ascii_of_string line)) c
    = Next (set_events (c_events c ++ [ev]) (c_dropped c) c) ∧
  ∃ r, is_table (interp (inbound_do storable jsonb)
         (handle decode_wrapper decode_envelope marshal_env_attachments ignore ev) s).2
       = is_table s ++ [r] ∧
    captured e w r ∧ in_id r = default uuid_Nil (head (is_ids s)) ∧ in_received_at r = is_now s.
Proof.
  intros He Hm Hu Hp Hk Hs Hts Hf Hd Hroom Hst Hfresh line ev. split.
  - cbn [tstep step_dialer]. rewrite Hd. f_equal. unfold dispatchFrame. subst line.
    unfold notification_json at 1. rewrite (proj1 (frame_Unmarshal_html html _)).
    fold (notification_json (receive_json before w after)).
    destruct (String.list_ascii_of_string (marshal html (notification_json _))) as [|a rest] eqn:El; [done|].
    rewrite <- El. unfold notification_json at 1. rewrite (proj2 (frame_Unmarshal_html html _)).
    fold (notification_json (receive_json before w after)).
    rewrite decode_notification by done. unfold notify. simpl. by apply Nat.ltb_lt in Hroom as ->.
  - eexists. rewrite handle_table. unfold wanted. cbn [ev ev_Method ev_Params].
    rewrite bool_decide_eq_true_2 by done. cbn [negb]. rewrite (parse_receive html before w after e) by done.
    rewrite Hf, bool_decide_eq_false_2 by done. apply Z.eqb_neq in Hts. rewrite Hts. cbn [orb].
    fold (capture html w e). split; [by apply Insert_fresh|].
    split; [|done]. apply captured_row; [done| |done].
    eapply (plain_member _ _ ("envelope", w)); [|exact Hp]. apply elem_of_app; right; left.
Qed.

(** A column that keeps its text. *)
#[local] Instance text_kept : Jsonb.
Proof. refine {| jsonb := λ s, s |}. intros w j Hw _ _. exists j. split; [done|apply json_same_refl]. Defined.

Definition demo_message : inboundEnvelope :=
  MkInboundEnvelope "+380111111111" (Some "u-1") 1700000001
    (Some (MkEnvData (Some "hi <there>") [MkEnvAttachment "a1" "image/png" 42 ""] (Some (MkEnvGroupInfo "g=="))))
    None None None None None.

(** Its envelope as signal-cli might send it: with further members, in another
    order. *)
Definition demo_group : list (string * json) := [("groupId", JStr "g=="); ("type", JStr "DELIVER")].
Definition demo_data : list (string * json) :=
  [("message", JStr "hi <there>");
   ("attachments", JArr [JObj [("id", JStr "a1"); ("contentType", JStr "image/png"); ("size", JInt 42)]]);
   ("groupInfo", JObj (rev demo_group)); ("timestamp", JInt 1700000001)].
Definition demo_members : list (string * json) :=
  [("source", JStr "+380111111111"); ("sourceUuid", JStr "u-1"); ("timestamp", JInt 1700000001);
   ("dataMessage", JObj (rev demo_data)); ("sourceName", JStr "Bob")].
Definition demo_json : json := JObj (rev demo_members).

Ltac rest_by_rev := apply Permutation_sym, Permutation_rev.
Ltac distinct := apply (bool_decide_unpack _); vm_compute; done.

(** The members of the schema, one after the other. *)
Ltac each_member :=
  cbn; repeat (apply Forall2_cons_2; [split; [reflexivity|eexists; split; [by repeat constructor|]]|]);
  try apply Forall2_nil_2; try apply more_leaf.

Lemma demo_more : more envelope_schema (envelope_json demo_message) demo_json.
Proof.
  unfold demo_json.
  eapply (more_obj _ _ (take 4 demo_members) (drop 4 demo_members)); [|members; distinct|rest_by_rev|distinct].
  each_member.
  eapply (more_obj _ _ (take 3 demo_data) (drop 3 demo_data)); [|members; distinct|rest_by_rev|distinct].
  each_member.
  - apply more_arr. apply Forall2_cons_2; [|apply Forall2_nil_2].
    eapply (more_obj _ _ _ []); [|constructor|by rewrite app_nil_r|distinct]. each_member.
  - eapply (more_obj _ _ (take 1 demo_group) (drop 1 demo_group)); [|members; distinct|rest_by_rev|distinct].
    each_member.
Qed.

Lemma demo_plain : plain (maxNestingDepth - 1) (receive_json [] demo_json [("account", JStr "+1")]).
Proof.
  split; [|split; [vm_compute; reflexivity|vm_compute; discriminate]].
  cbn -[FormatInt in_int64]. repeat (split; try exact I); eexists; (split; [|reflexivity]); split; vm_compute; congruence.
Qed.

Lemma received_message_is_captured_witness :
  ∃ r, is_table (interp (inbound_do (λ _, true) (λ s, s))
         (handle decode_wrapper decode_envelope marshal_env_attachments demo_ignore
           (MkEvent "receive" (marshal true (receive_json [] demo_json [("account", JStr "+1")])))) demo_state).2
       = [r] ∧ captured demo_message demo_json r ∧ in_content r = Some "hi <there>".
Proof.
  destruct (received_message_is_captured tcp_cfg (λ _, true) demo_ignore true [] demo_json
    [("account", JStr "+1")] demo_message
    (MkTCPClient false false (Some 0%nat) 1 0 {[0%nat]} ∅ ∅ [] [] DReading ∅ []) demo_state)
    as (_ & r & E & C & _);
    [|apply demo_more| |apply demo_plain| |done|done|reflexivity|reflexivity|apply Nat.ltb_lt; reflexivity
     |reflexivity|intros r Hr; by apply elem_of_nil in Hr|].
  - split_and!; [done|by intros ? [= <-]|done| |done|done]. intros d [= <-].
    split_and!; [by intros ? [= <-]| |by intros ? [= <-]]. by apply Forall_singleton.
  - cbn. repeat split_and!; try exact I; distinct.
  - members. distinct.
  - exists r. split; [exact E|]. split; [exact C|]. rewrite (cap_text _ _ _ C). vm_compute. reflexivity.
Defined.
