(* ===== verification/Handler.v ===== *)
(** [internal/handler]: the HTTP edge.  The multipart endpoint over the enqueue
    service, the operational endpoints over the repository, and the translation
    of internal errors into the Conjure errors of the API. *)

From S2P Require Import Prelude Errors Domain Sqlc SqlcFacts Outbox Repo Queries Prog SendMessage HttpClient.

(** ** Errors *)

Section errors.
Context `{ConjureRuntime}.

(** The generated [Is...] predicates: the type of the first Conjure error of the
    chain. *)
Definition IsConjure (p : conjure_error → bool) (e : error) : bool :=
  match GetConjureError e with Some c => p c | None => false end.

Definition IsAttachmentUploadFailed : error → bool :=
  IsConjure (λ c, match c with AttachmentUploadFailed _ => true | _ => false end).
Definition IsIdempotencyConflict : error → bool :=
  IsConjure (λ c, match c with IdempotencyConflict _ => true | _ => false end).
Definition IsInternalServiceError : error → bool :=
  IsConjure (λ c, match c with InternalServiceError => true | _ => false end).
Definition IsInvalidSignalMessage : error → bool :=
  IsConjure (λ c, match c with InvalidSignalMessage _ _ => true | _ => false end).
Definition IsSenderMismatch : error → bool :=
  IsConjure (λ c, match c with SenderMismatch _ _ => true | _ => false end).
Definition IsSignalCliUnavailable : error → bool :=
  IsConjure (λ c, match c with SignalCliUnavailable _ _ => true | _ => false end).
Definition IsSignalMessageNotFound : error → bool :=
  IsConjure (λ c, match c with SignalMessageNotFound _ => true | _ => false end).

Definition mapToConjureError (e : error) : error :=
  if IsIdempotencyConflict e || IsInvalidSignalMessage e || IsSignalMessageNotFound e
     || IsSenderMismatch e || IsAttachmentUploadFailed e || IsSignalCliUnavailable e
     || IsInternalServiceError e
  then e
  else if Is e ErrNotFound then Conjure (SignalMessageNotFound "") e
  else if Is e ErrIdempotencyConflict then Conjure (IdempotencyConflict "") e
  else Conjure InternalServiceError (Wrap e "internal service error").
End errors.

(** [errors.As] with a Conjure error as target: the first one that unwrapping
    meets. *)
Fixpoint as_conjure (e : error) : option conjure_error :=
  match e with
  | Conjure c _ => Some c
  | Wrap c _ => as_conjure c
  | _ => None
  end.

(** What [writeError] and [writeAccepted] put on the wire; an error that is not a
    Conjure error becomes the runtime's internal error. *)
Inductive response :=
| Accepted (id : uuid)
| ErrorResponse (c : conjure_error)
| InternalResponse.

Definition writeError (e : error) : response :=
  match as_conjure e with Some c => ErrorResponse c | None => InternalResponse end.

Section handler.
Context `{ConjureRuntime}.
Variable errorText : error → string.
Variable uuidString : uuid → string.

(** ** The multipart endpoint *)

Record mpart := MkMpart {
  mp_FormName : string;
  mp_FileName : string;
  mp_ContentType : string;
  mp_Body : string;
}.

(** What is left of the request body: parts, then the end or a broken stream. *)
Record multipart_reader := MkReader { mr_parts : list mpart; mr_error : option error }.

Definition reader_NextPart (r : multipart_reader) : res mpart * multipart_reader :=
  match mr_parts r with
  | p :: l => (Ok p, MkReader l (mr_error r))
  | [] => (Err (default EOF (mr_error r)), r)
  end.

Record CreateSignalMessageRequest := MkCreateRequest {
  cr_ExternalId : string;
  cr_IdempotencyKey : option string;
  cr_Recipient : option string;
  cr_GroupId : option string;
  cr_SenderPhoneNumber : option string;
  cr_Content : string;
  cr_QuoteResultId : option string;
  cr_TimeoutSeconds : option Z;
  cr_MaxAttempts : option Z;
}.

Definition toCreateMessage (i : CreateSignalMessageRequest) : CreateMessage :=
  MkCreateMessage (cr_ExternalId i) (cr_IdempotencyKey i) (cr_Recipient i) (cr_GroupId i)
    (cr_SenderPhoneNumber i) (cr_Content i) (cr_QuoteResultId i) (cr_TimeoutSeconds i)
    (cr_MaxAttempts i).

(** [codecs.JSON.Decode], of the Conjure runtime. *)
Variable decode_metadata : string → res CreateSignalMessageRequest.

Definition invalid_message (cause : error) (field reason : string) : error :=
  Conjure (InvalidSignalMessage field reason) cause.

Definition splitMetadata (mr : multipart_reader) : res CreateMessage * multipart_reader :=
  let '(first, mr') := reader_NextPart mr in
  match first with
  | Err e =>
      (Err (if Is e EOF
            then invalid_message (ErrMsg "missing metadata part") "metadata" "missing"
            else invalid_message (Wrap e "read first part") "metadata" (errorText e)), mr')
  | Ok p =>
      if negb (bool_decide (mp_FormName p = "metadata")) then
        (Err (invalid_message (ErrMsg "metadata must be the first part") "metadata"
                "must be first part"), mr')
      else match decode_metadata (mp_Body p) with
           | Err e => (Err (invalid_message (Wrap e "decode metadata") "metadata" "invalid JSON"), mr')
           | Ok req => (Ok (toCreateMessage req), mr')
           end
  end.

(** [( *multipartAttachments).Next]; every branch of its loop returns. *)
Definition attachments_Next (mr : multipart_reader) : res AttachmentPart * multipart_reader :=
  let '(part, mr') := reader_NextPart mr in
  match part with
  | Err e =>
      (Err (if Is e EOF then EOF
            else invalid_message (Wrap e "next attachment part") "attachments" (errorText e)), mr')
  | Ok p =>
      if bool_decide (mp_FormName p = "attachments") then
        (Ok (MkAttachmentPart (mp_FileName p) (mp_ContentType p) (mp_Body p)), mr')
      else if bool_decide (mp_FormName p = "metadata") then
        (Err (invalid_message (ErrMsg "duplicate metadata part") "metadata" "duplicate"), mr')
      else (Err (invalid_message (ErrMsg "unexpected part name") "part" (mp_FormName p)), mr')
  end.

(** The service's calls behind the endpoint: the parts come from the request, and
    the repository, the object store, the clock and the UUIDs from any backend,
    which may answer as it likes. *)
Context {St : Type} (backend : ∀ X, EnqueueE X → St → X * St).

Definition serve_do (X : Type) (e : EnqueueE X)
    : multipart_reader * St → X * (multipart_reader * St) :=
  match e in EnqueueE X return multipart_reader * St → X * (multipart_reader * St) with
  | NextPart => λ '(mr, s), let '(r, mr') := attachments_Next mr in (r, (mr', s))
  | Insert_ p => λ '(mr, s), let '(r, s') := backend _ (Insert_ p) s in (r, (mr, s'))
  | GetByIdempotencyKey_ k => λ '(mr, s),
      let '(r, s') := backend _ (GetByIdempotencyKey_ k) s in (r, (mr, s'))
  | Put_ k b n c => λ '(mr, s), let '(r, s') := backend _ (Put_ k b n c) s in (r, (mr, s'))
  | Remove_ b k => λ '(mr, s), let '(r, s') := backend _ (Remove_ b k) s in (r, (mr, s'))
  | NewUUID => λ '(mr, s), let '(r, s') := backend _ NewUUID s in (r, (mr, s'))
  | EnqueueNow => λ '(mr, s), let '(r, s') := backend _ EnqueueNow s in (r, (mr, s'))
  | EnqueueLog t => λ '(mr, s), let '(r, s') := backend _ (EnqueueLog t) s in (r, (mr, s'))
  end.

(** [( *MultipartHandler).ServeHTTP]: the method, the outcome of
    [req.MultipartReader()] and the content type header come with the request. *)
Record request := MkRequest {
  rq_Method : string;
  rq_ContentType : string;
  rq_Reader : res multipart_reader;
}.

Definition ServeHTTP (senderPhone : string) (req : request) (s : St) : response * St :=
  if negb (bool_decide (rq_Method req = "POST")) then
    (writeError (invalid_message (ErrMsg "method not allowed") "method" (rq_Method req)), s)
  else match rq_Reader req with
  | Err e => (writeError (invalid_message (Wrap e "expected multipart/form-data") "contentType"
                            (rq_ContentType req)), s)
  | Ok mr =>
      let '(meta, mr') := splitMetadata mr in
      match meta with
      | Err e => (writeError e, s)
      | Ok m =>
          let fuel := S (length (mr_parts mr')) in
          let '(r, (_, s')) :=
            interp serve_do (Enqueue uuidString senderPhone fuel m true) (mr', s) in
          match r with
          | Some (Ok res) => (Accepted (er_ID res), s')
          | Some (Err e) => (writeError (mapToConjureError e), s')
          | None => (InternalResponse, s')            (* the fuel covers every part *)
          end
      end
  end.

(** ** Operational endpoints *)

(** [SignalMessageStatus.Value()] of the generated enum. *)
Definition conjure_Value (v : string) : string :=
  if bool_decide (v ∈ enum_out <$> all_statuses) then v else "UNKNOWN".

Record ConjureAttachment := MkConjureAttachment {
  ca_Bucket : string;
  ca_Filename : string;
  ca_MimeType : option string;
  ca_Size : option Z;
}.

(** [safelong.NewSafeLong] of the palantir/pkg module: the value, unless it is out
    of the safe range. *)
Variable safe_long : Z → option Z.

Definition toConjureAttachments (l : Attachments) : list ConjureAttachment :=
  (λ a, MkConjureAttachment (att_Bucket a) (att_Filename a)
          (if bool_decide (att_MimeType a = "") then None else Some (att_MimeType a))
          (if 0 <? att_Size a then safe_long (att_Size a) else None)) <$> l.

Record SignalMessageInfo := MkSignalMessageInfo {
  si_Id : uuid;
  si_ExternalId : string;
  si_IdempotencyKey : option string;
  si_Recipient : option string;
  si_GroupId : option string;
  si_SenderPhoneNumber : string;
  si_Content : string;
  si_Attachments : list ConjureAttachment;
  si_Attempts : Z;
  si_MaxAttempts : Z;
  si_NextAttemptAt : time;
  si_TimeoutAt : option time;
  si_Status : string;
  si_LastError : option string;
  si_ResultId : option string;
  si_QuoteResultId : option string;
  si_CorrelationId : string;
  si_CreatedAt : time;
  si_ModifiedAt : time;
}.

Definition domainToConjure (m : SignalMessage) : SignalMessageInfo :=
  MkSignalMessageInfo (msg_ID m) (msg_ExternalID m) (msg_IdempotencyKey m) (msg_Recipient m)
    (msg_GroupID m) (msg_SenderPhoneNumber m) (msg_Content m)
    (toConjureAttachments (msg_Attachments m)) (msg_Attempts m) (msg_MaxAttempts m)
    (msg_NextAttemptAt m) (msg_TimeoutAt m) (msg_Status m) (msg_LastError m) (msg_ResultID m)
    (msg_QuoteResultID m) (msg_CorrelationID m) (msg_CreatedAt m) (msg_ModifiedAt m).

Definition notFoundOrInternal (id : uuid) (e : error) : error :=
  if Is e ErrNotFound
  then Conjure (SignalMessageNotFound (uuidString id)) (Wrap e "signal message not found")
  else mapToConjureError e.

Definition isOperatorAssignableStatus (s : SignalMessageStatus) : bool :=
  if bool_decide (s = StatusPending ∨ s = StatusSent ∨ s = StatusFailed ∨
                  s = StatusPermanentFailed ∨ s = StatusTimedOut) then true
  else if bool_decide (s = StatusSending) then false
  else false.

Definition GetSignalMessage (id : uuid) (t : table) : res SignalMessageInfo :=
  match repo_GetByID id t with
  | Err e => Err (notFoundOrInternal id e)
  | Ok row => Ok (domainToConjure row)
  end.

Definition UpdateSignalMessage (now : time) (id : uuid) (bodyStatus : string) (t : table)
    : res SignalMessageInfo * table :=
  let target := conjure_Value bodyStatus in
  if negb (isOperatorAssignableStatus target) then
    (Err (invalid_message (ErrMsg "status not operator-assignable") "status"
            "must be one of PENDING, SENT, FAILED, PERMANENT_FAILED, TIMED_OUT"), t)
  else
    let '(r, t') := repo_UpdateStatus now id target t in
    (match r with
     | Err e => Err (notFoundOrInternal id e)
     | Ok row => Ok (domainToConjure row)
     end, t').

Definition ResendSignalMessage (now : time) (id : uuid) (t : table)
    : res SignalMessageInfo * table :=
  match repo_GetByID id t with
  | Err e => (Err (notFoundOrInternal id e), t)
  | Ok _ =>
      let '(err, t') := repo_Resend now id t in
      match err with
      | Some e => (Err (mapToConjureError e), t')
      | None =>
          (match repo_GetByID id t' with
           | Err e => Err (notFoundOrInternal id e)
           | Ok row => Ok (domainToConjure row)
           end, t')
      end
  end.

(** [coalescePositive], [coalesceNonNegative] and [intPtrToInt32]: the conversion
    to int32 wraps. *)
Definition listDefaultLimit : Z := 50.

Definition coalescePositive (v : option Z) (fallback : Z) : Z :=
  match v with
  | Some n => if n <=? 0 then fallback else int32 n
  | None => fallback
  end.

Definition coalesceNonNegative (v : option Z) : Z :=
  match v with
  | Some n => if n <? 0 then 0 else int32 n
  | None => 0
  end.

Definition intPtrToInt32 (v : option Z) : option Z :=
  match v with Some n => Some (int32 n) | None => None end.

Definition conjureToDomainStatus (s : option string) : option SignalMessageStatus :=
  match s with Some v => Some (conjure_Value v) | None => None end.

Definition dateTimeToTime (d : option time) : option time :=
  match d with Some t => Some t | None => None end.

Variable ILIKE : string → string → bool.
Variable day_label : time → string.
Variable minus_30_days : time → time.

Definition ListSignalMessages (q : option string) (limit offset : option Z)
    (createdAtFrom createdAtTo : option time) (status : option string) (attempts : option Z)
    (t : table) : res (list SignalMessageInfo * Z) :=
  let filters := MkListFilters q (conjureToDomainStatus status) (intPtrToInt32 attempts)
                   (dateTimeToTime createdAtFrom) (dateTimeToTime createdAtTo)
                   (coalescePositive limit listDefaultLimit) (coalesceNonNegative offset) in
  match repo_List ILIKE filters t with
  | Err e => Err (mapToConjureError e)
  | Ok rows =>
      match repo_Count ILIKE filters t with
      | Err e => Err (mapToConjureError e)
      | Ok total => Ok (domainToConjure <$> rows, total)
      end
  end.

Definition GetSignalMessagesStats (now : time) (t : table)
    : res (gmap string Z * list StatsPerDayRow) :=
  match repo_StatsCounts t with
  | Err e => Err (mapToConjureError e)
  | Ok counts =>
      match repo_StatsPerDay day_label minus_30_days now t with
      | Err e => Err (mapToConjureError e)
      | Ok perDay => Ok (foldl (λ m '(s, n), <[s := n]> m) ∅ counts, perDay)
      end
  end.

(** The groups proxy. *)
Definition handler_ListGroups (decode : string → option listGroupsResponse)
    (cfg : Config.SignalCliHTTP) : prog HttpE (res (list SignalGroupInfo)) :=
  r ← ListGroups decode cfg;
  mret (match r with Err e => Err (mapToConjureError e) | Ok g => Ok g end).
End handler.

(** ** Facts *)

Lemma as_conjure_first e : as_conjure e = head (omap conjure_of (causes e)).
Proof. induction e; csimpl; try done. Qed.

(** Every class of error the generated predicates know. *)
Lemma known_conjure `{ConjureRuntime} e :
  IsIdempotencyConflict e || IsInvalidSignalMessage e || IsSignalMessageNotFound e
  || IsSenderMismatch e || IsAttachmentUploadFailed e || IsSignalCliUnavailable e
  || IsInternalServiceError e = match as_conjure e with Some _ => true | None => false end.
Proof.
  unfold IsIdempotencyConflict, IsInvalidSignalMessage, IsSignalMessageNotFound, IsSenderMismatch,
    IsAttachmentUploadFailed, IsSignalCliUnavailable, IsInternalServiceError, IsConjure.
  rewrite GetConjureError_first, <- as_conjure_first. by destruct (as_conjure e) as [[]|].
Qed.

Lemma writeError_mapped `{ConjureRuntime} e :
  writeError (mapToConjureError e) =
  ErrorResponse match as_conjure e with
                | Some c => c
                | None => if Is e ErrNotFound then SignalMessageNotFound ""
                          else if Is e ErrIdempotencyConflict then IdempotencyConflict ""
                          else InternalServiceError
                end.
Proof.
  unfold mapToConjureError. rewrite known_conjure. unfold writeError.
  destruct (as_conjure e) as [c|] eqn:E; [by rewrite E|].
  destruct (Is e ErrNotFound); [done|]. by destruct (Is e ErrIdempotencyConflict).
Qed.

Lemma repo_UpdateStatus_spec now id st s t :
  table_wf t → enum_in st = Some s →
  match to_map t !! id with
  | Some x =>
      if is_null (deleted_at x) then
        (repo_UpdateStatus now id st t).1 = Ok (domain_of (status_row now s x)) ∧
        to_map (repo_UpdateStatus now id st t).2 = <[id := status_row now s x]> (to_map t)
      else repo_UpdateStatus now id st t = (Err ErrNotFound, t)
  | None => repo_UpdateStatus now id st t = (Err ErrNotFound, t)
  end.
Proof.
  intros W Hs.
  set (p := λ r, has_id (Some id) r && is_null (deleted_at r)).
  assert (repo_UpdateStatus now id st t =
    (or_not_found "update status" (one (filter (λ r, p r) (update_where p (status_row now s) t))),
     update_where p (status_row now s) t)) as E
    by (unfold repo_UpdateStatus, UpdateStatus; by rewrite Hs).
  assert ((∀ x, x ∈ t → p x = false) → repo_UpdateStatus now id st t = (Err ErrNotFound, t)) as Hno.
  { intros Hp. rewrite E. rewrite update_where_none by (by apply Forall_forall).
    replace (filter (λ r, p r) t) with (@nil row); [done|]. symmetry.
    destruct (filter _ t) as [|y l] eqn:F; [done|]. exfalso.
    assert (y ∈ filter (λ r, p r) t) as Hin by (rewrite F; by left).
    apply list_elem_of_filter in Hin as [Hy Hin]. apply Is_true_true in Hy. by rewrite Hp in Hy. }
  assert (∀ x, x ∈ t → p x = true → id_of x = id ∧ to_map t !! id = Some x) as Hp.
  { intros x Hx Hpx. apply andb_true_iff in Hpx as [Hi%has_id_spec _].
    split; [done|]. rewrite <- Hi. by apply to_map_elem; [apply W|]. }
  destruct (to_map t !! id) as [x|] eqn:L.
  - apply to_map_lookup_Some in L as [Hin Hid]. destruct (is_null (deleted_at x)) eqn:Hd.
    + assert (p x = true) as Hpx by (unfold p; rewrite Hd, <- Hid, has_id_Some_true; done).
      rewrite E. simpl. split.
      * erewrite (one_filter_unique _ _ (status_row now s x)); [done| | |].
        -- apply update_where_elem. exists x. by rewrite Hpx.
        -- by apply Is_true_true.
        -- intros y (z & Hz & ->)%update_where_elem Hy. apply Is_true_true in Hy.
           assert (p z = true) as Hpz by (destruct (p z) eqn:?; [done|congruence]).
           rewrite Hpz. destruct (Hp z Hz Hpz) as [_ Ez]. congruence.
      * assert (to_map (update_where p (status_row now s) t)
          = alter (λ r, if is_null (deleted_at r) then status_row now s r else r) id (to_map t)) as ->.
        { by apply (to_map_update_id_if id (λ r, is_null (deleted_at r))). }
        apply map_eq. intros i. rewrite lookup_insert, lookup_alter.
        case_decide; [subst i; rewrite <- Hid, to_map_elem by (done || apply W)|done].
        simpl. by rewrite Hd.
    + apply Hno. intros y Hy. apply not_true_is_false. intros Hpy.
      destruct (Hp y Hy Hpy) as [_ Ey]. injection Ey as ->. unfold p in Hpy.
      apply andb_true_iff in Hpy as [_ ?]. congruence.
  - apply Hno. intros y Hy. apply not_true_is_false. intros Hpy. destruct (Hp y Hy Hpy); congruence.
Qed.

Lemma enum_in_spec st s : enum_in st = Some s ↔ st = enum_out s.
Proof.
  split; [|intros ->; apply enum_in_out]. unfold enum_in. intros H.
  destruct (filter _ _) as [|e l] eqn:F; [done|]. injection H as ->.
  assert (s ∈ filter (λ e, enum_out e = st) all_statuses) as Hin by (rewrite F; left).
  by apply list_elem_of_filter in Hin as [<- _].
Qed.

Lemma assignable_spec st :
  isOperatorAssignableStatus (conjure_Value st) = true →
  ∃ s, conjure_Value st = st ∧ enum_in st = Some s ∧ s ≠ SENDING.
Proof.
  unfold isOperatorAssignableStatus. set (v := conjure_Value st).
  destruct (bool_decide (v = StatusPending ∨ _)) eqn:E; [|by destruct (bool_decide (v = StatusSending))].
  intros _. apply bool_decide_eq_true in E. subst v.
  assert (conjure_Value st = st) as V.
  { unfold conjure_Value in *. destruct (bool_decide _); [done|]. by destruct E as [|[|[|[|]]]]. }
  rewrite V in E.
  destruct E as [->|[->|[->|[->| ->]]]];
    [exists PENDING|exists SENT|exists FAILED|exists PERMANENT_FAILED|exists TIMED_OUT]; done.
Qed.

(** ** Properties *)

(** C25: every internal error reaches the client as a typed error: the first
    Conjure error of its chain when there is one, else a not-found or conflict
    error when the sentinel is in the chain, else the opaque internal error;
    never the text of an internal error. *)
Theorem errors_reach_client_typed `{ConjureRuntime} e :
  writeError (mapToConjureError e) =
  ErrorResponse match head (omap conjure_of (causes e)) with
                | Some c => c
                | None => if Is e ErrNotFound then SignalMessageNotFound ""
                          else if Is e ErrIdempotencyConflict then IdempotencyConflict ""
                          else InternalServiceError
                end.
Proof. rewrite <- as_conjure_first. apply writeError_mapped. Qed.

Lemma errors_reach_client_typed_witness :
  writeError (mapToConjureError (H := chain_search_runtime)
                (Wrap (Wrap ErrNotFound "get by id") "lookup"))
  = ErrorResponse (SignalMessageNotFound "").
Proof.
  rewrite (errors_reach_client_typed (H := chain_search_runtime)). vm_compute. reflexivity.
Defined.

(** C23: an operator's status update never forges an in-flight row and touches one
    row at most: it succeeds only for a live row and a status other than SENDING,
    and then that row has the given status and modification time and is otherwise
    as it was, and is what the answer shows; otherwise nothing changes and the
    client gets [InvalidSignalMessage] for the status, or [SignalMessageNotFound]
    with the id. *)
Theorem operator_update_contract `{ConjureRuntime} uuidString safe_long now id st t :
  table_wf t →
  match UpdateSignalMessage uuidString safe_long now id st t with
  | (Ok info, t') =>
      ∃ s x x', st = label s ∧ s ≠ SENDING ∧ to_map t !! id = Some x ∧ deleted_at x = None ∧
        delivery x x' s (attempts x) (next_attempt_at x) (last_error x) (result_id x) now ∧
        info = domainToConjure safe_long (domain_of x') ∧ to_map t' = <[id := x']> (to_map t)
  | (Err e, t') =>
      t' = t ∧
      ((isOperatorAssignableStatus (conjure_Value st) = false ∧
        as_conjure e = Some (InvalidSignalMessage "status"
          "must be one of PENDING, SENT, FAILED, PERMANENT_FAILED, TIMED_OUT")) ∨
       ((∀ x, to_map t !! id = Some x → deleted_at x ≠ None) ∧
        as_conjure e = Some (SignalMessageNotFound (uuidString id))))
  end.
Proof.
  intros W. unfold UpdateSignalMessage.
  destruct (isOperatorAssignableStatus (conjure_Value st)) eqn:A; simpl; [|by auto].
  destruct (assignable_spec st A) as (s & -> & Hs & Hne).
  pose proof (repo_UpdateStatus_spec now id st s t W Hs) as S.
  destruct (to_map t !! id) as [x|] eqn:L; [destruct (is_null (deleted_at x)) eqn:Hd|].
  - destruct (repo_UpdateStatus now id st t) as [r t']. simpl in S. destruct S as [-> E].
    pose proof (enum_in_label st) as Hlab. rewrite Hs in Hlab.
    exists s, x, (status_row now s x).
    split_and!; [done|done|done|by destruct (deleted_at x)|apply set_cols_delivery|done|done].
  - rewrite S. split; [done|]. right. split; [|done]. intros y [= <-] Hn. by rewrite Hn in Hd.
  - rewrite S. split; [done|]. right. split; [done|done].
Qed.

Lemma operator_update_contract_witness :
  ∃ s x x' t', "SENT" = label s ∧ s ≠ SENDING ∧ to_map sample_table !! 1%N = Some x ∧
    deleted_at x = None ∧
    delivery x x' s (attempts x) (next_attempt_at x) (last_error x) (result_id x) 900 ∧
    to_map t' = <[1%N := x']> (to_map sample_table).
Proof.
  pose proof (operator_update_contract (H := chain_search_runtime) (λ _, "") (λ _, None)
    900 1%N "SENT" sample_table sample_table_wf) as C.
  destruct (UpdateSignalMessage _ _ 900 1%N "SENT" sample_table) as [[info|e] t'] eqn:E.
  - destruct C as (s & x & x' & ? & ? & ? & ? & ? & _ & ?). exists s, x, x', t'. by split_and!.
  - exfalso. apply (f_equal (is_ok ∘ fst)) in E. vm_compute in E. discriminate.
Defined.

(** C24: resend answers with the row as it is after the call.  A FAILED, TIMED_OUT
    or PERMANENT_FAILED row is then PENDING, due at the time of the call, with no
    attempts and no error, and otherwise as it was (its deadline and an old
    result id included); a row in another status is unchanged.  No other row
    changes, and an unknown or deleted id is [SignalMessageNotFound]. *)
Theorem operator_resend_contract `{ConjureRuntime} uuidString safe_long now id t :
  table_wf t →
  match ResendSignalMessage uuidString safe_long now id t with
  | (Ok info, t') =>
      ∃ x x', to_map t !! id = Some x ∧ deleted_at x = None ∧
        (status x = FAILED ∨ status x = TIMED_OUT ∨ status x = PERMANENT_FAILED →
           delivery x x' PENDING 0 now None (result_id x) now) ∧
        (status x = PENDING ∨ status x = SENDING ∨ status x = SENT → x' = x) ∧
        info = domainToConjure safe_long (domain_of x') ∧ to_map t' = <[id := x']> (to_map t)
  | (Err e, t') =>
      t' = t ∧ (∀ x, to_map t !! id = Some x → deleted_at x ≠ None) ∧
      as_conjure e = Some (SignalMessageNotFound (uuidString id))
  end.
Proof.
  intros W. unfold ResendSignalMessage, repo_GetByID, uuidToPg. rewrite GetByID_spec by done.
  destruct (to_map t !! id) as [x|] eqn:L.
  2:{ simpl. split; [done|]. split; [done|done]. }
  destruct (is_null (deleted_at x)) eqn:Hd.
  2:{ simpl. split; [done|]. split; [|done]. intros y [= <-] Hn. by rewrite Hn in Hd. }
  cbn [or_not_found]. set (t' := (repo_Resend now id t).2).
  assert (table_wf t') as W' by (apply (exec_wf now (SResend (uuidToPg id)) t W)).
  set (x' := if status_in [FAILED; TIMED_OUT; PERMANENT_FAILED] x then resend_row now x else x).
  assert (to_map t' = <[id := x']> (to_map t)) as E.
  { trans (alter (λ r, if status_in [FAILED; TIMED_OUT; PERMANENT_FAILED] r
                       then resend_row now r else r) id (to_map t)).
    - by apply (to_map_update_id_if id (status_in [FAILED; TIMED_OUT; PERMANENT_FAILED])).
    - apply map_eq. intros i. rewrite lookup_insert, lookup_alter.
      case_decide; [subst i; by rewrite L|done]. }
  replace (repo_Resend now id t) with (@None error, t') by done.
  rewrite GetByID_spec by done. rewrite E, lookup_insert_eq.
  assert (deleted_at x' = deleted_at x) as -> by (unfold x'; by destruct (status_in _ x)).
  rewrite Hd. cbn [or_not_found]. exists x, x'.
  split_and!; [done|by destruct (deleted_at x)| | |done|done]; intros Hs; unfold x', status_in.
  - rewrite bool_decide_eq_true_2; [apply set_cols_delivery|].
    rewrite !elem_of_cons. tauto.
  - rewrite bool_decide_eq_false_2; [done|].
    rewrite !elem_of_cons, elem_of_nil. destruct Hs as [Hs|[Hs|Hs]]; rewrite Hs; naive_solver.
Qed.

Lemma operator_resend_contract_witness :
  ∃ x x' t', to_map resent_table !! 1%N = Some x ∧ status x = TIMED_OUT ∧
    delivery x x' PENDING 0 9000 None (result_id x) 9000 ∧
    to_map t' = <[1%N := x']> (to_map resent_table).
Proof.
  pose proof (operator_resend_contract (H := chain_search_runtime) (λ _, "") (λ _, None)
    9000 1%N resent_table (exec_all_wf _ _ table_wf_nil)) as C.
  destruct (ResendSignalMessage _ _ 9000 1%N resent_table) as [[info|e] t'] eqn:E.
  - destruct C as (x & x' & L & _ & D & _ & _ & ?). exists x, x', t'.
    assert (status x = TIMED_OUT) as Hs.
    { assert (status <$> to_map resent_table !! 1%N = Some TIMED_OUT) as Es by (vm_compute; reflexivity).
      rewrite L in Es. by injection Es. }
    split; [exact L|]. split; [exact Hs|]. split; [apply D; rewrite Hs; tauto|done].
  - exfalso. apply (f_equal (is_ok ∘ fst)) in E. vm_compute in E. discriminate.
Defined.

(** A page limit between 2^31 and 2^32 wraps to a negative int32, which
    Postgres refuses, so the listing fails with the internal error instead of
    returning a page. *)
Theorem list_limit_wraps `{ConjureRuntime} safe_long ILIKE q limit from to attempts t :
  2 ^ 31 ≤ limit < 2 ^ 32 →
  ∃ e, ListSignalMessages safe_long ILIKE q (Some limit) None from to None attempts t = Err e ∧
       as_conjure e = Some InternalServiceError.
Proof.
  intros Hl. unfold ListSignalMessages, repo_List, List. cbn [conjureToDomainStatus domainStatusToSQLC
    list_params lp_StatusFilter lf_Status status_filter lp_OffsetCount lp_LimitCount
    lf_Offset lf_Limit coalesceNonNegative coalescePositive].
  destruct (Z.leb_spec limit 0); [lia|].
  assert (int32 limit < 0) as Hw.
  { unfold int32, wrap. replace (limit + 2 ^ (32 - 1)) with ((limit - 2 ^ 31) + 1 * 2 ^ 32) by lia.
    rewrite Z_mod_plus_full, Z.mod_small; lia. }
  destruct (Z.ltb_spec (int32 limit) 0); [|lia]. simpl. eexists. split; [done|].
  unfold mapToConjureError. by rewrite known_conjure.
Qed.

Lemma list_limit_wraps_witness :
  ∃ e, ListSignalMessages (H := chain_search_runtime) (λ _, None) (λ _ _, true) None
         (Some (2 ^ 31)) None None None None None sample_table = Err e ∧
       as_conjure e = Some InternalServiceError.
Proof. apply list_limit_wraps. lia. Defined.

(** ** Requests are answered *)

Lemma reader_NextPart_shrinks mr p mr' :
  reader_NextPart mr = (Ok p, mr') → (length (mr_parts mr') < length (mr_parts mr))%nat.
Proof.
  unfold reader_NextPart. destruct (mr_parts mr) eqn:E; [done|]. intros [= <- <-]. simpl. lia.
Qed.

Lemma attachments_Next_shrinks errorText mr p mr' :
  attachments_Next errorText mr = (Ok p, mr') →
  (length (mr_parts mr') < length (mr_parts mr))%nat.
Proof.
  unfold attachments_Next. destruct (reader_NextPart mr) as [[x|e] mr1] eqn:E; [|done].
  apply reader_NextPart_shrinks in E. repeat case_match; intros [= <- <-]; done.
Qed.

(** The loop and the service return, whatever the backend answers. *)
Lemma rollback_reader {St} errorText (backend : ∀ X, EnqueueE X → St → X * St) att mr s :
  (interp (serve_do errorText backend) (rollback att) (mr, s)).2.1 = mr.
Proof.
  revert s. induction att as [|a att IH]; intros s; [done|]. cbn [rollback].
  rewrite interp_bind. cbn [call interp serve_do]. destruct (backend _ _ s) as [[e|] s1].
  - rewrite interp_bind. cbn [call interp serve_do]. destruct (backend _ _ s1) as [u s2]. apply IH.
  - apply IH.
Qed.

Lemma upload_loop_ends {St} errorText uuidString (backend : ∀ X, EnqueueE X → St → X * St) fuel id att mr s :
  (length (mr_parts mr) < fuel)%nat →
  (interp (serve_do errorText backend) (upload_loop uuidString fuel id att) (mr, s)).1 ≠ None.
Proof.
  revert att mr s. induction fuel as [|fuel IH]; intros att mr s Hf; [lia|].
  cbn [upload_loop]. rewrite interp_bind. cbn [call interp serve_do].
  destruct (attachments_Next errorText mr) as [r mr1] eqn:EN. destruct r as [part|e].
  - apply attachments_Next_shrinks in EN. destruct (bool_decide _).
    + rewrite interp_bind. by destruct (interp _ (rollback att) _).
    + rewrite interp_bind. cbn [call interp serve_do].
      destruct (backend _ _ s) as [[[b k]|e] s1]; [apply IH; lia|].
      rewrite interp_bind. by destruct (interp _ (rollback att) _).
  - destruct (Is e EOF); [done|]. rewrite interp_bind. by destruct (interp _ (rollback att) _).
Qed.

Lemma enqueue_fresh_ends {St} errorText uuidString senderPhone (backend : ∀ X, EnqueueE X → St → X * St)
    fuel m mr s :
  (length (mr_parts mr) < fuel)%nat →
  (interp (serve_do errorText backend) (enqueue_fresh uuidString senderPhone fuel m true) (mr, s)).1 ≠ None.
Proof.
  intros Hf. unfold enqueue_fresh. rewrite interp_bind. cbn [call interp serve_do].
  destruct (backend _ NewUUID s) as [id s0]. rewrite interp_bind. cbn [uploadAll].
  pose proof (upload_loop_ends errorText uuidString backend fuel id [] mr s0 Hf) as U.
  destruct (interp _ (upload_loop _ _ _ _) _) as [[[a|e]|] [mr1 s1]]; [|done|done].
  rewrite interp_bind. destruct (interp _ (match cm_TimeoutSeconds m with _ => _ end) _) as [ta [mr2 s2]].
  rewrite interp_bind. cbn [call interp serve_do].
  destruct (backend _ (Insert_ _) s2) as [[row|e] s3]; [done|].
  rewrite interp_bind. by destruct (interp _ (rollback a) _).
Qed.

Lemma Enqueue_ends {St} errorText uuidString senderPhone (backend : ∀ X, EnqueueE X → St → X * St)
    fuel m mr s :
  (length (mr_parts mr) < fuel)%nat →
  (interp (serve_do errorText backend) (Enqueue uuidString senderPhone fuel m true) (mr, s)).1 ≠ None.
Proof.
  intros Hf. unfold Enqueue. destruct (validate senderPhone m); [done|].
  destruct (cm_IdempotencyKey m) as [k|]; [|by apply enqueue_fresh_ends].
  destruct (negb _); [|by apply enqueue_fresh_ends].
  rewrite interp_bind. cbn [call interp serve_do].
  destruct (backend _ (GetByIdempotencyKey_ k) s) as [[x|e] s1]; [done|].
  destruct (Is e ErrNotFound); [by apply enqueue_fresh_ends|done].
Qed.

(** ** Which answer *)

(** The typed error that stands for an internal one. *)
Definition typed (e : error) : conjure_error :=
  match head (omap conjure_of (causes e)) with
  | Some c => c
  | None => if Is e ErrNotFound then SignalMessageNotFound ""
            else if Is e ErrIdempotencyConflict then IdempotencyConflict ""
            else InternalServiceError
  end.

Definition reads (tr : list (event EnqueueE)) : nat :=
  length (omap (λ ev, match ev with
                      | @Ev _ X e x => match e with NextPart => Some tt | _ => None end
                      end) tr).

(** The answer to a message, by what the service asked and was told. *)
Inductive enqueue_answer (uuidString : uuid → string) (senderPhone : string) (m : CreateMessage)
    : list (event EnqueueE) → response → Prop :=
| ans_invalid field reason :
    validate senderPhone m = Some (invalid field reason) →
    enqueue_answer uuidString senderPhone m [] (ErrorResponse (InvalidSignalMessage field reason))
| ans_mismatch p :
    cm_SenderPhoneNumber m = Some p → p ≠ "" → p ≠ senderPhone →
    enqueue_answer uuidString senderPhone m [] (ErrorResponse (SenderMismatch senderPhone p))
| ans_known k row :
    validate senderPhone m = None → cm_IdempotencyKey m = Some k → k ≠ "" →
    enqueue_answer uuidString senderPhone m [Ev (GetByIdempotencyKey_ k) (Ok row)] (Accepted (msg_ID row))
| ans_lookup_failed k e :
    validate senderPhone m = None → cm_IdempotencyKey m = Some k → k ≠ "" → Is e ErrNotFound = false →
    enqueue_answer uuidString senderPhone m [Ev (GetByIdempotencyKey_ k) (Err e)] (ErrorResponse (typed e))
| ans_inserted tr p row :
    validate senderPhone m = None → Ev (Insert_ p) (Ok row) ∈ tr →
    enqueue_answer uuidString senderPhone m tr (Accepted (msg_ID row))
| ans_insert_failed tr p e :
    validate senderPhone m = None → Ev (Insert_ p) (Err e) ∈ tr →
    enqueue_answer uuidString senderPhone m tr (ErrorResponse (typed e))
| ans_stream_failed tr e :
    validate senderPhone m = None → Ev NextPart (Err e) ∈ tr → Is e EOF = false →
    enqueue_answer uuidString senderPhone m tr (ErrorResponse (AttachmentUploadFailed ""))
| ans_name_refused tr p :
    validate senderPhone m = None → Ev NextPart (Ok p) ∈ tr → sanitizeFilename (part_Filename p) = "" →
    enqueue_answer uuidString senderPhone m tr
      (ErrorResponse (InvalidSignalMessage "attachments" "rejected attachment with empty filename"))
| ans_put_failed tr id p body n ct e :
    validate senderPhone m = None → Ev NewUUID id ∈ tr → Ev NextPart (Ok p) ∈ tr →
    Ev (Put_ (uuidString id +:+ "/" +:+ sanitizeFilename (part_Filename p)) body n ct) (Err e) ∈ tr →
    enqueue_answer uuidString senderPhone m tr
      (ErrorResponse (AttachmentUploadFailed (sanitizeFilename (part_Filename p)))).

(** The answer to a request for which the service made the calls [tr]. *)
Inductive answer (uuidString : uuid → string) (decode : string → res CreateSignalMessageRequest)
    (senderPhone : string) (req : request) : list (event EnqueueE) → response → Prop :=
| ans_method :
    rq_Method req ≠ "POST" →
    answer uuidString decode senderPhone req []
      (ErrorResponse (InvalidSignalMessage "method" (rq_Method req)))
| ans_content_type e :
    rq_Method req = "POST" → rq_Reader req = Err e →
    answer uuidString decode senderPhone req []
      (ErrorResponse (InvalidSignalMessage "contentType" (rq_ContentType req)))
| ans_metadata mr reason :
    rq_Method req = "POST" → rq_Reader req = Ok mr →
    (∀ p l m, mr_parts mr = p :: l → mp_FormName p = "metadata" → decode (mp_Body p) ≠ Ok m) →
    answer uuidString decode senderPhone req [] (ErrorResponse (InvalidSignalMessage "metadata" reason))
| ans_message mr p rest m tr resp :
    rq_Method req = "POST" → rq_Reader req = Ok mr → mr_parts mr = p :: rest →
    mp_FormName p = "metadata" → decode (mp_Body p) = Ok m → (reads tr ≤ S (length rest))%nat →
    enqueue_answer uuidString senderPhone (toCreateMessage m) tr resp →
    answer uuidString decode senderPhone req tr resp.

(** The calls that the service makes for a request. *)
Definition service_calls {St} (errorText : error → string) (uuidString : uuid → string)
    (decode : string → res CreateSignalMessageRequest) (backend : ∀ X, EnqueueE X → St → X * St)
    (senderPhone : string) (req : request) (s : St) : list (event EnqueueE) :=
  if negb (bool_decide (rq_Method req = "POST")) then []
  else match rq_Reader req with
       | Err _ => []
       | Ok mr =>
           let '(meta, mr') := splitMetadata errorText decode mr in
           match meta with
           | Err _ => []
           | Ok m => calls_made (serve_do errorText backend)
                       (Enqueue uuidString senderPhone (S (length (mr_parts mr'))) m true) (mr', s)
           end
       end.

(** A result of the service as the endpoint writes it. *)
Definition written_result `{ConjureRuntime} (r : res EnqueueResult) : response :=
  match r with
  | Ok res => Accepted (er_ID res)
  | Err e => writeError (mapToConjureError e)
  end.

Lemma writeError_typed `{ConjureRuntime} e : writeError (mapToConjureError e) = ErrorResponse (typed e).
Proof. rewrite writeError_mapped, as_conjure_first. done. Qed.

Lemma reads_app a b : reads (a ++ b) = (reads a + reads b)%nat.
Proof. unfold reads. by rewrite omap_app, length_app. Qed.

Lemma rollback_reads att tr u : runs anything (rollback att) tr u → reads tr = O.
Proof.
  revert tr. induction att as [|a att IH]; intros tr H; cbn [rollback] in H; eruns_inv; [done|].
  match goal with H : runs _ (rollback att) _ _ |- _ => apply IH in H as R end.
  eruns_case; eruns_inv; exact R.
Qed.

(** How the upload can fail. *)
Definition upload_error (uuidString : uuid → string) (id : uuid) (tr : list (event EnqueueE))
    (e : error) : Prop :=
  (∃ c, Ev NextPart (Err c) ∈ tr ∧ Is c EOF = false ∧ e = attachmentUploadFailed "" c) ∨
  (∃ p, Ev NextPart (Ok p) ∈ tr ∧ sanitizeFilename (part_Filename p) = "" ∧
     e = invalid "attachments" "rejected attachment with empty filename") ∨
  (∃ p body n ct c, Ev NextPart (Ok p) ∈ tr ∧
     Ev (Put_ (uuidString id +:+ "/" +:+ sanitizeFilename (part_Filename p)) body n ct) (Err c) ∈ tr ∧
     e = attachmentUploadFailed (sanitizeFilename (part_Filename p)) c).

Lemma upload_error_mono uuidString id tr tr' e :
  (∀ ev, ev ∈ tr → ev ∈ tr') → upload_error uuidString id tr e → upload_error uuidString id tr' e.
Proof.
  intros H [(c & ? & ?)|[(p & ? & ?)|(p & b & n & ct & c & ? & ? & ?)]].
  - left. exists c. auto.
  - right; left. exists p. auto.
  - right; right. exists p, b, n, ct, c. auto.
Qed.

Lemma upload_loop_answers uuidString fuel id att tr r :
  runs anything (upload_loop uuidString fuel id att) tr r →
  (reads tr ≤ fuel)%nat ∧
  match r with Some (Err e) => upload_error uuidString id tr e | _ => True end.
Proof.
  revert att tr. induction fuel as [|fuel IH]; intros att tr H; cbn [upload_loop] in H; eruns_inv;
    [done|].
  eruns_case.
  - destruct (bool_decide _) eqn:B; eruns_inv.
    + match goal with H : runs _ (rollback _) _ _ |- _ => apply rollback_reads in H as R end.
      rewrite !reads_app, R. split; [cbn; lia|]. right; left. eexists. bools.
      split_and!; [|eassumption|done]. left.
    + eruns_case; [match goal with p : (string * string)%type |- _ => destruct p as [b k] end|].
      * match goal with H : runs _ (upload_loop _ _ _ _) _ _ |- _ => apply IH in H as [H1 H2] end.
        rewrite !reads_app. split; [cbn in *; lia|]. destruct r as [[|e]|]; [done| |done].
        eapply upload_error_mono; [|exact H2]. intros ev ?. do 2 right. done.
      * eruns_inv. match goal with H : runs _ (rollback _) _ _ |- _ => apply rollback_reads in H as R end.
        rewrite !reads_app, R. split; [cbn; lia|]. right; right.
        eexists _, _, _, _, _. split_and!; [left|right; left|done].
  - destruct (Is e EOF) eqn:Ee; eruns_inv; [split; [cbn; lia|done]|].
    match goal with H : runs _ (rollback _) _ _ |- _ => apply rollback_reads in H as R end.
    rewrite !reads_app, R. split; [cbn; lia|]. left. exists e. split_and!; [left|done|done].
Qed.

Lemma upload_error_answer `{ConjureRuntime} uuidString senderPhone m id tr full e :
  validate senderPhone m = None → Ev NewUUID id ∈ full → (∀ ev, ev ∈ tr → ev ∈ full) →
  upload_error uuidString id tr e →
  enqueue_answer uuidString senderPhone m full (written_result (Err e)).
Proof.
  intros V Hid Hsub U. apply (upload_error_mono _ _ _ full) in U; [|done].
  cbn [written_result]. rewrite writeError_typed.
  destruct U as [(c & ? & ? & ->)|[(p & ? & ? & ->)|(p & b & n & ct & c & ? & ? & ->)]].
  - by eapply ans_stream_failed.
  - by eapply ans_name_refused.
  - by eapply ans_put_failed.
Qed.

Lemma enqueue_fresh_answers `{ConjureRuntime} uuidString senderPhone fuel m pre tr r :
  validate senderPhone m = None →
  runs anything (enqueue_fresh uuidString senderPhone fuel m true) tr (Some r) →
  (reads tr ≤ fuel)%nat ∧ enqueue_answer uuidString senderPhone m (pre ++ tr) (written_result r).
Proof.
  intros V. unfold enqueue_fresh. intros R. eruns_inv. cbn [uploadAll] in *.
  match goal with H : runs _ (upload_loop _ _ _ _) _ _ |- _ => apply upload_loop_answers in H as [N U] end.
  match goal with H : runs _ (match ?e with _ => _ end) _ _ |- _ => destruct e as [[a|e]|] end;
    eruns_inv; [| |done].
  2:{ split; [rewrite !reads_app; cbn; lia|]. eapply upload_error_answer; [done| |  |exact U].
      - apply elem_of_app; right. left.
      - intros ev ?. apply elem_of_app; right. apply elem_of_app; right. apply elem_of_app. by left. }
  match goal with H : runs _ (match cm_TimeoutSeconds m with _ => _ end) ?t _ |- _ =>
    assert (reads t = O) as T
      by (destruct (cm_TimeoutSeconds m) as [n|]; [destruct (0 <? n)|]; by eruns_inv) end.
  match goal with H : runs _ (match ?e with _ => _ end) _ _ |- _ => destruct e as [row|e] end; eruns_inv.
  - split; [rewrite !reads_app; cbn in *; lia|]. cbn [written_result er_ID].
    eapply ans_inserted; [done|]. do 4 (apply elem_of_app; right). left.
  - match goal with H : runs _ (rollback _) _ _ |- _ => apply rollback_reads in H as RB end.
    split; [rewrite !reads_app; cbn in *; lia|]. cbn [written_result]. rewrite writeError_typed.
    eapply ans_insert_failed; [done|]. do 4 (apply elem_of_app; right). left.
Qed.

Lemma validate_errors senderPhone m e :
  validate senderPhone m = Some e →
  (∃ field reason, e = invalid field reason) ∨
  (∃ p, cm_SenderPhoneNumber m = Some p ∧ p ≠ "" ∧ p ≠ senderPhone ∧ e = senderMismatch senderPhone p).
Proof.
  unfold validate. do 4 (destruct (_ : bool); [intros [= <-]; by eauto|]).
  destruct (cm_SenderPhoneNumber m) as [p|]; [|done].
  destruct (negb _ && negb _) eqn:B; [|done]. intros [= <-]. bools. right. by exists p.
Qed.

Lemma typed_wrap e msg : typed (Wrap e msg) = typed e.
Proof. done. Qed.

Lemma Enqueue_answers `{ConjureRuntime} uuidString senderPhone fuel m tr r :
  runs anything (Enqueue uuidString senderPhone fuel m true) tr (Some r) →
  (reads tr ≤ fuel)%nat ∧ enqueue_answer uuidString senderPhone m tr (written_result r).
Proof.
  unfold Enqueue. destruct (validate senderPhone m) as [e|] eqn:V.
  { intros R. eruns_inv. split; [cbn; lia|]. cbn [written_result]. rewrite writeError_typed.
    destruct (validate_errors _ _ _ V) as [(f & why & ->)|(p & ? & ? & ? & ->)];
      [by apply ans_invalid|by apply ans_mismatch]. }
  destruct (cm_IdempotencyKey m) as [k|] eqn:K; [|by apply (enqueue_fresh_answers _ _ _ _ [])].
  destruct (negb _) eqn:B; [|by apply (enqueue_fresh_answers _ _ _ _ [])]. bools. intros R. eruns_inv.
  match goal with H : runs _ (match ?y with _ => _ end) _ _ |- _ => destruct y as [row|err] end.
  { eruns_inv. split; [cbn; lia|]. cbn [written_result er_ID]. by eapply ans_known. }
  destruct (Is err ErrNotFound) eqn:N; eruns_inv.
  - match goal with H : runs _ (enqueue_fresh _ _ _ _ _) _ _ |- _ =>
      eapply (enqueue_fresh_answers _ _ _ _ [Ev (GetByIdempotencyKey_ k) (Err err)]) in H as [H1 H2];
        [|done] end.
    by split.
  - split; [cbn; lia|]. cbn [written_result]. rewrite writeError_typed, typed_wrap.
    by eapply ans_lookup_failed.
Qed.

(** The first part decides whether there is a message at all. *)
Lemma splitMetadata_accepted errorText decode mr m mr' :
  splitMetadata errorText decode mr = (Ok m, mr') →
  ∃ p rest c, mr_parts mr = p :: rest ∧ mp_FormName p = "metadata" ∧ decode (mp_Body p) = Ok c ∧
    m = toCreateMessage c ∧ mr_parts mr' = rest.
Proof.
  unfold splitMetadata, reader_NextPart. destruct (mr_parts mr) as [|p rest]; [done|].
  destruct (negb _) eqn:B; [done|]. bools. destruct (decode (mp_Body p)) as [c|] eqn:D; [|done].
  intros [= <- <-]. by exists p, rest, c.
Qed.

Lemma splitMetadata_refused errorText uuidString decode senderPhone req mr e mr' :
  rq_Method req = "POST" → rq_Reader req = Ok mr → splitMetadata errorText decode mr = (Err e, mr') →
  answer uuidString decode senderPhone req [] (writeError e).
Proof.
  intros M Rd. unfold splitMetadata, reader_NextPart. destruct (mr_parts mr) as [|p rest] eqn:P.
  - intros [= <- _]. destruct (Is _ EOF); (eapply ans_metadata; [done|exact Rd|]); intros ????; congruence.
  - destruct (negb _) eqn:B; bools.
    + intros [= <- _]. eapply ans_metadata; [done|exact Rd|]. intros ? ? ? ?. congruence.
    + destruct (decode (mp_Body p)) as [c|] eqn:D; [done|]. intros [= <- _].
      eapply ans_metadata; [done|exact Rd|]. intros ? ? ? ?. congruence.
Qed.


Definition demo_request : CreateSignalMessageRequest :=
  MkCreateRequest "ext-1" None (Some "+380111111111") None None "hi" None None None.

(** A database at work beside an object store that is down. *)
Definition store_down (X : Type) (e : EnqueueE X) : enqueue_state → X * enqueue_state :=
  match e in EnqueueE X return enqueue_state → X * enqueue_state with
  | Put_ _ _ _ _ => λ s, (Err (ErrMsg "connection refused"), s)
  | Remove_ _ _ => λ s, (Some (ErrMsg "connection refused"), s)
  | e => enqueue_do "b" _ e
  end.

Definition demo_upload : request :=
  MkRequest "POST" "multipart/form-data"
    (Ok (MkReader [MkMpart "metadata" "" "" "{}"; MkMpart "attachments" "a.txt" "text/plain" "A"] None)).


(** A part with an unexpected name, or a second metadata part, does not give
    the client the [InvalidSignalMessage] that the reader produces: the service
    wraps it, and the client receives [AttachmentUploadFailed] with an empty
    file name. *)
Theorem bad_part_reported_as_upload_failure `{ConjureRuntime} {St} errorText uuidString decode
    (backend : ∀ X, EnqueueE X → St → X * St) senderPhone meta req p rest s :
  decode (mp_Body meta) = Ok req → mp_FormName meta = "metadata" →
  validate senderPhone (toCreateMessage req) = None → cr_IdempotencyKey req = None →
  mp_FormName p ≠ "attachments" →
  (ServeHTTP errorText uuidString decode backend senderPhone
     (MkRequest "POST" "multipart/form-data" (Ok (MkReader (meta :: p :: rest) None))) s).1
  = ErrorResponse (AttachmentUploadFailed "").
Proof.
  intros Hdec Hmeta Hv Hk Hp. unfold ServeHTTP. cbn [rq_Method rq_Reader].
  rewrite bool_decide_eq_true_2 by done. cbn [negb]. unfold splitMetadata, reader_NextPart.
  cbn [mr_parts mr_error]. rewrite (bool_decide_eq_true_2 _ Hmeta), Hdec. cbn [negb].
  unfold Enqueue. rewrite Hv. change (cm_IdempotencyKey (toCreateMessage req)) with (cr_IdempotencyKey req).
  rewrite Hk. unfold enqueue_fresh. rewrite interp_bind. cbn [call interp serve_do].
  destruct (backend _ NewUUID s) as [id s0].
  rewrite interp_bind. cbn [uploadAll upload_loop mr_parts length]. rewrite interp_bind.
  cbn [call interp serve_do]. unfold attachments_Next, reader_NextPart. cbn [mr_parts mr_error].
  rewrite (bool_decide_eq_false_2 _ Hp). destruct (bool_decide (mp_FormName p = "metadata"));
    cbn [rollback Is bool_decide]; rewrite ?bool_decide_eq_false_2 by done; simpl;
    by rewrite writeError_mapped.
Qed.

Lemma bad_part_reported_as_upload_failure_witness :
  (ServeHTTP (H := chain_search_runtime) (λ _, "") (λ _, "") (λ _, Ok demo_request) (enqueue_do "b") "+380000000000"
     (MkRequest "POST" "multipart/form-data"
        (Ok (MkReader [MkMpart "metadata" "" "" "{}"; MkMpart "file" "a.txt" "text/plain" "A"] None)))
     fresh_state).1
  = ErrorResponse (AttachmentUploadFailed "").
Proof.
  apply (bad_part_reported_as_upload_failure (H := chain_search_runtime) _ _ _ _ _ _ demo_request);
    [reflexivity|reflexivity|vm_compute; reflexivity|reflexivity|discriminate].
Defined.
