(* ===== verification/GoUrl.v ===== *)
(** Go's [net/url] as the generated client and server use it: escaping, and the
    query string of a request. *)

From Stdlib Require Import Ascii.
From S2P Require Import Prelude Errors GoText Json JsonFacts.

(** ** Escaping *)

(** Letters, digits and the marks that are never escaped. *)
Definition unreserved (b : Z) : bool :=
  ((97 <=? b) && (b <=? 122)) || ((65 <=? b) && (b <=? 90)) || ((48 <=? b) && (b <=? 57))
  || (b =? 45) || (b =? 95) || (b =? 46) || (b =? 126).

Definition upperhex (d : Z) : ascii := if d <? 10 then chr (48 + d) else chr (55 + d).
Definition percent (b : Z) : string := String "%" (String (upperhex (b / 16)) (String (upperhex (b mod 16)) "")).

(** [url.QueryEscape]. *)
Fixpoint QueryEscape (s : string) : string :=
  match s with
  | EmptyString => ""
  | String c s' =>
      (if byte_val c =? 32 then "+" else if unreserved (byte_val c) then String c "" else percent (byte_val c))
      +:+ QueryEscape s'
  end.

(** [url.PathEscape]: in a segment $ & + = : @ stay as well. *)
Definition path_kept (b : Z) : bool :=
  unreserved b || (b =? 36) || (b =? 38) || (b =? 43) || (b =? 61) || (b =? 58) || (b =? 64).
Fixpoint PathEscape (s : string) : string :=
  match s with
  | EmptyString => ""
  | String c s' => (if path_kept (byte_val c) then String c "" else percent (byte_val c)) +:+ PathEscape s'
  end.

Definition unhex (c : ascii) : option Z :=
  let b := byte_val c in
  if (48 <=? b) && (b <=? 57) then Some (b - 48)
  else if (97 <=? b) && (b <=? 102) then Some (b - 87)
  else if (65 <=? b) && (b <=? 70) then Some (b - 55)
  else None.

(** [url.QueryUnescape] and, with [plus] false, [url.PathUnescape]; [None] is an
    escape error. *)
Fixpoint unescape (plus : bool) (s : string) : option string :=
  match s with
  | EmptyString => Some ""
  | String c s' =>
      if byte_val c =? 37 then
        match s' with
        | String h (String l s'') =>
            match unhex h, unhex l with
            | Some x, Some y => match unescape plus s'' with
                                | Some t => Some (String (chr (16 * x + y)) t)
                                | None => None
                                end
            | _, _ => None
            end
        | _ => None
        end
      else match unescape plus s' with
           | Some t => Some (String (if plus && (byte_val c =? 43) then " "%char else c) t)
           | None => None
           end
  end.
Definition QueryUnescape : string → option string := unescape true.
Definition PathUnescape : string → option string := unescape false.

(** ** Query strings *)

(** [strings.Cut] at a byte. *)
Fixpoint Cut (sep : ascii) (s : string) : string * string :=
  match s with
  | EmptyString => ("", "")
  | String c s' => if Ascii.eqb c sep then ("", s') else let '(a, b) := Cut sep s' in (String c a, b)
  end.

Fixpoint contains (x : ascii) (s : string) : bool :=
  match s with EmptyString => false | String c s' => Ascii.eqb c x || contains x s' end.

(** [url.Values]. *)
Abbreviation Values := (gmap string (list string)) (only parsing).

Definition Values_Set (k v : string) (m : Values) : Values := <[k := [v]]> m.
Definition Values_Add (k v : string) (m : Values) : Values := <[k := default [] (m !! k) ++ [v]]> m.
Definition Values_Get (k : string) (m : Values) : string := default "" (default [] (m !! k) !! 0%nat).

(** [Values.Encode]: the keys sorted, the values of a key in order. *)
Definition key_le (a b : string * list string) : Prop := String.leb a.1 b.1 = true.
#[global] Instance key_le_dec a b : Decision (key_le a b).
Proof. unfold key_le. apply _. Defined.

Definition pair_text (kv : string * string) : string := QueryEscape kv.1 +:+ "=" +:+ QueryEscape kv.2.
Fixpoint join_pairs (l : list (string * string)) : string :=
  match l with
  | [] => ""
  | [kv] => pair_text kv
  | kv :: l' => pair_text kv +:+ "&" +:+ join_pairs l'
  end.
Definition flatten (l : list (string * list string)) : list (string * string) :=
  l ≫= λ kvs, (λ v, (kvs.1, v)) <$> kvs.2.
Definition Encode (m : Values) : string := join_pairs (flatten (merge_sort key_le (map_to_list m))).

(** [url.ParseQuery], whose errors [URL.Query] drops: the pairs in order.  The
    loop ends: every round shortens the text. *)
Fixpoint parse_pairs (fuel : nat) (query : string) : list (string * string) :=
  match fuel, query with
  | S f, String _ _ =>
      let '(key, rest) := Cut "&" query in
      if contains ";" key || bool_decide (key = "") then parse_pairs f rest
      else
        let '(k, v) := Cut "=" key in
        match QueryUnescape k, QueryUnescape v with
        | Some k', Some v' => (k', v') :: parse_pairs f rest
        | _, _ => parse_pairs f rest
        end
  | _, _ => []
  end.
Definition Query (rawQuery : string) : Values :=
  foldl (λ m kv, Values_Add kv.1 kv.2 m) ∅ (parse_pairs (String.length rawQuery) rawQuery).

Example query_demo :
  Encode (Values_Set "q" "a b&c=d;%" (Values_Set "limit" "5" ∅)) = "limit=5&q=a+b%26c%3Dd%3B%25" ∧
  Values_Get "q" (Query "limit=5&q=a+b%26c%3Dd%3B%25") = "a b&c=d;%" ∧
  Values_Get "x" (Query "x=1;y&;=2&x=%zz&x=%41+") = "A ".
Proof. vm_compute. done. Qed.

(** ** Facts: escapes are undone *)

(** A statement about every byte. *)
Ltac each_byte c := destruct c as [[] [] [] [] [] [] [] []].

Definition query_char (c : ascii) : string :=
  if byte_val c =? 32 then "+" else if unreserved (byte_val c) then String c "" else percent (byte_val c).
Definition path_char (c : ascii) : string :=
  if path_kept (byte_val c) then String c "" else percent (byte_val c).

Lemma unescape_query_char c t :
  unescape true (query_char c +:+ t)
  = match unescape true t with Some x => Some (String c x) | None => None end.
Proof. each_byte c; reflexivity. Qed.

Lemma unescape_path_char c t :
  unescape false (path_char c +:+ t)
  = match unescape false t with Some x => Some (String c x) | None => None end.
Proof. each_byte c; reflexivity. Qed.

Lemma QueryUnescape_Escape s : QueryUnescape (QueryEscape s) = Some s.
Proof.
  unfold QueryUnescape. induction s as [|c s IH]; [done|]. cbn [QueryEscape].
  fold (query_char c). rewrite unescape_query_char. by rewrite IH.
Qed.

Lemma PathUnescape_Escape s : PathUnescape (PathEscape s) = Some s.
Proof.
  unfold PathUnescape. induction s as [|c s IH]; [done|]. cbn [PathEscape].
  fold (path_char c). rewrite unescape_path_char. by rewrite IH.
Qed.

(** The separators of a query never come out of an escape. *)
Definition separator (x : ascii) : bool := Ascii.eqb x "&" || Ascii.eqb x "=" || Ascii.eqb x ";".

Lemma contains_app x a b : contains x (a +:+ b) = contains x a || contains x b.
Proof. induction a as [|c a IH]; [done|]. rewrite append_cons. cbn [contains]. by rewrite IH, orb_assoc. Qed.

Lemma query_char_clear c x : separator x = true → contains x (query_char c) = false.
Proof.
  unfold separator. intros H. apply orb_true_iff in H as [H|H]; [apply orb_true_iff in H as [H|H]|];
    apply Ascii.eqb_eq in H as ->; each_byte c; reflexivity.
Qed.

Lemma QueryEscape_clear s x : separator x = true → contains x (QueryEscape s) = false.
Proof.
  intros H. induction s as [|c s IH]; [done|]. cbn [QueryEscape]. fold (query_char c).
  by rewrite contains_app, query_char_clear, IH.
Qed.

Lemma Cut_app x a b : contains x a = false → Cut x (a +:+ String x b) = (a, b).
Proof.
  induction a as [|c a IH]; cbn [contains].
  - intros _. rewrite append_nil_l. cbn [Cut]. by rewrite Ascii.eqb_refl.
  - intros [Hc Ha]%orb_false_iff. rewrite append_cons. cbn [Cut]. rewrite Hc. by rewrite IH.
Qed.

Lemma Cut_none x a : contains x a = false → Cut x a = (a, "").
Proof.
  induction a as [|c a IH]; [done|]. cbn [contains Cut]. intros [-> Ha]%orb_false_iff. by rewrite IH.
Qed.

(** *** Query strings *)

Lemma pair_text_clear kv x : (x = "&"%char ∨ x = ";"%char) → contains x (pair_text kv) = false.
Proof.
  intros Hx. unfold pair_text. rewrite !contains_app, !QueryEscape_clear; destruct Hx as [-> | ->]; done.
Qed.

Lemma pair_text_nonempty kv : pair_text kv ≠ "" ∧ (1 ≤ String.length (pair_text kv))%nat.
Proof.
  unfold pair_text. rewrite !length_append. change (String.length "=") with 1%nat.
  split; [|lia]. intros H. apply (f_equal String.length) in H. rewrite !length_append in H.
  change (String.length "=") with 1%nat in H. simpl in H. lia.
Qed.

Lemma Cut_pair kv : Cut "=" (pair_text kv) = (QueryEscape kv.1, QueryEscape kv.2).
Proof. unfold pair_text. apply (Cut_app "="%char). by apply QueryEscape_clear. Qed.

(** One pair and what follows it. *)
Lemma parse_pairs_step f kv rest tail :
  Cut "&" (pair_text kv +:+ tail) = (pair_text kv, rest) →
  parse_pairs (S f) (pair_text kv +:+ tail) = kv :: parse_pairs f rest.
Proof.
  intros Hc. destruct (pair_text_nonempty kv) as [Hne _].
  assert (∃ c s, pair_text kv +:+ tail = String c s) as (c & s & E).
  { destruct (pair_text kv) as [|c s]; [done|]. rewrite append_cons. eauto. }
  rewrite E in *. cbn [parse_pairs]. rewrite Hc, pair_text_clear, bool_decide_eq_false_2 by auto.
  cbn [orb]. rewrite Cut_pair, !QueryUnescape_Escape. by destruct kv.
Qed.

Lemma parse_join l f :
  (String.length (join_pairs l) ≤ f)%nat → parse_pairs f (join_pairs l) = l.
Proof.
  revert f. induction l as [|kv [|kv2 l] IH]; intros f Hf.
  - by destruct f.
  - cbn [join_pairs] in *. destruct (pair_text_nonempty kv). destruct f as [|f]; [lia|].
    rewrite <- (append_nil_r (pair_text kv)). rewrite (parse_pairs_step f kv "").
    + by destruct f.
    + rewrite append_nil_r. apply Cut_none. apply pair_text_clear. auto.
  - change (join_pairs (kv :: kv2 :: l)) with (pair_text kv +:+ String "&" (join_pairs (kv2 :: l))) in *.
    rewrite length_append in Hf.
    change (String.length (String "&" (join_pairs (kv2 :: l))))
      with (S (String.length (join_pairs (kv2 :: l)))) in Hf.
    destruct f as [|f]; [lia|]. rewrite (parse_pairs_step f kv (join_pairs (kv2 :: l))).
    + f_equal. apply IH. lia.
    + apply Cut_app. apply pair_text_clear. auto.
Qed.

(** Adding the pairs of a map with distinct keys builds that map. *)
Lemma add_values k vs m :
  foldl (λ m kv, Values_Add kv.1 kv.2 m) m ((λ v, (k, v)) <$> vs)
  = match vs with [] => m | _ => <[k := default [] (m !! k) ++ vs]> m end.
Proof.
  revert m. induction vs as [|v vs IH]; intros m; [done|]. cbn [fmap list_fmap foldl]. rewrite IH.
  unfold Values_Add. cbn [fst snd]. destruct vs as [|v' vs]; [done|].
  rewrite lookup_insert_eq, insert_insert_eq. simpl. by rewrite <- app_assoc.
Qed.

Lemma add_flatten l m :
  NoDup l.*1 → Forall (λ kvs, kvs.2 ≠ []) l → (∀ k, k ∈ l.*1 → m !! k = None) →
  foldl (λ m kv, Values_Add kv.1 kv.2 m) m (flatten l) = list_to_map l ∪ m.
Proof.
  unfold flatten. revert m. induction l as [|[k vs] l IH]; intros m Hn Hv Hm.
  - change (list_to_map []) with (∅ : Values). by rewrite (left_id_L ∅ (∪)).
  - cbn [fmap list_fmap fst] in *. apply NoDup_cons in Hn as [Hk Hn]. apply Forall_cons in Hv as [Hv1 Hv].
    csimpl. rewrite foldl_app, add_values. rewrite (Hm k) by (by left).
    destruct vs as [|v vs]; [done|]. cbn [default app]. rewrite IH; [|done|done|].
    + change (list_to_map ((k, v :: vs) :: l)) with (<[k := v :: vs]> (list_to_map l : Values)).
      rewrite <- insert_union_l. apply map_eq. intros j. rewrite lookup_union, lookup_insert, lookup_insert.
      case_decide; [subst|by rewrite lookup_union].
      rewrite (not_elem_of_list_to_map_1 l) by done. done.
    + intros k' Hk'. rewrite lookup_insert_ne by (intros ->; done). apply Hm. by right.
Qed.

Lemma Query_Encode m : map_Forall (λ _ vs, vs ≠ []) m → Query (Encode m) = m.
Proof.
  intros Hm. unfold Query, Encode. rewrite parse_join by done.
  pose proof (merge_sort_Permutation key_le (map_to_list m)) as HP.
  rewrite add_flatten.
  - rewrite (right_id_L ∅ (∪)). rewrite (list_to_map_proper _ (map_to_list m)).
    + apply list_to_map_to_list.
    + rewrite HP. apply NoDup_fst_map_to_list.
    + done.
  - rewrite HP. apply NoDup_fst_map_to_list.
  - rewrite HP. apply Forall_forall. intros [k vs] Hin%elem_of_map_to_list. by apply (Hm k).
  - intros. apply lookup_empty.
Qed.
