(* ===== verification/ConjureErrors.v ===== *)
(** [internal/generated/signalium/api/errors.conjure.go] and
    [internal/generated/internal/conjureerrors]: the seven error types of the API,
    their parameters, their wire form and their registry.

    The generated code repeats one template per type.  What differs from type to
    type (the struct of parameters, its name, code, message and tags) is an
    instance of [ErrorType]; the methods are written once over that class. *)

From S2P Require Import Prelude Errors Domain GoText Json JsonFacts JsonStructs.

(** ** The modules the generated code calls

    [safejson] of palantir/pkg encodes and decodes JSON values, and
    [errors.SerializableError] of the Conjure runtime is the wire form of an
    error.  A [json.RawMessage] is kept as the value its text stands for. *)

Record SerializableError := MkSerializableError {
  se_ErrorCode : ErrorCode;
  se_ErrorName : string;
  se_ErrorInstanceID : uuid;
  se_Parameters : json;
}.

(** A value of UTF-8 texts and integers that is not nested deeply. *)
Definition wire_value (v : json) : Prop := plain 100 v.

Class SafeJson := {
  safejson_Marshal : json → string;
  safejson_Unmarshal : string → option json;
  safejson_roundtrip v : wire_value v → safejson_Unmarshal (safejson_Marshal v) = Some v;
}.

Class ErrorContract := {
  SerializableError_json : SerializableError → json;
  SerializableError_of : json → option SerializableError;
  SerializableError_wire e :
    ValidString (se_ErrorName e) = true → plain 50 (se_Parameters e) →
    wire_value (SerializableError_json e);
  SerializableError_read e : SerializableError_of (SerializableError_json e) = Some e;
}.

(** ** Error types *)

(** The values of a [map[string]interface{}] of parameters. *)
Inductive pvalue :=
| PString (s : string)
| PInt (z : Z)
| PUUID (u : uuid).

Abbreviation params_map := (gmap string pvalue) (only parsing).

(** What the generator fills in for the parameters struct [P]. *)
Class ErrorType (P : Type) := {
  et_Name : string;
  et_Code : ErrorCode;
  et_Message : string;
  et_Parameters : P → params_map;
  et_json : P → json;
  et_zero : P;
  et_fields : fields P;
  et_conjure : P → conjure_error;
}.

(** The struct of an error; the stack trace is opaque. *)
Record generated (P : Type) := MkGenerated {
  errorInstanceID : uuid;
  parameters : P;
  ge_cause : option error;
  ge_stack : option N;
}.
Arguments MkGenerated {P} _ _ _ _.
Arguments errorInstanceID {P} _.
Arguments parameters {P} _.
Arguments ge_cause {P} _.
Arguments ge_stack {P} _.

Section template.
Context {P : Type} `{ErrorType P} `{SafeJson} `{ErrorContract}.
Variable uuidString : uuid → string.
(** [werror.ParamsFromError]: the safe and the unsafe parameters of a cause. *)
Variable ParamsFromError : option error → params_map * params_map.

Definition NewError (id : uuid) (stack : N) (p : P) : generated P := MkGenerated id p None (Some stack).
Definition WrapWith (err : error) (id : uuid) (stack : N) (p : P) : generated P :=
  MkGenerated id p (Some err) (Some stack).

Definition Cause (e : generated P) : option error := ge_cause e.
Definition StackTrace (e : generated P) : option N := ge_stack e.
Definition Message (_ : generated P) : string := et_Message.
Definition Name (_ : generated P) : string := et_Name.
Definition InstanceID (e : generated P) : uuid := errorInstanceID e.
Definition Parameters (e : generated P) : params_map := et_Parameters (parameters e).

Definition Error (e : generated P) : string :=
  et_Message +:+ " (" +:+ uuidString (errorInstanceID e) +:+ ")".

Definition safeParams (e : generated P) : params_map :=
  <["errorInstanceId" := PUUID (errorInstanceID e)]> (<["errorName" := PString (Name e)]>
    (et_Parameters (parameters e))).
Definition unsafeParams (_ : generated P) : params_map := ∅.

(** The loop of [SafeParams] and [UnsafeParams] over a map, in some order: a key
    the cause has is kept. *)
Definition merge (own : list (string * pvalue)) (m : params_map) : params_map :=
  foldl (λ m kv, match m !! kv.1 with None => <[kv.1 := kv.2]> m | Some _ => m end) m own.

Definition SafeParams (e : generated P) : params_map :=
  merge (map_to_list (safeParams e)) (ParamsFromError (ge_cause e)).1.
Definition UnsafeParams (e : generated P) : params_map :=
  merge (map_to_list (unsafeParams e)) (ParamsFromError (ge_cause e)).2.

Definition error_MarshalJSON (e : generated P) : string :=
  safejson_Marshal (SerializableError_json
    (MkSerializableError et_Code et_Name (errorInstanceID e) (et_json (parameters e)))).

(** The receiver afterwards: its cause and stack stay. *)
Definition error_UnmarshalJSON (data : string) (e : generated P) : res (generated P) :=
  match safejson_Unmarshal data with
  | None => Err syntax_error
  | Some v =>
      match SerializableError_of v with
      | None => Err type_error
      | Some se =>
          match decode_struct et_fields (se_Parameters se) et_zero with
          | (_, Some err) => Err err
          | (p, None) => Ok (MkGenerated (se_ErrorInstanceID se) p (ge_cause e) (ge_stack e))
          end
      end
  end.
End template.

(** *** The seven types *)

Record attachmentUploadFailed := MkAttachmentUploadFailed { auf_Filename : string }.
#[export] Instance AttachmentUploadFailed_type : ErrorType attachmentUploadFailed := {|
  et_Name := "Signalium:AttachmentUploadFailed";
  et_Code := CustomServer;
  et_Message := "CUSTOM_SERVER Signalium:AttachmentUploadFailed";
  et_Parameters p := {["filename" := PString (auf_Filename p)]};
  et_json p := JObj [("filename", JStr (auf_Filename p))];
  et_zero := MkAttachmentUploadFailed "";
  et_fields := [("filename", string_field (λ s _, MkAttachmentUploadFailed s))];
  et_conjure p := AttachmentUploadFailed (auf_Filename p);
|}.

Record idempotencyConflict := MkIdempotencyConflict { ic_IdempotencyKey : string }.
#[export] Instance IdempotencyConflict_type : ErrorType idempotencyConflict := {|
  et_Name := "Signalium:IdempotencyConflict";
  et_Code := Conflict;
  et_Message := "CONFLICT Signalium:IdempotencyConflict";
  et_Parameters p := {["idempotencyKey" := PString (ic_IdempotencyKey p)]};
  et_json p := JObj [("idempotencyKey", JStr (ic_IdempotencyKey p))];
  et_zero := MkIdempotencyConflict "";
  et_fields := [("idempotencyKey", string_field (λ s _, MkIdempotencyConflict s))];
  et_conjure p := IdempotencyConflict (ic_IdempotencyKey p);
|}.

Record internalServiceError := MkInternalServiceError {}.
#[export] Instance InternalServiceError_type : ErrorType internalServiceError := {|
  et_Name := "Signalium:InternalServiceError";
  et_Code := Internal;
  et_Message := "INTERNAL Signalium:InternalServiceError";
  et_Parameters _ := ∅;
  et_json _ := JObj [];
  et_zero := MkInternalServiceError;
  et_fields := [];
  et_conjure _ := InternalServiceError;
|}.

Record invalidSignalMessage := MkInvalidSignalMessage { ism_Field : string; ism_Reason : string }.
#[export] Instance InvalidSignalMessage_type : ErrorType invalidSignalMessage := {|
  et_Name := "Signalium:InvalidSignalMessage";
  et_Code := InvalidArgument;
  et_Message := "INVALID_ARGUMENT Signalium:InvalidSignalMessage";
  et_Parameters p := {["field" := PString (ism_Field p); "reason" := PString (ism_Reason p)]};
  et_json p := JObj [("field", JStr (ism_Field p)); ("reason", JStr (ism_Reason p))];
  et_zero := MkInvalidSignalMessage "" "";
  et_fields := [("field", string_field (λ s p, MkInvalidSignalMessage s (ism_Reason p)));
                ("reason", string_field (λ s p, MkInvalidSignalMessage (ism_Field p) s))];
  et_conjure p := InvalidSignalMessage (ism_Field p) (ism_Reason p);
|}.

Record senderMismatch := MkSenderMismatch { smm_Configured : string; smm_Requested : string }.
#[export] Instance SenderMismatch_type : ErrorType senderMismatch := {|
  et_Name := "Signalium:SenderMismatch";
  et_Code := Conflict;
  et_Message := "CONFLICT Signalium:SenderMismatch";
  et_Parameters p := {["configured" := PString (smm_Configured p); "requested" := PString (smm_Requested p)]};
  et_json p := JObj [("configured", JStr (smm_Configured p)); ("requested", JStr (smm_Requested p))];
  et_zero := MkSenderMismatch "" "";
  et_fields := [("configured", string_field (λ s p, MkSenderMismatch s (smm_Requested p)));
                ("requested", string_field (λ s p, MkSenderMismatch (smm_Configured p) s))];
  et_conjure p := SenderMismatch (smm_Configured p) (smm_Requested p);
|}.

Record signalCliUnavailable := MkSignalCliUnavailable { scu_Host : string; scu_Port : Z }.
#[export] Instance SignalCliUnavailable_type : ErrorType signalCliUnavailable := {|
  et_Name := "Signalium:SignalCliUnavailable";
  et_Code := CustomServer;
  et_Message := "CUSTOM_SERVER Signalium:SignalCliUnavailable";
  et_Parameters p := {["host" := PString (scu_Host p); "port" := PInt (scu_Port p)]};
  et_json p := JObj [("host", JStr (scu_Host p)); ("port", JInt (scu_Port p))];
  et_zero := MkSignalCliUnavailable "" 0;
  et_fields := [("host", string_field (λ s p, MkSignalCliUnavailable s (scu_Port p)));
                ("port", int_field (λ z p, MkSignalCliUnavailable (scu_Host p) z))];
  et_conjure p := SignalCliUnavailable (scu_Host p) (scu_Port p);
|}.

Record signalMessageNotFound := MkSignalMessageNotFound { smnf_Id : string }.
#[export] Instance SignalMessageNotFound_type : ErrorType signalMessageNotFound := {|
  et_Name := "Signalium:SignalMessageNotFound";
  et_Code := NotFound;
  et_Message := "NOT_FOUND Signalium:SignalMessageNotFound";
  et_Parameters p := {["id" := PString (smnf_Id p)]};
  et_json p := JObj [("id", JStr (smnf_Id p))];
  et_zero := MkSignalMessageNotFound "";
  et_fields := [("id", string_field (λ s _, MkSignalMessageNotFound s))];
  et_conjure p := SignalMessageNotFound (smnf_Id p);
|}.

(** *** The constructors the program calls, with the instance id and the stack
    trace they draw *)

Definition WrapWithAttachmentUploadFailed (err : error) (id : uuid) (st : N) (filenameArg : string) :=
  WrapWith err id st (MkAttachmentUploadFailed filenameArg).
Definition WrapWithIdempotencyConflict (err : error) (id : uuid) (st : N) (idempotencyKeyArg : string) :=
  WrapWith err id st (MkIdempotencyConflict idempotencyKeyArg).
Definition WrapWithInternalServiceError (err : error) (id : uuid) (st : N) :=
  WrapWith err id st MkInternalServiceError.
Definition WrapWithInvalidSignalMessage (err : error) (id : uuid) (st : N) (fieldArg reasonArg : string) :=
  WrapWith err id st (MkInvalidSignalMessage fieldArg reasonArg).
Definition WrapWithSenderMismatch (err : error) (id : uuid) (st : N) (configuredArg requestedArg : string) :=
  WrapWith err id st (MkSenderMismatch configuredArg requestedArg).
Definition WrapWithSignalCliUnavailable (err : error) (id : uuid) (st : N) (hostArg : string) (portArg : Z) :=
  WrapWith err id st (MkSignalCliUnavailable hostArg portArg).
Definition WrapWithSignalMessageNotFound (err : error) (id : uuid) (st : N) (idArg : string) :=
  WrapWith err id st (MkSignalMessageNotFound idArg).

Definition NewAttachmentUploadFailed (id : uuid) (st : N) (filenameArg : string) :=
  NewError id st (MkAttachmentUploadFailed filenameArg).
Definition NewIdempotencyConflict (id : uuid) (st : N) (idempotencyKeyArg : string) :=
  NewError id st (MkIdempotencyConflict idempotencyKeyArg).
Definition NewInternalServiceError (id : uuid) (st : N) := NewError id st MkInternalServiceError.
Definition NewInvalidSignalMessage (id : uuid) (st : N) (fieldArg reasonArg : string) :=
  NewError id st (MkInvalidSignalMessage fieldArg reasonArg).
Definition NewSenderMismatch (id : uuid) (st : N) (configuredArg requestedArg : string) :=
  NewError id st (MkSenderMismatch configuredArg requestedArg).
Definition NewSignalCliUnavailable (id : uuid) (st : N) (hostArg : string) (portArg : Z) :=
  NewError id st (MkSignalCliUnavailable hostArg portArg).
Definition NewSignalMessageNotFound (id : uuid) (st : N) (idArg : string) :=
  NewError id st (MkSignalMessageNotFound idArg).

(** A generated error in the chain of errors that the other components see. *)
Definition as_error {P} `{ErrorType P} (e : generated P) : error :=
  Conjure (et_conjure (parameters e)) (default (ErrMsg "") (ge_cause e)).

(** ** The registry *)

Inductive error_kind :=
| AttachmentUploadFailed_ | IdempotencyConflict_ | InternalServiceError_ | InvalidSignalMessage_
| SenderMismatch_ | SignalCliUnavailable_ | SignalMessageNotFound_.

#[global] Instance error_kind_eq_dec : EqDecision error_kind.
Proof. solve_decision. Defined.

Section registry.
Context `{SafeJson} `{ErrorContract}.

(** [reflect.New(typ)] and [UnmarshalJSON] into it: the error and its id. *)
Definition unmarshal_new (P : Type) `{ErrorType P} (data : string) : res (conjure_error * uuid) :=
  match error_UnmarshalJSON data (MkGenerated uuid_Nil et_zero None None) with
  | Ok e => Ok (et_conjure (parameters e), errorInstanceID e)
  | Err err => Err err
  end.

Definition unmarshal_kind (k : error_kind) : string → res (conjure_error * uuid) :=
  match k with
  | AttachmentUploadFailed_ => unmarshal_new attachmentUploadFailed
  | IdempotencyConflict_ => unmarshal_new idempotencyConflict
  | InternalServiceError_ => unmarshal_new internalServiceError
  | InvalidSignalMessage_ => unmarshal_new invalidSignalMessage
  | SenderMismatch_ => unmarshal_new senderMismatch
  | SignalCliUnavailable_ => unmarshal_new signalCliUnavailable
  | SignalMessageNotFound_ => unmarshal_new signalMessageNotFound
  end.

(** The decoder of the Conjure runtime: one type per name; an error whose name is
    registered is decoded into that type. *)
Class ErrorDecoder := {
  ConjureErrorDecoder : Type;
  NewReflectTypeConjureErrorDecoder : ConjureErrorDecoder;
  registered : ConjureErrorDecoder → string → option error_kind;
  decoder_Register : string → error_kind → ConjureErrorDecoder → res ConjureErrorDecoder;
  DecodeConjureError : ConjureErrorDecoder → string → string → res (conjure_error * uuid);
  registered_new name : registered NewReflectTypeConjureErrorDecoder name = None;
  register_fresh name k d : registered d name = None →
    ∃ d', decoder_Register name k d = Ok d' ∧
      ∀ n, registered d' n = if bool_decide (n = name) then Some k else registered d n;
  register_taken name k k' d : registered d name = Some k' → ∃ err, decoder_Register name k d = Err err;
  decode_registered d name k body :
    registered d name = Some k → DecodeConjureError d name body = unmarshal_kind k body;
}.
Context `{ErrorDecoder}.

(** [conjureerrors.RegisterErrorType] on the global registry: [None] is a panic. *)
Definition RegisterErrorType (name : string) (typ : error_kind) (globalRegistry : ConjureErrorDecoder)
    : option ConjureErrorDecoder :=
  match decoder_Register name typ globalRegistry with
  | Err _ => None
  | Ok d => Some d
  end.

Definition registrations : list (string * error_kind) :=
  [("Signalium:AttachmentUploadFailed", AttachmentUploadFailed_);
   ("Signalium:IdempotencyConflict", IdempotencyConflict_);
   ("Signalium:InternalServiceError", InternalServiceError_);
   ("Signalium:InvalidSignalMessage", InvalidSignalMessage_);
   ("Signalium:SenderMismatch", SenderMismatch_);
   ("Signalium:SignalCliUnavailable", SignalCliUnavailable_);
   ("Signalium:SignalMessageNotFound", SignalMessageNotFound_)].

(** [init]: the registry after program start, unless a registration panicked. *)
Definition register_all (l : list (string * error_kind)) (d : ConjureErrorDecoder)
    : option ConjureErrorDecoder :=
  foldl (λ r nk, match r with Some d => RegisterErrorType nk.1 nk.2 d | None => None end) (Some d) l.
Definition init : option ConjureErrorDecoder :=
  register_all registrations NewReflectTypeConjureErrorDecoder.

(** ** An error across the wire *)

(** What the server writes for an error: its name and its body. *)
Definition on_wire {P} `{ErrorType P} (id : uuid) (p : P) : string * string :=
  (et_Name, error_MarshalJSON (NewError id 0 p)).

Definition conjure_on_wire (c : conjure_error) (id : uuid) : string * string :=
  match c with
  | AttachmentUploadFailed f => on_wire id (MkAttachmentUploadFailed f)
  | IdempotencyConflict k => on_wire id (MkIdempotencyConflict k)
  | InternalServiceError => on_wire id MkInternalServiceError
  | InvalidSignalMessage f r => on_wire id (MkInvalidSignalMessage f r)
  | SenderMismatch a b => on_wire id (MkSenderMismatch a b)
  | SignalCliUnavailable h p => on_wire id (MkSignalCliUnavailable h p)
  | SignalMessageNotFound i => on_wire id (MkSignalMessageNotFound i)
  end.

(** Parameters that JSON can carry unchanged. *)
Definition carried (c : conjure_error) : Prop :=
  match c with
  | AttachmentUploadFailed f => ValidString f = true
  | IdempotencyConflict k => ValidString k = true
  | InternalServiceError => True
  | InvalidSignalMessage f r => ValidString f = true ∧ ValidString r = true
  | SenderMismatch a b => ValidString a = true ∧ ValidString b = true
  | SignalCliUnavailable h p => ValidString h = true ∧ in_int64 p
  | SignalMessageNotFound i => ValidString i = true
  end.

(** *** Facts *)

(** Merging into the parameters of the cause is a union that prefers them. *)
Lemma merge_union (l : list (string * pvalue)) (m : params_map) :
  NoDup l.*1 → merge l m = m ∪ list_to_map l.
Proof.
  unfold merge. revert m. induction l as [|[k v] l IH]; intros m Hn; cbn [foldl].
  - change (list_to_map []) with (∅ : params_map). by rewrite (right_id_L ∅ (∪)).
  - apply NoDup_cons in Hn as [Hk Hn]. rewrite IH by done. cbn [fst snd list_to_map].
    assert ((list_to_map l : params_map) !! k = None) as Hl by (by apply not_elem_of_list_to_map).
    apply map_eq. intros j. rewrite !lookup_union.
    change (list_to_map ((k, v) :: l)) with (<[k := v]> (list_to_map l : params_map)).
    destruct (decide (j = k)) as [->|Hj].
    + rewrite lookup_insert_eq, Hl. destruct (m !! k) as [x|] eqn:E; [by rewrite E|].
      by rewrite lookup_insert_eq.
    + rewrite lookup_insert_ne by done. destruct (m !! k) eqn:E; [done|].
      by rewrite lookup_insert_ne.
Qed.

(** The registry has each name of the list, when the names differ. *)
Lemma register_all_spec l d :
  NoDup l.*1 → (∀ nk, nk ∈ l → registered d nk.1 = None) →
  ∃ d', register_all l d = Some d' ∧ (∀ nk, nk ∈ l → registered d' nk.1 = Some nk.2) ∧
    (∀ n, n ∉ l.*1 → registered d' n = registered d n).
Proof.
  revert d. induction l as [|[n k] l IH]; intros d Hn Hd.
  - exists d. split_and!; [done|set_solver|done].
  - cbn [fmap list_fmap] in Hn. apply NoDup_cons in Hn as [Hk Hn].
    destruct (register_fresh n k d) as (d1 & E1 & R1); [apply (Hd (n, k)); by left|].
    destruct (IH d1) as (d' & E2 & R2 & R3); [done| |].
    + intros [n' k'] Hin. rewrite R1, bool_decide_eq_false_2; [apply Hd; by right|].
      simpl. intros ->. apply Hk. apply list_elem_of_fmap. by exists (n, k').
    + exists d'. split_and!.
      * unfold register_all in *. cbn [foldl fst snd]. unfold RegisterErrorType at 2. by rewrite E1.
      * intros nk [->|Hin]%elem_of_cons; [|by apply R2]. simpl. rewrite R3 by done.
        by rewrite R1, bool_decide_eq_true_2.
      * intros n' Hn'. csimpl in Hn'. apply not_elem_of_cons in Hn' as [Hne Hn'].
        rewrite R3 by done. by rewrite R1, bool_decide_eq_false_2.
Qed.

(** One type of error: its body is read back into the same parameters. *)
Lemma unmarshal_on_wire (P : Type) `{ErrorType P} (p : P) id :
  ValidString et_Name = true → plain 50 (et_json p) →
  decode_struct et_fields (et_json p) et_zero = (p, None) →
  unmarshal_new P (on_wire id p).2 = Ok (et_conjure p, id).
Proof.
  intros Hn Hp Hd. unfold unmarshal_new, on_wire, error_MarshalJSON, error_UnmarshalJSON. cbn [snd].
  rewrite safejson_roundtrip by (by apply SerializableError_wire). rewrite SerializableError_read.
  cbn [se_Parameters se_ErrorInstanceID NewError errorInstanceID parameters]. by rewrite Hd.
Qed.

(** The name and code of the error that a body stands for. *)
Lemma wire_identity (P : Type) `{ErrorType P} (p : P) id :
  ValidString et_Name = true → plain 50 (et_json p) →
  safejson_Unmarshal (on_wire id p).2 ≫= SerializableError_of
  = Some (MkSerializableError et_Code et_Name id (et_json p)).
Proof.
  intros Hn Hp. unfold on_wire, error_MarshalJSON. cbn [snd].
  rewrite safejson_roundtrip by (by apply SerializableError_wire). simpl.
  by rewrite SerializableError_read.
Qed.

Definition kind_of (c : conjure_error) : error_kind :=
  match c with
  | AttachmentUploadFailed _ => AttachmentUploadFailed_
  | IdempotencyConflict _ => IdempotencyConflict_
  | InternalServiceError => InternalServiceError_
  | InvalidSignalMessage _ _ => InvalidSignalMessage_
  | SenderMismatch _ _ => SenderMismatch_
  | SignalCliUnavailable _ _ => SignalCliUnavailable_
  | SignalMessageNotFound _ => SignalMessageNotFound_
  end.

Lemma registered_name c id : ((conjure_on_wire c id).1, kind_of c) ∈ registrations.
Proof. destruct c; apply list_elem_of_In; simpl; auto 10. Qed.

Ltac wire_members :=
  apply (plain_le 1); [lia|]; apply (plain_obj 0); [done|]; members; (split; [done|]);
  by (apply plain_str || apply plain_int).

Lemma wire_both (P : Type) `{ErrorType P} (p : P) c id :
  et_conjure p = c → et_Code = Code c → ValidString et_Name = true → plain 50 (et_json p) →
  decode_struct et_fields (et_json p) et_zero = (p, None) →
  unmarshal_new P (on_wire id p).2 = Ok (c, id) ∧
  ∃ params, safejson_Unmarshal (on_wire id p).2 ≫= SerializableError_of
    = Some (MkSerializableError (Code c) (on_wire id p).1 id params).
Proof.
  intros <- <- Hn Hp Hd. split; [by apply unmarshal_on_wire|]. eexists. by apply wire_identity.
Qed.

Lemma decode_signalCliUnavailable h p :
  in_int64 p →
  decode_struct et_fields (et_json (MkSignalCliUnavailable h p)) et_zero = (MkSignalCliUnavailable h p, None).
Proof.
  intros Hz. cbn [et_json SignalCliUnavailable_type scu_Host scu_Port]. rewrite decode_struct_obj.
  cbn [foldl]. rewrite (store_str (@et_fields _ SignalCliUnavailable_type) _ "host" _ _ _ eq_refl).
  by rewrite (store_int (@et_fields _ SignalCliUnavailable_type) _ "port" _ _ _ eq_refl Hz).
Qed.

Lemma conjure_wire_plain c id :
  carried c →
  unmarshal_kind (kind_of c) (conjure_on_wire c id).2 = Ok (c, id) ∧
  ∃ params, safejson_Unmarshal (conjure_on_wire c id).2 ≫= SerializableError_of
    = Some (MkSerializableError (Code c) (conjure_on_wire c id).1 id params).
Proof.
  intros Hc. destruct c; cbn [carried] in Hc; cbn [conjure_on_wire kind_of unmarshal_kind];
    apply wire_both; try reflexivity; try (destruct Hc; wire_members); try wire_members.
  destruct Hc as [_ Hz]. by apply decode_signalCliUnavailable.
Qed.

(** [init] does not panic. *)
Lemma init_registers :
  ∃ d, init = Some d ∧ ∀ nk, nk ∈ registrations → registered d nk.1 = Some nk.2.
Proof.
  destruct (register_all_spec registrations NewReflectTypeConjureErrorDecoder) as (d & E & R & _).
  - apply (bool_decide_unpack _). vm_compute. done.
  - intros. apply registered_new.
  - by exists d.
Qed.
End registry.

(** ** Properties *)

(** C33: every error of the API survives the trip to a client.  Registering the
    seven types at start-up never panics, and the decoder they build turns the
    body the server writes for an error back into an error of the same type,
    with the same parameters and instance id; the body carries the code that
    the type's Code method names. *)
Theorem api_errors_survive_wire `{SafeJson} `{ErrorContract} `{!ErrorDecoder} (c : conjure_error) (id : uuid) :
  carried c →
  ∃ d, init = Some d ∧
    DecodeConjureError d (conjure_on_wire c id).1 (conjure_on_wire c id).2 = Ok (c, id) ∧
    ∃ params, safejson_Unmarshal (conjure_on_wire c id).2 ≫= SerializableError_of
      = Some (MkSerializableError (Code c) (conjure_on_wire c id).1 id params).
Proof.
  intros Hc. destruct init_registers as (d & E & R). exists d. split; [done|].
  destruct (conjure_wire_plain c id Hc) as [Hu Hp]. split; [|done].
  rewrite (decode_registered d _ (kind_of c)) by (apply (R (_, _)); apply registered_name). done.
Qed.

(** *** A runtime with that behaviour *)

Definition code_text (c : ErrorCode) : string :=
  match c with
  | CustomServer => "CUSTOM_SERVER" | Conflict => "CONFLICT" | Internal => "INTERNAL"
  | InvalidArgument => "INVALID_ARGUMENT" | NotFound => "NOT_FOUND"
  end.
Definition code_of (s : string) : option ErrorCode :=
  head (filter (λ c, code_text c = s) [CustomServer; Conflict; Internal; InvalidArgument; NotFound]).

#[local] Instance demo_safejson : SafeJson.
Proof.
  refine {| safejson_Marshal := marshal false; safejson_Unmarshal := parse |}.
  intros v (Hi & Hc & Hd). rewrite parse_marshal_end by (done || (unfold maxNestingDepth; lia)). by rewrite Hc.
Defined.

(** The instance id as the length of an array. *)
Definition demo_error_json (e : SerializableError) : json :=
  JObj [("errorCode", JStr (code_text (se_ErrorCode e))); ("errorName", JStr (se_ErrorName e));
        ("errorInstanceId", JArr (replicate (N.to_nat (se_ErrorInstanceID e)) JNull));
        ("parameters", se_Parameters e)].
Definition demo_error_of (v : json) : option SerializableError :=
  match v with
  | JObj [(_, JStr c); (_, JStr n); (_, JArr i); (_, p)] =>
      match code_of c with
      | Some code => Some (MkSerializableError code n (N.of_nat (length i)) p)
      | None => None
      end
  | _ => None
  end.

Lemma plain_nulls n : plain 1 (JArr (replicate n JNull)).
Proof. apply (plain_arr 0); [done|]. apply Forall_replicate. done. Qed.

#[local] Instance demo_contract : ErrorContract.
Proof.
  refine {| SerializableError_json := demo_error_json; SerializableError_of := demo_error_of |}.
  - intros e Hn Hp. apply (plain_le 51); [lia|]. apply (plain_obj 50); [done|].
    members; (split; [done|]); cbn [snd]; [| | |done].
    + apply plain_str; [done|]. by destruct (se_ErrorCode e).
    + by apply plain_str.
    + apply (plain_le 1); [lia|]. apply plain_nulls.
  - intros [c n i p]. cbn [demo_error_json demo_error_of se_ErrorCode se_ErrorName se_ErrorInstanceID se_Parameters].
    rewrite length_replicate, N2Nat.id. by destruct c.
Defined.

#[local] Instance demo_decoder : ErrorDecoder.
Proof.
  refine {| ConjureErrorDecoder := gmap string error_kind;
            NewReflectTypeConjureErrorDecoder := ∅;
            registered d n := d !! n;
            decoder_Register n k d :=
              match d !! n with Some _ => Err (ErrMsg "already registered") | None => Ok (<[n := k]> d) end;
            DecodeConjureError d n body :=
              match d !! n with Some k => unmarshal_kind k body | None => Err (ErrMsg "generic") end |}.
  - intros. apply lookup_empty.
  - intros n k d ->. eexists. split; [done|]. intros n'. case_bool_decide as E.
    + subst. by rewrite lookup_insert_eq.
    + by rewrite lookup_insert_ne.
  - intros n k k' d ->. by eexists.
  - by intros d n k body ->.
Defined.

Lemma api_errors_survive_wire_witness :
  ∃ d, init = Some d ∧
    DecodeConjureError d "Signalium:SignalCliUnavailable"
      (conjure_on_wire (SignalCliUnavailable "signal<cli>" 7583) 5).2
    = Ok (SignalCliUnavailable "signal<cli>" 7583, 5%N).
Proof.
  destruct (api_errors_survive_wire (SignalCliUnavailable "signal<cli>" 7583) 5) as (d & E & D & _).
  - split; [reflexivity|]. split; vm_compute; congruence.
  - exists d. split; [exact E|exact D].
Defined.
