(* ===== verification/ApiStructs.v ===== *)
(** [internal/generated/signalium/api]: the status enum of [enums.conjure.go] and
    the structs of [structs.conjure.go] with their JSON. *)

From Stdlib Require Import Ascii.
From S2P Require Import Prelude Errors Domain Sqlc Queries HttpClient Handler GoText Json JsonFacts JsonStructs.

(** ** The types of other modules

    [uuid.UUID], [datetime.DateTime] and [safelong.SafeLong] of palantir/pkg, and
    [strings.ToUpper]: what the generated code relies on.  A UUID is written in
    its canonical form of hexadecimal digits and hyphens; an instant that RFC 3339
    can write is read back; upper case of ASCII is byte by byte. *)

Definition uuid_char (c : ascii) : bool :=
  let b := byte_val c in ((48 <=? b) && (b <=? 57)) || ((97 <=? b) && (b <=? 102)) || (b =? 45).

Fixpoint all_chars (p : ascii → bool) (s : string) : bool :=
  match s with EmptyString => true | String c s' => p c && all_chars p s' end.

Definition upper_char (c : ascii) : ascii :=
  if (97 <=? byte_val c) && (byte_val c <=? 122) then chr (byte_val c - 32) else c.
Fixpoint upper (s : string) : string :=
  match s with EmptyString => "" | String c s' => String (upper_char c) (upper s') end.
Definition is_ascii (c : ascii) : bool := byte_val c <? 128.

Class WireTypes := {
  uuid_text : uuid → string;
  ParseUUID : string → res uuid;
  uuid_text_chars u : all_chars uuid_char (uuid_text u) = true;
  uuid_text_nonempty u : uuid_text u ≠ "";
  ParseUUID_text u : (u < 2 ^ 128)%N → ParseUUID (uuid_text u) = Ok u;
  DateTime_text : time → string;
  ParseDateTime : string → res time;
  rfc3339 : time → Prop;
  DateTime_text_valid t : ValidString (DateTime_text t) = true;
  DateTime_text_nonempty t : DateTime_text t ≠ "";
  ParseDateTime_text t : rfc3339 t → ParseDateTime (DateTime_text t) = Ok t;
  NewSafeLong : Z → option Z;
  NewSafeLong_value z y : NewSafeLong z = Some y → y = z ∧ in_int64 z;
  ToUpper : string → string;
  ToUpper_ascii s : all_chars is_ascii s = true → ToUpper s = upper s;
}.

(** ** The status enum *)

Section enum.
Context `{WireTypes}.

(** [SignalMessageStatus] holds any text; the known ones are its variants. *)
Definition status_Values : list string :=
  ["PENDING"; "SENDING"; "SENT"; "FAILED"; "PERMANENT_FAILED"; "TIMED_OUT"].
Definition New_SignalMessageStatus (value : string) : string := value.
Definition status_MarshalText (s : string) : string := s.
Definition status_UnmarshalText (data : string) : string :=
  let v := ToUpper data in
  if bool_decide (v = "PENDING") then New_SignalMessageStatus "PENDING"
  else if bool_decide (v = "SENDING") then New_SignalMessageStatus "SENDING"
  else if bool_decide (v = "SENT") then New_SignalMessageStatus "SENT"
  else if bool_decide (v = "FAILED") then New_SignalMessageStatus "FAILED"
  else if bool_decide (v = "PERMANENT_FAILED") then New_SignalMessageStatus "PERMANENT_FAILED"
  else if bool_decide (v = "TIMED_OUT") then New_SignalMessageStatus "TIMED_OUT"
  else New_SignalMessageStatus v.
End enum.

(** ** Structs *)

(** A field of a type with [UnmarshalText]: only a JSON string will do. *)
Definition text_field {T A} (parse_text : string → res A) (set : A → T → T) : decoder T := λ v t,
  match v with
  | JStr s => match parse_text s with Ok a => (set a t, None) | Err e => (t, Some e) end
  | _ => (t, Some type_error)
  end.

Record DayStat := MkDayStat { ds_Date : string; ds_Sent : Z; ds_Failed : Z }.
Record InstanceInfo := MkInstanceInfo { in_Name : string; in_SenderPhoneNumber : string }.
Record SignalMessageList := MkSignalMessageList { sl_Items : list SignalMessageInfo; sl_Total : Z }.
Record SignalMessageStats := MkSignalMessageStats {
  ss_Counts : gmap string Z;
  ss_PerDay : list DayStat;
}.
Record UpdateSignalMessageRequest := MkUpdateRequest { ur_Status : string }.
Record SignalMessageAccepted := MkAccepted { ac_Id : uuid }.

(** *** Assigning one field *)

Definition set_si_Id (v : uuid) (i : SignalMessageInfo) : SignalMessageInfo :=
  MkSignalMessageInfo v (si_ExternalId i) (si_IdempotencyKey i) (si_Recipient i) (si_GroupId i)
    (si_SenderPhoneNumber i) (si_Content i) (si_Attachments i) (si_Attempts i) (si_MaxAttempts i)
    (si_NextAttemptAt i) (si_TimeoutAt i) (si_Status i) (si_LastError i) (si_ResultId i)
    (si_QuoteResultId i) (si_CorrelationId i) (si_CreatedAt i) (si_ModifiedAt i).
Definition set_si_ExternalId (v : string) (i : SignalMessageInfo) : SignalMessageInfo :=
  MkSignalMessageInfo (si_Id i) v (si_IdempotencyKey i) (si_Recipient i) (si_GroupId i)
    (si_SenderPhoneNumber i) (si_Content i) (si_Attachments i) (si_Attempts i) (si_MaxAttempts i)
    (si_NextAttemptAt i) (si_TimeoutAt i) (si_Status i) (si_LastError i) (si_ResultId i)
    (si_QuoteResultId i) (si_CorrelationId i) (si_CreatedAt i) (si_ModifiedAt i).
Definition set_si_IdempotencyKey (v : option string) (i : SignalMessageInfo) : SignalMessageInfo :=
  MkSignalMessageInfo (si_Id i) (si_ExternalId i) v (si_Recipient i) (si_GroupId i)
    (si_SenderPhoneNumber i) (si_Content i) (si_Attachments i) (si_Attempts i) (si_MaxAttempts i)
    (si_NextAttemptAt i) (si_TimeoutAt i) (si_Status i) (si_LastError i) (si_ResultId i)
    (si_QuoteResultId i) (si_CorrelationId i) (si_CreatedAt i) (si_ModifiedAt i).
Definition set_si_Recipient (v : option string) (i : SignalMessageInfo) : SignalMessageInfo :=
  MkSignalMessageInfo (si_Id i) (si_ExternalId i) (si_IdempotencyKey i) v (si_GroupId i)
    (si_SenderPhoneNumber i) (si_Content i) (si_Attachments i) (si_Attempts i) (si_MaxAttempts i)
    (si_NextAttemptAt i) (si_TimeoutAt i) (si_Status i) (si_LastError i) (si_ResultId i)
    (si_QuoteResultId i) (si_CorrelationId i) (si_CreatedAt i) (si_ModifiedAt i).
Definition set_si_GroupId (v : option string) (i : SignalMessageInfo) : SignalMessageInfo :=
  MkSignalMessageInfo (si_Id i) (si_ExternalId i) (si_IdempotencyKey i) (si_Recipient i) v
    (si_SenderPhoneNumber i) (si_Content i) (si_Attachments i) (si_Attempts i) (si_MaxAttempts i)
    (si_NextAttemptAt i) (si_TimeoutAt i) (si_Status i) (si_LastError i) (si_ResultId i)
    (si_QuoteResultId i) (si_CorrelationId i) (si_CreatedAt i) (si_ModifiedAt i).
Definition set_si_SenderPhoneNumber (v : string) (i : SignalMessageInfo) : SignalMessageInfo :=
  MkSignalMessageInfo (si_Id i) (si_ExternalId i) (si_IdempotencyKey i) (si_Recipient i) (si_GroupId
    i) v (si_Content i) (si_Attachments i) (si_Attempts i) (si_MaxAttempts i) (si_NextAttemptAt i)
    (si_TimeoutAt i) (si_Status i) (si_LastError i) (si_ResultId i) (si_QuoteResultId i)
    (si_CorrelationId i) (si_CreatedAt i) (si_ModifiedAt i).
Definition set_si_Content (v : string) (i : SignalMessageInfo) : SignalMessageInfo :=
  MkSignalMessageInfo (si_Id i) (si_ExternalId i) (si_IdempotencyKey i) (si_Recipient i) (si_GroupId
    i) (si_SenderPhoneNumber i) v (si_Attachments i) (si_Attempts i) (si_MaxAttempts i)
    (si_NextAttemptAt i) (si_TimeoutAt i) (si_Status i) (si_LastError i) (si_ResultId i)
    (si_QuoteResultId i) (si_CorrelationId i) (si_CreatedAt i) (si_ModifiedAt i).
Definition set_si_Attachments (v : list ConjureAttachment) (i : SignalMessageInfo) : SignalMessageInfo :=
  MkSignalMessageInfo (si_Id i) (si_ExternalId i) (si_IdempotencyKey i) (si_Recipient i) (si_GroupId
    i) (si_SenderPhoneNumber i) (si_Content i) v (si_Attempts i) (si_MaxAttempts i) (si_NextAttemptAt i)
    (si_TimeoutAt i) (si_Status i) (si_LastError i) (si_ResultId i) (si_QuoteResultId i)
    (si_CorrelationId i) (si_CreatedAt i) (si_ModifiedAt i).
Definition set_si_Attempts (v : Z) (i : SignalMessageInfo) : SignalMessageInfo :=
  MkSignalMessageInfo (si_Id i) (si_ExternalId i) (si_IdempotencyKey i) (si_Recipient i) (si_GroupId
    i) (si_SenderPhoneNumber i) (si_Content i) (si_Attachments i) v (si_MaxAttempts i) (si_NextAttemptAt
    i) (si_TimeoutAt i) (si_Status i) (si_LastError i) (si_ResultId i) (si_QuoteResultId i)
    (si_CorrelationId i) (si_CreatedAt i) (si_ModifiedAt i).
Definition set_si_MaxAttempts (v : Z) (i : SignalMessageInfo) : SignalMessageInfo :=
  MkSignalMessageInfo (si_Id i) (si_ExternalId i) (si_IdempotencyKey i) (si_Recipient i) (si_GroupId
    i) (si_SenderPhoneNumber i) (si_Content i) (si_Attachments i) (si_Attempts i) v (si_NextAttemptAt i)
    (si_TimeoutAt i) (si_Status i) (si_LastError i) (si_ResultId i) (si_QuoteResultId i)
    (si_CorrelationId i) (si_CreatedAt i) (si_ModifiedAt i).
Definition set_si_NextAttemptAt (v : time) (i : SignalMessageInfo) : SignalMessageInfo :=
  MkSignalMessageInfo (si_Id i) (si_ExternalId i) (si_IdempotencyKey i) (si_Recipient i) (si_GroupId
    i) (si_SenderPhoneNumber i) (si_Content i) (si_Attachments i) (si_Attempts i) (si_MaxAttempts i) v
    (si_TimeoutAt i) (si_Status i) (si_LastError i) (si_ResultId i) (si_QuoteResultId i)
    (si_CorrelationId i) (si_CreatedAt i) (si_ModifiedAt i).
Definition set_si_TimeoutAt (v : option time) (i : SignalMessageInfo) : SignalMessageInfo :=
  MkSignalMessageInfo (si_Id i) (si_ExternalId i) (si_IdempotencyKey i) (si_Recipient i) (si_GroupId
    i) (si_SenderPhoneNumber i) (si_Content i) (si_Attachments i) (si_Attempts i) (si_MaxAttempts i)
    (si_NextAttemptAt i) v (si_Status i) (si_LastError i) (si_ResultId i) (si_QuoteResultId i)
    (si_CorrelationId i) (si_CreatedAt i) (si_ModifiedAt i).
Definition set_si_Status (v : string) (i : SignalMessageInfo) : SignalMessageInfo :=
  MkSignalMessageInfo (si_Id i) (si_ExternalId i) (si_IdempotencyKey i) (si_Recipient i) (si_GroupId
    i) (si_SenderPhoneNumber i) (si_Content i) (si_Attachments i) (si_Attempts i) (si_MaxAttempts i)
    (si_NextAttemptAt i) (si_TimeoutAt i) v (si_LastError i) (si_ResultId i) (si_QuoteResultId i)
    (si_CorrelationId i) (si_CreatedAt i) (si_ModifiedAt i).
Definition set_si_LastError (v : option string) (i : SignalMessageInfo) : SignalMessageInfo :=
  MkSignalMessageInfo (si_Id i) (si_ExternalId i) (si_IdempotencyKey i) (si_Recipient i) (si_GroupId
    i) (si_SenderPhoneNumber i) (si_Content i) (si_Attachments i) (si_Attempts i) (si_MaxAttempts i)
    (si_NextAttemptAt i) (si_TimeoutAt i) (si_Status i) v (si_ResultId i) (si_QuoteResultId i)
    (si_CorrelationId i) (si_CreatedAt i) (si_ModifiedAt i).
Definition set_si_ResultId (v : option string) (i : SignalMessageInfo) : SignalMessageInfo :=
  MkSignalMessageInfo (si_Id i) (si_ExternalId i) (si_IdempotencyKey i) (si_Recipient i) (si_GroupId
    i) (si_SenderPhoneNumber i) (si_Content i) (si_Attachments i) (si_Attempts i) (si_MaxAttempts i)
    (si_NextAttemptAt i) (si_TimeoutAt i) (si_Status i) (si_LastError i) v (si_QuoteResultId i)
    (si_CorrelationId i) (si_CreatedAt i) (si_ModifiedAt i).
Definition set_si_QuoteResultId (v : option string) (i : SignalMessageInfo) : SignalMessageInfo :=
  MkSignalMessageInfo (si_Id i) (si_ExternalId i) (si_IdempotencyKey i) (si_Recipient i) (si_GroupId
    i) (si_SenderPhoneNumber i) (si_Content i) (si_Attachments i) (si_Attempts i) (si_MaxAttempts i)
    (si_NextAttemptAt i) (si_TimeoutAt i) (si_Status i) (si_LastError i) (si_ResultId i) v
    (si_CorrelationId i) (si_CreatedAt i) (si_ModifiedAt i).
Definition set_si_CorrelationId (v : string) (i : SignalMessageInfo) : SignalMessageInfo :=
  MkSignalMessageInfo (si_Id i) (si_ExternalId i) (si_IdempotencyKey i) (si_Recipient i) (si_GroupId
    i) (si_SenderPhoneNumber i) (si_Content i) (si_Attachments i) (si_Attempts i) (si_MaxAttempts i)
    (si_NextAttemptAt i) (si_TimeoutAt i) (si_Status i) (si_LastError i) (si_ResultId i)
    (si_QuoteResultId i) v (si_CreatedAt i) (si_ModifiedAt i).
Definition set_si_CreatedAt (v : time) (i : SignalMessageInfo) : SignalMessageInfo :=
  MkSignalMessageInfo (si_Id i) (si_ExternalId i) (si_IdempotencyKey i) (si_Recipient i) (si_GroupId
    i) (si_SenderPhoneNumber i) (si_Content i) (si_Attachments i) (si_Attempts i) (si_MaxAttempts i)
    (si_NextAttemptAt i) (si_TimeoutAt i) (si_Status i) (si_LastError i) (si_ResultId i)
    (si_QuoteResultId i) (si_CorrelationId i) v (si_ModifiedAt i).
Definition set_si_ModifiedAt (v : time) (i : SignalMessageInfo) : SignalMessageInfo :=
  MkSignalMessageInfo (si_Id i) (si_ExternalId i) (si_IdempotencyKey i) (si_Recipient i) (si_GroupId
    i) (si_SenderPhoneNumber i) (si_Content i) (si_Attachments i) (si_Attempts i) (si_MaxAttempts i)
    (si_NextAttemptAt i) (si_TimeoutAt i) (si_Status i) (si_LastError i) (si_ResultId i)
    (si_QuoteResultId i) (si_CorrelationId i) (si_CreatedAt i) v.

Definition set_cr_ExternalId (v : string) (i : CreateSignalMessageRequest) : CreateSignalMessageRequest :=
  MkCreateRequest v (cr_IdempotencyKey i) (cr_Recipient i) (cr_GroupId i) (cr_SenderPhoneNumber i)
    (cr_Content i) (cr_QuoteResultId i) (cr_TimeoutSeconds i) (cr_MaxAttempts i).
Definition set_cr_IdempotencyKey (v : option string) (i : CreateSignalMessageRequest) : CreateSignalMessageRequest :=
  MkCreateRequest (cr_ExternalId i) v (cr_Recipient i) (cr_GroupId i) (cr_SenderPhoneNumber i)
    (cr_Content i) (cr_QuoteResultId i) (cr_TimeoutSeconds i) (cr_MaxAttempts i).
Definition set_cr_Recipient (v : option string) (i : CreateSignalMessageRequest) : CreateSignalMessageRequest :=
  MkCreateRequest (cr_ExternalId i) (cr_IdempotencyKey i) v (cr_GroupId i) (cr_SenderPhoneNumber i)
    (cr_Content i) (cr_QuoteResultId i) (cr_TimeoutSeconds i) (cr_MaxAttempts i).
Definition set_cr_GroupId (v : option string) (i : CreateSignalMessageRequest) : CreateSignalMessageRequest :=
  MkCreateRequest (cr_ExternalId i) (cr_IdempotencyKey i) (cr_Recipient i) v (cr_SenderPhoneNumber i)
    (cr_Content i) (cr_QuoteResultId i) (cr_TimeoutSeconds i) (cr_MaxAttempts i).
Definition set_cr_SenderPhoneNumber (v : option string) (i : CreateSignalMessageRequest) : CreateSignalMessageRequest :=
  MkCreateRequest (cr_ExternalId i) (cr_IdempotencyKey i) (cr_Recipient i) (cr_GroupId i) v
    (cr_Content i) (cr_QuoteResultId i) (cr_TimeoutSeconds i) (cr_MaxAttempts i).
Definition set_cr_Content (v : string) (i : CreateSignalMessageRequest) : CreateSignalMessageRequest :=
  MkCreateRequest (cr_ExternalId i) (cr_IdempotencyKey i) (cr_Recipient i) (cr_GroupId i)
    (cr_SenderPhoneNumber i) v (cr_QuoteResultId i) (cr_TimeoutSeconds i) (cr_MaxAttempts i).
Definition set_cr_QuoteResultId (v : option string) (i : CreateSignalMessageRequest) : CreateSignalMessageRequest :=
  MkCreateRequest (cr_ExternalId i) (cr_IdempotencyKey i) (cr_Recipient i) (cr_GroupId i)
    (cr_SenderPhoneNumber i) (cr_Content i) v (cr_TimeoutSeconds i) (cr_MaxAttempts i).
Definition set_cr_TimeoutSeconds (v : option Z) (i : CreateSignalMessageRequest) : CreateSignalMessageRequest :=
  MkCreateRequest (cr_ExternalId i) (cr_IdempotencyKey i) (cr_Recipient i) (cr_GroupId i)
    (cr_SenderPhoneNumber i) (cr_Content i) (cr_QuoteResultId i) v (cr_MaxAttempts i).
Definition set_cr_MaxAttempts (v : option Z) (i : CreateSignalMessageRequest) : CreateSignalMessageRequest :=
  MkCreateRequest (cr_ExternalId i) (cr_IdempotencyKey i) (cr_Recipient i) (cr_GroupId i)
    (cr_SenderPhoneNumber i) (cr_Content i) (cr_QuoteResultId i) (cr_TimeoutSeconds i) v.

Section structs.
Context `{WireTypes}.

(** A member holding a [uuid.UUID] or a [datetime.DateTime]. *)
Definition uuid_json (u : uuid) : json := JStr (uuid_text u).
Definition datetime_json (t : time) : json := JStr (DateTime_text t).

(** [safelong.SafeLong] decodes a number in its range. *)
Definition safelong_decoder : decoder Z := λ v z,
  match v with
  | JNum lit => match ParseInt lit with
                | Ok n => match NewSafeLong n with Some y => (y, None) | None => (z, Some type_error) end
                | Err _ => (z, Some type_error)
                end
  | _ => (z, Some type_error)
  end.

Definition str_decoder : decoder string := string_field (λ s _, s).
Definition num_decoder : decoder Z := int_field (λ z _, z).

(** **** Attachment *)

Definition Attachment_json (a : ConjureAttachment) : json :=
  JObj ([("bucket", JStr (ca_Bucket a)); ("filename", JStr (ca_Filename a))]
        ++ opt_member "mimeType" JStr (ca_MimeType a) ++ opt_member "size" JInt (ca_Size a)).
Definition zero_Attachment : ConjureAttachment := MkConjureAttachment "" "" None None.
Definition Attachment_fields : fields ConjureAttachment :=
  [("bucket", string_field (λ s a, MkConjureAttachment s (ca_Filename a) (ca_MimeType a) (ca_Size a)));
   ("filename", string_field (λ s a, MkConjureAttachment (ca_Bucket a) s (ca_MimeType a) (ca_Size a)));
   ("mimeType", ptr_field "" ca_MimeType
      (λ s a, MkConjureAttachment (ca_Bucket a) (ca_Filename a) s (ca_Size a)) str_decoder);
   ("size", ptr_field 0 ca_Size
      (λ z a, MkConjureAttachment (ca_Bucket a) (ca_Filename a) (ca_MimeType a) z) safelong_decoder)].

(** **** CreateSignalMessageRequest *)

Definition CreateRequest_json (r : CreateSignalMessageRequest) : json :=
  JObj ([("externalId", JStr (cr_ExternalId r))]
        ++ opt_member "idempotencyKey" JStr (cr_IdempotencyKey r)
        ++ opt_member "recipient" JStr (cr_Recipient r)
        ++ opt_member "groupId" JStr (cr_GroupId r)
        ++ opt_member "senderPhoneNumber" JStr (cr_SenderPhoneNumber r)
        ++ [("content", JStr (cr_Content r))]
        ++ opt_member "quoteResultId" JStr (cr_QuoteResultId r)
        ++ opt_member "timeoutSeconds" JInt (cr_TimeoutSeconds r)
        ++ opt_member "maxAttempts" JInt (cr_MaxAttempts r)).
Definition zero_CreateRequest : CreateSignalMessageRequest :=
  MkCreateRequest "" None None None None "" None None None.
Definition CreateRequest_fields : fields CreateSignalMessageRequest :=
  [("externalId", string_field set_cr_ExternalId);
   ("idempotencyKey", ptr_field "" cr_IdempotencyKey set_cr_IdempotencyKey str_decoder);
   ("recipient", ptr_field "" cr_Recipient set_cr_Recipient str_decoder);
   ("groupId", ptr_field "" cr_GroupId set_cr_GroupId str_decoder);
   ("senderPhoneNumber", ptr_field "" cr_SenderPhoneNumber set_cr_SenderPhoneNumber str_decoder);
   ("content", string_field set_cr_Content);
   ("quoteResultId", ptr_field "" cr_QuoteResultId set_cr_QuoteResultId str_decoder);
   ("timeoutSeconds", ptr_field 0 cr_TimeoutSeconds set_cr_TimeoutSeconds num_decoder);
   ("maxAttempts", ptr_field 0 cr_MaxAttempts set_cr_MaxAttempts num_decoder)].

(** **** DayStat, InstanceInfo, SignalMessageAccepted, UpdateSignalMessageRequest *)

Definition DayStat_json (d : DayStat) : json :=
  JObj [("date", JStr (ds_Date d)); ("sent", JInt (ds_Sent d)); ("failed", JInt (ds_Failed d))].
Definition DayStat_fields : fields DayStat :=
  [("date", string_field (λ s d, MkDayStat s (ds_Sent d) (ds_Failed d)));
   ("sent", int_field (λ z d, MkDayStat (ds_Date d) z (ds_Failed d)));
   ("failed", int_field (λ z d, MkDayStat (ds_Date d) (ds_Sent d) z))].

Definition InstanceInfo_json (i : InstanceInfo) : json :=
  JObj [("name", JStr (in_Name i)); ("senderPhoneNumber", JStr (in_SenderPhoneNumber i))].
Definition InstanceInfo_fields : fields InstanceInfo :=
  [("name", string_field (λ s i, MkInstanceInfo s (in_SenderPhoneNumber i)));
   ("senderPhoneNumber", string_field (λ s i, MkInstanceInfo (in_Name i) s))].

Definition Accepted_json (a : SignalMessageAccepted) : json := JObj [("id", uuid_json (ac_Id a))].
Definition Accepted_fields : fields SignalMessageAccepted := [("id", text_field ParseUUID (λ u _, MkAccepted u))].

Definition UpdateRequest_json (r : UpdateSignalMessageRequest) : json :=
  JObj [("status", JStr (status_MarshalText (ur_Status r)))].
Definition status_text (s : string) : res string := Ok (status_UnmarshalText s).
Definition UpdateRequest_fields : fields UpdateSignalMessageRequest :=
  [("status", text_field status_text (λ s _, MkUpdateRequest s))].

(** **** SignalGroupInfo *)

Definition SignalGroupInfo_json (g : SignalGroupInfo) : json :=
  JObj ([("id", JStr (sg_Id g)); ("name", JStr (sg_Name g))]
        ++ opt_member "description" JStr (sg_Description g)
        ++ opt_member "members" strings_json (sg_Members g)).
Definition zero_SignalGroupInfo : SignalGroupInfo := MkSignalGroupInfo "" "" None None.

(** What a [*[]string] points to. *)
Definition strings_decoder : decoder (list string) := λ v l,
  let '(l', e) := slice_decoder "" str_decoder v (Some l) in (default [] l', e).
Definition SignalGroupInfo_fields : fields SignalGroupInfo :=
  [("id", string_field (λ s g, MkSignalGroupInfo s (sg_Name g) (sg_Description g) (sg_Members g)));
   ("name", string_field (λ s g, MkSignalGroupInfo (sg_Id g) s (sg_Description g) (sg_Members g)));
   ("description", ptr_field "" sg_Description
      (λ s g, MkSignalGroupInfo (sg_Id g) (sg_Name g) s (sg_Members g)) str_decoder);
   ("members", ptr_field [] sg_Members
      (λ l g, MkSignalGroupInfo (sg_Id g) (sg_Name g) (sg_Description g) l) strings_decoder)].

(** **** SignalMessageInfo: its [MarshalJSON] writes a nil slice of attachments as
    an empty one, and [UnmarshalJSON] reads none as an empty one. *)

Definition SignalMessageInfo_json (i : SignalMessageInfo) : json :=
  JObj ([("id", uuid_json (si_Id i)); ("externalId", JStr (si_ExternalId i))]
        ++ opt_member "idempotencyKey" JStr (si_IdempotencyKey i)
        ++ opt_member "recipient" JStr (si_Recipient i)
        ++ opt_member "groupId" JStr (si_GroupId i)
        ++ [("senderPhoneNumber", JStr (si_SenderPhoneNumber i)); ("content", JStr (si_Content i));
            ("attachments", JArr (Attachment_json <$> si_Attachments i));
            ("attempts", JInt (si_Attempts i)); ("maxAttempts", JInt (si_MaxAttempts i));
            ("nextAttemptAt", datetime_json (si_NextAttemptAt i))]
        ++ opt_member "timeoutAt" datetime_json (si_TimeoutAt i)
        ++ [("status", JStr (status_MarshalText (si_Status i)))]
        ++ opt_member "lastError" JStr (si_LastError i)
        ++ opt_member "resultId" JStr (si_ResultId i)
        ++ opt_member "quoteResultId" JStr (si_QuoteResultId i)
        ++ [("correlationId", JStr (si_CorrelationId i)); ("createdAt", datetime_json (si_CreatedAt i));
            ("modifiedAt", datetime_json (si_ModifiedAt i))]).

Definition zero_SignalMessageInfo : SignalMessageInfo :=
  MkSignalMessageInfo uuid_Nil "" None None None "" "" [] 0 0 zeroTime None "" None None None "" zeroTime zeroTime.

Definition time_decoder : decoder time := text_field ParseDateTime (λ t _, t).

Definition SignalMessageInfo_fields : fields SignalMessageInfo :=
  [("id", text_field ParseUUID set_si_Id);
   ("externalId", string_field set_si_ExternalId);
   ("idempotencyKey", ptr_field "" si_IdempotencyKey set_si_IdempotencyKey str_decoder);
   ("recipient", ptr_field "" si_Recipient set_si_Recipient str_decoder);
   ("groupId", ptr_field "" si_GroupId set_si_GroupId str_decoder);
   ("senderPhoneNumber", string_field set_si_SenderPhoneNumber);
   ("content", string_field set_si_Content);
   ("attachments", slice_field zero_Attachment (λ i, Some (si_Attachments i))
      (λ l, set_si_Attachments (default [] l)) (decode_struct Attachment_fields));
   ("attempts", int_field set_si_Attempts);
   ("maxAttempts", int_field set_si_MaxAttempts);
   ("nextAttemptAt", text_field ParseDateTime set_si_NextAttemptAt);
   ("timeoutAt", ptr_field zeroTime si_TimeoutAt set_si_TimeoutAt time_decoder);
   ("status", text_field status_text set_si_Status);
   ("lastError", ptr_field "" si_LastError set_si_LastError str_decoder);
   ("resultId", ptr_field "" si_ResultId set_si_ResultId str_decoder);
   ("quoteResultId", ptr_field "" si_QuoteResultId set_si_QuoteResultId str_decoder);
   ("correlationId", string_field set_si_CorrelationId);
   ("createdAt", text_field ParseDateTime set_si_CreatedAt);
   ("modifiedAt", text_field ParseDateTime set_si_ModifiedAt)].

(** **** SignalMessageList *)

Definition SignalMessageList_json (l : SignalMessageList) : json :=
  JObj [("items", JArr (SignalMessageInfo_json <$> sl_Items l)); ("total", JInt (sl_Total l))].

(** An element with its own [UnmarshalJSON] is decoded from the zero value, and
    left alone when that fails. *)
Definition info_decoder : decoder SignalMessageInfo := λ v old,
  match decode_struct SignalMessageInfo_fields v zero_SignalMessageInfo with
  | (i, None) => (i, None)
  | (_, Some e) => (old, Some e)
  end.
Definition SignalMessageList_fields : fields SignalMessageList :=
  [("items", slice_field zero_SignalMessageInfo (λ l, Some (sl_Items l))
      (λ l r, MkSignalMessageList (default [] l) (sl_Total r)) info_decoder);
   ("total", int_field (λ z r, MkSignalMessageList (sl_Items r) z))].

(** **** SignalMessageStats: the counts are a map whose keys are marshalled as
    text and sorted. *)

Definition key_order (a b : string * Z) : Prop := String.leb a.1 b.1 = true.
#[export] Instance key_order_dec a b : Decision (key_order a b).
Proof. unfold key_order. apply _. Defined.

Definition counts_json (m : gmap string Z) : json :=
  JObj ((λ kv, (status_MarshalText kv.1, JInt kv.2)) <$> merge_sort key_order (map_to_list m)).
Definition SignalMessageStats_json (s : SignalMessageStats) : json :=
  JObj [("counts", counts_json (ss_Counts s)); ("perDay", JArr (DayStat_json <$> ss_PerDay s))].

(** A map entry is set even when its value did not decode. *)
Definition store_count (st : gmap string Z * option error) (kv : string * json) : gmap string Z * option error :=
  let '(z, e) := num_decoder kv.2 0 in
  (<[status_UnmarshalText kv.1 := z]> st.1, first_error st.2 e).
Definition counts_decoder : decoder (gmap string Z) := λ v m,
  match v with
  | JObj kvs => foldl store_count (m, None) kvs
  | JNull => (∅, None)
  | _ => (m, Some type_error)
  end.
Definition SignalMessageStats_fields : fields SignalMessageStats :=
  [("counts", λ v s, let '(m, e) := counts_decoder v (ss_Counts s) in (MkSignalMessageStats m (ss_PerDay s), e));
   ("perDay", slice_field (MkDayStat "" 0 0) (λ s, Some (ss_PerDay s))
      (λ l s, MkSignalMessageStats (ss_Counts s) (default [] l)) (decode_struct DayStat_fields))].

(** ** Facts: texts *)

Lemma status_UnmarshalText_upper s : status_UnmarshalText s = ToUpper s.
Proof. unfold status_UnmarshalText, New_SignalMessageStatus. by repeat case_bool_decide. Qed.

(** Texts that upper case leaves alone. *)
Definition upper_text (s : string) : Prop := all_chars is_ascii s = true ∧ upper s = s.

Lemma status_read s : upper_text s → status_UnmarshalText s = s.
Proof. intros [Ha Hu]. by rewrite status_UnmarshalText_upper, ToUpper_ascii, Hu. Qed.

Lemma known_status_upper s : s ∈ status_Values → upper_text s.
Proof. unfold status_Values. rewrite !elem_of_cons, elem_of_nil. by intros [->|[->|[->|[->|[->|[->|[]]]]]]]. Qed.

Lemma ascii_valid s : all_chars is_ascii s = true → ValidString s = true.
Proof.
  unfold ValidString. induction s as [|c s IH]; [done|]. cbn [all_chars String.length valid_fuel].
  intros [Hc Hs]%andb_true_iff. unfold is_ascii in Hc. unfold decode1. rewrite Hc.
  rewrite (IH Hs). unfold invalid_byte. apply Z.ltb_lt in Hc.
  assert (byte_val c =? RuneError = false) as -> by (apply Z.eqb_neq; unfold RuneError; lia). done.
Qed.

Lemma all_chars_impl (p q : ascii → bool) s :
  (∀ c, p c = true → q c = true) → all_chars p s = true → all_chars q s = true.
Proof.
  intros Hpq. induction s as [|c s IH]; [done|]. cbn [all_chars].
  intros [Hc Hs]%andb_true_iff. by rewrite (Hpq c Hc), IH.
Qed.

Lemma uuid_text_valid u : ValidString (uuid_text u) = true.
Proof.
  apply ascii_valid. eapply all_chars_impl; [|apply uuid_text_chars]. intros c.
  destruct c as [[] [] [] [] [] [] [] []]; done.
Qed.

Lemma store_text {T A} (fs : fields T) (p : string → res A) set name s a t e :
  find_field fs name = Some (text_field p set) → p s = Ok a →
  store_member fs (t, e) (name, JStr s) = (set a t, e).
Proof.
  intros Hf Hp. unfold store_member. cbn [fst]. rewrite Hf. cbn [text_field snd fst]. rewrite Hp.
  by destruct e.
Qed.

Lemma num_decoder_int z n : in_int64 z → num_decoder (JInt z) n = (z, None).
Proof. intros. unfold num_decoder, int_field, JInt. by rewrite ParseInt_FormatInt_ok. Qed.

Lemma safelong_int z n : NewSafeLong z = Some z → safelong_decoder (JInt z) n = (z, None).
Proof.
  intros Hz. unfold safelong_decoder, JInt. destruct (NewSafeLong_value z z Hz) as [_ Hi].
  rewrite ParseInt_FormatInt_ok by done. by rewrite Hz.
Qed.

(** A slice member, into a struct that has none yet. *)
Lemma store_slice {T A} (fs : fields T) zero (get : T → option (list A)) set dec enc name l t e :
  find_field fs name = Some (slice_field zero get set dec) → default [] (get t) = [] →
  Forall (λ a, dec (enc a) zero = (a, None)) l →
  store_member fs (t, e) (name, JArr (enc <$> l)) = (set (Some l) t, e).
Proof.
  intros Hf Hg Hl. unfold store_member. cbn [fst]. rewrite Hf. unfold slice_field, slice_decoder. cbn [snd fst].
  rewrite Hg, decode_list by done. by destruct e.
Qed.
End structs.
