(* ===== verification/ApiFacts.v ===== *)
(** Round trips of the API's structs: what [ApiStructs] encodes, it decodes. *)

From S2P Require Import Prelude Errors Domain Sqlc Queries HttpClient Handler GoText Json JsonFacts JsonStructs ApiStructs.

Section facts.
Context `{WireTypes}.

(** ** Decoding member by member *)

Section steps.
Context {T : Type} (fs : fields T).
Implicit Types (t : T) (r : T * option error).

Lemma step_str set n s l t r :
  find_field fs n = Some (string_field set) →
  foldl (store_member fs) (set s t, None) l = r →
  foldl (store_member fs) (t, None) ((n, JStr s) :: l) = r.
Proof. intros Hf <-. cbn [foldl]. by rewrite (store_str fs set). Qed.

Lemma step_text {A} (p : string → res A) set n s a l t r :
  find_field fs n = Some (text_field p set) → p s = Ok a →
  foldl (store_member fs) (set a t, None) l = r →
  foldl (store_member fs) (t, None) ((n, JStr s) :: l) = r.
Proof. intros Hf Hp <-. cbn [foldl]. by rewrite (store_text fs p set n s a). Qed.

Lemma step_int set n z l t r :
  find_field fs n = Some (int_field set) → in_int64 z →
  foldl (store_member fs) (set z t, None) l = r →
  foldl (store_member fs) (t, None) ((n, JInt z) :: l) = r.
Proof. intros Hf Hz <-. cbn [foldl]. by rewrite (store_int fs set). Qed.

Lemma step_slice {A} zero (get : T → option (list A)) set dec enc n vs l t r :
  find_field fs n = Some (slice_field zero get set dec) → default [] (get t) = [] →
  Forall (λ a, dec (enc a) zero = (a, None)) vs →
  foldl (store_member fs) (set (Some vs) t, None) l = r →
  foldl (store_member fs) (t, None) ((n, JArr (enc <$> vs)) :: l) = r.
Proof. intros Hf Hg Hv <-. cbn [foldl]. by rewrite (store_slice fs zero get set dec enc). Qed.

Lemma step_opt {A} zero (get : T → option A) set dec enc n o l t r :
  find_field fs n = Some (ptr_field zero get set dec) → get t = None → set None t = t →
  (∀ a, o = Some a → enc a ≠ JNull ∧ dec (enc a) zero = (a, None)) →
  foldl (store_member fs) (set o t, None) l = r →
  foldl (store_member fs) (t, None) (opt_member n enc o ++ l) = r.
Proof.
  intros Hf Hg Hs Ho <-. rewrite foldl_app.
  by rewrite (foldl_opt_member fs zero get set dec n enc o t) by (done || naive_solver).
Qed.
End steps.

(** The fields that are known so far, and those of a destructed value. *)
Ltac known := cbv beta iota delta [zero_SignalMessageInfo zero_CreateRequest
    si_Id si_ExternalId si_IdempotencyKey si_Recipient si_GroupId si_SenderPhoneNumber si_Content
    si_Attachments si_Attempts si_MaxAttempts si_NextAttemptAt si_TimeoutAt si_Status si_LastError
    si_ResultId si_QuoteResultId si_CorrelationId si_CreatedAt si_ModifiedAt cr_ExternalId
    cr_IdempotencyKey cr_Recipient cr_GroupId cr_SenderPhoneNumber cr_Content cr_QuoteResultId
    cr_TimeoutSeconds cr_MaxAttempts
    set_si_Id set_si_ExternalId set_si_IdempotencyKey set_si_Recipient set_si_GroupId
    set_si_SenderPhoneNumber set_si_Content set_si_Attachments set_si_Attempts set_si_MaxAttempts
    set_si_NextAttemptAt set_si_TimeoutAt set_si_Status set_si_LastError set_si_ResultId
    set_si_QuoteResultId set_si_CorrelationId set_si_CreatedAt set_si_ModifiedAt set_cr_ExternalId
    set_cr_IdempotencyKey set_cr_Recipient set_cr_GroupId set_cr_SenderPhoneNumber set_cr_Content
    set_cr_QuoteResultId set_cr_TimeoutSeconds set_cr_MaxAttempts].
Ltac project := cbn [
    si_Id si_ExternalId si_IdempotencyKey si_Recipient si_GroupId si_SenderPhoneNumber si_Content
    si_Attachments si_Attempts si_MaxAttempts si_NextAttemptAt si_TimeoutAt si_Status si_LastError
    si_ResultId si_QuoteResultId si_CorrelationId si_CreatedAt si_ModifiedAt cr_ExternalId
    cr_IdempotencyKey cr_Recipient cr_GroupId cr_SenderPhoneNumber cr_Content cr_QuoteResultId
    cr_TimeoutSeconds cr_MaxAttempts] in *.

(** One member; the side conditions are hypotheses of the struct at hand. *)
Ltac member :=
  lazymatch goal with
  | |- foldl _ _ ((_, JStr _) :: _) = _ =>
      first [ simple eapply step_str; [reflexivity|]
            | simple eapply step_text; [reflexivity|eassumption|] ]
  | |- foldl _ _ ((_, JInt _) :: _) = _ => simple eapply step_int; [reflexivity|eassumption|]
  | |- foldl _ _ (opt_member _ _ _ ++ _) = _ =>
      simple eapply step_opt; [reflexivity|reflexivity|reflexivity|eassumption|]
  end; known.

Lemma opt_str (o : option string) :
  ∀ a, o = Some a → JStr a ≠ JNull ∧ str_decoder (JStr a) "" = (a, None).
Proof. done. Qed.

Lemma opt_int (o : option Z) :
  (∀ z, o = Some z → in_int64 z) →
  ∀ a, o = Some a → JInt a ≠ JNull ∧ num_decoder (JInt a) 0 = (a, None).
Proof. intros Ho a E. split; [done|]. apply num_decoder_int. auto. Qed.

(** Members of an object whose values nest at most [n] deep. *)
Definition plain_member (n : Z) (kv : string * json) : Prop := ValidString kv.1 = true ∧ plain n kv.2.

Lemma plain_opt_str n name o :
  0 ≤ n → ValidString name = true → valid_opt o → Forall (plain_member n) (opt_member name JStr o).
Proof. intros. apply Forall_opt_member. intros s E. split; [done|]. apply plain_str; auto. Qed.

Lemma plain_opt_int n name o :
  0 ≤ n → ValidString name = true → (∀ z, o = Some z → in_int64 z) → Forall (plain_member n) (opt_member name JInt o).
Proof. intros. apply Forall_opt_member. intros s E. split; [done|]. apply plain_int; auto. Qed.

Lemma plain_elems {A} n (enc : A → json) l :
  0 ≤ n → Forall (λ a, plain n (enc a)) l → plain (n + 1) (JArr (enc <$> l)).
Proof. intros. apply plain_arr; [done|]. by rewrite Forall_fmap. Qed.

(** ** Attachments *)

Definition Attachment_ok (a : ConjureAttachment) : Prop :=
  ValidString (ca_Bucket a) = true ∧ ValidString (ca_Filename a) = true ∧ valid_opt (ca_MimeType a) ∧
  ∀ z, ca_Size a = Some z → NewSafeLong z = Some z.

Lemma decode_Attachment a :
  Attachment_ok a → decode_struct Attachment_fields (Attachment_json a) zero_Attachment = (a, None).
Proof.
  intros (_ & _ & _ & Hz). unfold Attachment_json. rewrite decode_struct_obj. cbn [app].
  assert (∀ z, ca_Size a = Some z → JInt z ≠ JNull ∧ safelong_decoder (JInt z) 0 = (z, None)) as Hs
    by (intros z E; split; [done|by apply safelong_int, Hz]).
  pose proof (opt_str (ca_MimeType a)). do 3 member.
  rewrite <- (app_nil_r (opt_member "size" _ _)). member. by destruct a.
Qed.

Lemma plain_Attachment a : Attachment_ok a → plain 1 (Attachment_json a).
Proof.
  intros (Hb & Hf & Hm & Hz). apply (plain_obj 0); [done|].
  repeat (apply Forall_app; split).
  - members; (split; [done|]); by apply plain_str.
  - by apply plain_opt_str.
  - apply plain_opt_int; [done|done|]. intros z E. by destruct (NewSafeLong_value z z (Hz z E)).
Qed.

(** ** SignalMessageInfo *)

Definition info_ok (i : SignalMessageInfo) : Prop :=
  (si_Id i < 2 ^ 128)%N ∧
  Forall (λ s, ValidString s = true) [si_ExternalId i; si_SenderPhoneNumber i; si_Content i; si_CorrelationId i] ∧
  Forall valid_opt [si_IdempotencyKey i; si_Recipient i; si_GroupId i; si_LastError i; si_ResultId i; si_QuoteResultId i] ∧
  Forall Attachment_ok (si_Attachments i) ∧ in_int64 (si_Attempts i) ∧ in_int64 (si_MaxAttempts i) ∧
  rfc3339 (si_NextAttemptAt i) ∧ (∀ t, si_TimeoutAt i = Some t → rfc3339 t) ∧
  upper_text (si_Status i) ∧ rfc3339 (si_CreatedAt i) ∧ rfc3339 (si_ModifiedAt i).

Lemma decode_SignalMessageInfo i :
  info_ok i →
  decode_struct SignalMessageInfo_fields (SignalMessageInfo_json i) zero_SignalMessageInfo = (i, None).
Proof.
  intros (Hid & _ & _ & Ha & Hn & Hm & Ht1 & Ht2 & Hs & Ht3 & Ht4).
  destruct i as [id eid key rcp grp snd txt atts n mx next to st err rid qid cid created modified]. project.
  unfold SignalMessageInfo_json, uuid_json, datetime_json. rewrite decode_struct_obj. cbn [app].
  apply ParseUUID_text in Hid. apply ParseDateTime_text in Ht1, Ht3, Ht4.
  assert (status_text (status_MarshalText st) = Ok st) as Hst
    by (unfold status_text, status_MarshalText; by rewrite status_read).
  assert (∀ t, to = Some t →
    JStr (DateTime_text t) ≠ JNull ∧ time_decoder (JStr (DateTime_text t)) zeroTime = (t, None)) as Hto.
  { intros t E. split; [done|]. cbn [time_decoder text_field]. by rewrite ParseDateTime_text by auto. }
  assert (Forall (λ a, decode_struct Attachment_fields (Attachment_json a) zero_Attachment = (a, None))
    atts) as Hat by (eapply Forall_impl; [exact Ha|]; apply decode_Attachment).
  pose proof (opt_str key); pose proof (opt_str rcp); pose proof (opt_str grp);
    pose proof (opt_str err); pose proof (opt_str rid); pose proof (opt_str qid).
  do 7 member. simple eapply step_slice; [reflexivity|reflexivity|eassumption|].
  cbn [app]. do 4 member. cbn [app]. do 7 member. done.
Qed.

Ltac plain_members :=
  repeat (apply Forall_app; split);
  lazymatch goal with
  | |- Forall _ (opt_member _ JStr _) => apply plain_opt_str; done
  | |- Forall _ (opt_member _ JInt _) => apply plain_opt_int; done
  | |- _ => idtac
  end.

Lemma plain_SignalMessageInfo i : info_ok i → plain 3 (SignalMessageInfo_json i).
Proof.
  intros (_ & Hv & Ho & Ha & Hn & Hm & _ & _ & [Hs _] & _ & _). apply ascii_valid in Hs.
  decompose_Forall_hyps. apply (plain_obj 2); [done|]. plain_members.
  - members; (split; [done|]); cbn [snd]; apply plain_str; auto using uuid_text_valid. lia. lia.
  - members; (split; [done|]); cbn [snd];
      try (by apply plain_int); try (apply plain_str; [lia|auto using DateTime_text_valid]).
    apply (plain_elems 1); [lia|]. eapply Forall_impl; [eassumption|]. apply plain_Attachment.
  - apply Forall_opt_member. intros t _. split; [done|]. apply plain_str; [lia|apply DateTime_text_valid].
  - members. split; [done|]. by apply plain_str.
  - members; (split; [done|]); apply plain_str; auto using DateTime_text_valid; lia.
Qed.

(** ** The other structs *)

Definition create_ok (r : CreateSignalMessageRequest) : Prop :=
  ValidString (cr_ExternalId r) = true ∧ ValidString (cr_Content r) = true ∧
  Forall valid_opt [cr_IdempotencyKey r; cr_Recipient r; cr_GroupId r; cr_SenderPhoneNumber r; cr_QuoteResultId r] ∧
  (∀ z, cr_TimeoutSeconds r = Some z → in_int64 z) ∧ (∀ z, cr_MaxAttempts r = Some z → in_int64 z).

Lemma decode_CreateRequest r :
  create_ok r →
  decode_struct CreateRequest_fields (CreateRequest_json r) zero_CreateRequest = (r, None).
Proof.
  intros (_ & _ & _ & Ht & Hm). destruct r as [eid key rcp grp snd txt qid secs mx]. project.
  unfold CreateRequest_json. rewrite decode_struct_obj. cbn [app].
  pose proof (opt_str key); pose proof (opt_str rcp); pose proof (opt_str grp);
    pose proof (opt_str snd); pose proof (opt_str qid).
  pose proof (opt_int _ Ht). pose proof (opt_int _ Hm). rewrite <- (app_nil_r (opt_member "maxAttempts" _ _)).
  do 5 member. cbn [app]. do 4 member. done.
Qed.

Lemma decode_DayStat d :
  in_int64 (ds_Sent d) → in_int64 (ds_Failed d) →
  decode_struct DayStat_fields (DayStat_json d) (MkDayStat "" 0 0) = (d, None).
Proof.
  intros. unfold DayStat_json. rewrite decode_struct_obj. do 3 member. by destruct d.
Qed.

Lemma decode_InstanceInfo i :
  decode_struct InstanceInfo_fields (InstanceInfo_json i) (MkInstanceInfo "" "") = (i, None).
Proof. unfold InstanceInfo_json. rewrite decode_struct_obj. do 2 member. by destruct i. Qed.

Lemma decode_UpdateRequest r :
  upper_text (ur_Status r) →
  decode_struct UpdateRequest_fields (UpdateRequest_json r) (MkUpdateRequest "") = (r, None).
Proof.
  intros Hs. unfold UpdateRequest_json. rewrite decode_struct_obj.
  assert (status_text (status_MarshalText (ur_Status r)) = Ok (ur_Status r))
    by (unfold status_text, status_MarshalText; by rewrite status_read).
  member. by destruct r.
Qed.

Lemma strings_decoded l : strings_decoder (strings_json l) [] = (l, None).
Proof.
  unfold strings_decoder, strings_json, slice_decoder. simpl.
  by rewrite (decode_list "" str_decoder JStr) by (by apply Forall_true).
Qed.

Lemma decode_SignalGroupInfo g :
  decode_struct SignalGroupInfo_fields (SignalGroupInfo_json g) zero_SignalGroupInfo = (g, None).
Proof.
  unfold SignalGroupInfo_json. rewrite decode_struct_obj. cbn [app].
  pose proof (opt_str (sg_Description g)).
  assert (∀ l, sg_Members g = Some l → strings_json l ≠ JNull ∧ strings_decoder (strings_json l) [] = (l, None))
    by (intros; split; [done|apply strings_decoded]).
  rewrite <- (app_nil_r (opt_member "members" _ _)). do 4 member. by destruct g.
Qed.

Definition list_ok (l : SignalMessageList) : Prop := Forall info_ok (sl_Items l) ∧ in_int64 (sl_Total l).

Lemma decode_info i : info_ok i → info_decoder (SignalMessageInfo_json i) zero_SignalMessageInfo = (i, None).
Proof. intros Hi. unfold info_decoder. by rewrite decode_SignalMessageInfo. Qed.

Lemma decode_SignalMessageList l :
  list_ok l → decode_struct SignalMessageList_fields (SignalMessageList_json l) (MkSignalMessageList [] 0) = (l, None).
Proof.
  intros [Hi Ht]. unfold SignalMessageList_json. rewrite decode_struct_obj.
  simple eapply step_slice; [reflexivity|reflexivity|eapply Forall_impl; [exact Hi|apply decode_info]|].
  member. by destruct l.
Qed.

(** *** Statistics *)

Definition count_ok (kv : string * Z) : Prop := upper_text kv.1 ∧ in_int64 kv.2.
Definition stats_ok (s : SignalMessageStats) : Prop :=
  map_Forall (λ k n, count_ok (k, n)) (ss_Counts s) ∧
  Forall (λ d, ValidString (ds_Date d) = true ∧ in_int64 (ds_Sent d) ∧ in_int64 (ds_Failed d)) (ss_PerDay s).

Lemma foldl_counts l (m : gmap string Z) :
  NoDup l.*1 → Forall count_ok l → (∀ k, k ∈ l.*1 → m !! k = None) →
  foldl store_count (m, None) ((λ kv, (status_MarshalText kv.1, JInt kv.2)) <$> l) = (list_to_map l ∪ m, None).
Proof.
  revert m. induction l as [|[k n] l IH]; intros m Hn Hv Hm.
  - change (list_to_map []) with (∅ : gmap string Z). by rewrite (left_id_L ∅ (∪)).
  - cbn [fmap list_fmap fst] in *. apply NoDup_cons in Hn as [Hk Hn].
    apply Forall_cons in Hv as [[Hu Hz] Hv]. cbn [foldl fst snd] in *.
    assert (store_count (m, None) (status_MarshalText k, JInt n) = (<[k := n]> m, None)) as ->.
    { unfold store_count. cbn [fst snd]. rewrite num_decoder_int by done.
      unfold status_MarshalText. by rewrite status_read. }
    rewrite IH; [|done|done|].
    + f_equal. change (list_to_map ((k, n) :: l)) with (<[k := n]> (list_to_map l : gmap string Z)).
      rewrite <- insert_union_l. symmetry. apply insert_union_r. by apply not_elem_of_list_to_map_1.
    + intros k' Hk'. rewrite lookup_insert_ne by (intros ->; done). apply Hm. by right.
Qed.

Lemma counts_permuted (m : gmap string Z) : merge_sort key_order (map_to_list m) ≡ₚ map_to_list m.
Proof. apply merge_sort_Permutation. Qed.

Lemma counts_listed m : map_Forall (λ k n, count_ok (k, n)) m → Forall count_ok (merge_sort key_order (map_to_list m)).
Proof.
  intros Hm. rewrite counts_permuted. apply Forall_forall. intros [k n] Hin%elem_of_map_to_list.
  by apply (Hm k).
Qed.

Lemma counts_decoded m :
  map_Forall (λ k n, count_ok (k, n)) m → counts_decoder (counts_json m) ∅ = (m, None).
Proof.
  intros Hm. unfold counts_json, counts_decoder.
  assert (NoDup (merge_sort key_order (map_to_list m)).*1) as Hn
    by (rewrite counts_permuted; apply NoDup_fst_map_to_list).
  rewrite foldl_counts; [|done|by apply counts_listed|intros; apply lookup_empty].
  rewrite (right_id_L ∅ (∪)), (list_to_map_proper _ (map_to_list m)) by (done || apply counts_permuted).
  by rewrite list_to_map_to_list.
Qed.

Lemma decode_SignalMessageStats s :
  stats_ok s →
  decode_struct SignalMessageStats_fields (SignalMessageStats_json s) (MkSignalMessageStats ∅ []) = (s, None).
Proof.
  intros [Hc Hd]. unfold SignalMessageStats_json. rewrite decode_struct_obj. cbn [foldl].
  unfold store_member at 2. change (find_field SignalMessageStats_fields ("counts", _).1) with
    (Some (λ v s, let '(m, e) := counts_decoder v (ss_Counts s) in (MkSignalMessageStats m (ss_PerDay s), e))).
  cbn [fst snd ss_Counts ss_PerDay]. rewrite counts_decoded by done. cbn [first_error].
  rewrite (store_slice SignalMessageStats_fields (MkDayStat "" 0 0) (λ s, Some (ss_PerDay s))
    (λ l s, MkSignalMessageStats (ss_Counts s) (default [] l)) (decode_struct DayStat_fields) DayStat_json);
    [by destruct s|done|done|].
  eapply Forall_impl; [exact Hd|]. intros d (_ & ? & ?). by apply decode_DayStat.
Qed.

(** *** Everything that goes over the wire is plain JSON *)

Lemma plain_CreateRequest r : create_ok r → plain 1 (CreateRequest_json r).
Proof.
  intros (He & Hc & Ho & Ht & Hm). decompose_Forall_hyps. apply (plain_obj 0); [done|]. plain_members;
    members; (split; [done|]); by apply plain_str.
Qed.

Lemma plain_InstanceInfo i :
  ValidString (in_Name i) = true → ValidString (in_SenderPhoneNumber i) = true → plain 1 (InstanceInfo_json i).
Proof. intros. apply (plain_obj 0); [done|]. members; (split; [done|]); by apply plain_str. Qed.

Lemma plain_UpdateRequest r : upper_text (ur_Status r) → plain 1 (UpdateRequest_json r).
Proof.
  intros [Ha _]. apply (plain_obj 0); [done|]. members. split; [done|]. apply plain_str; [done|].
  by apply ascii_valid.
Qed.

Definition group_ok (g : SignalGroupInfo) : Prop :=
  ValidString (sg_Id g) = true ∧ ValidString (sg_Name g) = true ∧ valid_opt (sg_Description g) ∧
  ∀ l, sg_Members g = Some l → Forall (λ s, ValidString s = true) l.

Lemma plain_SignalGroupInfo g : group_ok g → plain 2 (SignalGroupInfo_json g).
Proof.
  intros (Hi & Hn & Hd & Hm). apply (plain_obj 1); [done|]. plain_members.
  - members; (split; [done|]); by apply plain_str.
  - apply Forall_opt_member. intros l E. split; [done|]. apply plain_strings. auto.
Qed.

Lemma plain_SignalMessageList l : list_ok l → plain 5 (SignalMessageList_json l).
Proof.
  intros [Hi Ht]. apply (plain_obj 4); [done|]. members; (split; [done|]).
  - apply (plain_elems 3); [done|]. eapply Forall_impl; [exact Hi|]. apply plain_SignalMessageInfo.
  - by apply plain_int.
Qed.

Lemma plain_SignalMessageStats s : stats_ok s → plain 3 (SignalMessageStats_json s).
Proof.
  intros [Hc Hd]. apply (plain_obj 2); [done|]. members; (split; [done|]); cbn [snd].
  - apply (plain_le 1); [lia|]. apply (plain_obj 0); [done|]. rewrite Forall_fmap.
    eapply Forall_impl; [by apply counts_listed|]. intros [k n] [[Ha _] Hz].
    split; [by apply ascii_valid|]. by apply plain_int.
  - apply (plain_elems 1); [lia|]. eapply Forall_impl; [exact Hd|]. intros d (Hv & Hs & Hf).
    apply (plain_obj 0); [done|]. members; (split; [done|]); by (apply plain_str || apply plain_int).
Qed.
End facts.
