(* ===== verification/ApiYaml.v ===== *)
(** The YAML methods of [internal/generated/signalium/api]: [MarshalYAML] and
    [UnmarshalYAML] of the structs of [structs.conjure.go] and of the parameter
    structs of [errors.conjure.go].

    The generated code repeats one template per type: the JSON of the value,
    converted by [safeyaml] of palantir/pkg.  What differs is an instance of
    [YamlType].  A conversion to YAML and back keeps the value but not the order
    of members; the API's types read every order alike. *)

From S2P Require Import Prelude Errors Domain Sqlc Queries HttpClient Handler GoText Json JsonFacts JsonStructs JsonOrder ConjureErrors ApiStructs ApiFacts.

(** ** The library *)

(** No object has two members of one name. *)
Fixpoint distinct_keys (v : json) : Prop :=
  match v with
  | JArr l => foldr (λ x Q, distinct_keys x ∧ Q) True l
  | JObj l => NoDup l.*1 ∧ foldr (λ kv Q, distinct_keys kv.2 ∧ Q) True l
  | _ => True
  end.

(** [safeyaml]: an object of texts and integers becomes YAML, and that YAML
    becomes JSON of the same object.  [Yaml] is what the YAML library carries
    between [MarshalYAML] and [UnmarshalYAML]. *)
Class SafeYaml `{SafeJson} := {
  Yaml : Type;
  JSONtoYAMLMapSlice : string → res Yaml;
  UnmarshalerToJSONBytes : Yaml → res string;
  yaml_keeps b l :
    safejson_Unmarshal b = Some (JObj l) → wire_value (JObj l) → distinct_keys (JObj l) →
    ∃ y b' v, JSONtoYAMLMapSlice b = Ok y ∧ UnmarshalerToJSONBytes y = Ok b' ∧
      safejson_Unmarshal b' = Some v ∧ json_same (JObj l) v;
}.

(** ** The template *)

Class YamlType (T : Type) := {
  yt_json : T → json;
  yt_decoder : decoder T;
}.

Section template.
Context `{SafeYaml} {T : Type} `{YamlType T}.

Definition MarshalYAML (o : T) : res Yaml := JSONtoYAMLMapSlice (safejson_Marshal (yt_json o)).

(** The receiver afterwards, and the error. *)
Definition UnmarshalYAML (y : Yaml) (o : T) : T * option error :=
  match UnmarshalerToJSONBytes y with
  | Err err => (o, Some err)
  | Ok jsonBytes =>
      match safejson_Unmarshal jsonBytes with
      | None => (o, Some syntax_error)
      | Some v => yt_decoder v o
      end
  end.
End template.

(** *** The types *)

Section types.
Context `{WireTypes}.

#[export] Instance Attachment_yaml : YamlType ConjureAttachment := {|
  yt_json := Attachment_json; yt_decoder := decode_struct Attachment_fields |}.
#[export] Instance CreateSignalMessageRequest_yaml : YamlType CreateSignalMessageRequest := {|
  yt_json := CreateRequest_json; yt_decoder := decode_struct CreateRequest_fields |}.
#[export] Instance DayStat_yaml : YamlType DayStat := {|
  yt_json := DayStat_json; yt_decoder := decode_struct DayStat_fields |}.
#[export] Instance InstanceInfo_yaml : YamlType InstanceInfo := {|
  yt_json := InstanceInfo_json; yt_decoder := decode_struct InstanceInfo_fields |}.
#[export] Instance SignalGroupInfo_yaml : YamlType SignalGroupInfo := {|
  yt_json := SignalGroupInfo_json; yt_decoder := decode_struct SignalGroupInfo_fields |}.
#[export] Instance SignalMessageAccepted_yaml : YamlType SignalMessageAccepted := {|
  yt_json := Accepted_json; yt_decoder := decode_struct Accepted_fields |}.
#[export] Instance SignalMessageInfo_yaml : YamlType SignalMessageInfo := {|
  yt_json := SignalMessageInfo_json; yt_decoder := info_decoder |}.

(** The two others with an [UnmarshalJSON] of their own, which decodes into a
    fresh value. *)
Definition fresh_decoder {T} (fs : fields T) (zero : T) : decoder T := λ v old,
  match decode_struct fs v zero with
  | (a, None) => (a, None)
  | (_, Some e) => (old, Some e)
  end.
#[export] Instance SignalMessageList_yaml : YamlType SignalMessageList := {|
  yt_json := SignalMessageList_json;
  yt_decoder := fresh_decoder SignalMessageList_fields (MkSignalMessageList [] 0) |}.
#[export] Instance SignalMessageStats_yaml : YamlType SignalMessageStats := {|
  yt_json := SignalMessageStats_json;
  yt_decoder := fresh_decoder SignalMessageStats_fields (MkSignalMessageStats ∅ []) |}.
#[export] Instance UpdateSignalMessageRequest_yaml : YamlType UpdateSignalMessageRequest := {|
  yt_json := UpdateRequest_json; yt_decoder := decode_struct UpdateRequest_fields |}.
End types.

(** The parameters of an error. *)
Definition params_yaml (P : Type) `{ErrorType P} : YamlType P := {|
  yt_json := et_json; yt_decoder := decode_struct et_fields |}.
#[export] Instance attachmentUploadFailed_yaml : YamlType attachmentUploadFailed := params_yaml _.
#[export] Instance idempotencyConflict_yaml : YamlType idempotencyConflict := params_yaml _.
#[export] Instance internalServiceError_yaml : YamlType internalServiceError := params_yaml _.
#[export] Instance invalidSignalMessage_yaml : YamlType invalidSignalMessage := params_yaml _.
#[export] Instance senderMismatch_yaml : YamlType senderMismatch := params_yaml _.
#[export] Instance signalCliUnavailable_yaml : YamlType signalCliUnavailable := params_yaml _.
#[export] Instance signalMessageNotFound_yaml : YamlType signalMessageNotFound := params_yaml _.

(** ** Every order of members is read alike *)

Section order.
Context `{WireTypes}.

Definition atom (v : json) : Prop := match v with JArr _ | JObj _ => False | _ => True end.

Lemma writes_text {T A} (p : string → res A) (set : A → T → T) : writes (text_field p set) (λ _, tt) set.
Proof.
  exists (λ v _, match v with
                 | JStr s => match p s with Ok a => (Some a, None) | Err e => (None, Some e) end
                 | _ => (None, Some type_error)
                 end).
  intros [] t; try done. simpl. by destruct (p _).
Qed.

Lemma writes_counts :
  writes (λ v s, let '(m, e) := counts_decoder v (ss_Counts s) in (MkSignalMessageStats m (ss_PerDay s), e))
    ss_Counts (λ m s, MkSignalMessageStats m (ss_PerDay s)).
Proof.
  exists (λ v old, let '(m, e) := counts_decoder v old in (Some m, e)).
  intros v t. by destruct (counts_decoder v (ss_Counts t)).
Qed.

Ltac field_writer ::=
  first [apply writes_string | apply writes_int | apply writes_ptr | apply writes_slice | apply writes_text
        | apply writes_counts].

Lemma Attachment_independent : independent_fields Attachment_fields.
Proof. independent_fields. Qed.
Lemma CreateRequest_independent : independent_fields CreateRequest_fields.
Proof. independent_fields. Qed.
Lemma DayStat_independent : independent_fields DayStat_fields.
Proof. independent_fields. Qed.
Lemma InstanceInfo_independent : independent_fields InstanceInfo_fields.
Proof. independent_fields. Qed.
Lemma Accepted_independent : independent_fields Accepted_fields.
Proof. independent_fields. Qed.
Lemma UpdateRequest_independent : independent_fields UpdateRequest_fields.
Proof. independent_fields. Qed.
Lemma SignalGroupInfo_independent : independent_fields SignalGroupInfo_fields.
Proof. independent_fields. Qed.
Lemma SignalMessageInfo_independent : independent_fields SignalMessageInfo_fields.
Proof. independent_fields. Qed.
Lemma SignalMessageList_independent : independent_fields SignalMessageList_fields.
Proof. independent_fields. Qed.
Lemma SignalMessageStats_independent : independent_fields SignalMessageStats_fields.
Proof. independent_fields. Qed.

(** *** Distinct names, atoms and arrays of atoms *)

(** The names of the members, as the decoder compares them. *)
Definition names (l : list (string * json)) := (λ kv : string * json, foldName kv.1) <$> l.

Lemma distinct_obj l : NoDup (names l) → Forall (λ kv, distinct_keys kv.2) l → distinct_keys (JObj l).
Proof.
  intros Hn Hv. split; [|by apply (foldr_and_Forall (λ kv, distinct_keys kv.2))].
  change (names l) with ((foldName ∘ fst) <$> l) in Hn. rewrite list_fmap_compose in Hn. by apply NoDup_fmap_1 in Hn.
Qed.

Lemma distinct_arr l : Forall distinct_keys l → distinct_keys (JArr l).
Proof. apply (foldr_and_Forall distinct_keys). Qed.

Lemma distinct_atom v : atom v → distinct_keys v.
Proof. by destruct v. Qed.

Lemma same_atoms l v : Forall atom l → json_same (JArr l) v → v = JArr l.
Proof.
  intros Ha S. inversion S as [| ? l' HS|]; subst; [done|]. f_equal. symmetry. clear S.
  induction HS as [|x y l l' Sx _ IH]; [done|]. apply Forall_cons in Ha as [Hx Ha].
  rewrite IH by done. f_equal. by inversion Sx; subst.
Qed.

Lemma order_free_atoms {T} (dec : decoder T) l : Forall atom l → order_free dec (JArr l).
Proof. intros Ha v' t a S. by rewrite (same_atoms l v' Ha S). Qed.

Lemma strings_atoms l : Forall atom (JStr <$> l).
Proof. by apply Forall_fmap, Forall_true. Qed.

(** An object that is read in every order. *)
Definition readable {T} (dec : decoder T) (v : json) : Prop := order_free dec v ∧ distinct_keys v.

Lemma readable_struct {T} (fs : fields T) l :
  independent_fields fs → NoDup (names l) →
  Forall (λ kv, atom kv.2 ∨ member_free fs kv ∧ distinct_keys kv.2) l →
  readable (decode_struct fs) (JObj l).
Proof.
  intros I Hn HF. split.
  - apply order_free_struct; [done..|]. eapply Forall_impl; [exact HF|].
    intros kv [Ha|[Hm _]]; [|done]. intros dec _. by apply order_free_atom.
  - apply distinct_obj; [done|]. eapply Forall_impl; [exact HF|]. intros kv [Ha|[_ Hd]]; [by apply distinct_atom|done].
Qed.

Lemma readable_elems {T A} (dec : decoder A) (enc : A → json) (fs : fields T) k zero get set l :
  find_field fs k = Some (slice_field zero get set dec) → (∀ a, readable dec (enc a)) →
  member_free fs (k, JArr (enc <$> l)) ∧ distinct_keys (JArr (enc <$> l)).
Proof.
  intros Hf Hr. split.
  - intros d. cbn [fst snd]. rewrite Hf. intros [= <-]. apply order_free_slice. intros vs [= <-].
    apply Forall_fmap, Forall_true. intros a. apply Hr.
  - apply distinct_arr, Forall_fmap, Forall_true. intros a. apply Hr.
Qed.

Lemma opt_atoms {A} name (enc : A → json) o (P : string * json → Prop) :
  (∀ a, atom (enc a)) → Forall (λ kv, atom kv.2 ∨ P kv) (opt_member name enc o).
Proof. intros Ha. apply Forall_opt_member. intros a _. left. apply Ha. Qed.

(** A pointer member adds at most its own name. *)
Lemma names_opt {A} name (enc : A → json) o : names (opt_member name enc o) `sublist_of` [foldName name].
Proof. destruct o; [done|]. apply sublist_nil_l. Qed.

Lemma names_app a b fa fb :
  names a `sublist_of` fa → names b `sublist_of` fb → names (a ++ b) `sublist_of` fa ++ fb.
Proof. intros. unfold names. rewrite fmap_app. by apply sublist_app. Qed.

Lemma names_distinct l full : names l `sublist_of` full → NoDup full → NoDup (names l).
Proof. intros. by eapply sublist_NoDup. Qed.

Ltac names :=
  eapply names_distinct;
  [repeat apply names_app; first [apply names_opt|reflexivity]
  |apply (bool_decide_unpack _); vm_compute; done].

(** The members of an object one after the other. *)
Ltac atoms :=
  repeat first
    [ apply Forall_nil_2 | apply Forall_cons_2; [by left|] | apply Forall_app; split
    | apply opt_atoms; done ].

Lemma readable_Attachment a : readable (decode_struct Attachment_fields) (Attachment_json a).
Proof. apply readable_struct; [apply Attachment_independent|names|atoms]. Qed.

Lemma readable_CreateRequest r : readable (decode_struct CreateRequest_fields) (CreateRequest_json r).
Proof. apply readable_struct; [apply CreateRequest_independent|names|atoms]. Qed.

Lemma readable_DayStat d : readable (decode_struct DayStat_fields) (DayStat_json d).
Proof. apply readable_struct; [apply DayStat_independent|names|atoms]. Qed.

Lemma readable_InstanceInfo i : readable (decode_struct InstanceInfo_fields) (InstanceInfo_json i).
Proof. apply readable_struct; [apply InstanceInfo_independent|names|atoms]. Qed.

Lemma readable_Accepted a : readable (decode_struct Accepted_fields) (Accepted_json a).
Proof. apply readable_struct; [apply Accepted_independent|names|atoms]. Qed.

Lemma readable_UpdateRequest r : readable (decode_struct UpdateRequest_fields) (UpdateRequest_json r).
Proof. apply readable_struct; [apply UpdateRequest_independent|names|atoms]. Qed.

(** *** Nested values *)

Lemma readable_SignalGroupInfo g : readable (decode_struct SignalGroupInfo_fields) (SignalGroupInfo_json g).
Proof.
  apply readable_struct; [apply SignalGroupInfo_independent|names|]. atoms.
  apply Forall_opt_member. intros l _. right. split.
  - intros dec Hd. apply order_free_atoms, strings_atoms.
  - apply distinct_arr. eapply Forall_impl; [apply strings_atoms|apply distinct_atom].
Qed.

Lemma readable_SignalMessageInfo i :
  readable (decode_struct SignalMessageInfo_fields) (SignalMessageInfo_json i).
Proof.
  apply readable_struct; [apply SignalMessageInfo_independent|names|]. atoms.
  apply Forall_cons_2; [|atoms]. right. eapply readable_elems; [reflexivity|apply readable_Attachment].
Qed.

Lemma readable_fresh {T} (fs : fields T) zero v :
  readable (decode_struct fs) v → readable (fresh_decoder fs zero) v.
Proof.
  intros [Ho Hd]. split; [|done]. intros v' t a S. unfold fresh_decoder.
  destruct (decode_struct fs v zero) as [x [e|]] eqn:E; [done|]. intros [= <-]. by rewrite (Ho _ _ _ S E).
Qed.

Lemma readable_info i : readable info_decoder (SignalMessageInfo_json i).
Proof.
  assert (info_decoder = fresh_decoder SignalMessageInfo_fields zero_SignalMessageInfo) as ->
    by (unfold info_decoder, fresh_decoder; reflexivity).
  apply readable_fresh, readable_SignalMessageInfo.
Qed.

Lemma readable_SignalMessageList l :
  readable (decode_struct SignalMessageList_fields) (SignalMessageList_json l).
Proof.
  apply readable_struct; [apply SignalMessageList_independent|names|].
  apply Forall_cons_2; [|atoms]. right. eapply readable_elems; [reflexivity|apply readable_info].
Qed.

(** The counts, whose names are those of a map. *)
Definition count_member (kv : string * json) : Prop := ∃ z, in_int64 z ∧ kv.2 = JInt z.

Lemma store_count_commutes x y st :
  count_member x → count_member y → status_UnmarshalText x.1 ≠ status_UnmarshalText y.1 →
  store_count (store_count st x) y = store_count (store_count st y) x.
Proof.
  intros (a & Ha & Ex) (b & Hb & Ey) Hn. unfold store_count. rewrite Ex, Ey, !num_decoder_int by done.
  cbn [fst snd]. f_equal. by apply insert_insert_ne.
Qed.

Lemma same_members l v : Forall (λ kv, atom kv.2) l → json_same (JObj l) v → ∃ l', v = JObj l' ∧ l ≡ₚ l'.
Proof.
  intros Ha S. inversion S as [? Hv| |? l1 l' HP HS]; subst; [done|]. exists l'. split; [done|]. rewrite HP.
  rewrite HP in Ha. clear S HP. induction HS as [|[k x] [k' x'] l1 l' [E S] _ IH]; [done|].
  apply Forall_cons in Ha as [Hx Ha]. cbn [fst snd] in *. subst k'. inversion S; subst; try done. by rewrite IH.
Qed.

Lemma counts_order_free m :
  map_Forall (λ k n, count_ok (k, n)) m → order_free counts_decoder (counts_json m).
Proof.
  intros Hm v' t a S E. pose proof (counts_listed m Hm) as Hl. unfold counts_json in S, E.
  assert (NoDup (merge_sort key_order (map_to_list m)).*1) as Hn
    by (rewrite counts_permuted; apply NoDup_fst_map_to_list).
  apply same_members in S as (l' & -> & HP); [|by apply Forall_fmap, Forall_true].
  cbn [counts_decoder] in *. rewrite <- E. symmetry.
  apply (foldl_permuted store_count (λ kv, status_UnmarshalText kv.1) count_member);
    [by intros; apply store_count_commutes|done| |].
  - apply Forall_fmap. eapply Forall_impl; [exact Hl|]. intros [k z] [_ Hz]. by exists z.
  - rewrite <- list_fmap_compose.
    assert (((λ kv, status_UnmarshalText kv.1) ∘ (λ kv : string * Z, (status_MarshalText kv.1, JInt kv.2)))
              <$> merge_sort key_order (map_to_list m) = (merge_sort key_order (map_to_list m)).*1) as ->; [|done].
    apply list_fmap_ext. intros i [k z] Hi. cbn [compose fst]. unfold status_MarshalText. apply status_read.
    eapply Forall_lookup_1 in Hl; [|exact Hi]. apply Hl.
Qed.

Lemma counts_distinct m : distinct_keys (counts_json m).
Proof.
  split; [|apply (foldr_and_Forall (λ kv, distinct_keys kv.2)); by apply Forall_fmap, Forall_true].
  rewrite <- list_fmap_compose.
  assert (NoDup (merge_sort key_order (map_to_list m)).*1) as Hn
    by (rewrite counts_permuted; apply NoDup_fst_map_to_list).
  done.
Qed.

Lemma readable_SignalMessageStats s :
  stats_ok s → readable (decode_struct SignalMessageStats_fields) (SignalMessageStats_json s).
Proof.
  intros [Hc _]. apply readable_struct; [apply SignalMessageStats_independent|names|].
  apply Forall_cons_2; [|apply Forall_cons_2; [|atoms]]; right.
  - split; [|apply counts_distinct]. intros dec. cbn [fst snd]. intros [= <-] v' t a S.
    destruct (counts_decoder (counts_json (ss_Counts s)) (ss_Counts t)) as [m e] eqn:E. intros [= <- ->].
    by rewrite (counts_order_free _ Hc _ _ _ S E).
  - eapply readable_elems; [reflexivity|apply readable_DayStat].
Qed.
End order.

(** ** Round trips *)

(** A value whose JSON is an object that is read back, in every order. *)
Record travels {T} `{YamlType T} (zero o : T) : Prop := {
  tr_object : ∃ l, yt_json o = JObj l;
  tr_wire : wire_value (yt_json o);
  tr_readable : readable yt_decoder (yt_json o);
  tr_read : yt_decoder (yt_json o) zero = (o, None);
}.

Lemma yaml_round_trip `{SafeYaml} {T} `{YamlType T} (zero o : T) :
  travels zero o → ∃ y, MarshalYAML o = Ok y ∧ UnmarshalYAML y zero = (o, None).
Proof.
  intros [[l El] Hw [Ho Hd] Hr]. unfold MarshalYAML, UnmarshalYAML. rewrite El in *.
  destruct (yaml_keeps (safejson_Marshal (JObj l)) l) as (y & b & v & Ey & Eb & Ev & S);
    [by apply safejson_roundtrip|done|done|].
  exists y. split; [done|]. rewrite Eb, Ev. by apply (Ho _ _ _ S).
Qed.

Section types.
Context `{WireTypes}.

Ltac travel := split; [by eexists|..].

Lemma Attachment_travels a : Attachment_ok a → travels zero_Attachment a.
Proof.
  intros Ha. travel; [by apply (plain_le 1), plain_Attachment|apply readable_Attachment|by apply decode_Attachment].
Qed.

Lemma CreateRequest_travels r : create_ok r → travels zero_CreateRequest r.
Proof.
  intros Hr. travel;
    [by apply (plain_le 1), plain_CreateRequest|apply readable_CreateRequest|by apply decode_CreateRequest].
Qed.

Definition day_ok (d : DayStat) : Prop :=
  ValidString (ds_Date d) = true ∧ in_int64 (ds_Sent d) ∧ in_int64 (ds_Failed d).
Lemma DayStat_travels d : day_ok d → travels (MkDayStat "" 0 0) d.
Proof.
  intros (Hd & Hs & Hf). travel; [|apply readable_DayStat|by apply decode_DayStat].
  apply (plain_le 1); [done|]. apply (plain_obj 0); [done|].
  members; (split; [done|]); by (apply plain_str || apply plain_int).
Qed.

Lemma InstanceInfo_travels i :
  ValidString (in_Name i) = true → ValidString (in_SenderPhoneNumber i) = true → travels (MkInstanceInfo "" "") i.
Proof.
  intros Hn Hs. travel;
    [by apply (plain_le 1), plain_InstanceInfo|apply readable_InstanceInfo|apply decode_InstanceInfo].
Qed.

Lemma SignalGroupInfo_travels g : group_ok g → travels zero_SignalGroupInfo g.
Proof.
  intros Hg. travel;
    [by apply (plain_le 2), plain_SignalGroupInfo|apply readable_SignalGroupInfo|apply decode_SignalGroupInfo].
Qed.

Lemma Accepted_travels a : (ac_Id a < 2 ^ 128)%N → travels (MkAccepted uuid_Nil) a.
Proof.
  intros Ha. travel; [|apply readable_Accepted|].
  - apply (plain_le 1); [done|]. apply (plain_obj 0); [done|]. members. split; [done|].
    apply plain_str; [done|apply uuid_text_valid].
  - cbn [yt_decoder yt_json SignalMessageAccepted_yaml]. unfold Accepted_json, uuid_json.
    rewrite decode_struct_obj. cbn [foldl].
    erewrite store_text; [|reflexivity|by apply ParseUUID_text]. by destruct a.
Qed.

Lemma SignalMessageInfo_travels i : info_ok i → travels zero_SignalMessageInfo i.
Proof.
  intros Hi. split; cbn [yt_decoder yt_json SignalMessageInfo_yaml].
  - unfold SignalMessageInfo_json. eexists. reflexivity.
  - apply (plain_le 3); [lia|]. exact (plain_SignalMessageInfo i Hi).
  - exact (readable_info i).
  - exact (decode_info i Hi).
Qed.

Lemma SignalMessageList_travels l : list_ok l → travels (MkSignalMessageList [] 0) l.
Proof.
  intros Hl. travel; [by apply (plain_le 5), plain_SignalMessageList| |].
  - apply readable_fresh, readable_SignalMessageList.
  - cbn [yt_decoder yt_json SignalMessageList_yaml]. unfold fresh_decoder. by rewrite decode_SignalMessageList.
Qed.

Lemma SignalMessageStats_travels s : stats_ok s → travels (MkSignalMessageStats ∅ []) s.
Proof.
  intros Hs. travel; [by apply (plain_le 3), plain_SignalMessageStats| |].
  - by apply readable_fresh, readable_SignalMessageStats.
  - cbn [yt_decoder yt_json SignalMessageStats_yaml]. unfold fresh_decoder. by rewrite decode_SignalMessageStats.
Qed.

Lemma UpdateRequest_travels r : upper_text (ur_Status r) → travels (MkUpdateRequest "") r.
Proof.
  intros Hr. travel;
    [by apply (plain_le 1), plain_UpdateRequest|apply readable_UpdateRequest|by apply decode_UpdateRequest].
Qed.
End types.

(** *** The parameters of the errors *)

Lemma flat_travels (P : Type) `{ErrorType P} p l :
  et_json p = JObj l → independent_fields et_fields → NoDup (names l) → Forall (λ kv, atom kv.2) l →
  plain 50 (et_json p) → decode_struct et_fields (et_json p) et_zero = (p, None) →
  @travels P (params_yaml P) et_zero p.
Proof.
  intros El I Hn Ha Hp Hd. split; cbn [yt_decoder yt_json params_yaml]; [by exists l|by apply (plain_le 50)| |done].
  rewrite El. apply readable_struct; [done..|]. eapply Forall_impl; [exact Ha|]. by left.
Qed.

Ltac flat_members := repeat first [apply Forall_nil_2 | apply Forall_cons_2; [exact I|]].
Ltac wire_members :=
  apply (plain_le 1); [lia|]; apply (plain_obj 0); [done|]; members; (split; [done|]);
  by (apply plain_str || apply plain_int).

Lemma params_travel c :
  carried c →
  match c with
  | AttachmentUploadFailed f => travels et_zero (MkAttachmentUploadFailed f)
  | IdempotencyConflict k => travels et_zero (MkIdempotencyConflict k)
  | InternalServiceError => travels et_zero MkInternalServiceError
  | InvalidSignalMessage f r => travels et_zero (MkInvalidSignalMessage f r)
  | SenderMismatch a b => travels et_zero (MkSenderMismatch a b)
  | SignalCliUnavailable h p => travels et_zero (MkSignalCliUnavailable h p)
  | SignalMessageNotFound i => travels et_zero (MkSignalMessageNotFound i)
  end.
Proof.
  intros Hc. destruct c; cbn [carried] in Hc;
    (eapply flat_travels;
      [reflexivity|independent_fields|apply (bool_decide_unpack _); vm_compute; done|flat_members
      |first [wire_members|destruct Hc; wire_members]|try reflexivity]).
  destruct Hc as [_ Hz]. by apply decode_signalCliUnavailable.
Qed.

(** ** The methods *)

(** [MarshalYAML] followed by [UnmarshalYAML] into a zero value. *)
Definition through_yaml `{SafeYaml} {T} `{YamlType T} (zero o : T) : Prop :=
  ∃ y, MarshalYAML o = Ok y ∧ UnmarshalYAML y zero = (o, None).

(** Every value of the API that JSON can carry comes back from YAML as it was,
    whatever the order of its members. *)
Theorem api_values_survive_yaml `{WireTypes} `{SafeYaml} :
  (∀ a, Attachment_ok a → through_yaml zero_Attachment a) ∧
  (∀ r, create_ok r → through_yaml zero_CreateRequest r) ∧
  (∀ d, day_ok d → through_yaml (MkDayStat "" 0 0) d) ∧
  (∀ i, ValidString (in_Name i) = true → ValidString (in_SenderPhoneNumber i) = true →
        through_yaml (MkInstanceInfo "" "") i) ∧
  (∀ g, group_ok g → through_yaml zero_SignalGroupInfo g) ∧
  (∀ a, (ac_Id a < 2 ^ 128)%N → through_yaml (MkAccepted uuid_Nil) a) ∧
  (∀ i, info_ok i → through_yaml zero_SignalMessageInfo i) ∧
  (∀ l, list_ok l → through_yaml (MkSignalMessageList [] 0) l) ∧
  (∀ s, stats_ok s → through_yaml (MkSignalMessageStats ∅ []) s) ∧
  (∀ r, upper_text (ur_Status r) → through_yaml (MkUpdateRequest "") r).
Proof.
  split_and!; intros; apply yaml_round_trip; auto using Attachment_travels, CreateRequest_travels,
    DayStat_travels, InstanceInfo_travels, SignalGroupInfo_travels, Accepted_travels,
    SignalMessageInfo_travels, SignalMessageList_travels, SignalMessageStats_travels, UpdateRequest_travels.
Qed.

(** A conversion with that behaviour: it reverses the members of the object. *)
Section demo.
#[local] Instance reverse_json : SafeJson.
Proof.
  refine {| safejson_Marshal := marshal false; safejson_Unmarshal := parse |}.
  intros v (Hi & Hc & Hd). rewrite parse_marshal_end by (done || (unfold maxNestingDepth; lia)). by rewrite Hc.
Defined.

Definition reversed (v : json) : json := match v with JObj l => JObj (reverse l) | _ => v end.

Lemma reversed_same v : json_same v (reversed v).
Proof.
  destruct v as [| | | | |l]; try apply json_same_refl. eapply same_obj; [symmetry; apply reverse_Permutation|].
  apply Forall_Forall2_diag, Forall_true. intros kv. split; [done|apply json_same_refl].
Qed.

Lemma reversed_wire l : wire_value (JObj l) → wire_value (reversed (JObj l)).
Proof.
  intros (Hi & Hc & Hd). split_and!; cbn [reversed].
  - cbn [int_numbers] in *. rewrite (foldr_and_Forall (λ kv, int_numbers kv.2)) in *. by rewrite reverse_Permutation.
  - cbn [clean_json] in *. injection Hc as Hc. f_equal.
    change (map ?f ?x) with (f <$> x) in *. by rewrite fmap_reverse, Hc.
  - cbn [nesting] in *.
    assert (∀ l : list (string * json), ∀ n, 0 ≤ n →
      foldr (λ kv m, Z.max (nesting kv.2) m) 0 l ≤ n ↔ Forall (λ kv, nesting kv.2 ≤ n) l) as E.
    { clear. induction l as [|kv l IH]; intros n Hn; cbn [foldr]; [by split|].
      rewrite Forall_cons, <- IH by done. lia. }
    pose proof (nesting_fold (λ kv, nesting kv.2) l) as H0.
    assert (foldr (λ kv m, Z.max (nesting kv.2) m) 0 (reverse l) ≤ 99); [|lia].
    apply E; [lia|]. rewrite reverse_Permutation. apply E; lia.
Qed.

#[local] Instance reverse_yaml : SafeYaml.
Proof.
  refine {| Yaml := json;
            JSONtoYAMLMapSlice b := match parse b with Some v => Ok v | None => Err syntax_error end;
            UnmarshalerToJSONBytes y := Ok (marshal false (reversed y)) |}.
  intros b l Hb Hw _. exists (JObj l), (marshal false (reversed (JObj l))), (reversed (JObj l)).
  cbn [safejson_Unmarshal reverse_json] in Hb. rewrite Hb. split_and!; [done|done| |apply reversed_same].
  exact (safejson_roundtrip (reversed (JObj l)) (reversed_wire l Hw)).
Defined.

Example error_through_yaml :
  through_yaml et_zero (MkInvalidSignalMessage "recipient" "empty").
Proof. apply yaml_round_trip, (params_travel (InvalidSignalMessage "recipient" "empty")). done. Qed.
End demo.
