(* ===== verification/ApiServer.v ===== *)
(** [internal/generated/signalium/api/servers.conjure.go]: the routes of the
    service and the handlers that parse a request and encode the answer. *)

From Stdlib Require Import Ascii.
From S2P Require Import Prelude Errors Domain HttpClient Handler GoText Json JsonFacts JsonStructs GoUrl ConjureErrors ApiStructs.

(** ** The service interface *)

(** [SignalMessagesService], over the state [S] behind it.  The slice of groups
    may be nil. *)
Record SignalMessagesService (S : Type) := MkService {
  sv_GetInstanceInfo : S → res InstanceInfo * S;
  sv_ListGroups : S → res (option (list SignalGroupInfo)) * S;
  sv_ListSignalMessages : option string → option Z → option Z → option time → option time →
    option string → option Z → S → res SignalMessageList * S;
  sv_GetSignalMessage : uuid → S → res SignalMessageInfo * S;
  sv_UpdateSignalMessage : uuid → UpdateSignalMessageRequest → S → res SignalMessageInfo * S;
  sv_ResendSignalMessage : uuid → S → res SignalMessageInfo * S;
  sv_GetSignalMessagesStats : S → res SignalMessageStats * S;
}.
Arguments MkService {S}.
Arguments sv_GetInstanceInfo {S}.
Arguments sv_ListGroups {S}.
Arguments sv_ListSignalMessages {S}.
Arguments sv_GetSignalMessage {S}.
Arguments sv_UpdateSignalMessage {S}.
Arguments sv_ResendSignalMessage {S}.
Arguments sv_GetSignalMessagesStats {S}.

(** ** Requests and routes *)

Record http_request := MkHttpRequest {
  hq_Method : string;
  hq_Path : string;
  hq_RawQuery : string;
  hq_Body : string;
}.

Inductive endpoint :=
| EGetInstanceInfo | EListGroups | EListSignalMessages | EGetSignalMessage | EUpdateSignalMessage
| EResendSignalMessage | EGetSignalMessagesStats.

#[global] Instance endpoint_eq_dec : EqDecision endpoint.
Proof. solve_decision. Defined.

(** The names in the errors of registration. *)
Definition endpoint_name (e : endpoint) : string :=
  match e with
  | EGetInstanceInfo => "getInstanceInfo" | EListGroups => "listGroups"
  | EListSignalMessages => "listSignalMessages" | EGetSignalMessage => "getSignalMessage"
  | EUpdateSignalMessage => "updateSignalMessage" | EResendSignalMessage => "resendSignalMessage"
  | EGetSignalMessagesStats => "getSignalMessagesStats"
  end.

(** What a route leads to: an endpoint of the generated service, or the raw
    handler that [internal/server/module.go] adds. *)
Inductive target := Generated (e : endpoint) | MultipartUpload.

#[global] Instance target_eq_dec : EqDecision target.
Proof. solve_decision. Defined.

Record route := MkRoute { rt_Method : string; rt_Template : string; rt_Target : target }.

#[global] Instance route_eq_dec : EqDecision route.
Proof. solve_decision. Defined.

(** [RegisterRoutesSignalMessagesService]: what it registers, in order. *)
Definition routes : list route :=
  [MkRoute "GET" "/api/v1/info" (Generated EGetInstanceInfo);
   MkRoute "GET" "/api/v1/groups" (Generated EListGroups);
   MkRoute "GET" "/api/v1/signal-messages" (Generated EListSignalMessages);
   MkRoute "GET" "/api/v1/signal-messages/{id}" (Generated EGetSignalMessage);
   MkRoute "PUT" "/api/v1/signal-messages/{id}" (Generated EUpdateSignalMessage);
   MkRoute "POST" "/api/v1/signal-messages/{id}/resend" (Generated EResendSignalMessage);
   MkRoute "GET" "/api/v1/signal-messages-stats" (Generated EGetSignalMessagesStats)].

(** The segments of a path. *)
Fixpoint Split (s : string) : list string :=
  match s with
  | EmptyString => [""]
  | String c s' =>
      if Ascii.eqb c "/" then "" :: Split s'
      else match Split s' with
           | h :: t => String c h :: t
           | [] => [String c ""]
           end
  end.

(** A template segment in braces is a variable: its name. *)
Definition variable (seg : string) : option string :=
  match seg with
  | String c rest =>
      if Ascii.eqb c "{" then Some (String.substring 0 (String.length rest - 1) rest) else None
  | EmptyString => None
  end.

Fixpoint match_segments (template path : list string) : option (gmap string string) :=
  match template, path with
  | [], [] => Some ∅
  | t :: ts, p :: ps =>
      match variable t with
      | Some name => if bool_decide (p = "") then None
                     else match match_segments ts ps with Some m => Some (<[name := p]> m) | None => None end
      | None => if bool_decide (t = p) then match_segments ts ps else None
      end
  | _, _ => None
  end.

Definition match_route (r : route) (method path : string) : option (gmap string string) :=
  if bool_decide (rt_Method r = method) then match_segments (Split (rt_Template r)) (Split path) else None.

(** The router of witchcraft: it takes a route whose method and template are not
    registered yet, and a request that matches one route only goes to it, with
    the path's variables. *)
Class Router := {
  Router_t : Type;
  NewRouter : Router_t;
  routes_of : Router_t → list route;
  routes_of_new : routes_of NewRouter = [];
  router_Register : route → Router_t → res Router_t;
  router_Register_fresh r rt :
    (∀ r', r' ∈ routes_of rt → (rt_Method r', rt_Template r') ≠ (rt_Method r, rt_Template r)) →
    ∃ rt', router_Register r rt = Ok rt' ∧ routes_of rt' = routes_of rt ++ [r];
  Dispatch : Router_t → string → string → option (target * gmap string string);
  Dispatch_only rt method path r params :
    r ∈ routes_of rt → match_route r method path = Some params →
    (∀ r', r' ∈ routes_of rt → is_Some (match_route r' method path) → r' = r) →
    Dispatch rt method path = Some (rt_Target r, params);
}.

Definition target_name (t : target) : string :=
  match t with Generated e => endpoint_name e | MultipartUpload => "" end.

Definition add_route `{Router} (acc : res Router_t) (r : route) : res Router_t :=
  match acc with
  | Err e => Err e
  | Ok rt => match router_Register r rt with
             | Err e => Err (Wrap e ("failed to add " +:+ target_name (rt_Target r) +:+ " route"))
             | Ok rt' => Ok rt'
             end
  end.
Definition RegisterRoutesSignalMessagesService `{Router} (router : Router_t) : res Router_t :=
  foldl add_route (Ok router) routes.

(** ** Handlers *)

Section handlers.
Context `{WireTypes} `{SafeJson} {S : Type} (impl : SignalMessagesService S).

(** The errors of the Conjure runtime that the handlers build. *)
Definition WrapWithInvalidArgument (err : error) : error := Wrap err "INVALID_ARGUMENT".
Definition NewInvalidArgument : error := ErrMsg "INVALID_ARGUMENT".
Definition NewInternal : error := ErrMsg "INTERNAL".

Definition in_quotes (s : string) : string := String dquote (s +:+ String dquote "").

(** [codecs.JSON.Encode] of the answer, or the error. *)
Definition answer {A} (enc : A → json) (r : res A * S) : res string * S :=
  (match r.1 with Err e => Err e | Ok a => Ok (safejson_Marshal (enc a)) end, r.2).

Definition HandleGetInstanceInfo (s : S) : res string * S :=
  answer InstanceInfo_json (sv_GetInstanceInfo impl s).

(** A nil slice of groups is sent as an empty one. *)
Definition HandleListGroups (s : S) : res string * S :=
  answer (λ l, JArr (SignalGroupInfo_json <$> default [] l)) (sv_ListGroups impl s).

(** One optional query parameter: absent or empty is nil. *)
Definition query_arg {A} (query : gmap string (list string)) (name kind : string)
    (parse_arg : string → res A) : res (option A) :=
  let str := Values_Get name query in
  if bool_decide (str = "") then Ok None
  else match parse_arg str with
       | Ok a => Ok (Some a)
       | Err err => Err (Wrap (WrapWithInvalidArgument err)
                           ("failed to parse " +:+ in_quotes name +:+ " as " +:+ kind))
       end.

Definition HandleListSignalMessages (req : http_request) (s : S) : res string * S :=
  let query := Query (hq_RawQuery req) in
  let args :=
    (let? qArg := query_arg query "q" "string" Ok in
     let? limitArg := query_arg query "limit" "integer" ParseInt in
     let? offsetArg := query_arg query "offset" "integer" ParseInt in
     let? createdAtFromArg := query_arg query "createdAtFrom" "datetime" ParseDateTime in
     let? createdAtToArg := query_arg query "createdAtTo" "datetime" ParseDateTime in
     let? statusArg := query_arg query "status" "SignalMessageStatus" status_text in
     let? attemptsArg := query_arg query "attempts" "integer" ParseInt in
     Ok (qArg, limitArg, offsetArg, createdAtFromArg, createdAtToArg, statusArg, attemptsArg))%sig in
  match args with
  | Err e => (Err e, s)
  | Ok (q, limit, offset, from, to, status, attempts) =>
      answer SignalMessageList_json (sv_ListSignalMessages impl q limit offset from to status attempts s)
  end.

(** The path parameter "id"; [None] is a request that did not come through the
    router. *)
Definition id_arg (pathParams : option (gmap string string)) : res uuid :=
  match pathParams with
  | None => Err (Wrap NewInternal
                   "path params not found on request: ensure this endpoint is registered with wrouter")
  | Some m =>
      match m !! "id" with
      | None => Err (Wrap NewInvalidArgument ("path parameter " +:+ in_quotes "id" +:+ " not present"))
      | Some idArgStr =>
          match ParseUUID idArgStr with
          | Ok u => Ok u
          | Err err => Err (Wrap (WrapWithInvalidArgument err)
                              ("failed to parse " +:+ in_quotes "id" +:+ " as uuid"))
          end
      end
  end.

Definition HandleGetSignalMessage (pathParams : option (gmap string string)) (s : S) : res string * S :=
  match id_arg pathParams with
  | Err e => (Err e, s)
  | Ok idArg => answer SignalMessageInfo_json (sv_GetSignalMessage impl idArg s)
  end.

(** [codecs.JSON.Decode] of a body into a struct. *)
Definition decode_body {A} (dec : decoder A) (zero : A) (body : string) : res A :=
  match safejson_Unmarshal body with
  | None => Err syntax_error
  | Some v => match dec v zero with (a, None) => Ok a | (_, Some e) => Err e end
  end.

Definition HandleUpdateSignalMessage (pathParams : option (gmap string string)) (body : string) (s : S)
    : res string * S :=
  match id_arg pathParams with
  | Err e => (Err e, s)
  | Ok idArg =>
      match decode_body (decode_struct UpdateRequest_fields) (MkUpdateRequest "") body with
      | Err e => (Err (WrapWithInvalidArgument e), s)
      | Ok bodyArg => answer SignalMessageInfo_json (sv_UpdateSignalMessage impl idArg bodyArg s)
      end
  end.

Definition HandleResendSignalMessage (pathParams : option (gmap string string)) (s : S) : res string * S :=
  match id_arg pathParams with
  | Err e => (Err e, s)
  | Ok idArg => answer SignalMessageInfo_json (sv_ResendSignalMessage impl idArg s)
  end.

Definition HandleGetSignalMessagesStats (s : S) : res string * S :=
  answer SignalMessageStats_json (sv_GetSignalMessagesStats impl s).

(** The handler registered for an endpoint. *)
Definition handle_endpoint (e : endpoint) (params : gmap string string) (req : http_request) (s : S)
    : res string * S :=
  match e with
  | EGetInstanceInfo => HandleGetInstanceInfo s
  | EListGroups => HandleListGroups s
  | EListSignalMessages => HandleListSignalMessages req s
  | EGetSignalMessage => HandleGetSignalMessage (Some params) s
  | EUpdateSignalMessage => HandleUpdateSignalMessage (Some params) (hq_Body req) s
  | EResendSignalMessage => HandleResendSignalMessage (Some params) s
  | EGetSignalMessagesStats => HandleGetSignalMessagesStats s
  end.
End handlers.

(** ** Facts: routing *)

Lemma Split_seg u t : contains "/" u = false → Split (u +:+ String "/" t) = u :: Split t.
Proof.
  induction u as [|c u IH]; cbn [contains].
  - done.
  - intros [Hc Hu]%orb_false_iff. rewrite append_cons. cbn [Split]. by rewrite Hc, IH.
Qed.

Lemma Split_one u : contains "/" u = false → Split u = [u].
Proof.
  induction u as [|c u IH]; [done|]. cbn [contains Split]. intros [-> Hu]%orb_false_iff. by rewrite IH.
Qed.

(** Fresh routes are registered one after the other, without conflict. *)
Definition route_key (r : route) : string * string := (rt_Method r, rt_Template r).

Lemma register_fresh `{Router} r rt :
  NoDup (route_key <$> (routes_of rt ++ [r])) →
  ∃ rt', router_Register r rt = Ok rt' ∧ routes_of rt' = routes_of rt ++ [r].
Proof.
  intros Hn. apply router_Register_fresh. intros r' Hin Heq. rewrite fmap_app in Hn.
  apply NoDup_app in Hn as (_ & Hn & _). apply (Hn (route_key r')); [apply list_elem_of_fmap; by exists r'|].
  unfold route_key. rewrite Heq. by left.
Qed.

Lemma register_all `{Router} l rt :
  NoDup (route_key <$> (routes_of rt ++ l)) →
  ∃ rt', foldl add_route (Ok rt) l = Ok rt' ∧ routes_of rt' = routes_of rt ++ l.
Proof.
  revert rt. induction l as [|r l IH]; intros rt Hn; [exists rt; by rewrite app_nil_r|].
  destruct (register_fresh r rt) as (rt' & E & R).
  - revert Hn. rewrite (assoc_L (++) _ [r] l), fmap_app. by intros [? _]%NoDup_app.
  - destruct (IH rt') as (rt2 & E2 & R2); [by rewrite R, <- app_assoc|].
    exists rt2. cbn [foldl]. unfold add_route at 2. rewrite E. split; [done|]. by rewrite R2, R, <- app_assoc.
Qed.

Lemma register_routes `{Router} :
  ∃ rt, RegisterRoutesSignalMessagesService NewRouter = Ok rt ∧ routes_of rt = routes.
Proof.
  destruct (register_all routes NewRouter) as (rt & E & R); rewrite ?routes_of_new in *; [|by exists rt].
  apply (bool_decide_unpack _). vm_compute. done.
Qed.

(** The paths of one message, for a text that fills one segment. *)
Definition message_path (id : string) : string := "/api/v1/signal-messages/" +:+ id.
Definition resend_path (id : string) : string := "/api/v1/signal-messages/" +:+ id +:+ "/resend".

Lemma Split_message_path id :
  contains "/" id = false → Split (message_path id) = ["" ; "api"; "v1"; "signal-messages"; id].
Proof.
  intros Hi. transitivity (["" ; "api"; "v1"; "signal-messages"] ++ Split id); [reflexivity|].
  by rewrite Split_one.
Qed.

Lemma Split_resend_path id :
  contains "/" id = false → Split (resend_path id) = ["" ; "api"; "v1"; "signal-messages"; id; "resend"].
Proof.
  intros Hi. transitivity (["" ; "api"; "v1"; "signal-messages"] ++ Split (id +:+ "/resend")); [reflexivity|].
  by rewrite (Split_seg id "resend").
Qed.
