(* ===== verification/Server.v ===== *)
(** [internal/server/module.go]: the server.  Its InitFunc registers the generated
    routes and, beside them, the raw handler of multipart uploads; a request goes
    to the one route it matches. *)

From Stdlib Require Import Ascii.
From S2P Require Import Prelude Errors Domain HttpClient Handler GoText Json JsonFacts JsonStructs GoUrl ConjureErrors ApiStructs ApiServer.

(** ** Construction *)

(** [handler.MultipartPath]. *)
Definition MultipartPath : string := "/api/v1/signal-messages".

(** [info.Router.Post(handler.MultipartPath, multipart)]. *)
Definition multipart_route : route := MkRoute "POST" MultipartPath MultipartUpload.

(** The InitFunc, over the router it is given. *)
Definition InitFunc `{Router} (router : Router_t) : res Router_t :=
  match RegisterRoutesSignalMessagesService router with
  | Err err => Err (Wrap err "register SignalMessagesService routes")
  | Ok rt => match router_Register multipart_route rt with
             | Err err => Err (Wrap err "register multipart upload route")
             | Ok rt' => Ok rt'
             end
  end.

(** [Paths], filled with the names that main supplies. *)
Record Paths := MkPaths { pa_Install : string; pa_Runtime : string }.

(** What the builder of witchcraft is told. *)
Record witchcraft_server `{Router} := MkServer {
  ws_InstallConfigFile : string;
  ws_RuntimeConfigFile : string;
  ws_SelfSignedCertificate : bool;
  ws_DisableSigQuitHandler : bool;
  ws_DisableShutdownSignalHandler : bool;
  ws_Init : Router_t → res Router_t;
}.

Definition NewWitchcraftServer `{Router} (paths : Paths) : witchcraft_server :=
  MkServer _ (pa_Install paths) (pa_Runtime paths) true true true InitFunc.

(** ** Serving *)

Section serve.
Context `{WireTypes} `{SafeJson} {S : Type} (impl : SignalMessagesService S).
Context (multipart : http_request → S → res string * S).

(** The handler behind a route. *)
Definition handle_target (t : target) (params : gmap string string) (req : http_request) (s : S)
    : res string * S :=
  match t with
  | Generated e => handle_endpoint impl e params req s
  | MultipartUpload => multipart req s
  end.

Definition serve `{Router} (rt : Router_t) (req : http_request) (s : S) : res string * S :=
  match Dispatch rt (hq_Method req) (hq_Path req) with
  | None => (Err (ErrMsg "404 page not found"), s)
  | Some (t, params) => handle_target t params req s
  end.
End serve.

(** ** Facts *)

Definition server_routes : list route := routes ++ [multipart_route].

(** Every route is registered: none conflicts with another. *)
Lemma InitFunc_registers `{Router} :
  ∃ rt, InitFunc NewRouter = Ok rt ∧ routes_of rt = server_routes.
Proof.
  destruct register_routes as (rt & E & R). unfold InitFunc. rewrite E.
  destruct (register_fresh multipart_route rt) as (rt' & -> & R'); rewrite R in *; [|by exists rt'].
  apply (bool_decide_unpack _). vm_compute. done.
Qed.

Lemma InitFunc_routes `{Router} rt : InitFunc NewRouter = Ok rt → routes_of rt = server_routes.
Proof. destruct InitFunc_registers as (rt' & -> & R). by intros [= <-]. Qed.

Lemma dispatch_to `{Router} rt method path r params :
  routes_of rt = server_routes → r ∈ server_routes → match_route r method path = Some params →
  Forall (λ r', r' = r ∨ match_route r' method path = None) server_routes →
  Dispatch rt method path = Some (rt_Target r, params).
Proof.
  intros Hr Hin Hm Hu. apply Dispatch_only; rewrite ?Hr; [done|done|].
  intros r' Hin' [x Hx]. rewrite Forall_forall in Hu. destruct (Hu r' Hin') as [|E]; [done|congruence].
Qed.

Ltac one_route :=
  unfold server_routes, routes, multipart_route; cbn [app]; members; unfold match_route;
  cbn [rt_Method rt_Template rt_Target];
  first [left; reflexivity | right; reflexivity].

Section message_routes.
Context `{Router} (rt : Router_t) (id : string).
Hypothesis Hrt : routes_of rt = server_routes.
Hypothesis Hseg : contains "/" id = false.
Hypothesis Hne : id ≠ "".

Lemma dispatch_message method e :
  (method = "GET" ∧ e = EGetSignalMessage) ∨ (method = "PUT" ∧ e = EUpdateSignalMessage) →
  Dispatch rt method (message_path id) = Some (Generated e, {["id" := id]}).
Proof using Hrt Hseg Hne.
  intros Hm. apply (dispatch_to rt method _ (MkRoute method "/api/v1/signal-messages/{id}" (Generated e))); [done|..].
  - apply list_elem_of_In. destruct Hm as [[-> ->]|[-> ->]]; simpl; auto 10.
  - unfold match_route. cbn [rt_Method rt_Template]. rewrite bool_decide_eq_true_2 by done.
    rewrite Split_message_path by done.
    transitivity (if bool_decide (id = "") then None else Some (<["id" := id]> (∅ : gmap string string)));
      [reflexivity|]. by rewrite bool_decide_eq_false_2.
  - destruct Hm as [[-> ->]|[-> ->]]; unfold match_route; rewrite Split_message_path by done; one_route.
Qed.

Lemma dispatch_resend :
  Dispatch rt "POST" (resend_path id) = Some (Generated EResendSignalMessage, {["id" := id]}).
Proof using Hrt Hseg Hne.
  apply (dispatch_to rt "POST" _
    (MkRoute "POST" "/api/v1/signal-messages/{id}/resend" (Generated EResendSignalMessage))); [done|..].
  - apply list_elem_of_In. simpl; auto 10.
  - unfold match_route. cbn [rt_Method rt_Template]. rewrite bool_decide_eq_true_2 by done.
    rewrite Split_resend_path by done.
    transitivity (if bool_decide (id = "") then None else Some (<["id" := id]> (∅ : gmap string string)));
      [reflexivity|]. by rewrite bool_decide_eq_false_2.
  - unfold match_route; rewrite Split_resend_path by done; one_route.
Qed.
End message_routes.

(** The endpoints without variables. *)
Lemma dispatch_fixed `{Router} rt path e :
  routes_of rt = server_routes →
  (path, e) ∈ [("/api/v1/info", EGetInstanceInfo); ("/api/v1/groups", EListGroups);
               ("/api/v1/signal-messages", EListSignalMessages);
               ("/api/v1/signal-messages-stats", EGetSignalMessagesStats)] →
  Dispatch rt "GET" path = Some (Generated e, ∅).
Proof.
  intros Hrt Hin. apply (dispatch_to rt "GET" path (MkRoute "GET" path (Generated e))); [done|..];
    rewrite !elem_of_cons, elem_of_nil in Hin;
    destruct Hin as [[= -> ->]|[[= -> ->]|[[= -> ->]|[[= -> ->]|[]]]]].
  1-4: apply list_elem_of_In; simpl; auto 10.
  1-4: reflexivity.
  all: one_route.
Qed.

(** An upload reaches the raw handler, although a listing has the same path. *)
Lemma dispatch_upload `{Router} rt :
  routes_of rt = server_routes → Dispatch rt "POST" MultipartPath = Some (MultipartUpload, ∅).
Proof.
  intros Hrt. apply (dispatch_to rt "POST" _ multipart_route); [done|..].
  - apply list_elem_of_In. simpl; auto 10.
  - reflexivity.
  - one_route.
Qed.
