(* ===== verification/ApiClient.v ===== *)
(** [internal/generated/signalium/api/services.conjure.go]: the generated client,
    and its agreement with the server over the wire. *)

From Stdlib Require Import Ascii.
From S2P Require Import Prelude Errors Domain Sqlc Queries HttpClient Handler GoText Json JsonFacts JsonStructs GoUrl ConjureErrors ApiStructs ApiFacts ApiServer Server.

(** ** The exchange

    What the HTTP client and server of the Conjure runtime make of a handler's
    outcome: a body arrives as it was written; an error whose chain holds an
    error of the API is written in its wire form and goes through the client's
    error decoder. *)
Class HttpExchange `{SafeJson} `{ErrorContract} `{!ErrorDecoder} `{ConjureRuntime} := {
  received : ConjureErrorDecoder → res string → res string;
  received_body d b : received d (Ok b) = Ok b;
  received_error d e c :
    GetConjureError e = Some c →
    ∃ id, received d (Err e) =
      match DecodeConjureError d (conjure_on_wire c id).1 (conjure_on_wire c id).2 with
      | Ok (c', _) => Err (Conjure c' (ErrMsg "failed server response"))
      | Err e' => Err e'
      end;
}.

Section client.
Context `{WireTypes} `{HttpExchange} `{Router} {S : Type}.
Context (impl : SignalMessagesService S) (multipart : http_request → S → res string * S).
Context (rt : Router_t) (globalRegistry : ConjureErrorDecoder).

(** ** The generated methods *)

(** The body they share: do the request, decode the answer into [*returnVal],
    which a null leaves nil. *)
Definition client_do {A} (name : string) (req : http_request) (dec : decoder A) (zero : A) (s : S)
    : res A * S :=
  let '(r, s') := serve impl multipart rt req s in
  (match received globalRegistry r with
   | Err e => Err (Wrap e (name +:+ " failed"))
   | Ok body =>
       match safejson_Unmarshal body with
       | None => Err (Wrap syntax_error (name +:+ " failed"))
       | Some JNull => Err (ErrMsg (name +:+ " response cannot be nil"))
       | Some v => match dec v zero with
                   | (a, None) => Ok a
                   | (_, Some e) => Err (Wrap e (name +:+ " failed"))
                   end
       end
   end, s').

Definition client_GetInstanceInfo : S → res InstanceInfo * S :=
  client_do "getInstanceInfo" (MkHttpRequest "GET" "/api/v1/info" "" "")
    (decode_struct InstanceInfo_fields) (MkInstanceInfo "" "").

Definition groups_decoder : decoder (list SignalGroupInfo) := λ v _,
  let '(l, e) := slice_decoder zero_SignalGroupInfo (decode_struct SignalGroupInfo_fields) v None in
  (default [] l, e).
Definition client_ListGroups : S → res (list SignalGroupInfo) * S :=
  client_do "listGroups" (MkHttpRequest "GET" "/api/v1/groups" "" "") groups_decoder [].

(** [queryParams.Set(name, fmt.Sprint( *arg))] when the argument is there. *)
Definition set_arg {A} (name : string) (Sprint : A → string) (arg : option A)
    (m : gmap string (list string)) : gmap string (list string) :=
  match arg with Some a => Values_Set name (Sprint a) m | None => m end.

Definition list_query (qArg : option string) (limitArg offsetArg : option Z)
    (createdAtFromArg createdAtToArg : option time) (statusArg : option string) (attemptsArg : option Z)
    : gmap string (list string) :=
  set_arg "attempts" FormatInt attemptsArg (set_arg "status" id statusArg
    (set_arg "createdAtTo" DateTime_text createdAtToArg (set_arg "createdAtFrom" DateTime_text createdAtFromArg
      (set_arg "offset" FormatInt offsetArg (set_arg "limit" FormatInt limitArg (set_arg "q" id qArg ∅)))))).

Definition client_ListSignalMessages q limit offset from to status attempts
    : S → res SignalMessageList * S :=
  client_do "listSignalMessages"
    (MkHttpRequest "GET" "/api/v1/signal-messages"
       (Encode (list_query q limit offset from to status attempts)) "")
    (decode_struct SignalMessageList_fields) (MkSignalMessageList [] 0).

Definition client_GetSignalMessage (idArg : uuid) : S → res SignalMessageInfo * S :=
  client_do "getSignalMessage"
    (MkHttpRequest "GET" (message_path (PathEscape (uuid_text idArg))) "" "")
    (decode_struct SignalMessageInfo_fields) zero_SignalMessageInfo.

Definition client_UpdateSignalMessage (idArg : uuid) (bodyArg : UpdateSignalMessageRequest)
    : S → res SignalMessageInfo * S :=
  client_do "updateSignalMessage"
    (MkHttpRequest "PUT" (message_path (PathEscape (uuid_text idArg))) ""
       (safejson_Marshal (UpdateRequest_json bodyArg)))
    (decode_struct SignalMessageInfo_fields) zero_SignalMessageInfo.

Definition client_ResendSignalMessage (idArg : uuid) : S → res SignalMessageInfo * S :=
  client_do "resendSignalMessage"
    (MkHttpRequest "POST" (resend_path (PathEscape (uuid_text idArg))) "" "")
    (decode_struct SignalMessageInfo_fields) zero_SignalMessageInfo.

Definition client_GetSignalMessagesStats : S → res SignalMessageStats * S :=
  client_do "getSignalMessagesStats" (MkHttpRequest "GET" "/api/v1/signal-messages-stats" "" "")
    (decode_struct SignalMessageStats_fields) (MkSignalMessageStats ∅ []).

(** ** Calls *)

Inductive api_call : Type → Type :=
| CGetInstanceInfo : api_call InstanceInfo
| CListGroups : api_call (list SignalGroupInfo)
| CListSignalMessages (q : option string) (limit offset : option Z) (from to : option time)
    (status : option string) (attempts : option Z) : api_call SignalMessageList
| CGetSignalMessage (id : uuid) : api_call SignalMessageInfo
| CUpdateSignalMessage (id : uuid) (body : UpdateSignalMessageRequest) : api_call SignalMessageInfo
| CResendSignalMessage (id : uuid) : api_call SignalMessageInfo
| CGetSignalMessagesStats : api_call SignalMessageStats.

(** Through client, wire and server. *)
Definition remote {A} (c : api_call A) : S → res A * S :=
  match c in api_call A return S → res A * S with
  | CGetInstanceInfo => client_GetInstanceInfo
  | CListGroups => client_ListGroups
  | CListSignalMessages q l o f t st a => client_ListSignalMessages q l o f t st a
  | CGetSignalMessage id => client_GetSignalMessage id
  | CUpdateSignalMessage id b => client_UpdateSignalMessage id b
  | CResendSignalMessage id => client_ResendSignalMessage id
  | CGetSignalMessagesStats => client_GetSignalMessagesStats
  end.

(** Straight to the implementation; an empty text cannot be told from none in a
    query string, nor a nil slice from an empty one in JSON. *)
Definition nonempty (o : option string) : option string :=
  match o with Some s => if bool_decide (s = "") then None else Some s | None => None end.

Definition local {A} (c : api_call A) : S → res A * S :=
  match c in api_call A return S → res A * S with
  | CGetInstanceInfo => sv_GetInstanceInfo impl
  | CListGroups => λ s, let '(r, s') := sv_ListGroups impl s in (result_map (default []) r, s')
  | CListSignalMessages q l o f t st a =>
      sv_ListSignalMessages impl (nonempty q) l o f t (nonempty st) a
  | CGetSignalMessage id => sv_GetSignalMessage impl id
  | CUpdateSignalMessage id b => sv_UpdateSignalMessage impl id b
  | CResendSignalMessage id => sv_ResendSignalMessage impl id
  | CGetSignalMessagesStats => sv_GetSignalMessagesStats impl
  end.

(** Arguments and results that the formats can carry. *)
Definition opt_all {A} (P : A → Prop) (o : option A) : Prop := ∀ a, o = Some a → P a.

Definition args_ok {A} (c : api_call A) : Prop :=
  match c with
  | CGetInstanceInfo | CListGroups | CGetSignalMessagesStats => True
  | CListSignalMessages _ l o f t st a =>
      opt_all in_int64 l ∧ opt_all in_int64 o ∧ opt_all rfc3339 f ∧ opt_all rfc3339 t ∧
      opt_all upper_text st ∧ opt_all in_int64 a
  | CGetSignalMessage id | CResendSignalMessage id => (id < 2 ^ 128)%N
  | CUpdateSignalMessage id b => (id < 2 ^ 128)%N ∧ upper_text (ur_Status b)
  end.

Definition result_ok {A} (c : api_call A) : A → Prop :=
  match c in api_call A return A → Prop with
  | CGetInstanceInfo => λ i, ValidString (in_Name i) = true ∧ ValidString (in_SenderPhoneNumber i) = true
  | CListGroups => Forall group_ok
  | CListSignalMessages _ _ _ _ _ _ _ => list_ok
  | CGetSignalMessage _ | CUpdateSignalMessage _ _ | CResendSignalMessage _ => info_ok
  | CGetSignalMessagesStats => stats_ok
  end.

(** The caller of the client sees the outcome of the implementation: the same
    value, or an error with the same typed error in its chain. *)
Definition seen_as {A} (r r' : res A) : Prop :=
  match r with
  | Ok a => r' = Ok a
  | Err e => ∀ c, GetConjureError e = Some c → carried c →
                  ∃ e', r' = Err e' ∧ GetConjureError e' = Some c
  end.

(** ** Facts *)

Hypothesis Hinit : init = Some globalRegistry.
Hypothesis Hroutes : InitFunc NewRouter = Ok rt.

Lemma routes_registered : routes_of rt = server_routes.
Proof using Hroutes. by apply InitFunc_routes. Qed.

(** An error of the API as the client's decoder gives it back. *)
Lemma received_typed e c :
  GetConjureError e = Some c → carried c →
  received globalRegistry (Err e) = Err (Conjure c (ErrMsg "failed server response")).
Proof using Hinit.
  intros He Hc. destruct (received_error globalRegistry e c He) as [id ->].
  destruct init_registers as (d & E & R). assert (d = globalRegistry) as -> by congruence.
  destruct (conjure_wire_plain c id Hc) as [Hu _].
  rewrite (decode_registered globalRegistry _ (kind_of c)) by (apply (R (_, _)); apply registered_name).
  by rewrite Hu.
Qed.

(** The shared body of the methods: whatever the server answers with, the caller
    sees. *)
Lemma client_do_seen {A} name req (dec : decoder A) zero (enc : A → json) (r : res A * S) s :
  serve impl multipart rt req s = answer enc r →
  (∀ a, r.1 = Ok a → wire_value (enc a) ∧ enc a ≠ JNull ∧ dec (enc a) zero = (a, None)) →
  seen_as r.1 (client_do name req dec zero s).1 ∧ (client_do name req dec zero s).2 = r.2.
Proof using Hinit.
  intros Hs Hr. unfold client_do. rewrite Hs. unfold answer. split; [|done]. cbn [fst].
  destruct r as [[a|e] s']; cbn [fst] in *.
  - destruct (Hr a eq_refl) as (Hw & Hn & Hd). cbn [seen_as]. rewrite received_body.
    rewrite safejson_roundtrip by done. by destruct (enc a); rewrite ?Hd.
  - intros c Hg Hc. rewrite (received_typed e c) by done. eexists. split; [done|].
    by rewrite GetConjureError_first.
Qed.

(** *** Arguments in the query *)

Lemma Values_Get_set {A} k (f : A → string) o m :
  Values_Get k (set_arg k f o m) = match o with Some a => f a | None => Values_Get k m end.
Proof. destruct o as [a|]; [|done]. unfold Values_Get, set_arg, Values_Set. by rewrite lookup_insert_eq. Qed.

Lemma Values_Get_other {A} k k' (f : A → string) o m :
  k' ≠ k → Values_Get k (set_arg k' f o m) = Values_Get k m.
Proof.
  intros Hk. destruct o as [a|]; [|done]. unfold Values_Get, set_arg, Values_Set.
  by rewrite lookup_insert_ne.
Qed.

Lemma set_arg_nonempty {A} k (f : A → string) o m :
  map_Forall (λ _ vs, vs ≠ []) m → map_Forall (λ _ vs, vs ≠ []) (set_arg k f o m).
Proof. intros Hm. destruct o as [a|]; [|done]. by apply map_Forall_insert_2. Qed.

Lemma list_query_sent q l o f t st a :
  Query (Encode (list_query q l o f t st a)) = list_query q l o f t st a.
Proof. apply Query_Encode. unfold list_query. repeat apply set_arg_nonempty. apply map_Forall_empty. Qed.

Lemma query_arg_sent {A} m name kind (parse_arg : string → res A) (f : A → string) o :
  Values_Get name m = match o with Some a => f a | None => "" end →
  opt_all (λ a, f a ≠ "" ∧ parse_arg (f a) = Ok a) o → query_arg m name kind parse_arg = Ok o.
Proof.
  intros Hg Ho. unfold query_arg. rewrite Hg. destruct o as [a|]; [|done].
  destruct (Ho a eq_refl) as [Hn Hp]. by rewrite bool_decide_eq_false_2, Hp.
Qed.

Lemma query_text_sent m name kind (parse_arg : string → res string) o :
  Values_Get name m = match o with Some s => s | None => "" end →
  opt_all (λ s, parse_arg s = Ok s) o → query_arg m name kind parse_arg = Ok (nonempty o).
Proof.
  intros Hg Ho. unfold query_arg, nonempty. rewrite Hg. destruct o as [s|]; [|done].
  case_bool_decide; [done|]. by rewrite (Ho s eq_refl).
Qed.

Lemma FormatInt_sent o :
  opt_all in_int64 o → opt_all (λ z, FormatInt z ≠ "" ∧ ParseInt (FormatInt z) = Ok z) o.
Proof.
  intros Ho z E. rewrite ParseInt_FormatInt_ok by auto. split; [|done].
  intros F. pose proof (ParseInt_FormatInt_ok z (Ho z E)) as P. by rewrite F in P.
Qed.

Lemma DateTime_sent o :
  opt_all rfc3339 o → opt_all (λ t, DateTime_text t ≠ "" ∧ ParseDateTime (DateTime_text t) = Ok t) o.
Proof. intros Ho t E. split; [apply DateTime_text_nonempty|]. apply ParseDateTime_text. auto. Qed.

Lemma status_sent o : opt_all upper_text o → opt_all (λ s, status_text s = Ok s) o.
Proof. intros Ho s E. unfold status_text. by rewrite status_read by auto. Qed.

Ltac sent_value :=
  unfold list_query; repeat (rewrite Values_Get_other by done); rewrite Values_Get_set;
  repeat (rewrite Values_Get_other by done); reflexivity.

Lemma serve_list q l o f t st a s :
  args_ok (CListSignalMessages q l o f t st a) →
  serve impl multipart rt (MkHttpRequest "GET" "/api/v1/signal-messages" (Encode (list_query q l o f t st a)) "") s
  = answer SignalMessageList_json (local (CListSignalMessages q l o f t st a) s).
Proof using Hroutes.
  intros (Hl & Ho & Hf & Ht & Hst & Ha). unfold serve. cbn [hq_Method hq_Path].
  rewrite (dispatch_fixed rt _ EListSignalMessages) by (apply routes_registered || (apply list_elem_of_In; simpl; auto 10)).
  cbn [handle_target handle_endpoint]. unfold HandleListSignalMessages. cbn [hq_RawQuery]. rewrite list_query_sent.
  rewrite (query_text_sent _ "q" _ Ok q) by (done || sent_value).
  rewrite (query_arg_sent _ "limit" _ ParseInt FormatInt l) by (by apply FormatInt_sent || sent_value).
  rewrite (query_arg_sent _ "offset" _ ParseInt FormatInt o) by (by apply FormatInt_sent || sent_value).
  rewrite (query_arg_sent _ "createdAtFrom" _ ParseDateTime DateTime_text f) by (by apply DateTime_sent || sent_value).
  rewrite (query_arg_sent _ "createdAtTo" _ ParseDateTime DateTime_text t) by (by apply DateTime_sent || sent_value).
  rewrite (query_text_sent _ "status" _ status_text st) by (by apply status_sent || sent_value).
  rewrite (query_arg_sent _ "attempts" _ ParseInt FormatInt a) by (by apply FormatInt_sent || sent_value).
  done.
Qed.

(** *** Ids in the path *)

Lemma uuid_char_path c : uuid_char c = true → path_kept (byte_val c) = true ∧ Ascii.eqb c "/" = false.
Proof. destruct c as [[] [] [] [] [] [] [] []]; done. Qed.

Lemma uuid_chars_path t : all_chars uuid_char t = true → PathEscape t = t ∧ contains "/" t = false.
Proof.
  induction t as [|c t IH]; [done|]. cbn [all_chars PathEscape contains].
  intros [Hc Ht]%andb_true_iff. destruct (uuid_char_path c Hc) as [-> ->], (IH Ht) as [-> ->]. done.
Qed.

Lemma id_arg_sent u : (u < 2 ^ 128)%N → id_arg (Some {["id" := uuid_text u]}) = Ok u.
Proof. intros Hu. unfold id_arg. rewrite lookup_singleton_eq. by rewrite ParseUUID_text. Qed.

Lemma serve_message method e u body s :
  (method = "GET" ∧ e = EGetSignalMessage) ∨ (method = "PUT" ∧ e = EUpdateSignalMessage) →
  serve impl multipart rt (MkHttpRequest method (message_path (PathEscape (uuid_text u))) "" body) s
  = handle_endpoint impl e {["id" := uuid_text u]}
      (MkHttpRequest method (message_path (uuid_text u)) "" body) s.
Proof using Hroutes.
  intros He. destruct (uuid_chars_path _ (uuid_text_chars u)) as [-> Hc]. unfold serve. cbn [hq_Method hq_Path].
  by rewrite (dispatch_message rt (uuid_text u) routes_registered Hc (uuid_text_nonempty u) method e).
Qed.

Lemma serve_resend u s :
  (u < 2 ^ 128)%N →
  serve impl multipart rt (MkHttpRequest "POST" (resend_path (PathEscape (uuid_text u))) "" "") s
  = answer SignalMessageInfo_json (sv_ResendSignalMessage impl u s).
Proof using Hroutes.
  intros Hu. destruct (uuid_chars_path _ (uuid_text_chars u)) as [-> Hc]. unfold serve. cbn [hq_Method hq_Path].
  rewrite (dispatch_resend rt (uuid_text u) routes_registered Hc (uuid_text_nonempty u)).
  cbn [handle_target handle_endpoint]. unfold HandleResendSignalMessage. by rewrite id_arg_sent.
Qed.

Lemma serve_get u s :
  (u < 2 ^ 128)%N →
  serve impl multipart rt (MkHttpRequest "GET" (message_path (PathEscape (uuid_text u))) "" "") s
  = answer SignalMessageInfo_json (sv_GetSignalMessage impl u s).
Proof using Hroutes.
  intros Hu. rewrite (serve_message "GET" EGetSignalMessage) by auto. cbn [handle_target handle_endpoint].
  unfold HandleGetSignalMessage. by rewrite id_arg_sent.
Qed.

Lemma wire_le n v : n ≤ 100 → plain n v → wire_value v.
Proof. apply plain_le. Qed.

Lemma serve_update u b s :
  (u < 2 ^ 128)%N → upper_text (ur_Status b) →
  serve impl multipart rt (MkHttpRequest "PUT" (message_path (PathEscape (uuid_text u))) ""
                   (safejson_Marshal (UpdateRequest_json b))) s
  = answer SignalMessageInfo_json (sv_UpdateSignalMessage impl u b s).
Proof using Hroutes.
  intros Hu Hb. rewrite (serve_message "PUT" EUpdateSignalMessage) by auto. cbn [handle_target handle_endpoint hq_Body].
  unfold HandleUpdateSignalMessage, decode_body. rewrite id_arg_sent by done.
  rewrite safejson_roundtrip by (by apply (wire_le 1), plain_UpdateRequest).
  by rewrite decode_UpdateRequest.
Qed.

Lemma serve_fixed path e s :
  (path, e) ∈ [("/api/v1/info", EGetInstanceInfo); ("/api/v1/groups", EListGroups);
               ("/api/v1/signal-messages", EListSignalMessages);
               ("/api/v1/signal-messages-stats", EGetSignalMessagesStats)] →
  serve impl multipart rt (MkHttpRequest "GET" path "" "") s
  = handle_endpoint impl e ∅ (MkHttpRequest "GET" path "" "") s.
Proof using Hroutes.
  intros Hin. unfold serve. cbn [hq_Method hq_Path]. by rewrite (dispatch_fixed rt path e routes_registered).
Qed.

Lemma serve_groups s :
  serve impl multipart rt (MkHttpRequest "GET" "/api/v1/groups" "" "") s
  = answer (λ l, JArr (SignalGroupInfo_json <$> l)) (local CListGroups s).
Proof using Hroutes.
  rewrite (serve_fixed _ EListGroups) by (apply list_elem_of_In; simpl; auto 10). cbn [handle_target handle_endpoint local].
  unfold HandleListGroups, answer. by destruct (sv_ListGroups impl s) as [[]].
Qed.

Lemma groups_decoded l : groups_decoder (JArr (SignalGroupInfo_json <$> l)) [] = (l, None).
Proof.
  unfold groups_decoder, slice_decoder. simpl.
  rewrite (decode_list zero_SignalGroupInfo (decode_struct SignalGroupInfo_fields) SignalGroupInfo_json); [done|].
  apply Forall_true. apply decode_SignalGroupInfo.
Qed.

Lemma info_carried (r : res SignalMessageInfo) :
  (∀ a, r = Ok a → info_ok a) →
  ∀ a, r = Ok a → wire_value (SignalMessageInfo_json a) ∧ SignalMessageInfo_json a ≠ JNull ∧
    decode_struct SignalMessageInfo_fields (SignalMessageInfo_json a) zero_SignalMessageInfo = (a, None).
Proof.
  intros Hr a E. apply Hr in E. split_and!; [|done|by apply decode_SignalMessageInfo].
  by apply (wire_le 3), plain_SignalMessageInfo.
Qed.

(** Client, wire and server against the implementation. *)
Lemma remote_seen {A} (c : api_call A) s :
  args_ok c → (∀ a, (local c s).1 = Ok a → result_ok c a) →
  seen_as (local c s).1 (remote c s).1 ∧ (remote c s).2 = (local c s).2.
Proof using Hinit Hroutes.
  destruct c; cbn [args_ok result_ok remote]; intros Ha Hr.
  - apply (client_do_seen _ _ _ _ InstanceInfo_json).
    + by rewrite (serve_fixed _ EGetInstanceInfo) by (apply list_elem_of_In; simpl; auto 10).
    + intros a E. destruct (Hr a E). split_and!; [|done|apply decode_InstanceInfo].
      by apply (wire_le 1), plain_InstanceInfo.
  - apply (client_do_seen _ _ _ _ (λ l, JArr (SignalGroupInfo_json <$> l))); [apply serve_groups|].
    intros a E. split_and!; [|done|apply groups_decoded]. apply (wire_le 3); [lia|].
    apply (plain_elems 2); [lia|]. eapply Forall_impl; [by apply Hr|]. apply plain_SignalGroupInfo.
  - apply (client_do_seen _ _ _ _ SignalMessageList_json); [by apply serve_list|].
    intros a' E. apply Hr in E. split_and!; [|done|by apply decode_SignalMessageList].
    by apply (wire_le 5), plain_SignalMessageList.
  - apply (client_do_seen _ _ _ _ SignalMessageInfo_json); [by apply serve_get|by apply info_carried].
  - destruct Ha. apply (client_do_seen _ _ _ _ SignalMessageInfo_json); [by apply serve_update|by apply info_carried].
  - apply (client_do_seen _ _ _ _ SignalMessageInfo_json); [by apply serve_resend|by apply info_carried].
  - apply (client_do_seen _ _ _ _ SignalMessageStats_json).
    + by rewrite (serve_fixed _ EGetSignalMessagesStats) by (apply list_elem_of_In; simpl; auto 10).
    + intros a E. apply Hr in E. split_and!; [|done|by apply decode_SignalMessageStats].
      by apply (wire_le 3), plain_SignalMessageStats.
Qed.
End client.

(** ** The implementation: [SignalMessagesHandler] *)

(** What its methods close over: the configuration, the clock, what the database
    computes, and the answer of the groups proxy. *)
Record handler_env := MkHandlerEnv {
  he_ProductName : string;
  he_SenderPhoneNumber : string;
  he_now : time;
  he_ILIKE : string → string → bool;
  he_day_label : time → string;
  he_minus_30_days : time → time;
  he_groups : res (list SignalGroupInfo);
}.

Definition GetInstanceInfo (h : handler_env) : res InstanceInfo :=
  Ok (MkInstanceInfo (he_ProductName h) (he_SenderPhoneNumber h)).

(** [New_SignalMessageStatus] of each count's status, and the days. *)
Definition toStats (r : gmap string Z * list StatsPerDayRow) : SignalMessageStats :=
  MkSignalMessageStats r.1 ((λ d, MkDayStat (sd_Day d) (sd_Sent d) (sd_Failed d)) <$> r.2).

Definition handler_service `{WireTypes} `{ConjureRuntime} (h : handler_env) : SignalMessagesService table :=
  MkService
    (λ t, (GetInstanceInfo h, t))
    (λ t, (match he_groups h with Ok g => Ok (Some g) | Err e => Err (mapToConjureError e) end, t))
    (λ q l o f to st a t,
       (result_map (λ r, MkSignalMessageList r.1 r.2)
          (ListSignalMessages NewSafeLong (he_ILIKE h) q l o f to st a t), t))
    (λ id t, (GetSignalMessage uuid_text NewSafeLong id t, t))
    (λ id b t, UpdateSignalMessage uuid_text NewSafeLong (he_now h) id (ur_Status b) t)
    (λ id t, ResendSignalMessage uuid_text NewSafeLong (he_now h) id t)
    (λ t, (result_map toStats (GetSignalMessagesStats (he_day_label h) (he_minus_30_days h) (he_now h) t), t)).

(** ** Properties *)

(** C13: calling the generated client is calling the implementation.  For every
    operation, every implementation and every state behind it, the call that
    goes through the client's request, the routes of the whole server, the server's argument parsing
    and JSON both ways has the same effect on that state and the same result;
    an error arrives with the same typed error in its chain.  Only an empty text
    argument arrives as an absent one, and a nil list of groups as an empty one. *)
Theorem client_server_agree `{WireTypes} `{HttpExchange} `{Router} {S A : Type}
    (impl : SignalMessagesService S) multipart rt registry (c : api_call A) (s : S) :
  init = Some registry → InitFunc NewRouter = Ok rt →
  args_ok c → (∀ a, (local impl c s).1 = Ok a → result_ok c a) →
  seen_as (local impl c s).1 (remote impl multipart rt registry c s).1 ∧
  (remote impl multipart rt registry c s).2 = (local impl c s).2.
Proof. intros Hi Hr Ha Hok. by apply remote_seen. Qed.

(** *** Modules with the behaviour relied on *)

(** Numbers as hexadecimal digits, the lowest first. *)
Fixpoint hex_text (n : nat) (u : N) : string :=
  match n with
  | O => ""
  | Datatypes.S n' =>
      let d := Z.of_N (u mod 16) in
      String (if d <? 10 then chr (48 + d) else chr (87 + d)) (hex_text n' (u / 16))
  end.
Fixpoint hex_value (s : string) : N :=
  match s with
  | EmptyString => 0
  | String c s' =>
      (Z.to_N (if (byte_val c <? 97)%Z then byte_val c - 48 else byte_val c - 87)%Z + 16 * hex_value s')%N
  end.

Lemma hex_digit d :
  (d < 16)%N →
  let c := if Z.of_N d <? 10 then chr (48 + Z.of_N d) else chr (87 + Z.of_N d) in
  uuid_char c = true ∧ Z.to_N (if byte_val c <? 97 then byte_val c - 48 else byte_val c - 87) = d.
Proof.
  intros Hd. assert (In d [0;1;2;3;4;5;6;7;8;9;10;11;12;13;14;15]%N) as Hin by (simpl; lia).
  cbn [In] in Hin. by repeat destruct Hin as [<-|Hin].
Qed.

Lemma hex_text_chars n u : all_chars uuid_char (hex_text n u) = true.
Proof.
  revert u. induction n as [|n IH]; intros u; [done|]. cbn [hex_text all_chars].
  destruct (hex_digit (u mod 16)) as [-> _]; [apply N.mod_upper_bound; lia|]. by rewrite IH.
Qed.

Lemma hex_value_text n u : (u < 16 ^ N.of_nat n)%N → hex_value (hex_text n u) = u.
Proof.
  revert u. induction n as [|n IH]; intros u Hu; [simpl in *; lia|]. cbn [hex_text hex_value].
  destruct (hex_digit (u mod 16)) as [_ ->]; [apply N.mod_upper_bound; lia|].
  rewrite IH; [|apply N.Div0.div_lt_upper_bound; rewrite Nat2N.inj_succ, N.pow_succ_r' in Hu; lia].
  pose proof (N.Div0.div_mod u 16). lia.
Qed.

#[local] Instance demo_wire : WireTypes.
Proof.
  refine {| uuid_text := hex_text 32; ParseUUID s := Ok (hex_value s);
            DateTime_text t := hex_text 32 (Z.to_N (t + 2 ^ 63));
            ParseDateTime s := Ok (Z.of_N (hex_value s) - 2 ^ 63);
            rfc3339 := in_int64;
            NewSafeLong z := if (- 2 ^ 53 <? z) && (z <? 2 ^ 53) then Some z else None;
            ToUpper := upper |}; try done.
  - intros. apply hex_text_chars.
  - intros u Hu. by rewrite (hex_value_text 32).
  - intros t. apply ascii_valid. eapply all_chars_impl; [|apply hex_text_chars].
    intros c. destruct c as [[] [] [] [] [] [] [] []]; done.
  - intros t [H1 H2]. rewrite hex_value_text; [f_equal; lia|].
    change (16 ^ N.of_nat 32)%N with (2 ^ 128)%N. apply N2Z.inj_lt. rewrite Z2N.id by lia. simpl in *. lia.
  - intros z y. case_match eqn:E; [|done]. intros [= <-]. bools. split; [done|]. unfold in_int64. lia.
Defined.

#[local] Instance demo_router : Router.
Proof.
  refine {| Router_t := list route; NewRouter := []; routes_of rt := rt;
            router_Register r rt := Ok (rt ++ [r]);
            Dispatch rt m p :=
              head (omap (λ r, match match_route r m p with
                               | Some x => Some (rt_Target r, x) | None => None end) rt) |}; [done|eauto|].
  intros rt m p r params Hin Hm Hu. induction rt as [|r' rt IH]; [by apply elem_of_nil in Hin|].
  csimpl. destruct (match_route r' m p) as [x|] eqn:E.
  - assert (r' = r) as -> by (apply Hu; [by left|by eexists]). rewrite E in Hm. by injection Hm as ->.
  - apply elem_of_cons in Hin as [->|Hin]; [congruence|]. apply IH; [done|].
    intros r2 H2. apply Hu. by right.
Defined.

#[local] Existing Instances demo_safejson demo_contract demo_decoder.

#[local] Instance demo_exchange : HttpExchange.
Proof.
  refine {| received d r :=
    match r with
    | Ok b => Ok b
    | Err e => match GetConjureError e with
               | Some c => match DecodeConjureError d (conjure_on_wire c 0).1 (conjure_on_wire c 0).2 with
                           | Ok (c', _) => Err (Conjure c' (ErrMsg "failed server response"))
                           | Err e' => Err e'
                           end
               | None => Err e
               end
    end |}; [done|].
  intros d e c ->. by exists 0%N.
Defined.

Definition demo_service : SignalMessagesService table :=
  handler_service (MkHandlerEnv "signalium" "+1" 0 (λ _ _, true) (λ _, "") (λ t, t) (Ok [])).
Definition no_uploads (_ : http_request) (t : table) : res string * table := (Err (ErrMsg "no upload"), t).
Definition demo_call : api_call SignalMessageList :=
  CListSignalMessages (Some "a&b") (Some 5) None None None (Some "SENT") None.

Lemma demo_local : local demo_service demo_call [] = (Ok (MkSignalMessageList [] 0), []).
Proof. vm_compute. reflexivity. Qed.

Lemma client_server_agree_witness :
  ∃ registry rt, init = Some registry ∧ InitFunc NewRouter = Ok rt ∧
    remote demo_service no_uploads rt registry demo_call [] = (Ok (MkSignalMessageList [] 0), []).
Proof.
  destruct init_registers as (d & Ed & _). destruct InitFunc_registers as (rt & Er & _).
  exists d, rt. split; [exact Ed|]. split; [exact Er|].
  destruct (client_server_agree demo_service no_uploads rt d demo_call [] Ed Er) as [H1 H2].
  - split_and!; intros x; try discriminate; intros [= <-]; vm_compute; (done || split; congruence).
  - intros a E. rewrite demo_local in E. injection E as <-. split; [constructor|]. split; vm_compute; congruence.
  - rewrite demo_local in H1, H2. cbn [fst snd seen_as] in H1, H2.
    destruct (remote demo_service no_uploads rt d demo_call []) as [r t]. cbn [fst snd] in H1, H2. by subst.
Defined.
