(* ===== verification/Upload.v ===== *)
(** An upload from the wire to the table and back: the multipart endpoint and the
    generated endpoints as one server over one state.

    [internal/handler/multipart.go] decodes the metadata part with the generated
    [CreateSignalMessageRequest], [internal/service] stores the parts and inserts
    the row, and [internal/handler/signal_messages.go] reads it back. *)

From Stdlib Require Import Ascii.
From S2P Require Import Prelude Errors Domain Sqlc SqlcFacts Outbox Repo Queries Prog SendMessage HttpClient Handler GoText Json JsonFacts JsonStructs JsonOrder GoUrl ConjureErrors ApiStructs ApiFacts ApiYaml ApiServer Server ApiClient.

(** ** The whole server *)

(** The generated endpoints work on the table. *)
Definition with_table (s : enqueue_state) (t : table) : enqueue_state :=
  MkEnqueueState (en_now s) t (en_ids s) (en_parts s) (en_objects s).

Definition on_table {A} (f : table → A * table) (s : enqueue_state) : A * enqueue_state :=
  let '(a, t) := f (en_table s) in (a, with_table s t).

Definition service_on_table (sv : SignalMessagesService table) : SignalMessagesService enqueue_state :=
  MkService (on_table (sv_GetInstanceInfo sv)) (on_table (sv_ListGroups sv))
    (λ q l o f to st a, on_table (sv_ListSignalMessages sv q l o f to st a))
    (λ id, on_table (sv_GetSignalMessage sv id)) (λ id b, on_table (sv_UpdateSignalMessage sv id b))
    (λ id, on_table (sv_ResendSignalMessage sv id)) (on_table (sv_GetSignalMessagesStats sv)).

Section server.
Context `{WireTypes} `{SafeJson} `{ConjureRuntime}.
Context (errorText : error → string) (bucket senderPhone : string).
(** [req.MultipartReader()] with the method and the content type of a request. *)
Context (read_multipart : http_request → request).

(** [codecs.JSON.Decode(first, &req)]. *)
Definition decode_metadata : string → res CreateSignalMessageRequest :=
  decode_body (decode_struct CreateRequest_fields) zero_CreateRequest.

(** [writeAccepted] and [writeError] on the wire. *)
Definition respond (r : response) : res string :=
  match r with
  | Accepted id => Ok (safejson_Marshal (Accepted_json (MkAccepted id)))
  | ErrorResponse c => Err (Conjure c (ErrMsg "error response"))
  | InternalResponse => Err NewInternal
  end.

(** [NewMultipartHandler] over the enqueue service. *)
Definition NewMultipartHandler (req : http_request) (s : enqueue_state) : res string * enqueue_state :=
  let '(r, s') := ServeHTTP errorText uuid_text decode_metadata (enqueue_do bucket) senderPhone (read_multipart req) s in
  (respond r, s').
End server.

(** ** Facts: the stream of parts *)

Definition part_of (p : mpart) : AttachmentPart :=
  MkAttachmentPart (mp_FileName p) (mp_ContentType p) (mp_Body p).

Section stored.
Context (errorText : error → string) (bucket : string) (uuidString : uuid → string) (id : uuid).

(** The loop over the parts of a request stores them all. *)
Lemma upload_loop_served parts fuel att s :
  Forall (λ p, mp_FormName p = "attachments" ∧ part_name (part_of p) ≠ "") parts →
  (length parts < fuel)%nat →
  interp (serve_do errorText (enqueue_do bucket)) (upload_loop uuidString fuel id att) (MkReader parts None, s)
  = (Some (Ok (att ++ (part_attachment bucket uuidString id ∘ part_of <$> parts))),
     (MkReader [] None, set_objects s (foldl (put_part bucket uuidString id) (en_objects s) (part_of <$> parts)))).
Proof.
  intros Hp. revert fuel att s.
  induction Hp as [|p parts [Hf Hn] _ IH]; intros [|fuel] att s Hl; simpl in Hl; try lia;
    cbn [upload_loop]; rewrite interp_bind; cbn [call interp serve_do attachments_Next reader_NextPart mr_parts mr_error].
  - cbn. rewrite app_nil_r. by destruct s.
  - rewrite (bool_decide_eq_true_2 _ Hf). unfold part_name in Hn. cbn [part_of part_Filename] in *.
    rewrite (bool_decide_eq_false_2 _ Hn). rewrite interp_bind. cbn [call interp serve_do enqueue_do].
    rewrite IH by lia. cbn. by rewrite <- app_assoc.
Qed.
End stored.

(** ** Facts: the row of an accepted request *)

Section posted.
Context (bucket senderPhone : string) (uuidString : uuid → string).

(** The row that a request asks for: [id] names its objects, [u] is drawn by the
    database. *)
Definition request_attempts (m : CreateMessage) : Z :=
  match cm_MaxAttempts m with Some n => if 0 <? n then int32 n else 5 | None => 5 end.
Definition request_deadline (now : time) (m : CreateMessage) : option time :=
  match cm_TimeoutSeconds m with
  | Some n => if 0 <? n then Some (now + int64 (n * Second)) else None
  | None => None
  end.
(** The deadline as the column keeps it, in whole microseconds. *)
Definition stored_deadline (now : time) (m : CreateMessage) : option time :=
  (λ d, d / 1000 * 1000) <$> request_deadline now m.
Definition posted_params (id : uuid) (now : time) (m : CreateMessage) (parts : list mpart) : RepoInsertParams :=
  MkRepoInsertParams (cm_ExternalID m) (cm_IdempotencyKey m) (cm_Recipient m) (cm_GroupID m) senderPhone
    (cm_Content m) (part_attachment bucket uuidString id ∘ part_of <$> parts) (request_attempts m)
    (request_deadline now m) (uuidString id).

(** What the table must allow: one target, and names that are not taken. *)
Definition admissible (u : uuid) (m : CreateMessage) (t : table) : Prop :=
  is_null (cm_Recipient m) ≠ is_null (cm_GroupID m) ∧
  Forall (λ r, signal_message_id r ≠ u ∧ external_id r ≠ cm_ExternalID m ∧
               (is_Some (cm_IdempotencyKey m) → idempotency_key r ≠ cm_IdempotencyKey m)) t.

Lemma existsb_false {A} (f : A → bool) l : Forall (λ x, f x = false) l → existsb f l = false.
Proof. induction 1 as [|x l Hx _ IH]; [done|]. simpl. by rewrite Hx. Qed.

Lemma Insert_admissible u now id m parts t :
  admissible u m t →
  ∃ r, repo_Insert u now (posted_params id now m parts) t = (Ok (domain_of r), t ++ [r]) ∧
    r = inserted_row u now
      (MkInsertParams (cm_ExternalID m) (cm_IdempotencyKey m) (cm_Recipient m) (cm_GroupID m) senderPhone
         (cm_Content m) (part_attachment bucket uuidString id ∘ part_of <$> parts) (request_attempts m)
         (tsTz (request_deadline now m)) (uuidString id)).
Proof.
  intros [Ht Hf]. eexists. split; [|reflexivity]. unfold repo_Insert, Insert.
  set (r := inserted_row _ _ _).
  assert (exactly_one_target r = true) as ->.
  { unfold exactly_one_target, r. cbn. by destruct (is_null (cm_Recipient m)), (is_null (cm_GroupID m)). }
  assert (unique_conflict r t = None) as ->; [|done].
  unfold unique_conflict, r. cbn.
  rewrite !existsb_false; [done|..]; (eapply Forall_impl; [exact Hf|]); intros x (H1 & H2 & H3); cbn.
  - destruct (cm_IdempotencyKey m) as [k|]; [|done]. cbn. apply bool_decide_eq_false_2, H3. by eexists.
  - by apply bool_decide_eq_false_2.
  - by apply bool_decide_eq_false_2.
Qed.

(** A known key would have been found. *)
Lemma admissible_fresh_key u m t : admissible u m t → fresh_key m t.
Proof.
  intros [_ Hf] k Hk. eapply Forall_impl; [exact Hf|]. intros r (_ & _ & H3). rewrite Hk in H3.
  apply H3. by eexists.
Qed.

Context (errorText : error → string).

(** What an accepted request leaves behind. *)
Definition after_post (id u : uuid) (ids : list uuid) (m : CreateMessage) (parts : list mpart)
    (r : row) (s : enqueue_state) : enqueue_state :=
  MkEnqueueState (en_now s) (en_table s ++ [r]) ids (en_parts s)
    (foldl (put_part bucket uuidString id) (en_objects s) (part_of <$> parts)).

Lemma enqueue_fresh_served m parts id u ids s :
  en_ids s = id :: u :: ids → admissible u m (en_table s) →
  Forall (λ p, mp_FormName p = "attachments" ∧ part_name (part_of p) ≠ "") parts →
  ∃ r, repo_Insert u (en_now s) (posted_params id (en_now s) m parts) (en_table s)
         = (Ok (domain_of r), en_table s ++ [r]) ∧
    interp (serve_do errorText (enqueue_do bucket))
      (enqueue_fresh uuidString senderPhone (S (length parts)) m true) (MkReader parts None, s)
    = (Some (Ok (MkEnqueueResult u false)), (MkReader [] None, after_post id u ids m parts r s)).
Proof.
  intros Hids Ha Hp. destruct (Insert_admissible u (en_now s) id m parts (en_table s) Ha) as (r & Ei & Hr).
  exists r. split; [done|]. unfold enqueue_fresh. rewrite interp_bind. cbn [call interp serve_do enqueue_do].
  unfold draw. rewrite Hids. cbn [head from_option Datatypes.id]. rewrite interp_bind. unfold uploadAll.
  rewrite upload_loop_served by (done || lia). cbn [app]. rewrite interp_bind.
  set (mr := MkReader [] None). set (s2 := set_objects _ _).
  assert (interp (serve_do errorText (enqueue_do bucket))
    match cm_TimeoutSeconds m with
    | Some n => if 0 <? n then now ← call EnqueueNow; mret (Some (now + int64 (n * Second))) else mret None
    | None => mret None
    end (mr, s2) = (request_deadline (en_now s) m, (mr, s2))) as ->.
  { unfold request_deadline. destruct (cm_TimeoutSeconds m) as [n|]; [|done]. by destruct (0 <? n). }
  rewrite interp_bind. cbn [call interp serve_do enqueue_do].
  change (en_now s2) with (en_now s). change (en_table s2) with (en_table s). unfold draw.
  change (en_ids s2) with (tail (en_ids s)). rewrite Hids. cbn [tail head from_option Datatypes.id].
  unfold correlationFromCtx. change (MkRepoInsertParams _ _ _ _ _ _ _ _ _ _)
    with (posted_params id (en_now s) m parts). rewrite Ei. cbn [interp mret prog_MRet].
  assert (msg_ID (domain_of r) = u) as -> by (rewrite Hr; done).
  unfold after_post, s2, set_table, set_objects. cbn. by rewrite Hids.
Qed.

Lemma Enqueue_served m parts id u ids s :
  en_ids s = id :: u :: ids → validate senderPhone m = None → admissible u m (en_table s) →
  Forall (λ p, mp_FormName p = "attachments" ∧ part_name (part_of p) ≠ "") parts →
  ∃ r, repo_Insert u (en_now s) (posted_params id (en_now s) m parts) (en_table s)
         = (Ok (domain_of r), en_table s ++ [r]) ∧
    interp (serve_do errorText (enqueue_do bucket))
      (Enqueue uuidString senderPhone (S (length parts)) m true) (MkReader parts None, s)
    = (Some (Ok (MkEnqueueResult u false)), (MkReader [] None, after_post id u ids m parts r s)).
Proof.
  intros Hids Hv Ha Hp. destruct (enqueue_fresh_served m parts id u ids s Hids Ha Hp) as (r & Ei & Er).
  exists r. split; [done|]. unfold Enqueue. rewrite Hv.
  destruct (cm_IdempotencyKey m) as [k|] eqn:Hk; [|done]. destruct (negb _); [|done].
  rewrite interp_bind. cbn [call interp serve_do enqueue_do].
  by rewrite (fresh_key_not_found m) by (done || by eapply admissible_fresh_key).
Qed.
End posted.

(** The request is answered with the id of its row. *)
Lemma ServeHTTP_accepts `{ConjureRuntime} errorText uuidString decode bucket senderPhone ct meta m parts id u ids s :
  mp_FormName meta = "metadata" → decode (mp_Body meta) = Ok m →
  en_ids s = id :: u :: ids → validate senderPhone (toCreateMessage m) = None →
  admissible u (toCreateMessage m) (en_table s) →
  Forall (λ p, mp_FormName p = "attachments" ∧ part_name (part_of p) ≠ "") parts →
  ∃ r, repo_Insert u (en_now s) (posted_params bucket senderPhone uuidString id (en_now s) (toCreateMessage m) parts)
         (en_table s) = (Ok (domain_of r), en_table s ++ [r]) ∧
    ServeHTTP errorText uuidString decode (enqueue_do bucket) senderPhone
      (MkRequest "POST" ct (Ok (MkReader (meta :: parts) None))) s
    = (Accepted u, after_post bucket uuidString id u ids (toCreateMessage m) parts r s).
Proof.
  intros Hm Hd Hids Hv Ha Hp.
  destruct (Enqueue_served bucket senderPhone uuidString errorText (toCreateMessage m) parts id u ids s)
    as (r & Ei & Er); [done..|]. exists r. split; [done|].
  unfold ServeHTTP. cbn [rq_Method rq_Reader]. rewrite bool_decide_eq_true_2 by done. cbn [negb].
  unfold splitMetadata, reader_NextPart. cbn [mr_parts mr_error]. rewrite (bool_decide_eq_true_2 _ Hm), Hd.
  cbn [negb mr_parts]. by rewrite Er.
Qed.

(** ** Facts: what comes back *)

Section info.
Context `{WireTypes} (bucket senderPhone : string).

(** A message as the API shows it after it was posted. *)
Definition posted_info (id u : uuid) (now : time) (m : CreateSignalMessageRequest) (parts : list mpart)
    : SignalMessageInfo :=
  MkSignalMessageInfo u (cr_ExternalId m) (cr_IdempotencyKey m) (cr_Recipient m) (cr_GroupId m)
    senderPhone (cr_Content m)
    ((λ p, MkConjureAttachment bucket (part_key uuid_text id (part_of p))
             (if bool_decide (mp_ContentType p = "") then None else Some (mp_ContentType p)) None) <$> parts)
    0 (request_attempts (toCreateMessage m)) now (stored_deadline now (toCreateMessage m)) "PENDING"
    None None None (uuid_text id) now now.

Lemma deadline_kept now m :
  0 ≤ now → pgToTimePtr (tz_scan (tz_param (tsTz (request_deadline now m)))) = stored_deadline now m.
Proof.
  intros Hn. unfold stored_deadline, request_deadline. destruct (cm_TimeoutSeconds m) as [n|]; [|done].
  destruct (0 <? n); [|done]. unfold tsTz.
  assert (IsZero (now + int64 (n * Second)) = false) as ->; [|done].
  unfold IsZero, zeroTime. pose proof (int64_range (n * Second)) as [? _]. apply Z.eqb_neq. lia.
Qed.

Lemma posted_row_info now id u m parts t r :
  0 ≤ now → admissible u (toCreateMessage m) t →
  repo_Insert u now (posted_params bucket senderPhone uuid_text id now (toCreateMessage m) parts) t
    = (Ok (domain_of r), t ++ [r]) →
  deleted_at r = None ∧ id_of r = u ∧
  domainToConjure NewSafeLong (domain_of r) = posted_info id u now m parts.
Proof.
  intros Hn Ha E. destruct (Insert_admissible bucket senderPhone uuid_text u now id (toCreateMessage m) parts t Ha)
    as (r' & E' & Hr). rewrite E in E'. apply (f_equal snd), (inj (app t)) in E'. injection E' as <-. subst r.
  split; [done|]. split; [done|]. unfold domainToConjure, posted_info. cbn -[tsTz tz_scan tz_param pgToTimePtr].
  rewrite deadline_kept by done. f_equal. unfold toConjureAttachments. rewrite <- list_fmap_compose.
  apply list_fmap_ext. intros i p _. by destruct p.
Qed.
End info.

(** *** The formats can carry it *)

Lemma all_chars_app p a b : all_chars p (a +:+ b) = all_chars p a && all_chars p b.
Proof. induction a as [|c a IH]; [done|]. rewrite append_cons. cbn [all_chars]. by rewrite IH, andb_assoc. Qed.

Lemma clean_all_ascii s : clean_name s → all_chars is_ascii s = true.
Proof.
  unfold clean_name. induction s as [|c s IH]; [done|]. cbn [String.list_ascii_of_string all_chars].
  intros [Hc Hs]%Forall_cons. apply filename_char_ascii in Hc as [? _]. unfold is_ascii.
  rewrite (proj2 (Z.ltb_lt _ _)) by lia. by apply IH.
Qed.

Lemma sanitized_clean raw : clean_name (sanitizeFilename raw).
Proof.
  unfold sanitizeFilename. destruct (bool_decide (Base raw = "" ∨ _)); [constructor|].
  destruct (bool_decide _ || _); [constructor|apply ReplaceAll_clean].
Qed.

Lemma part_key_valid `{WireTypes} id p : ValidString (part_key uuid_text id p) = true.
Proof.
  apply ascii_valid. unfold part_key. rewrite !all_chars_app. apply andb_true_iff. split.
  - eapply all_chars_impl; [|apply uuid_text_chars]. intros c. by destruct c as [[] [] [] [] [] [] [] []].
  - apply andb_true_iff. split; [done|]. apply clean_all_ascii, sanitized_clean.
Qed.

(** What a client may post: a valid request whose parts are attachments with
    usable names. *)
Definition good_part (p : mpart) : Prop :=
  mp_FormName p = "attachments" ∧ part_name (part_of p) ≠ "" ∧ ValidString (mp_ContentType p) = true.

Lemma posted_info_ok `{WireTypes} bucket senderPhone id u now m parts :
  (u < 2 ^ 128)%N → ValidString bucket = true → ValidString senderPhone = true → create_ok m →
  Forall good_part parts → rfc3339 now →
  (∀ t, stored_deadline now (toCreateMessage m) = Some t → rfc3339 t) →
  info_ok (posted_info bucket senderPhone id u now m parts).
Proof.
  intros Hu Hb Hp (He & Hc & Ho & _ & Hm) Hparts Hn Ht. unfold info_ok, posted_info. cbn -[valid_opt].
  decompose_Forall_hyps. split_and!; try done.
  - members; try done. apply uuid_text_valid.
  - members; done.
  - apply Forall_fmap. eapply Forall_impl; [exact Hparts|]. intros p (_ & _ & Hv).
    unfold Attachment_ok. cbn. split_and!; [done|apply part_key_valid| |done]. case_bool_decide; [done|]. by intros x [= <-].
  - unfold request_attempts. cbn. unfold in_int64.
    destruct (cr_MaxAttempts m) as [n|]; [|lia]. destruct (0 <? n); [|lia].
    pose proof (int32_range n). unfold in_int32 in *. lia.
Qed.

(** Parts with different names are found under their own keys. *)
Lemma parts_stored bucket uuidString id parts o p :
  NoDup (part_name ∘ part_of <$> parts) → p ∈ parts →
  foldl (put_part bucket uuidString id) o (part_of <$> parts) !! (bucket, part_key uuidString id (part_of p))
  = Some (mp_Body p).
Proof.
  intros Hnd Hp.
  destruct (put_parts_lookup bucket uuidString id (part_of <$> parts) (part_of p) o)
    as (pre & q & post & E & Hq & _ & ->); [by apply list_elem_of_fmap_2|].
  change (mp_Body p) with (part_Body (part_of p)). do 2 f_equal.
  assert (q ∈ part_of <$> parts) as (p' & -> & Hp')%list_elem_of_fmap by (rewrite E; set_solver).
  f_equal. by apply (NoDup_fmap_inj (part_name ∘ part_of) parts).
Qed.

(** ** Properties *)

(** C6: a posted message can be read back.  A POST with a metadata part that
    holds the JSON of the generated type, its members in any order, and any number
    of attachment parts reaches the raw handler although a listing shares its
    path, and is accepted with the id of a new row; the generated client, asked for that id, gets exactly what was
    posted: targets, content, key, attempts, deadline in whole microseconds, one
    attachment per part, PENDING with no attempt made, and only the quoted id is
    missing.  Parts with
    different sanitized names are stored under their attachment's key. *)
Theorem posted_message_is_read_back `{WireTypes} `{HttpExchange} `{Router} errorText bucket senderPhone
    read_multipart h rt registry m body v parts ct fn mct id u ids req s :
  let sv := service_on_table (handler_service h) in
  let post := NewMultipartHandler errorText bucket senderPhone read_multipart in
  init = Some registry → InitFunc NewRouter = Ok rt →
  hq_Method req = "POST" → hq_Path req = MultipartPath →
  read_multipart req = MkRequest "POST" ct (Ok (MkReader
    (MkMpart "metadata" fn mct body :: parts) None)) →
  safejson_Unmarshal body = Some v → json_same (CreateRequest_json m) v →
  create_ok m → validate senderPhone (toCreateMessage m) = None → Forall good_part parts →
  ValidString bucket = true → ValidString senderPhone = true →
  table_wf (en_table s) → en_ids s = id :: u :: ids → (u < 2 ^ 128)%N →
  admissible u (toCreateMessage m) (en_table s) →
  0 ≤ en_now s → rfc3339 (en_now s) →
  (∀ t, stored_deadline (en_now s) (toCreateMessage m) = Some t → rfc3339 t) →
  ∃ s', serve sv post rt req s = (Ok (safejson_Marshal (Accepted_json (MkAccepted u))), s') ∧
    remote sv post rt registry (CGetSignalMessage u) s'
      = (Ok (posted_info bucket senderPhone id u (en_now s) m parts), s') ∧
    (NoDup (part_name ∘ part_of <$> parts) →
     ∀ p, p ∈ parts → en_objects s' !! (bucket, part_key uuid_text id (part_of p)) = Some (mp_Body p)).
Proof.
  intros sv post Hi Hr Hmeth Hpath Hreq Hbody Hsame Hm Hv Hparts Hb Hphone W Hids Hu Ha Hn Hnow Hdl.
  assert (decode_metadata body = Ok m) as Hd.
  { unfold decode_metadata, decode_body. rewrite Hbody.
    destruct (readable_CreateRequest m) as [Ho _].
    by rewrite (Ho _ _ _ Hsame (decode_CreateRequest m Hm)). }
  destruct (ServeHTTP_accepts errorText uuid_text decode_metadata bucket senderPhone ct
    (MkMpart "metadata" fn mct body) m parts id u ids s)
    as (r & Ei & Er); [done..|eapply Forall_impl; [exact Hparts|]; by intros p (? & ? & _)|].
  destruct (posted_row_info bucket senderPhone (en_now s) id u m parts (en_table s) r Hn Ha Ei)
    as (Hdel & Hid & Hinfo).
  set (s' := after_post bucket uuid_text id u ids (toCreateMessage m) parts r s) in *. exists s'. split_and!.
  - unfold serve. rewrite Hmeth, Hpath, dispatch_upload by (by apply InitFunc_routes).
    cbn [handle_target]. unfold post, NewMultipartHandler. by rewrite Hreq, Er.
  - assert (local sv (CGetSignalMessage u) s' =
      (Ok (posted_info bucket senderPhone id u (en_now s) m parts), s')) as Hl.
    { cbn [local sv service_on_table sv_GetSignalMessage handler_service]. unfold on_table.
      cbn [sv_GetSignalMessage]. unfold GetSignalMessage. subst u. change (en_table s') with (en_table s ++ [r]).
      destruct (lookups_of_row (en_table s ++ [r]) r) as (-> & _);
        [by eapply repo_Insert_wf|apply elem_of_app; right; by left|done|].
      by rewrite Hinfo. }
    destruct (remote_seen sv post rt registry Hi Hr (CGetSignalMessage u) s') as [S1 S2]; [done| |].
    + intros a E. rewrite Hl in E. injection E as <-. by apply posted_info_ok.
    + rewrite Hl in S1, S2. destruct (remote _ _ _ _ _ s') as [x y]. cbn in S1, S2. by subst.
  - intros Hnd p Hp. by apply parts_stored.
Qed.

#[local] Existing Instances demo_wire demo_router demo_safejson demo_contract demo_decoder demo_exchange.

Definition demo_parts : list mpart :=
  [MkMpart "attachments" "dir/photo 1.jpg" "image/jpeg" "AAA"; MkMpart "attachments" "note.txt" "" "BBB"].
Definition demo_create : CreateSignalMessageRequest :=
  MkCreateRequest "ext-1" (Some "key-1") (Some "+380111111111") None None "hi" None (Some 60) (Some 3).
Definition demo_post : http_request := MkHttpRequest "POST" MultipartPath "" "".
Definition demo_multipart (_ : http_request) : request :=
  MkRequest "POST" "multipart/form-data" (Ok (MkReader
    (MkMpart "metadata" "" "" (safejson_Marshal (reversed (CreateRequest_json demo_create))) :: demo_parts) None)).
Definition demo_env : handler_env :=
  MkHandlerEnv "signalium" "+380000000000" 0 (λ _ _, true) (λ _, "") (λ t, t) (Ok []).

Lemma posted_message_is_read_back_witness :
  ∃ registry rt s', init = Some registry ∧ InitFunc NewRouter = Ok rt ∧
    let sv := service_on_table (handler_service demo_env) in
    let post := NewMultipartHandler (λ _, "") "b" "+380000000000" demo_multipart in
    serve sv post rt demo_post fresh_state = (Ok (safejson_Marshal (Accepted_json (MkAccepted 6%N))), s') ∧
    remote sv post rt registry (CGetSignalMessage 6%N) s'
      = (Ok (posted_info "b" "+380000000000" 5%N 6%N 100 demo_create demo_parts), s').
Proof.
  destruct init_registers as (d & Ed & _). destruct InitFunc_registers as (rt & Er & _).
  destruct (posted_message_is_read_back (λ _, "") "b" "+380000000000" demo_multipart demo_env rt d demo_create
    (safejson_Marshal (reversed (CreateRequest_json demo_create))) (reversed (CreateRequest_json demo_create))
    demo_parts "multipart/form-data" "" "" 5%N 6%N [] demo_post fresh_state Ed Er) as (s' & H1 & H2 & _);
    try reflexivity.
  - apply reversed_same.
  - unfold create_ok. split_and!; try reflexivity.
    + members; try done; by intros x [= <-].
    + intros z [= <-]. by vm_compute.
    + intros z [= <-]. by vm_compute.
  - unfold demo_parts. members; (split; [reflexivity|]); (split; [by vm_compute|reflexivity]).
  - apply table_wf_nil.
  - split; [done|]. constructor.
  - done.
  - by vm_compute.
  - intros t [= <-]. by vm_compute.
  - exists d, rt, s'. by split_and!.
Defined.
