(* ===== verification/Lifecycle.v ===== *)
(** Start and stop of the background loops: [RegisterLifecycle] and [Run] of
    [internal/worker/worker.go], [Start] and [Stop] of the timeout reaper, of the
    cleanup sweeper and of the inbound listener.

    Each component launches goroutines that loop until their context is
    cancelled; [Stop] cancels it and waits for them, up to the deadline of its own
    context.  The goroutines, the one that waits on the group and the caller of
    [Stop] interleave. *)

From S2P Require Import Prelude Errors Domain Config.

Inductive component := Worker_ | Reaper_ | Cleanup_ | Inbound_.

#[global] Instance component_eq_dec : EqDecision component.
Proof. solve_decision. Defined.

(** The caller of [Stop]. *)
Inductive stopping :=
| NotStopping
| Waiting                               (* in the select *)
| Returned (err : option error).

Record lifecycle := MkLifecycle {
  lc_started : bool;                    (* OnStart ran *)
  lc_cancel : bool;                     (* stopCancel is set *)
  lc_ctxDone : bool;                    (* the loops' context is cancelled *)
  lc_live : nat;                        (* goroutines in their loop *)
  lc_closer : bool;                     (* a goroutine that closes done once no loop is left *)
  lc_done : bool;                       (* the done channel is closed *)
  lc_stop : stopping;
}.

Definition idle : lifecycle := MkLifecycle false false false 0 false false NotStopping.

(** What the configuration gives a component: whether it is enabled, and the
    concurrency of the worker. *)
Record loop_config := MkLoopConfig { lo_enabled : bool; lo_concurrency : Z }.

(** The loops that [Run] keeps: one inline, or [Concurrency] of them. *)
Definition worker_loops (n : Z) : nat := if n <=? 1 then 1 else Z.to_nat n.

Section steps.
Context (c : component) (cfg : loop_config).

(** *** Start *)

(** A loop is launched under a fresh context. *)
Definition launch (n : nat) (closer : bool) (s : lifecycle) : lifecycle :=
  MkLifecycle true true (lc_ctxDone s) n closer (lc_done s) (lc_stop s).
Definition not_launched (s : lifecycle) : lifecycle :=
  MkLifecycle true (lc_cancel s) (lc_ctxDone s) (lc_live s) (lc_closer s) (lc_done s) (lc_stop s).

(** [go w.Run(ctx)], which closes done when its loops have returned. *)
Definition worker_OnStart (s : lifecycle) : lifecycle :=
  launch (worker_loops (lo_concurrency cfg)) true s.
Definition timeoutReaper_Start (s : lifecycle) : lifecycle :=
  if negb (lo_enabled cfg) then not_launched s else launch 1 (lc_closer s) s.
Definition sweeper_Start (s : lifecycle) : lifecycle :=
  if negb (lo_enabled cfg) then not_launched s else launch 1 (lc_closer s) s.
Definition inbound_Start (s : lifecycle) : lifecycle :=
  if negb (lo_enabled cfg) then not_launched s else launch 1 (lc_closer s) s.

Definition lc_Start (s : lifecycle) : lifecycle :=
  match c with
  | Worker_ => worker_OnStart s
  | Reaper_ => timeoutReaper_Start s
  | Cleanup_ => sweeper_Start s
  | Inbound_ => inbound_Start s
  end.

(** *** Stop, up to its select *)

Definition return_nil (s : lifecycle) : lifecycle :=
  MkLifecycle (lc_started s) (lc_cancel s) (lc_ctxDone s) (lc_live s) (lc_closer s) (lc_done s) (Returned None).

(** The loops' context is cancelled if there is one, and the caller waits on done,
    which [closer] closes. *)
Definition cancel_and_wait (closer : bool) (s : lifecycle) : lifecycle :=
  MkLifecycle (lc_started s) (lc_cancel s) (lc_ctxDone s || lc_cancel s) (lc_live s) closer (lc_done s) Waiting.

Definition worker_OnStop (s : lifecycle) : lifecycle := cancel_and_wait (lc_closer s) s.

(** The others launch the goroutine that waits on the group and closes done. *)
Definition timeoutReaper_Stop (s : lifecycle) : lifecycle :=
  if negb (lc_cancel s) then return_nil s else cancel_and_wait true s.
Definition sweeper_Stop (s : lifecycle) : lifecycle :=
  if negb (lc_cancel s) then return_nil s else cancel_and_wait true s.
Definition inbound_Stop (s : lifecycle) : lifecycle :=
  if negb (lo_enabled cfg) then return_nil s else cancel_and_wait true s.

Definition lc_Stop (s : lifecycle) : lifecycle :=
  match c with
  | Worker_ => worker_OnStop s
  | Reaper_ => timeoutReaper_Stop s
  | Cleanup_ => sweeper_Stop s
  | Inbound_ => inbound_Stop s
  end.

Definition drain_timeout : error :=
  Wrap DeadlineExceeded
    (match c with
     | Worker_ => "worker stop: drain timeout"
     | Reaper_ => "timeout reaper stop: drain timeout"
     | Cleanup_ => "cleanup stop: drain timeout"
     | Inbound_ => "inbound listener stop: drain timeout"
     end).

Inductive laction :=
| LStart                                (* OnStart *)
| LWork                                 (* a loop takes its work case *)
| LExit                                 (* a loop takes its ctx.Done case and returns *)
| LStop                                 (* Stop is called *)
| LClose                                (* the group is empty: close(done) *)
| LDrained                              (* Stop's select takes done *)
| LTimeout.                             (* Stop's select takes its own ctx.Done *)

(** One step; [None] when it cannot be taken.  Start runs once, before Stop. *)
Definition lstep (a : laction) (s : lifecycle) : option lifecycle :=
  match a with
  | LStart =>
      if lc_started s then None
      else match lc_stop s with NotStopping => Some (lc_Start s) | _ => None end
  | LWork => match lc_live s with O => None | S _ => Some s end
  | LExit =>
      match lc_live s with
      | S n => if lc_ctxDone s
               then Some (MkLifecycle (lc_started s) (lc_cancel s) true n (lc_closer s) (lc_done s) (lc_stop s))
               else None
      | O => None
      end
  | LStop => match lc_stop s with NotStopping => Some (lc_Stop s) | _ => None end
  | LClose =>
      if lc_closer s && (lc_live s =? 0)%nat
      then Some (MkLifecycle (lc_started s) (lc_cancel s) (lc_ctxDone s) 0 false true (lc_stop s))
      else None
  | LDrained =>
      match lc_stop s with
      | Waiting => if lc_done s
                   then Some (MkLifecycle (lc_started s) (lc_cancel s) (lc_ctxDone s) (lc_live s)
                                (lc_closer s) true (Returned None))
                   else None
      | _ => None
      end
  | LTimeout =>
      match lc_stop s with
      | Waiting => Some (MkLifecycle (lc_started s) (lc_cancel s) (lc_ctxDone s) (lc_live s)
                           (lc_closer s) (lc_done s) (Returned (Some drain_timeout)))
      | _ => None
      end
  end.

Inductive lreachable : lifecycle → Prop :=
| lreach_idle : lreachable idle
| lreach_step a s s' : lreachable s → lstep a s = Some s' → lreachable s'.

Fixpoint lperform (acts : list laction) (s : lifecycle) : option lifecycle :=
  match acts with
  | [] => Some s
  | a :: l => match lstep a s with Some s' => lperform l s' | None => None end
  end.

(** ** The invariant *)

(** Loops run under a context that Stop cancels; done is closed by the one closer
    there is, after the last loop; a Stop that waits has somebody to wait for,
    unless the worker was never started. *)
Record linv (s : lifecycle) : Prop := {
  li_live : (0 < lc_live s)%nat → lc_cancel s = true ∧ lc_started s = true ∧ lc_done s = false;
  li_done : lc_done s = true → lc_live s = 0%nat ∧ lc_closer s = false;
  li_nil : lc_stop s = Returned None → lc_live s = 0%nat;
  li_cancelled : lc_stop s = Waiting → lc_cancel s = true → lc_ctxDone s = true;
  li_closer : lc_stop s = Waiting → (c = Worker_ → lc_started s = true) →
              lc_closer s = true ∨ lc_done s = true;
  li_worker : c = Worker_ → lc_started s = true → lc_closer s = true ∨ lc_done s = true;
  li_fresh : lc_started s = false → lc_live s = 0%nat ∧ lc_cancel s = false;
  li_unclosed : c ≠ Worker_ ∨ lc_started s = false → lc_stop s = NotStopping →
                lc_done s = false ∧ lc_closer s = false;
  li_enabled : lc_live s = 0%nat ∨ c = Worker_ ∨ lo_enabled cfg = true;
}.

Lemma linv_idle : linv idle.
Proof. split; simpl; try done; try lia; auto. Qed.

Lemma linv_start s :
  linv s → lc_started s = false → lc_stop s = NotStopping → linv (lc_Start s).
Proof.
  intros I Hs Hn. pose proof (li_unclosed _ I (or_intror Hs) Hn) as [Hd Hcl]. destruct (li_fresh _ I Hs) as [Hl Hc].
  unfold lc_Start, worker_OnStart, timeoutReaper_Start, sweeper_Start, inbound_Start, launch, not_launched.
  destruct c eqn:Ec; [|destruct (lo_enabled cfg) eqn:He..]; cbn [negb]; split; simpl; rewrite ?Hn, ?Hl, ?Hd, ?Hcl in *; try done; auto;
    try lia; try congruence; try (intros; split_and!; done);
    try (intros [?|?] _; [split; congruence|done]).
Qed.

Lemma linv_stop s : linv s → lc_stop s = NotStopping → linv (lc_Stop s).
Proof.
  intros I Hn. pose proof (li_live _ I) as HL. pose proof (li_done _ I) as HD.
  pose proof (li_fresh _ I) as HF. pose proof (li_worker _ I) as HW. pose proof (li_enabled _ I) as HE.
  unfold lc_Stop, worker_OnStop, timeoutReaper_Stop, sweeper_Stop, inbound_Stop, cancel_and_wait, return_nil.
  destruct (decide (c = Worker_)) as [Ew|Ew].
  - rewrite Ew. split; simpl; try done; auto. intros _ ->. apply orb_true_r.
  - pose proof (li_unclosed _ I (or_introl Ew) Hn) as [Hu Hcl].
    assert (linv (MkLifecycle (lc_started s) (lc_cancel s) (lc_ctxDone s || lc_cancel s) (lc_live s) true
                    (lc_done s) Waiting)) as Hwait.
    { split; simpl; rewrite ?Hu; try done; auto; try tauto. intros _ ->. apply orb_true_r. }
    assert (lc_live s = 0%nat → linv (MkLifecycle (lc_started s) (lc_cancel s) (lc_ctxDone s) (lc_live s)
              (lc_closer s) (lc_done s) (Returned None))) as Hret by (intros; split; simpl; try done; auto).
    destruct c; [done| | |].
    1,2: destruct (lc_cancel s) eqn:Hc; [done|]; apply Hret; destruct (lc_live s); [done|];
         destruct HL; [lia|congruence].
    destruct (lo_enabled cfg); [done|]. apply Hret. naive_solver.
Qed.

(** Every step keeps it. *)
Lemma linv_step a s s' : linv s → lstep a s = Some s' → linv s'.
Proof.
  intros I. pose proof (li_live _ I) as HL. pose proof (li_done _ I) as HD. pose proof (li_nil _ I) as HN.
  pose proof (li_cancelled _ I) as HC. pose proof (li_closer _ I) as HO. pose proof (li_worker _ I) as HW.
  pose proof (li_fresh _ I) as HF. pose proof (li_enabled _ I) as HE. pose proof (li_unclosed _ I) as HU.
  destruct a; cbn [lstep].
  - destruct (lc_started s) eqn:Hs; [done|]. destruct (lc_stop s) eqn:Hn; [|done..].
    intros [= <-]. by apply linv_start.
  - destruct (lc_live s); [done|]. by intros [= <-].
  - destruct (lc_live s) as [|n] eqn:El; [done|]. destruct (lc_ctxDone s) eqn:Hx; [|done]. intros [= <-].
    destruct HL as (Hc & Hst & Hd); [lia|].
    split; simpl; rewrite ?Hst, ?Hd, ?Hc in *; try done; auto.
    + intros E. specialize (HN E). lia.
    + destruct HE as [?|?]; [lia|by right].
  - destruct (lc_stop s) eqn:Hn; [|done..]. intros [= <-]. by apply linv_stop.
  - destruct (lc_closer s) eqn:Hc; [|done]. destruct (lc_live s) eqn:El; [|done]. intros [= <-].
    split; simpl; try done; auto; try lia. intros Ho Hn. by destruct (HU Ho Hn).
  - destruct (lc_stop s) eqn:Hn; [done| |done]. destruct (lc_done s) eqn:Hd; [|done]. intros [= <-].
    destruct (HD eq_refl). split; simpl; try done; auto; try lia.
  - destruct (lc_stop s) eqn:Hn; [done| |done]. intros [= <-]. split; simpl; try done; auto.
Qed.

Lemma lreachable_linv s : lreachable s → linv s.
Proof. induction 1; [apply linv_idle|by eapply linv_step]. Qed.

Lemma lperform_reachable acts s s' : lreachable s → lperform acts s = Some s' → lreachable s'.
Proof.
  revert s. induction acts as [|a acts IH]; intros s R; cbn [lperform]; [by intros [= <-]|].
  destruct (lstep a s) as [s1|] eqn:E; [|done]. apply IH. by eapply lreach_step.
Qed.

Lemma lperform_app a b s :
  lperform (a ++ b) s = match lperform a s with Some s' => lperform b s' | None => None end.
Proof. revert s. induction a as [|x a IH]; intros s; [done|]. cbn [app lperform]. by destruct (lstep x s). Qed.

(** A Stop that has returned stays returned, and nothing starts after it. *)
Lemma returned_stays r acts s s' :
  lc_stop s = Returned r → lperform acts s = Some s' → lc_stop s' = Returned r.
Proof.
  revert s. induction acts as [|a acts IH]; intros s Hr; cbn [lperform]; [by intros [= <-]|].
  destruct (lstep a s) as [s1|] eqn:E; [|done]. apply IH. destruct a; cbn [lstep] in E; rewrite ?Hr in E;
    repeat case_match; simplify_eq; done.
Qed.

(** Once the context is cancelled the loops can leave one after the other. *)
Lemma exits n s :
  lc_live s = n → lc_ctxDone s = true →
  lperform (replicate n LExit) s
  = Some (MkLifecycle (lc_started s) (lc_cancel s) true 0 (lc_closer s) (lc_done s) (lc_stop s)).
Proof.
  revert s. induction n as [|n IH]; intros s Hl Hx; [destruct s; simpl in *; by subst|].
  cbn [replicate lperform lstep]. rewrite Hl, Hx. by rewrite IH.
Qed.

(** A waiting Stop can return nil. *)
Lemma drains s :
  linv s → lc_stop s = Waiting → (c = Worker_ → lc_started s = true) →
  ∃ acts s', lperform acts s = Some s' ∧ lc_stop s' = Returned None ∧
    (length acts ≤ lc_live s + 2)%nat ∧ Forall (λ a, a = LExit ∨ a = LClose ∨ a = LDrained) acts.
Proof.
  intros I Hw Hc. destruct (lc_done s) eqn:Hd.
  - exists [LDrained]. cbn [lperform lstep]. rewrite Hw, Hd. eexists. split_and!; [done|done|simpl; lia|].
    apply Forall_singleton. auto.
  - destruct (li_closer _ I Hw Hc) as [Hcl|]; [|congruence].
    set (s1 := MkLifecycle (lc_started s) (lc_cancel s) (lc_ctxDone s) 0 (lc_closer s) (lc_done s) (lc_stop s)).
    assert (lperform (replicate (lc_live s) LExit) s = Some s1) as E1.
    { destruct (lc_live s) as [|n] eqn:El; [destruct s; simpl in *; by subst|].
      destruct (li_live _ I) as (Hcan & _); [lia|].
      pose proof (li_cancelled _ I Hw Hcan) as Hx. subst s1. rewrite exits by done. by rewrite Hx. }
    eexists (replicate (lc_live s) LExit ++ [LClose; LDrained]), _. rewrite lperform_app, E1.
    cbn [lperform lstep s1 lc_closer lc_live lc_stop lc_done]. rewrite Hcl, Hw. cbn.
    split_and!; [done|done|rewrite length_app, length_replicate; simpl; lia|].
    apply Forall_app. split; [by apply Forall_replicate; auto|]. apply Forall_cons_2; [auto|]. apply Forall_singleton. auto.
Qed.
End steps.

(** ** Properties *)

(** C34: stopping a background component waits for its loops.  Whatever the
    interleaving, a Stop that returns nil returns after the last goroutine of the
    component has left its loop, and none runs afterwards; a Stop that waits is
    never stuck: when the loops leave, and they can as their context is
    cancelled, it returns nil; and a disabled component never runs a loop. *)
Theorem stop_waits_for_loops c cfg s :
  lreachable c cfg s →
  (lc_stop s = Returned None →
     ∀ acts s', lperform c cfg acts s = Some s' → lc_live s' = 0%nat) ∧
  (lc_stop s = Waiting → (c = Worker_ → lc_started s = true) →
     ∃ acts s', lperform c cfg acts s = Some s' ∧ lc_stop s' = Returned None ∧
       (length acts ≤ lc_live s + 2)%nat ∧ Forall (λ a, a = LExit ∨ a = LClose ∨ a = LDrained) acts) ∧
  (c ≠ Worker_ → lo_enabled cfg = false → lc_live s = 0%nat).
Proof.
  intros R. pose proof (lreachable_linv _ _ _ R) as I. split_and!.
  - intros Hr acts s' E. apply (li_nil c cfg); [|by eapply returned_stays].
    apply lreachable_linv. by eapply lperform_reachable.
  - by apply drains.
  - intros Hc He. destruct (li_enabled _ _ _ I) as [?|[?|?]]; [done|done|congruence].
Qed.

Lemma stop_waits_for_loops_witness :
  ∃ s, lperform Worker_ (MkLoopConfig true 3) [LStart; LWork; LStop; LWork; LExit] idle = Some s ∧
    lc_stop s = Waiting ∧ lc_live s = 2%nat ∧
    ∃ acts s', lperform Worker_ (MkLoopConfig true 3) acts s = Some s' ∧ lc_stop s' = Returned None.
Proof.
  eexists. split; [reflexivity|]. split; [reflexivity|]. split; [reflexivity|].
  destruct (stop_waits_for_loops Worker_ (MkLoopConfig true 3)
    (MkLifecycle true true true 2 true false Waiting)) as (_ & H & _).
  - apply (lperform_reachable _ _ [LStart; LWork; LStop; LWork; LExit] idle); [constructor|reflexivity].
  - destruct H as (acts & s' & E & Hr & _); [reflexivity|reflexivity|]. by exists acts, s'.
Defined.
