(* ===== verification/ObjectStore.v ===== *)
(** [internal/storage/object_store.go]: the facade over MinIO and the local
    temporary directory.

    The MinIO client and the operating system answer the calls of [StoreE]; the
    bytes that are copied are theirs too. *)

From S2P Require Import Prelude Errors Config GoText Prog Worker.

Inductive StoreE : Type → Type :=
(* minio-go *)
| MakeBucket (bucket region : string) : StoreE (option error)
| PutObject (bucket key : string) (size : Z) (contentType : string) : StoreE (res string)
| RemoveObject (bucket key : string) : StoreE (option error)
| GetObject (bucket key : string) : StoreE (option error)
| CloseObject (bucket key : string) : StoreE (option error)
(* os *)
| MkdirAll (dir : string) : StoreE (option error)
| OpenFile (path : string) : StoreE (option error)
| CopyTo (path : string) : StoreE (option error)
| CloseFile (path : string) : StoreE (option error)
| OsRemove (path : string) : StoreE (option error)
| OsRemoveAll (dir : string) : StoreE (option error)
| StoreLog (msg : string) : StoreE unit.

(** Class of an error of the two libraries, as the code asks for it:
    [errors.As] a [minio.ErrorResponse] with a code or status, [os.IsNotExist]. *)
Section ObjectStore.
Variable minio_response : error → option (string * Z).     (* code, HTTP status *)
Variable IsNotExist : error → bool.
Variable Join : string → string → string.                  (* filepath.Join *)
Variable cfg : MinIOConfig.

Definition isAlreadyOwned (e : error) : bool :=
  match minio_response e with
  | Some (code, status) =>
      if bool_decide (code = "BucketAlreadyOwnedByYou" ∨ code = "BucketAlreadyExists") then true
      else status =? 409
  | None => false
  end.

Definition EnsureBucket : prog StoreE (option error) :=
  r ← call (MakeBucket (minio_Bucket cfg) (minio_Region cfg));
  match r with
  | Some e => if isAlreadyOwned e then mret None else mret (Some (Wrap e "make bucket"))
  | None => mret None
  end.

Definition EnsureLocalTmpDir : prog StoreE (option error) :=
  if bool_decide (minio_LocalTmpDir cfg = "") then mret None
  else
    r ← call (MkdirAll (minio_LocalTmpDir cfg));
    mret (match r with Some e => Some (Wrap e "mkdir tmp") | None => None end).

Definition store_Put (key : string) (size : Z) (contentType : string)
    : prog StoreE (res (string * string)) :=
  r ← call (PutObject (minio_Bucket cfg) key size contentType);
  mret (match r with
        | Err e => Err (Wrap e "minio put object")
        | Ok storedKey => Ok (minio_Bucket cfg, storedKey)
        end).

Definition store_Remove (bucket key : string) : prog StoreE (option error) :=
  r ← call (RemoveObject bucket key);
  mret (match r with Some e => Some (Wrap e "minio remove object") | None => None end).

(** ** Downloads *)

(** The part of [downloadOne] between opening the object and its deferred close. *)
Definition save_object (dir : string) (ref : ObjectRef) : prog StoreE (res string) :=
  let dst := Join dir (Base (ref_Key ref)) in
  o ← call (OpenFile dst);
  match o with
  | Some e => mret (Err (Wrap e "open attachment dst"))
  | None =>
      c ← call (CopyTo dst);
      match c with
      | Some e => _ ← call (CloseFile dst); mret (Err (Wrap e "copy attachment to disk"))
      | None =>
          cl ← call (CloseFile dst);
          match cl with
          | Some e => mret (Err (Wrap e "close attachment dst"))
          | None => mret (Ok dst)
          end
      end
  end.

Definition downloadOne (dir : string) (ref : ObjectRef) : prog StoreE (res string) :=
  g ← call (GetObject (ref_Bucket ref) (ref_Key ref));
  match g with
  | Some e => mret (Err (Wrap e "minio get object"))
  | None =>
      r ← save_object dir ref;
      _ ← call (CloseObject (ref_Bucket ref) (ref_Key ref));
      mret r
  end.

Fixpoint remove_paths (paths : list string) : prog StoreE unit :=
  match paths with
  | [] => mret tt
  | p :: l =>
      r ← call (OsRemove p);
      _ ← match r with
          | Some e => if IsNotExist e then mret tt else call (StoreLog "rollback attachment file failed")
          | None => mret tt
          end;
      remove_paths l
  end.

Definition cleanupBestEffort (dir : string) (paths : list string) : prog StoreE unit :=
  _ ← remove_paths paths;
  r ← call (OsRemove dir);
  match r with
  | Some e => if IsNotExist e then mret tt else call (StoreLog "rollback attachment dir not empty")
  | None => mret tt
  end.

Fixpoint download_loop (dir : string) (refs : list ObjectRef) (paths : list string)
    : prog StoreE (res (list string)) :=
  match refs with
  | [] => mret (Ok paths)
  | ref :: refs' =>
      r ← downloadOne dir ref;
      match r with
      | Err e => _ ← cleanupBestEffort dir paths; mret (Err e)
      | Ok path => download_loop dir refs' (paths ++ [path])
      end
  end.

Definition DownloadAll (messageID : string) (refs : list ObjectRef) : prog StoreE (res (list string)) :=
  match refs with
  | [] => mret (Ok [])
  | _ =>
      let dir := Join (minio_LocalTmpDir cfg) messageID in
      r ← call (MkdirAll dir);
      match r with
      | Some e => mret (Err (Wrap e "mkdir attachments tmp"))
      | None => download_loop dir refs []
      end
  end.

Definition CleanupLocal (messageID : string) : prog StoreE unit :=
  if bool_decide (minio_LocalTmpDir cfg = "") || bool_decide (messageID = "") then mret tt
  else
    r ← call (OsRemoveAll (Join (minio_LocalTmpDir cfg) messageID));
    match r with Some _ => call (StoreLog "cleanup tmp failed") | None => mret tt end.

(** ** Facts *)

(** Files completely written, and removals, along a trace. *)
Definition removed_path (ev : event StoreE) : option string :=
  match ev with @Ev _ X e x => match e with OsRemove p => Some p | _ => None end end.

Definition opened_path (ev : event StoreE) : option string :=
  match ev with
  | @Ev _ X e x =>
      match e in StoreE X return X → option string with
      | OpenFile p => λ r, match r with None => Some p | Some _ => None end
      | _ => λ _, None
      end x
  end.

Definition removals (tr : list (event StoreE)) := omap removed_path tr.
Definition opened (tr : list (event StoreE)) := omap opened_path tr.
Definition unconstrained (X : Type) (e : StoreE X) (x : X) : Prop := True.

Ltac sruns :=
  repeat match goal with
  | H : runs _ (_ ≫= _) _ _ |- _ => apply runs_bind in H as (? & ? & ? & -> & ? & ?)
  | H : runs _ (call _) _ _ |- _ => apply runs_call in H as [-> ?]
  | H : runs _ (mret _) _ _ |- _ => apply runs_ret in H as [-> ->]
  | H : runs _ (match ?y with _ => _ end) _ _ |- _ => destruct y
  | H : runs _ (if ?y then _ else _) _ _ |- _ => destruct y
  end.

Definition dst (dir : string) (ref : ObjectRef) : string := Join dir (Base (ref_Key ref)).

Lemma downloadOne_runs dir ref tr r :
  runs unconstrained (downloadOne dir ref) tr r →
  removals tr = [] ∧
  match r with
  | Ok p => p = dst dir ref ∧ opened tr = [p]
  | Err _ => opened tr = [] ∨ opened tr = [dst dir ref]
  end.
Proof.
  unfold downloadOne, save_object, removals, opened. intros H. sruns; csimpl; auto.
Qed.

Lemma remove_paths_runs paths tr u :
  runs unconstrained (remove_paths paths) tr u → removals tr = paths ∧ opened tr = [].
Proof.
  revert tr. induction paths as [|p l IH]; intros tr H; cbn [remove_paths] in H.
  - by sruns.
  - apply runs_bind in H as (t1 & r & t2 & -> & [-> _]%runs_call & H).
    apply runs_bind in H as (t3 & v & t4 & -> & H1 & [H2 H3]%IH).
    unfold removals, opened in *. sruns; csimpl; by rewrite H2.
Qed.

Lemma cleanup_runs dir paths tr u :
  runs unconstrained (cleanupBestEffort dir paths) tr u →
  removals tr = paths ++ [dir] ∧ opened tr = [].
Proof.
  unfold cleanupBestEffort. intros H.
  apply runs_bind in H as (t1 & r & t2 & -> & [H1 H2]%remove_paths_runs & H).
  unfold removals, opened in *. sruns; rewrite !omap_app; csimpl; by rewrite H1, H2.
Qed.

(** What a download loop leaves behind. *)
Lemma download_loop_runs dir refs paths tr r :
  runs unconstrained (download_loop dir refs paths) tr r →
  match r with
  | Ok ps => ps = paths ++ (dst dir <$> refs) ∧ removals tr = [] ∧ opened tr = dst dir <$> refs
  | Err _ => ∃ done ref rest, refs = done ++ ref :: rest ∧
      removals tr = paths ++ (dst dir <$> done) ++ [dir] ∧
      (opened tr = dst dir <$> done ∨ opened tr = (dst dir <$> done) ++ [dst dir ref])
  end.
Proof.
  revert paths tr. induction refs as [|ref refs IH]; intros paths tr H; cbn [download_loop] in H.
  - apply runs_ret in H as [-> ->]. by rewrite app_nil_r.
  - apply runs_bind in H as (t1 & x & t2 & -> & [H1 H2]%downloadOne_runs & H).
    destruct x as [p|e].
    + destruct H2 as [-> Ho]. apply IH in H. unfold removals, opened in *. rewrite !omap_app, H1, Ho.
      destruct r as [ps|e]; csimpl.
      * destruct H as (-> & -> & ->). by rewrite <- app_assoc.
      * destruct H as (done & ref' & rest & -> & -> & Hop). exists (ref :: done), ref', rest.
        csimpl. rewrite <- !app_assoc. split_and!; [done|done|].
        destruct Hop as [-> | ->]; auto.
    + apply runs_bind in H as (t3 & u & t4 & -> & [H3 H4]%cleanup_runs & [-> ->]%runs_ret).
      exists [], ref, refs. unfold removals, opened in *. rewrite !omap_app, H1, H3, H4. csimpl.
      rewrite !app_nil_r. split_and!; [done|done|by destruct H2 as [-> | ->]; auto].
Qed.
End ObjectStore.

(** ** Properties *)

(** C29: a download that succeeds returns one local path per attachment, in the
    order of the row, and has removed nothing; one that fails has removed every
    file it completed, and then tried the message's directory, so that at most
    the file it failed on stays behind. *)
Theorem DownloadAll_all_or_cleaned IsNotExist Join cfg messageID refs tr r :
  runs unconstrained (DownloadAll IsNotExist Join cfg messageID refs) tr r →
  match r with
  | Ok ps =>
      ps = dst Join (Join (minio_LocalTmpDir cfg) messageID) <$> refs ∧
      removals tr = [] ∧ opened tr = ps
  | Err _ =>
      ∃ done rest, refs = done ++ rest ∧
        let completed := dst Join (Join (minio_LocalTmpDir cfg) messageID) <$> done in
        (opened tr = [] ∧ removals tr = [] ∨
         removals tr = completed ++ [Join (minio_LocalTmpDir cfg) messageID] ∧
         ∃ last, opened tr = completed ++ last ∧ (length last ≤ 1)%nat)
  end.
Proof.
  unfold DownloadAll. destruct refs as [|ref refs]; [by intros [-> ->]%runs_ret|].
  intros (t1 & x & t2 & -> & [-> _]%runs_call & H)%runs_bind. destruct x as [e|].
  { apply runs_ret in H as [-> ->]. exists [], (ref :: refs). split; [done|]. by left. }
  apply download_loop_runs in H. unfold removals, opened in *. csimpl.
  destruct r as [ps|e]; [by destruct H as (-> & -> & ->)|].
  destruct H as (done & bad & rest & -> & -> & Hop). exists done, (bad :: rest). split; [done|].
  right. split; [done|]. destruct Hop as [-> | ->]; [exists []|eexists].
  - rewrite app_nil_r. split; [done|]. simpl. lia.
  - split; [done|]. simpl. lia.
Qed.

Definition demo_minio : MinIOConfig := MkMinIOConfig "" "" "" "" "b" false "/tmp".

Lemma DownloadAll_all_or_cleaned_witness :
  let tr := [Ev (MkdirAll "/tmp/7") None; Ev (GetObject "b" "7/a.txt") None;
             Ev (OpenFile "/tmp/7/a.txt") None; Ev (CopyTo "/tmp/7/a.txt") None;
             Ev (CloseFile "/tmp/7/a.txt") None;
             Ev (CloseObject "b" "7/a.txt") None] in
  removals tr = [] ∧ opened tr = ["/tmp/7/a.txt"].
Proof.
  intros tr. apply (DownloadAll_all_or_cleaned (λ _, false) (λ a b, a +:+ "/" +:+ b) demo_minio "7"
    [MkObjectRef "b" "7/a.txt"] tr (Ok ["/tmp/7/a.txt"])).
  repeat (hnf; eexists _, _; split; [reflexivity|split; [exact I|]]). by split.
Defined.
