(* ===== verification/Migrate.v ===== *)
(** [internal/db/migrate.go]: the migration runner.

    The embedded migration directory is a list of files; what a migration body
    does to the schema is Postgres' business, so the schema and the effect of a
    body are parameters, and so is the hash (base64 of SHA-256).  Every exchange
    with Postgres may fail, and a commit may fail on the wire after the server
    has committed; both are the environment's choice.  The advisory lock makes a
    run exclusive, hence one function on the database. *)

From Stdlib Require Import Ascii.
From S2P Require Import Prelude Errors GoText.

(** ** Text *)

(** The runes of a string with the bytes they were decoded from. *)
Fixpoint segments_fuel (fuel : nat) (s : string) : list (Z * string) :=
  match fuel, s with
  | S f, String c s' =>
      let '(r, rest) := decode1 c s' in
      (r, String.substring 0 (String.length s - String.length rest) s) :: segments_fuel f rest
  | _, _ => []
  end.
Definition segments (s : string) : list (Z * string) := segments_fuel (String.length s) s.

Definition bytes_of (l : list (Z * string)) : string := foldr (λ x acc, x.2 +:+ acc) "" l.

Fixpoint drop_space (l : list (Z * string)) : list (Z * string) :=
  match l with
  | x :: l' => if IsSpace x.1 then drop_space l' else l
  | [] => []
  end.

(** [strings.TrimSpace]. *)
Definition trim_space (l : list (Z * string)) : list (Z * string) :=
  reverse (drop_space (reverse (drop_space l))).

(** Splitting at the runes that satisfy [p]; [n] separators give [n + 1] pieces. *)
Fixpoint split_on (p : Z → bool) (l : list (Z * string)) (cur : list (Z * string))
    : list (list (Z * string)) :=
  match l with
  | [] => [reverse cur]
  | x :: l' => if p x.1 then reverse cur :: split_on p l' [] else split_on p l' (x :: cur)
  end.

(** [strings.Split(s, "\n")] and [strings.Fields]. *)
Definition split_lines (l : list (Z * string)) : list (list (Z * string)) :=
  split_on (λ r, r =? 10) l [].
Definition fields (l : list (Z * string)) : list string :=
  bytes_of <$> filter (λ w, w ≠ []) (split_on IsSpace l []).

(** [strings.TrimPrefix(s, "h1:")]. *)
Definition trim_h1 (s : string) : string :=
  if String.prefix "h1:" s then String.substring 3 (String.length s - 3) s else s.

(** [strings.Cut(name, "_")]: what precedes the first underscore. *)
Fixpoint cut_underscore (s : string) : option string :=
  match s with
  | EmptyString => None
  | String c s' => if Ascii.eqb c "_"%char then Some ""
                   else match cut_underscore s' with Some v => Some (String c v) | None => None end
  end.

(** ** Data *)

Record migrationFile := MkMigrationFile {
  mf_filename : string;
  mf_version : string;
  mf_body : string;
  mf_expected : string;
}.

(** A row of [signalium.schema_migrations]. *)
Record revision := MkRevision { rev_version : string; rev_filename : string; rev_hash : string }.

Section Migrate.
Variable Schema : Type.
Variable exec_body : string → Schema → option Schema.   (* None: the script fails *)
Variable snapshot : string → string.                    (* base64(sha256(bytes)) *)

(** The exchanges with Postgres that may fail on their own. *)
Inductive db_call :=
| PoolAcquire | AdvisoryLock | EnsureTable | ListApplied
| BeginTx (version : string) | ExecBody (version : string) | RecordApplied (version : string)
| CommitTx (version : string).
Variable down : db_call → option error.
Variable commit_lost : string → bool.   (* the commit took effect, its answer was lost *)

(** [db_table] is [None] before [signalium.schema_migrations] exists. *)
Record database := MkDatabase { db_table : option (list revision); db_schema : Schema }.
Definition db_revisions (db : database) : list revision := default [] (db_table db).

(** [CREATE TABLE IF NOT EXISTS]. *)
Definition ensureRevisionTable (db : database) : option error * database :=
  match down EnsureTable with
  | Some e => (Some (Wrap e "ensure schema_migrations table"), db)
  | None => (None, MkDatabase (Some (db_revisions db)) (db_schema db))
  end.

(** ** The runner *)

Fixpoint parse_lines (ls : list (list (Z * string))) (acc : gmap string string)
    : res (gmap string string) :=
  match ls with
  | [] => Ok acc
  | l :: ls' =>
      match fields l with
      | [name; h] => parse_lines ls' (<[name := trim_h1 h]> acc)
      | _ => Err (ErrMsg "malformed atlas.sum line")
      end
  end.

(** [readAtlasSum]; [None] when the embedded file cannot be read. *)
Definition readAtlasSum (raw : option string) : res (gmap string string) :=
  match raw with
  | None => Err (Wrap (ErrMsg "file does not exist") "read atlas.sum")
  | Some s => parse_lines (tail (split_lines (trim_space (segments s)))) ∅
  end.

(** [hashFile]: what the hasher has been fed afterwards, and its text. *)
Definition hashFile (fed name body : string) : string * string :=
  let fed' := fed +:+ name +:+ body in (fed', snapshot fed').

(** The loop of [pendingMigrations] over the sorted files; [running] is what the
    hasher has been fed so far. *)
Fixpoint check_files (sums : gmap string string) (applied : list string) (running : string)
    (files : list (string * string)) : res (list migrationFile) :=
  match files with
  | [] => Ok []
  | (name, body) :: files' =>
      match cut_underscore name with
      | None => Err (ErrMsg "migration filename missing version prefix")
      | Some version =>
          match sums !! name with
          | None => Err (ErrMsg "migration not present in atlas.sum (run `make migrate-hash`)")
          | Some want =>
              let '(running', got) := hashFile running name body in
              if negb (bool_decide (got = want))
              then Err (ErrMsg "migration content hash mismatch (atlas.sum stale)")
              else match check_files sums applied running' files' with
                   | Err e => Err e
                   | Ok rest => if bool_decide (version ∈ applied) then Ok rest
                                else Ok (MkMigrationFile name version body want :: rest)
                   end
          end
      end
  end.

Definition by_name (a b : string * string) : Prop := String.le a.1 b.1.

#[local] Instance by_name_dec : RelDecision by_name.
Proof using Type. intros a b. unfold by_name. apply _. Defined.

Definition pendingMigrations (db : database) (entries : list (string * string))
    (sums : gmap string string) : res (list migrationFile) :=
  match down ListApplied with
  | Some e => Err (Wrap e "list applied migrations")
  | None => check_files sums (rev_version <$> db_revisions db) "" (merge_sort by_name entries)
  end.

Definition revision_of (m : migrationFile) : revision :=
  MkRevision (mf_version m) (mf_filename m) (mf_expected m).

(** What the transaction of [applyOne] commits: the body's effect and the record. *)
Definition record_migration (m : migrationFile) (s' : Schema) (db : database) : database :=
  MkDatabase (Some (db_revisions db ++ [revision_of m])) s'.

(** [applyOne]: body and record in one transaction, rolled back on failure. *)
Definition applyOne (m : migrationFile) (db : database) : option error * database :=
  match down (BeginTx (mf_version m)) with
  | Some e => (Some (Wrap e "begin migration tx"), db)
  | None =>
      match down (ExecBody (mf_version m)), exec_body (mf_body m) (db_schema db) with
      | Some e, _ => (Some (Wrap e "exec migration body"), db)
      | None, None => (Some (Wrap (ErrMsg "SQL") "exec migration body"), db)
      | None, Some s' =>
          match down (RecordApplied (mf_version m)) with
          | Some e => (Some (Wrap e "record applied migration"), db)
          | None =>
              if bool_decide (mf_version m ∈ rev_version <$> db_revisions db)
              then (Some (Wrap (ErrPg (UniqueViolation "schema_migrations_pkey"))
                            "record applied migration"), db)
              else match down (CommitTx (mf_version m)) with
                   | Some e => (Some (Wrap e "commit migration tx"),
                                if commit_lost (mf_version m) then record_migration m s' db else db)
                   | None => (None, record_migration m s' db)
                   end
          end
      end
  end.

Fixpoint apply_all (ms : list migrationFile) (db : database) : option error * database :=
  match ms with
  | [] => (None, db)
  | m :: ms' =>
      match applyOne m db with
      | (Some e, db') => (Some (Wrap e "apply migration"), db')
      | (None, db') => apply_all ms' db'
      end
  end.

(** [runMigrations]; the lock is released when it returns. *)
Definition runMigrations (autoRun : bool) (atlas : option string) (entries : list (string * string))
    (db : database) : option error * database :=
  if negb autoRun then (None, db)
  else match down PoolAcquire, down AdvisoryLock with
       | Some e, _ => (Some (Wrap e "acquire conn for migration"), db)
       | None, Some e => (Some (Wrap e "acquire migration advisory lock"), db)
       | None, None =>
           match ensureRevisionTable db with
           | (Some e, db1) => (Some e, db1)
           | (None, db1) =>
               match readAtlasSum atlas with
               | Err e => (Some e, db1)
               | Ok sums =>
                   match pendingMigrations db1 entries sums with
                   | Err e => (Some e, db1)
                   | Ok pending => apply_all pending db1
                   end
               end
           end
       end.

(** ** Facts *)

(** The effect of a sequence of migrations on the database. *)
Definition migrated (db : database) (done : list migrationFile) (db' : database) : Prop :=
  db_revisions db' = db_revisions db ++ (revision_of <$> done) ∧
  foldl (λ s m, s ≫= exec_body (mf_body m)) (Some (db_schema db)) done = Some (db_schema db').

Lemma migrated_nil db : migrated db [] db.
Proof using Type. split; [by rewrite app_nil_r|done]. Qed.

Lemma migrated_cons m s' db done db' :
  exec_body (mf_body m) (db_schema db) = Some s' →
  migrated (record_migration m s' db) done db' → migrated db (m :: done) db'.
Proof using Type.
  intros Ex [Hr Hs]. split; [|cbn; by rewrite Ex]. rewrite Hr. unfold record_migration, db_revisions.
  csimpl. by rewrite <- app_assoc.
Qed.

(** One migration is applied as a whole or not at all. *)
Lemma applyOne_cases m db e db' :
  applyOne m db = (e, db') →
  (∃ e', e = Some e' ∧ db' = db) ∨
  ∃ s', exec_body (mf_body m) (db_schema db) = Some s' ∧ db' = record_migration m s' db.
Proof using Type. unfold applyOne. repeat case_match; intros [= <- <-]; eauto. Qed.

(** A run applies a prefix of what is pending, all of it when it succeeds. *)
Lemma apply_all_prefix ms db e db' :
  apply_all ms db = (e, db') → is_Some (db_table db) →
  is_Some (db_table db') ∧
  ∃ done rest, ms = done ++ rest ∧ migrated db done db' ∧ (e = None → rest = []).
Proof using Type.
  revert db. induction ms as [|m ms IH]; intros db; simpl.
  { intros [= <- <-] Ht. split; [done|]. exists [], []. split_and!; [done|apply migrated_nil|done]. }
  destruct (applyOne m db) as [e1 db1] eqn:E. intros A Ht.
  apply applyOne_cases in E as [(e' & -> & ->)|(s' & Ex & ->)].
  { injection A as <- <-. split; [done|]. exists [], (m :: ms). split_and!; [done|apply migrated_nil|done]. }
  destruct e1 as [e1|].
  { injection A as <- <-. split; [by eexists|]. exists [m], ms. split_and!; [done| |done].
    eapply migrated_cons; [done|apply migrated_nil]. }
  apply IH in A as (Ht' & done & rest & -> & Hm & Hn); [|by eexists].
  split; [done|]. exists (m :: done), rest. split_and!; [done|by eapply migrated_cons|done].
Qed.

(** The pending files are those whose version is not applied, in order. *)
Lemma check_files_ok sums applied running files ms :
  check_files sums applied running files = Ok ms →
  (∀ m, m ∈ ms → mf_version m ∉ applied ∧ (mf_filename m, mf_body m) ∈ files) ∧
  (∀ name body, (name, body) ∈ files → ∃ v, cut_underscore name = Some v ∧
     (v ∈ applied ∨ ∃ m, m ∈ ms ∧ mf_version m = v ∧ mf_filename m = name)) ∧
  (mf_filename <$> ms) `sublist_of` (fst <$> files).
Proof.
  revert running ms. induction files as [|[name body] files IH]; intros running ms; simpl.
  { intros [= <-]. split_and!; [by intros ? ?%not_elem_of_nil|by intros ? ? ?%not_elem_of_nil|constructor]. }
  destruct (cut_underscore name) as [v|] eqn:Hc; [|done].
  destruct (sums !! name) as [want|]; [|done]. destruct (negb _); [done|].
  destruct (check_files _ _ _ files) as [rest|] eqn:E; [|done].
  destruct (IH _ _ E) as (H1 & H2 & H3). clear IH E.
  destruct (bool_decide (v ∈ applied)) eqn:Hv; bools; intros [= <-]; split_and!.
  - intros m Hm. destruct (H1 m Hm). split; [done|by right].
  - intros n b [[= -> ->]|Hin]%elem_of_cons; [eauto|by apply (H2 n b)].
  - csimpl. by constructor.
  - intros m [->|Hm]%elem_of_cons; [split; [done|by left]|]. destruct (H1 m Hm). split; [done|by right].
  - intros n b [[= -> ->]|Hin]%elem_of_cons.
    + exists v. split; [done|]. right. eexists. split; [by left|done].
    + destruct (H2 n b Hin) as (w & ? & [?|(m & ? & ? & ?)]); exists w; (split; [done|]); [by left|].
      right. exists m. split; [by right|done].
  - csimpl. by constructor.
Qed.

(** Whether a file checks out does not depend on what is applied. *)
Lemma check_files_applied sums applied running files ms applied' :
  check_files sums applied running files = Ok ms →
  (∀ name body v, (name, body) ∈ files → cut_underscore name = Some v → v ∈ applied') →
  check_files sums applied' running files = Ok [].
Proof.
  revert running ms. induction files as [|[name body] files IH]; intros running ms; simpl; [done|].
  destruct (cut_underscore name) as [v|] eqn:Hc; [|done].
  destruct (sums !! name) as [want|]; [|done]. destruct (negb _); [done|].
  destruct (check_files sums applied _ files) as [rest|] eqn:E; [|done]. intros _ Hall.
  rewrite (IH _ _ E) by (intros n b w Hin; apply (Hall n b); by right).
  rewrite bool_decide_eq_true_2; [done|]. apply (Hall name body v); [by left|done].
Qed.

(** A run either stops before it applies anything or applies a prefix of the
    pending migrations. *)
Lemma runMigrations_cases atlas entries db e db' :
  runMigrations true atlas entries db = (e, db') →
  (migrated db [] db' ∧ ∃ e', e = Some e') ∨
  ∃ sums pending, readAtlasSum atlas = Ok sums ∧
    check_files sums (rev_version <$> db_revisions db) "" (merge_sort by_name entries) = Ok pending ∧
    is_Some (db_table db') ∧
    ∃ done rest, pending = done ++ rest ∧ migrated db done db' ∧ (e = None → rest = []).
Proof using Type.
  unfold runMigrations, ensureRevisionTable, pendingMigrations. cbn [negb].
  destruct (down PoolAcquire), (down AdvisoryLock), (down EnsureTable); intros R;
    try (injection R as <- <-; left; split; [apply migrated_nil|by eexists]).
  set (db1 := MkDatabase (Some (db_revisions db)) (db_schema db)) in R.
  assert (migrated db [] db1) as Hm1 by (split; [by rewrite app_nil_r|done]).
  destruct (readAtlasSum atlas) as [sums|e1];
    [|injection R as <- <-; left; split; [done|by eexists]].
  destruct (down ListApplied); [injection R as <- <-; left; split; [done|by eexists]|].
  destruct (check_files _ _ _ _) as [pending|e1] eqn:E;
    [|injection R as <- <-; left; split; [done|by eexists]].
  apply apply_all_prefix in R; [|by eexists]. right. by exists sums, pending.
Qed.

(** Once every version is recorded a run finds nothing to do. *)
Lemma runMigrations_settled atlas entries db sums applied ms :
  is_Some (db_table db) → readAtlasSum atlas = Ok sums →
  check_files sums applied "" (merge_sort by_name entries) = Ok ms →
  (∀ name body v, (name, body) ∈ merge_sort by_name entries → cut_underscore name = Some v →
     v ∈ rev_version <$> db_revisions db) →
  (runMigrations true atlas entries db).2 = db ∧
  ((∀ c, down c = None) → (runMigrations true atlas entries db).1 = None).
Proof using Type.
  intros [l Ht] Hs E Hall. unfold runMigrations, ensureRevisionTable. rewrite Hs. cbn [negb].
  assert (MkDatabase (Some (db_revisions db)) (db_schema db) = db) as Hdb.
  { destruct db as [t sc]. unfold db_revisions. simpl in *. by rewrite Ht. }
  assert (check_files sums (rev_version <$> db_revisions db) "" (merge_sort by_name entries) = Ok [])
    as E' by (by eapply check_files_applied).
  unfold pendingMigrations.
  destruct (down PoolAcquire) eqn:D1, (down AdvisoryLock) eqn:D2, (down EnsureTable) eqn:D3;
    try (split; [done|intros Hd; by rewrite Hd in *]).
  rewrite Hdb, E'. destruct (down ListApplied) eqn:D4; split; try done. intros Hd. by rewrite Hd in D4.
Qed.
End Migrate.

Arguments MkDatabase {Schema} _ _.
Arguments db_table {Schema} _.
Arguments db_revisions {Schema} _.
Arguments db_schema {Schema} _.

(** ** Properties *)

(** C28: a migration run, successful or not and wherever the connection breaks,
    applies only migrations that were not applied before, in file-name order,
    each recorded together with its effect on the schema; when it succeeds every
    migration of the directory is applied, and a later run, on this or another
    replica, changes nothing and succeeds if the connection holds. *)
Theorem migrations_applied_once_in_order {Schema} exec_body snapshot down commit_lost atlas entries
    (db db' : database Schema) e :
  runMigrations Schema exec_body snapshot down commit_lost true atlas entries db = (e, db') →
  ∃ done,
    migrated Schema exec_body db done db' ∧
    (∀ m, m ∈ done → mf_version m ∉ rev_version <$> db_revisions db) ∧
    (mf_filename <$> done) `sublist_of` (fst <$> merge_sort by_name entries) ∧
    (e = None →
       (∀ name body, (name, body) ∈ entries →
          ∃ v, cut_underscore name = Some v ∧ v ∈ rev_version <$> db_revisions db') ∧
       ∀ down' commit_lost',
         let again := runMigrations Schema exec_body snapshot down' commit_lost' true atlas entries db' in
         again.2 = db' ∧ ((∀ c, down' c = None) → again.1 = None)).
Proof.
  intros R. apply runMigrations_cases in R as [(Hm & e' & ->)|(sums & pending & Hs & E & Ht & done & rest & -> & Hm & Hn)].
  { exists []. split_and!; [done|by intros ? ?%not_elem_of_nil|apply sublist_nil_l|done]. }
  pose proof (check_files_ok _ _ _ _ _ _ E) as (H1 & H2 & H3). exists done. split_and!; [done| | |].
  - intros m Hin. apply (H1 m). apply elem_of_app. by left.
  - etrans; [|exact H3]. rewrite fmap_app. by apply sublist_inserts_r.
  - intros ->. specialize (Hn eq_refl) as ->. rewrite app_nil_r in *.
    assert (∀ name body v, (name, body) ∈ merge_sort by_name entries → cut_underscore name = Some v →
      v ∈ rev_version <$> db_revisions db') as Hall.
    { intros name body v Hin Hv. destruct (H2 name body Hin) as (w & Hw & H). simplify_eq.
      destruct Hm as [-> _]. rewrite fmap_app. apply elem_of_app.
      destruct H as [?|(m & Hm & <- & _)]; [by left|right].
      rewrite <- list_fmap_compose. apply list_elem_of_fmap. by exists m. }
    split; [|intros down' lost'; by eapply runMigrations_settled].
    intros name body Hin.
    assert ((name, body) ∈ merge_sort by_name entries) as Hin'
      by (by rewrite (merge_sort_Permutation by_name entries)).
    destruct (H2 name body Hin') as (v & Hv & _). exists v. split; [done|]. by eapply Hall.
Qed.

(** Two migrations and a hash that tells short input from long. *)
Definition demo_files : list (string * string) :=
  [("2_b.sql", "create b"); ("1_a.sql", "create a")].
Definition demo_atlas : string := String.concat (String "010" EmptyString)
  ["h1:dir"; "1_a.sql h1:f"; "2_b.sql h1:s"].
Definition demo_hash (s : string) : string := if (String.length s <? 20)%nat then "f" else "s".
Definition demo_exec (b : string) (s : list string) : option (list string) := Some (s ++ [b]).
Definition demo_db : database (list string) := MkDatabase None [].
Definition demo_run : option error * database (list string) :=
  runMigrations (list string) demo_exec demo_hash (λ _, None) (λ _, false) true (Some demo_atlas)
    demo_files demo_db.

Lemma migrations_applied_once_in_order_witness :
  demo_run.1 = None ∧ db_schema demo_run.2 = ["create a"; "create b"] ∧
  ∃ done, migrated (list string) demo_exec demo_db done demo_run.2.
Proof.
  split_and!; [vm_compute; reflexivity|vm_compute; reflexivity|].
  destruct (migrations_applied_once_in_order demo_exec demo_hash (λ _, None) (λ _, false)
    (Some demo_atlas) demo_files demo_db demo_run.2 demo_run.1) as (done & Hd & _).
  { unfold demo_run. by rewrite <- surjective_pairing. }
  by exists done.
Defined.
