(* ===== verification/Cleanup.v ===== *)
(** [internal/worker/cleanup.go]: the sweeper of old temporary files.

    A directory tree holds files with their modification time.  Whether the
    context is cancelled at a step of the walk, whether a directory can be read
    and whether an entry can be stat'ed and removed is the environment's choice. *)

From S2P Require Import Prelude Errors Config.

Inductive node :=
| File (mtime : time) (data : string)
| Dir (entries : list (string * node)).

Definition join (path name : string) : string := path +:+ "/" +:+ name.

Section Cleanup.
Variable cancelled : string → bool.     (* ctx.Err() != nil when the walk is at the path *)
Variable readable : string → bool.      (* os.ReadDir succeeds *)
Variable removable : string → bool.     (* d.Info and os.Remove succeed *)

(** ** The walk *)

(** [filepath.WalkDir] with the callback of [sweepDir] below the root: what is
    left of the node, how many files were removed, and whether the walk was
    aborted. *)
Fixpoint walk (cutoff : time) (path : string) (n : node) : option node * Z * bool :=
  if cancelled path then (Some n, 0, true)
  else match n with
       | File mtime data =>
           if (mtime <? cutoff) && removable path then (None, 1, false) else (Some n, 0, false)
       | Dir es =>
           if negb (readable path) then (Some n, 0, false)
           else
             let '(es', k, ab) :=
               (fix walk_entries (l : list (string * node)) : list (string * node) * Z * bool :=
                  match l with
                  | [] => ([], 0, false)
                  | (name, c) :: l' =>
                      let '(c', k, ab) := walk cutoff (join path name) c in
                      let kept := match c' with Some x => [(name, x)] | None => [] end in
                      if ab then (kept ++ l', k, true)
                      else let '(l'', k', ab') := walk_entries l' in (kept ++ l'', k + k', ab')
                  end) es in
             (Some (Dir es'), k, ab)
       end.

Definition walk_entries (cutoff : time) (path : string) : list (string * node) → list (string * node) * Z * bool :=
  fix walk_entries (l : list (string * node)) : list (string * node) * Z * bool :=
    match l with
    | [] => ([], 0, false)
    | (name, c) :: l' =>
        let '(c', k, ab) := walk cutoff (join path name) c in
        let kept := match c' with Some x => [(name, x)] | None => [] end in
        if ab then (kept ++ l', k, true)
        else let '(l'', k', ab') := walk_entries l' in (kept ++ l'', k + k', ab')
    end.

(** [pruneEmptyChildren] on the entries of a readable root. *)
Definition prune_entry (root : string) (e : string * node) : bool :=
  match e.2 with
  | Dir [] => readable (join root e.1) && removable (join root e.1)
  | _ => false
  end.

Definition pruneEmptyChildren (root : string) (n : node) : node :=
  match n with
  | Dir es => if readable root then Dir (filter (λ e, prune_entry root e = false) es) else n
  | File _ _ => n
  end.

(** [sweepDir]: the root itself is never removed. *)
Definition sweepDir (dir : string) (cutoff : time) (root : node) : node * Z :=
  match root with
  | File _ _ => (root, 0)
  | Dir _ =>
      let '(n, removed, _) := walk cutoff dir root in
      (pruneEmptyChildren dir (default root n), removed)
  end.

(** [sweep] over the configured directories, which lie apart from each other; a
    missing directory is skipped. *)
Definition sweep (now : time) (cfg : CleanupOldFilesConfig) (fs : gmap string node)
    : gmap string node * Z :=
  let cutoff := now - cl_FileTTL cfg in
  foldl (λ '(fs, n) dir,
           match fs !! dir with
           | None => (fs, n)
           | Some root => let '(root', k) := sweepDir dir cutoff root in (<[dir := root']> fs, n + k)
           end) (fs, 0) (cl_Directories cfg).

Definition cleanup_Enabled (cfg : CleanupOldFilesConfig) : bool :=
  cl_Enabled cfg && (0 <? Z.of_nat (length (cl_Directories cfg))) && (0 <? cl_FileTTL cfg).

(** [run]: one sweep at boot and one at each tick of the clock, until cancelled;
    [Start] runs it when the sweeper is enabled. *)
Definition cleanup_run (cfg : CleanupOldFilesConfig) (boot : time) (ticks : list time)
    (fs : gmap string node) : gmap string node :=
  foldl (λ fs now, (sweep now cfg fs).1) (sweep boot cfg fs).1 ticks.

Definition cleanup_Start (cfg : CleanupOldFilesConfig) (boot : time) (ticks : list time)
    (fs : gmap string node) : gmap string node :=
  if cleanup_Enabled cfg then cleanup_run cfg boot ticks fs else fs.

(** ** Facts *)

(** The files below a path. *)
Fixpoint files (path : string) (n : node) : list (string * time * string) :=
  match n with
  | File mtime data => [(path, mtime, data)]
  | Dir es =>
      (fix go (l : list (string * node)) : list (string * time * string) :=
         match l with
         | [] => []
         | (name, c) :: l' => files (join path name) c ++ go l'
         end) es
  end.

Definition entries_files (path : string) (l : list (string * node)) : list (string * time * string) :=
  mjoin ((λ e, files (join path e.1) e.2) <$> l).

Lemma files_Dir path es : files path (Dir es) = entries_files path es.
Proof.
  unfold entries_files. cbn [files]. induction es as [|[name c] es IH]; [done|]. csimpl. by rewrite <- IH.
Qed.

Definition files_opt (path : string) (o : option node) : list (string * time * string) :=
  match o with Some n => files path n | None => [] end.

(** What a walk may do to the files: keep all the young ones, drop some old ones. *)
Definition swept (cutoff : time) (l l' : list (string * time * string)) (k : Z) : Prop :=
  l' `sublist_of` l ∧ Z.of_nat (length l) = Z.of_nat (length l') + k ∧
  (∀ p m d, (p, m, d) ∈ l → cutoff ≤ m → (p, m, d) ∈ l').

Lemma swept_refl cutoff l : swept cutoff l l 0.
Proof. split_and!; [done|lia|done]. Qed.

Lemma swept_app cutoff l1 l1' k1 l2 l2' k2 :
  swept cutoff l1 l1' k1 → swept cutoff l2 l2' k2 → swept cutoff (l1 ++ l2) (l1' ++ l2') (k1 + k2).
Proof.
  intros (S1 & L1 & Y1) (S2 & L2 & Y2). split_and!.
  - by apply sublist_app.
  - rewrite !length_app. lia.
  - intros p m d. rewrite !elem_of_app. naive_solver.
Qed.

Lemma walk_Dir cutoff path es :
  walk cutoff path (Dir es) =
  if cancelled path then (Some (Dir es), 0, true)
  else if negb (readable path) then (Some (Dir es), 0, false)
  else let '(es', k, ab) := walk_entries cutoff path es in (Some (Dir es'), k, ab).
Proof. done. Qed.

Lemma node_ind_nested (P : node → Prop) :
  (∀ m d, P (File m d)) → (∀ es, Forall (λ e, P e.2) es → P (Dir es)) → ∀ n, P n.
Proof using Type.
  intros HF HD. fix IH 1. intros [m d|es]; [apply HF|]. apply HD.
  induction es as [|[name c] es IHes]; constructor; [apply IH|exact IHes].
Qed.

Lemma entries_files_cons path name c l :
  entries_files path ((name, c) :: l) = files (join path name) c ++ entries_files path l.
Proof. done. Qed.

Lemma entries_files_app path l1 l2 :
  entries_files path (l1 ++ l2) = entries_files path l1 ++ entries_files path l2.
Proof. unfold entries_files. by rewrite fmap_app, join_app. Qed.

Lemma entries_kept path name (o : option node) :
  entries_files path (match o with Some x => [(name, x)] | None => [] end) = files_opt (join path name) o.
Proof. destruct o; [|done]. unfold entries_files. csimpl. by rewrite app_nil_r. Qed.

Lemma walk_swept cutoff n :
  ∀ path o k ab, walk cutoff path n = (o, k, ab) →
    swept cutoff (files path n) (files_opt path o) k.
Proof.
  induction n as [mtime data|es IH] using node_ind_nested; intros path o k ab.
  - cbn [walk]. destruct (cancelled path); [intros [= <- <- <-]; apply swept_refl|].
    destruct ((mtime <? cutoff) && removable path) eqn:E; intros [= <- <- <-]; [|apply swept_refl].
    bools. split_and!; [apply sublist_nil_l|done|].
    intros p m d [= -> -> ->]%list_elem_of_singleton ?. lia.
  - rewrite walk_Dir. destruct (cancelled path); [intros [= <- <- <-]; apply swept_refl|].
    destruct (negb (readable path)); [intros [= <- <- <-]; apply swept_refl|].
    destruct (walk_entries cutoff path es) as [[es' k'] ab'] eqn:E. intros [= <- <- <-].
    cbn [files_opt]. rewrite !files_Dir. revert es' k' ab' E.
    induction IH as [|[name c] es Hc _ IHes]; intros es' k' ab'; simpl.
    { intros [= <- <- <-]. apply swept_refl. }
    destruct (walk cutoff (join path name) c) as [[c' kc] abc] eqn:Ec.
    apply Hc in Ec. rewrite entries_files_cons. destruct abc.
    + intros [= <- <- <-]. rewrite entries_files_app, entries_kept.
      replace kc with (kc + 0) by lia. by apply swept_app; [|apply swept_refl].
    + fold (walk_entries cutoff path). destruct (walk_entries cutoff path es) as [[l'' k''] ab''] eqn:El.
      intros [= <- <- <-]. rewrite entries_files_app, entries_kept.
      apply swept_app; [done|]. by eapply IHes.
Qed.

(** Pruning removes no file. *)
Lemma prune_files root n : files root (pruneEmptyChildren root n) = files root n.
Proof.
  destruct n as [m d|es]; [done|]. simpl. destruct (readable root); [|done].
  change (files root (Dir (filter (λ e, prune_entry root e = false) es)) = files root (Dir es)).
  rewrite !files_Dir. induction es as [|[name c] es IH]; [done|].
  rewrite filter_cons, entries_files_cons. case_decide as D.
  - by rewrite entries_files_cons, IH.
  - unfold prune_entry in D. simpl in D. destruct c as [m d|[|]]; try done.
Qed.

(** The files a full walk keeps. *)
Definition kept_file (cutoff : time) (f : string * time * string) : bool :=
  negb ((f.1.2 <? cutoff) && removable f.1.1).

Lemma walk_exact cutoff n :
  (∀ p, cancelled p = false) → (∀ p, readable p = true) →
  ∀ path o k ab, walk cutoff path n = (o, k, ab) →
    ab = false ∧ files_opt path o = filter (λ f, kept_file cutoff f) (files path n).
Proof.
  intros Hc Hr. induction n as [mtime data|es IH] using node_ind_nested; intros path o k ab.
  - cbn [walk]. rewrite Hc. cbn [files]. rewrite filter_cons. unfold kept_file. simpl.
    destruct ((mtime <? cutoff) && removable path); intros [= <- <- <-]; (split; [done|]);
      case_decide; done.
  - rewrite walk_Dir, Hc, Hr. cbn [negb].
    destruct (walk_entries cutoff path es) as [[es' k'] ab'] eqn:E. intros [= <- <- <-].
    cbn [files_opt]. rewrite !files_Dir. revert es' k' ab' E.
    induction IH as [|[name c] es Hw _ IHes]; intros es' k' ab'; simpl.
    { by intros [= <- <- <-]. }
    destruct (walk cutoff (join path name) c) as [[c' kc] abc] eqn:Ec.
    apply Hw in Ec as [-> Ec]. fold (walk_entries cutoff path).
    destruct (walk_entries cutoff path es) as [[l'' k''] ab''] eqn:El.
    destruct (IHes _ _ _ eq_refl) as [-> El']. intros [= <- <- <-]. split; [done|].
    rewrite entries_files_app, entries_kept, entries_files_cons, filter_app. simpl in Ec.
    by rewrite Ec, El'.
Qed.
End Cleanup.

(** ** Properties *)

(** C30: a sweep of a directory never deletes or alters a file that is younger than
    the cutoff, never adds one, and reports exactly the number of files it
    removed, whatever fails and wherever it is cancelled; and a sweep that is
    neither cancelled nor refused a directory leaves exactly the young files and
    those that cannot be removed. *)
Theorem sweep_removes_only_old cancelled readable removable dir cutoff es :
  let '(root', removed) := sweepDir cancelled readable removable dir cutoff (Dir es) in
  let before := files dir (Dir es) in
  let after := files dir root' in
  after `sublist_of` before ∧
  Z.of_nat (length before) = Z.of_nat (length after) + removed ∧
  (∀ p m d, (p, m, d) ∈ before → cutoff ≤ m → (p, m, d) ∈ after) ∧
  ((∀ p, cancelled p = false) → (∀ p, readable p = true) →
     after = filter (λ f, negb ((f.1.2 <? cutoff) && removable f.1.1)) before).
Proof.
  unfold sweepDir. destruct (walk cancelled readable removable cutoff dir (Dir es)) as [[o k] ab] eqn:E.
  cbv zeta. rewrite prune_files. pose proof (walk_swept _ _ _ _ _ _ _ _ _ E) as (S & L & Y).
  assert (files_opt dir o = files dir (default (Dir es) o)) as <-.
  { destruct o as [n|]; [done|]. rewrite walk_Dir in E. repeat case_match; simplify_eq. }
  split_and!; [done|done|done|]. intros Hc Hr.
  by apply (walk_exact _ _ _ cutoff (Dir es) Hc Hr) in E as [_ E].
Qed.
