(* ===== verification/Slack.v ===== *)
(** [internal/service/slack.go]: the best-effort Slack notifier.

    JSON encoding, request building and the HTTP exchange answer the calls of
    [SlackE]; the text of dates and durations is computed here. *)

From S2P Require Import Prelude Errors Domain Config GoText MessageBuilder Prog.

(** ** Text of times ([time.Duration.String] and [time.RFC3339] in UTC) *)

(** [d.Truncate(time.Second).String()]: a whole number of seconds as
    [XhYmZs], without leading zero units. *)
Definition seconds_String (secs : Z) : string :=
  let u := Z.abs secs in
  let h := u / 3600 in let m := u / 60 mod 60 in let s := u mod 60 in
  (if secs <? 0 then "-" else "") +:+
  (if 0 <? h then FormatInt h +:+ "h" else "") +:+
  (if (0 <? h) || (0 <? m) then FormatInt m +:+ "m" else "") +:+ FormatInt s +:+ "s".

Definition pad2 (z : Z) : string := (if z <? 10 then "0" else "") +:+ FormatInt z.
Definition pad4 (z : Z) : string :=
  (if z <? 1000 then "0" else "") +:+ (if z <? 100 then "0" else "") +:+ pad2 z.

(** The civil date of a day number (days since 1970-01-01), by eras of 400 years
    that start on March 1. *)
Definition civil (days : Z) : Z * Z * Z :=
  let z := days + 719468 in
  let era := z / 146097 in
  let doe := z mod 146097 in
  let yoe := (doe - doe / 1460 + doe / 36524 - doe / 146096) / 365 in
  let doy := doe - (365 * yoe + yoe / 4 - yoe / 100) in
  let mp := (5 * doy + 2) / 153 in
  let d := doy - (153 * mp + 2) / 5 + 1 in
  let m := if mp <? 10 then mp + 3 else mp - 9 in
  (yoe + era * 400 + (if m <=? 2 then 1 else 0), m, d).

(** [t.UTC().Format(time.RFC3339)], for years 0 to 9999. *)
Definition RFC3339 (t : time) : string :=
  let secs := t / Second in
  let '(y, m, d) := civil (secs / 86400) in
  let r := secs mod 86400 in
  pad4 y +:+ "-" +:+ pad2 m +:+ "-" +:+ pad2 d +:+ "T" +:+
  pad2 (r / 3600) +:+ ":" +:+ pad2 (r / 60 mod 60) +:+ ":" +:+ pad2 (r mod 60) +:+ "Z".

(** ** Payloads *)

Record slackText := MkSlackText { st_Type : string; st_Text : string }.
Record slackField := MkSlackField { sf_Type : string; sf_Text : string }.
Record slackBlock := MkSlackBlock {
  sb_Type : string; sb_Text : option slackText; sb_Fields : list slackField }.
Record slackPayload := MkSlackPayload { sl_Channel : string; sl_Blocks : list slackBlock }.

(** [truncate]: [len] and slicing count bytes. *)
Definition truncate (s : string) (n : nat) : string :=
  if (String.length s <=? n)%nat then s else String.substring 0 n s +:+ "…".

(** [errString]; [None] is the nil error. *)
Definition errString (errorText : error → string) (e : option error) : string :=
  match e with None => "<nil>" | Some e => errorText e end.

Definition mrkdwn (text : string) : slackField := MkSlackField "mrkdwn" text.

Definition slack_target (m : SignalMessage) : string :=
  if set (msg_GroupID m) then "group=" +:+ default "" (msg_GroupID m)
  else if set (msg_Recipient m) then "recipient=" +:+ default "" (msg_Recipient m)
  else "unknown".

Section Slack.
Variable errorText : error → string.
Variable cfg : SlackConfig.

(** [time.Since] saturates at the range of [time.Duration]. *)
Definition Since (now t : time) : duration :=
  Z.max (- 2 ^ 63) (Z.min (2 ^ 63 - 1) (now - t)).

Definition slackPermanentFailurePayload (now : time) (m : SignalMessage) (cause : option error)
    : slackPayload :=
  let dur := seconds_String (Z.quot (Since now (msg_CreatedAt m)) Second) in
  MkSlackPayload ""
    [ MkSlackBlock "section"
        (Some (MkSlackText "mrkdwn"
           ("*Signal message permanently failed after " +:+ FormatInt (msg_Attempts m) +:+
            " attempts (" +:+ dur +:+ ")*"))) [];
      MkSlackBlock "section" None
        [ mrkdwn ("*External ID:* " +:+ msg_ExternalID m);
          mrkdwn ("*Target:* " +:+ slack_target m);
          mrkdwn ("*Created:* " +:+ RFC3339 (msg_CreatedAt m));
          mrkdwn ("*Content:* " +:+ truncate (msg_Content m) 256);
          mrkdwn ("*Error:* " +:+ errString errorText cause) ] ].

Definition slackAttachmentErrorPayload (bucket key : string) (cause : option error) : slackPayload :=
  MkSlackPayload ""
    [ MkSlackBlock "section"
        (Some (MkSlackText "mrkdwn" "*Failed to download attachment from object storage*")) [];
      MkSlackBlock "section" None
        [ mrkdwn ("*Bucket:* " +:+ bucket);
          mrkdwn ("*Key:* " +:+ key);
          mrkdwn ("*Error:* " +:+ errString errorText cause) ] ].

(** ** Posting *)

Inductive SlackE : Type → Type :=
| SlackNow : SlackE time
| JsonMarshal (p : slackPayload) : SlackE (res string)
| NewRequest (url body : string) : SlackE (option error)
| HttpDo (url body : string) : SlackE (res Z)              (* the status code *)
| DrainAndClose : SlackE unit
| SlackWarn (msg kind : string) : SlackE unit.

Definition slack_Enabled : bool := sl_Enabled cfg && negb (bool_decide (sl_WebhookURL cfg = "")).

Definition post (payload : slackPayload) (kind : string) : prog SlackE unit :=
  b ← call (JsonMarshal payload);
  match b with
  | Err _ => call (SlackWarn "slack: marshal payload" kind)
  | Ok body =>
      q ← call (NewRequest (sl_WebhookURL cfg) body);
      match q with
      | Some _ => call (SlackWarn "slack: build request" kind)
      | None =>
          r ← call (HttpDo (sl_WebhookURL cfg) body);
          match r with
          | Err _ => call (SlackWarn "slack: post failed" kind)
          | Ok status =>
              _ ← (if 300 <=? status then call (SlackWarn "slack: non-2xx response" kind)
                   else mret tt);
              call DrainAndClose
          end
      end
  end.

Definition NotifyPermanentFailure (m : SignalMessage) (cause : option error) : prog SlackE unit :=
  if negb slack_Enabled || negb (no_PermanentFailure (sl_NotifyOn cfg)) then mret tt
  else
    now ← call SlackNow;
    post (slackPermanentFailurePayload now m cause) "permanent-failure".

Definition NotifyAttachmentError (bucket key : string) (cause : option error) : prog SlackE unit :=
  if negb slack_Enabled || negb (no_AttachmentError (sl_NotifyOn cfg)) then mret tt
  else post (slackAttachmentErrorPayload bucket key cause) "attachment-error".

(** ** Facts *)

Definition posted (ev : event SlackE) : option (string * string) :=
  match ev with @Ev _ X e _ => match e with HttpDo u b => Some (u, b) | _ => None end end.
Definition marshalled (ev : event SlackE) : option slackPayload :=
  match ev with @Ev _ X e _ => match e with JsonMarshal p => Some p | _ => None end end.
Definition warned (ev : event SlackE) : option string :=
  match ev with @Ev _ X e _ => match e with SlackWarn w _ => Some w | _ => None end end.

(** A request whose status is below 300 was accepted. *)
Definition accepted (ev : event SlackE) : bool :=
  match ev with
  | @Ev _ X e x =>
      match e in SlackE X return X → bool with
      | HttpDo _ _ => λ r, match r with Ok st => st <? 300 | Err _ => false end
      | _ => λ _, false
      end x
  end.
Definition free (X : Type) (e : SlackE X) (x : X) : Prop := True.

(** One notification: one payload, at most one request and only to the webhook;
    it is accepted, or one warning is logged. *)
Definition one_post (payload : slackPayload) (tr : list (event SlackE)) : Prop :=
  omap marshalled tr = [payload] ∧
  (length (omap posted tr) ≤ 1)%nat ∧
  Forall (λ ub, ub.1 = sl_WebhookURL cfg) (omap posted tr) ∧
  (if existsb accepted tr then omap warned tr = [] else length (omap warned tr) = 1%nat).

Ltac slack_runs :=
  repeat match goal with
  | H : runs _ (_ ≫= _) _ _ |- _ => apply runs_bind in H as (? & ? & ? & -> & ? & ?)
  | H : runs _ (call _) _ _ |- _ => apply runs_call in H as [-> ?]
  | H : runs _ (mret _) _ _ |- _ => apply runs_ret in H as [-> _]
  | H : runs _ (match ?y with _ => _ end) _ _ |- _ => destruct y eqn:?
  end.

Lemma post_runs payload kind tr u :
  runs free (post payload kind) tr u → one_post payload tr.
Proof.
  unfold post, one_post. intros H. slack_runs; bools; csimpl;
    rewrite ?(proj2 (Z.ltb_ge _ _)), ?(proj2 (Z.ltb_lt _ _)) by done; csimpl;
    split_and!; try done; repeat constructor; done.
Qed.

Lemma truncate_length s n : (String.length (truncate s n) ≤ n + 3)%nat.
Proof.
  unfold truncate. destruct (Nat.leb_spec (String.length s) n); [lia|].
  assert (∀ k r, (String.length (String.substring 0 k r) ≤ k)%nat) as Hs.
  { induction k as [|k IH]; intros [|c r]; simpl; try lia. specialize (IH r). lia. }
  assert (∀ x y, String.length (x +:+ y) = (String.length x + String.length y)%nat) as Ha.
  { induction x as [|c x IH]; intros y; simpl; [done|]. by rewrite IH. }
  specialize (Hs n s). rewrite Ha. simpl. lia.
Qed.
End Slack.

(** Whatever Slack and the network answer, a permanent-failure notification
    returns; it makes no call at all unless the notifier is enabled, has a
    webhook and the event is switched on, and otherwise builds one payload,
    makes at most one request, to the webhook, and logs exactly one warning when
    the request was not accepted.  The payload quotes at most 256 bytes of the
    content and the ellipsis. *)
Theorem slack_notifies_once errorText cfg m cause tr u :
  runs free (NotifyPermanentFailure errorText cfg m cause) tr u →
  if slack_Enabled cfg && no_PermanentFailure (sl_NotifyOn cfg) then
    ∃ now tr', tr = Ev SlackNow now :: tr' ∧
      one_post cfg (slackPermanentFailurePayload errorText now m cause) tr' ∧
      (String.length (truncate (msg_Content m) 256) ≤ 259)%nat
  else tr = [].
Proof.
  unfold NotifyPermanentFailure. destruct (slack_Enabled cfg), (no_PermanentFailure _);
    cbn [negb orb andb]; try by intros [-> _].
  intros (t1 & now & t2 & -> & [-> _]%runs_call & H%post_runs)%runs_bind.
  exists now, t2. split_and!; [done|done|apply truncate_length].
Qed.

Definition demo_slack : SlackConfig :=
  MkSlackConfig true "https://hooks" [] (MkSlackNotifyOn true false).
Definition demo_failed : SignalMessage :=
  MkSignalMessage 1%N "ext-1" None (Some "+1") None "+2" "hi" [] 5 5 0 None StatusPermanentFailed
    None None None "c" 0 0.

(** An hour, one minute and a second after its creation the alert reads so. *)
Example slack_text :
  slackPermanentFailurePayload (λ _, "boom") (3661 * Second) demo_failed (Some ErrNotFound)
  = MkSlackPayload ""
      [ MkSlackBlock "section" (Some (MkSlackText "mrkdwn"
          "*Signal message permanently failed after 5 attempts (1h1m1s)*")) [];
        MkSlackBlock "section" None
          [ mrkdwn "*External ID:* ext-1"; mrkdwn "*Target:* recipient=+1";
            mrkdwn "*Created:* 1970-01-01T00:00:00Z"; mrkdwn "*Content:* hi";
            mrkdwn "*Error:* boom" ] ].
Proof. vm_compute. reflexivity. Qed.

Example RFC3339_leap : RFC3339 (1709251199 * Second) = "2024-02-29T23:59:59Z".
Proof. vm_compute. reflexivity. Qed.

Lemma slack_notifies_once_witness :
  ∃ now tr',
    [Ev SlackNow 0; Ev (JsonMarshal (slackPermanentFailurePayload (λ _, "") 0 demo_failed None)) (Ok "{}");
     Ev (NewRequest "https://hooks" "{}") None; Ev (HttpDo "https://hooks" "{}") (Ok 500);
     Ev (SlackWarn "slack: non-2xx response" "permanent-failure") tt; Ev DrainAndClose tt]
      = Ev SlackNow now :: tr' ∧
    one_post demo_slack (slackPermanentFailurePayload (λ _, "") now demo_failed None) tr' ∧
    (String.length (truncate (msg_Content demo_failed) 256) ≤ 259)%nat.
Proof.
  apply (slack_notifies_once (λ _, "") demo_slack demo_failed None _ tt).
  repeat (hnf; eexists _, _; split; [reflexivity|split; [exact I|]]). by split.
Defined.
