(* ===== verification/Wiring.v ===== *)
(** [cmd/go-signalium/main.go] and the [Module] of every package: which
    constructors and invocations make up the application, what each needs and
    gives, and which hooks it appends to the life cycle.

    The container is uber-go/fx.  It calls the constructors in an order of its
    own choice; what its documentation promises about that order is the record
    [fx_built], and everything here holds for every order it allows. *)

From S2P Require Import Prelude.

(** ** Types in the container *)

Inductive ty :=
(* given by fx itself *)
| TLifecycle | TShutdowner
(* main *)
| TLogger | TInstallConfigPath | TRuntimeConfigPath
(* config, metrics, db, repo *)
| TInstall | TRuntime | TMinIOConfig | TRootRegistry | TOutboxMetrics | TDbConfig | TPool | TQueries
| TMessages | TInbound
(* storage, signal *)
| TMinioClient | TObjectStore | TSignalMetrics | TTCPClient | THTTPClient
(* service, handler *)
| TMessageInserter | TAttachmentUploader | TInboundWriter | TInboundEventSource | TSendMessageEnqueuer
| TInboundListener | TSlackNotifier | TSignalMessagesService | TMultipartHandler
(* worker, server *)
| TRepo | TDownloader | TSender | TFailureNotifier | TMetrics | TWorker | TCleanup | TTimeoutReaperRepo
| TTimeoutReaper | TServer.

#[global] Instance ty_eq_dec : EqDecision ty.
Proof. solve_decision. Defined.

(** The hooks that are appended to [fx.Lifecycle], by the code that appends them. *)
Inductive hook :=
| PoolHook | MigrateHook | StorageHook | TcpHook | InboundHook | WorkerHook | CleanupHook | ReaperHook
| ServerHook | HelloHook.

#[global] Instance hook_eq_dec : EqDecision hook.
Proof. solve_decision. Defined.

(** ** Constructors and invocations *)

(** A function handed to [fx.Provide] (with a result) or [fx.Invoke] (without):
    its parameters, its result and the hooks it appends. *)
Record fx_func := MkFunc { fn_name : string; fn_needs : list ty; fn_gives : option ty; fn_hooks : list hook }.

#[global] Instance fx_func_eq_dec : EqDecision fx_func.
Proof. solve_decision. Defined.

Definition provide (name : string) (needs : list ty) (gives : ty) : fx_func := MkFunc name needs (Some gives) [].
Definition invoke (name : string) (needs : list ty) (h : hook) : fx_func :=
  MkFunc name (TLifecycle :: needs) None [h].

Record fx_module := MkModule { fm_name : string; fm_provide : list fx_func; fm_invoke : list fx_func }.

Definition config_Module : fx_module :=
  MkModule "config"
    [provide "LoadInstall" [TInstallConfigPath; TRuntimeConfigPath] TInstall;
     provide "LoadRuntime" [TInstallConfigPath; TRuntimeConfigPath] TRuntime;
     provide "config.minio" [TInstall] TMinIOConfig] [].

Definition metrics_Module : fx_module :=
  MkModule "metrics"
    [provide "NewRegistry" [] TRootRegistry; provide "NewOutbox" [TRootRegistry] TOutboxMetrics] [].

(** [newPool] appends the hook that closes the pool while it is constructed. *)
Definition newPool_func : fx_func :=
  MkFunc "newPool" [TLifecycle; TLogger; TDbConfig] (Some TPool) [PoolHook].

Definition db_Module : fx_module :=
  MkModule "db"
    [provide "loadConfig" [] TDbConfig; newPool_func; provide "newQueries" [TPool] TQueries]
    [invoke "runMigrations" [TPool; TLogger; TDbConfig] MigrateHook].

Definition repo_Module : fx_module :=
  MkModule "repo" [provide "NewMessages" [TQueries] TMessages; provide "NewInbound" [TQueries] TInbound] [].

Definition storage_Module : fx_module :=
  MkModule "storage"
    [provide "newMinioClient" [TMinIOConfig] TMinioClient;
     provide "NewObjectStore" [TMinioClient; TInstall] TObjectStore]
    [invoke "storage" [TObjectStore; TLogger] StorageHook].

Definition signal_Module : fx_module :=
  MkModule "signal"
    [provide "signal.metrics" [TOutboxMetrics] TSignalMetrics;
     provide "NewTCPClient" [TInstall; TLogger; TSignalMetrics] TTCPClient;
     provide "NewHTTPClient" [TInstall; TLogger] THTTPClient]
    [invoke "signal" [TTCPClient; TLogger; TInstall] TcpHook].

Definition service_Module : fx_module :=
  MkModule "service"
    [provide "service.repo" [TMessages] TMessageInserter;
     provide "service.store" [TObjectStore] TAttachmentUploader;
     provide "service.inbound" [TInbound] TInboundWriter;
     provide "service.events" [TTCPClient] TInboundEventSource;
     provide "NewSendMessageService" [TMessageInserter; TAttachmentUploader; TInstall; TLogger] TSendMessageEnqueuer;
     provide "NewInboundListener" [TInboundEventSource; TInboundWriter; TInstall; TRuntime; TLogger] TInboundListener;
     provide "NewSlackNotifier" [TRuntime; TLogger] TSlackNotifier]
    [invoke "RegisterInboundListener" [TInboundListener] InboundHook].

Definition handler_Module : fx_module :=
  MkModule "handler"
    [provide "NewSignalMessagesService" [TMessages; THTTPClient; TInstall; TLogger] TSignalMessagesService;
     provide "NewMultipartHandler" [TSendMessageEnqueuer; TLogger] TMultipartHandler] [].

Definition worker_Module : fx_module :=
  MkModule "worker"
    [provide "worker.repo" [TMessages] TRepo; provide "worker.store" [TObjectStore] TDownloader;
     provide "worker.sender" [TTCPClient] TSender; provide "worker.notifier" [TSlackNotifier] TFailureNotifier;
     provide "worker.metrics" [TOutboxMetrics] TMetrics;
     provide "NewWorker" [TRepo; TDownloader; TSender; TFailureNotifier; TMetrics; TInstall; TLogger] TWorker]
    [invoke "RegisterLifecycle" [TWorker] WorkerHook].

Definition CleanupModule : fx_module :=
  MkModule "worker-cleanup" [provide "NewCleanup" [TInstall; TLogger] TCleanup]
    [invoke "RegisterCleanupLifecycle" [TCleanup] CleanupHook].

Definition TimeoutReaperModule : fx_module :=
  MkModule "worker-timeout-reaper"
    [provide "reaper.repo" [TMessages] TTimeoutReaperRepo;
     provide "NewTimeoutReaper" [TTimeoutReaperRepo; TMetrics; TInstall; TLogger] TTimeoutReaper]
    [invoke "RegisterTimeoutReaperLifecycle" [TTimeoutReaper] ReaperHook].

Definition server_Module : fx_module :=
  MkModule "server"
    [provide "NewWitchcraftServer" [TInstallConfigPath; TRuntimeConfigPath; TSignalMessagesService; TMultipartHandler]
       TServer]
    [invoke "server.RegisterLifecycle" [TServer; TShutdowner; TLogger] ServerHook].

(** [main]: what it provides, supplies and invokes itself, and its modules. *)
Record fx_app := MkApp {
  app_provide : list fx_func;
  app_supply : list ty;
  app_modules : list fx_module;
  app_invoke : list fx_func;
}.

Definition main : fx_app :=
  MkApp [provide "newBootLogger" [] TLogger] [TInstallConfigPath; TRuntimeConfigPath]
    [config_Module; metrics_Module; db_Module; repo_Module; storage_Module; signal_Module; service_Module;
     handler_Module; worker_Module; CleanupModule; TimeoutReaperModule; server_Module]
    [invoke "registerHello" [TLogger] HelloHook].

(** ** What fx promises *)

Definition constructors (a : fx_app) : list fx_func := app_provide a ++ (app_modules a ≫= fm_provide).

(** The invocations of modules run before those of their parent, each in the
    order it is declared. *)
Definition invocations (a : fx_app) : list fx_func := (app_modules a ≫= fm_invoke) ++ app_invoke a.

(** Values that exist before any constructor is called. *)
Definition given (a : fx_app) : list ty := [TLifecycle; TShutdowner] ++ app_supply a.

Definition is_invoke (f : fx_func) : bool := match fn_gives f with Some _ => false | None => true end.

(** [calls] are the functions in the order fx calls them: constructors at most
    once and only known ones, the invocations all and in order, and each with
    all its parameters at hand. *)
Record fx_built (a : fx_app) (calls : list fx_func) : Prop := {
  fb_known : ∀ f, f ∈ calls → is_invoke f = false → f ∈ constructors a;
  fb_once : NoDup calls;
  fb_invoked : filter (λ f, is_invoke f) calls = invocations a;
  fb_ready : ∀ pre f post t, calls = pre ++ f :: post → t ∈ fn_needs f →
    t ∈ given a ∨ ∃ g, g ∈ pre ∧ fn_gives g = Some t;
}.

(** The hooks in the order they are appended. *)
Definition hooks_of (calls : list fx_func) : list hook := calls ≫= fn_hooks.

(** The order that follows. *)
Definition app_hooks : list hook :=
  [PoolHook; MigrateHook; StorageHook; TcpHook; InboundHook; WorkerHook; CleanupHook; ReaperHook; ServerHook;
   HelloHook].

(** ** Facts: an order exists *)

(** The lazy depth-first order: a parameter is constructed when it is first
    needed. *)
Definition provider (a : fx_app) (t : ty) : option fx_func :=
  head (filter (λ f, fn_gives f = Some t) (constructors a)).

Fixpoint need (fuel : nat) (a : fx_app) (done : list fx_func) (t : ty) : list fx_func :=
  match fuel with
  | O => done
  | S n =>
      match provider a t with
      | None => done
      | Some f =>
          if bool_decide (f ∈ done) then done
          else let done' := foldl (need n a) done (fn_needs f) in done' ++ [f]
      end
  end.

Definition build (a : fx_app) : list fx_func :=
  foldl (λ done f, foldl (need (length (constructors a)) a) done (fn_needs f) ++ [f]) [] (invocations a).

(** The promises of [fx_built], as a check. *)
Fixpoint ready_from (have : list ty) (calls : list fx_func) : bool :=
  match calls with
  | [] => true
  | f :: l => forallb (λ t, bool_decide (t ∈ have)) (fn_needs f) && ready_from (option_list (fn_gives f) ++ have) l
  end.

Lemma ready_from_spec have calls :
  ready_from have calls = true →
  ∀ pre f post t, calls = pre ++ f :: post → t ∈ fn_needs f → t ∈ have ∨ ∃ g, g ∈ pre ∧ fn_gives g = Some t.
Proof.
  revert have. induction calls as [|c calls IH]; intros have; cbn [ready_from]; [by destruct pre|].
  intros [Hc Hl]%andb_true_iff [|g pre] f post t E Ht; injection E as -> E.
  - left. apply forallb_forall with (x := t) in Hc; [by apply bool_decide_eq_true in Hc|by apply list_elem_of_In].
  - destruct (IH _ Hl pre f post t E Ht) as [H|(x & Hx & Hg)].
    + apply elem_of_app in H as [H|H]; [|by left]. right. exists g. split; [by left|].
      destruct (fn_gives g); simpl in H; [|by apply not_elem_of_nil in H].
      by apply list_elem_of_singleton in H as ->.
    + right. exists x. split; [by right|done].
Qed.

Lemma built_check a calls :
  bool_decide (Forall (λ f, is_invoke f = true ∨ f ∈ constructors a) calls) &&
  bool_decide (NoDup calls) && bool_decide (filter (λ f, is_invoke f) calls = invocations a) &&
  ready_from (given a) calls = true →
  fx_built a calls.
Proof.
  rewrite !andb_true_iff. intros [[[H1%bool_decide_eq_true H2%bool_decide_eq_true] H3%bool_decide_eq_true] H4].
  split; [|done|done|].
  - intros f Hf Hi. rewrite Forall_forall in H1. destruct (H1 f Hf); [congruence|done].
  - by apply ready_from_spec.
Qed.

Lemma main_builds : fx_built main (build main).
Proof. apply built_check. vm_compute. reflexivity. Qed.

(** ** Facts: the order of the hooks *)

Lemma hooks_of_app l k : hooks_of (l ++ k) = hooks_of l ++ hooks_of k.
Proof. unfold hooks_of. by rewrite bind_app. Qed.

(** A constructor other than [newPool] appends nothing. *)
Lemma constructor_hooks f : f ∈ constructors main → f ≠ newPool_func → fn_hooks f = [].
Proof.
  assert (Forall (λ f, f = newPool_func ∨ fn_hooks f = []) (constructors main)) as H.
  { apply (bool_decide_unpack _). vm_compute. done. }
  rewrite Forall_forall in H. intros Hf Hn. by destruct (H f Hf).
Qed.

(** Without [newPool], the hooks are those of the invocations. *)
Lemma hooks_of_invoked l :
  (∀ f, f ∈ l → is_invoke f = false → f ∈ constructors main ∧ f ≠ newPool_func) →
  hooks_of l = hooks_of (filter (λ f, is_invoke f) l).
Proof.
  induction l as [|f l IH]; intros Hl; [done|]. rewrite filter_cons. unfold hooks_of in *. csimpl.
  rewrite IH by (intros; apply Hl; by try right). destruct (is_invoke f) eqn:E; csimpl; [done|].
  destruct (Hl f) as [H1 H2]; [by left|done|]. by rewrite (constructor_hooks f H1 H2).
Qed.

Lemma pool_before_invocations calls :
  fx_built main calls →
  ∃ pre post, calls = pre ++ newPool_func :: post ∧ filter (λ f, is_invoke f) pre = [].
Proof.
  intros B. set (mig := invoke "runMigrations" [TPool; TLogger; TDbConfig] MigrateHook).
  assert (mig ∈ calls) as Hin.
  { assert (mig ∈ filter (λ f, is_invoke f) calls) as H; [|by apply list_elem_of_filter in H as []].
    rewrite (fb_invoked _ _ B). apply (bool_decide_unpack _). vm_compute. done. }
  apply list_elem_of_split in Hin as (pre & post & ->).
  assert (filter (λ f, is_invoke f) pre = []) as Hpre.
  { pose proof (fb_invoked _ _ B) as F. rewrite filter_app in F.
    destruct (filter (λ f, is_invoke f) pre) as [|x l] eqn:E; [done|]. exfalso.
    injection F as F _. assert (x ∈ pre) as Hx.
    { assert (x ∈ filter (λ f, is_invoke f) pre) as H by (rewrite E; by left). by apply list_elem_of_filter in H as []. }
    pose proof (fb_once _ _ B) as N. apply NoDup_app in N as (_ & N & _). apply (N x Hx). rewrite F. by left. }
  destruct (fb_ready _ _ B pre mig post TPool eq_refl) as [H|(g & Hg & Hp)].
  - apply (bool_decide_unpack _). vm_compute. done.
  - exfalso. revert H. apply (bool_decide_unpack (TPool ∉ given main)). vm_compute. done.
  - assert (g = newPool_func) as ->.
    { assert (g ∈ constructors main) as Hc by (apply (fb_known _ _ B); [set_solver|by unfold is_invoke; rewrite Hp]).
      assert (Forall (λ f, fn_gives f = Some TPool → f = newPool_func) (constructors main)) as U
        by (apply (bool_decide_unpack _); vm_compute; done).
      rewrite Forall_forall in U. by apply U. }
    apply list_elem_of_split in Hg as (p1 & p2 & ->). exists p1, (p2 ++ mig :: post).
    split; [by rewrite <- app_assoc|]. rewrite filter_app in Hpre. by apply app_eq_nil in Hpre as [? _].
Qed.

(** Whatever order fx chooses, the hooks come in the same order. *)
Lemma hooks_in_order calls : fx_built main calls → hooks_of calls = app_hooks.
Proof.
  intros B. destruct (pool_before_invocations calls B) as (pre & post & -> & Hpre).
  pose proof (fb_once _ _ B) as N. apply NoDup_app in N as (_ & N1 & N2%NoDup_cons).
  pose proof (fb_invoked _ _ B) as F. rewrite filter_app, Hpre in F. cbn [app] in F.
  rewrite filter_cons in F. simpl in F.
  rewrite hooks_of_app. unfold hooks_of at 2. csimpl. fold (hooks_of post).
  rewrite (hooks_of_invoked pre), (hooks_of_invoked post), Hpre, F; [reflexivity|..].
  - intros f Hf Hi. split; [apply (fb_known _ _ B); set_solver|]. intros ->. by destruct N2.
  - intros f Hf Hi. split; [apply (fb_known _ _ B); set_solver|]. intros ->. by apply (N1 newPool_func Hf); left.
Qed.

(** ** Properties *)

(** C16: the application is wired up.  No type is provided twice, and there is an
    order in which every constructor is called with its parameters at hand, so
    nothing is missing and nothing depends on itself; and whatever order fx takes
    among those its documentation allows, the hooks of the life cycle are
    appended in the same order: the pool's first, then migrations, storage, the
    TCP client, the inbound listener, the worker, the two sweepers, the server
    and the greeting. *)
Theorem application_wired :
  NoDup (given main ++ omap fn_gives (constructors main)) ∧
  (∃ calls, fx_built main calls ∧ ∀ f, f ∈ constructors main → f ∈ calls) ∧
  ∀ calls, fx_built main calls → hooks_of calls = app_hooks.
Proof.
  split; [apply (bool_decide_unpack _); vm_compute; done|]. split; [|apply hooks_in_order].
  exists (build main). split; [apply main_builds|].
  assert (Forall (λ f, f ∈ build main) (constructors main)) as H by (apply (bool_decide_unpack _); vm_compute; done).
  by rewrite Forall_forall in H.
Qed.
