(* ===== verification/Process.v ===== *)
(** The life of the process: the hooks that the components append to
    [fx.Lifecycle], run by fx against the goroutines they start.

    [server.RegisterLifecycle], the hooks of [db.Module], [newPool],
    [storage.Module] and [signal.Module], [RegisterInboundListener],
    [worker.RegisterLifecycle], [RegisterCleanupLifecycle],
    [RegisterTimeoutReaperLifecycle] and [registerHello].  The background loops are
    those of [Lifecycle]; they, the server's goroutine and fx interleave. *)

From stdpp Require Import functions.
From S2P Require Import Prelude Errors Domain Config Lifecycle Wiring.

(** ** State *)

Inductive tcp_state := TcpIdle | TcpRunning | TcpClosed.

(** The server's goroutine: [srv.Start] was called, listens, returned an error, or
    was shut down. *)
Inductive server_state := SvIdle | SvStarting | SvListening | SvExited | SvShutdown.

Record process := MkProcess {
  pr_pool : bool;                       (* the connection pool is open *)
  pr_migrated : bool;                   (* runMigrations returned nil *)
  pr_storage : bool;                    (* the bucket and the local directory exist *)
  pr_tcp : tcp_state;
  pr_loops : component → lifecycle;
  pr_server : server_state;
  pr_exit : option Z;                   (* the exit code that was asked for *)
  pr_errors : list hook;                (* hooks whose OnStop returned an error *)
  pr_log : list string;
}.

(** After [fx.New]: [newPool] has connected, nothing has started. *)
Definition constructed : process :=
  MkProcess true false false TcpIdle (λ _, idle) SvIdle None [] [].

Definition set_pool b p := MkProcess b (pr_migrated p) (pr_storage p) (pr_tcp p) (pr_loops p) (pr_server p)
  (pr_exit p) (pr_errors p) (pr_log p).
Definition set_migrated p := MkProcess (pr_pool p) true (pr_storage p) (pr_tcp p) (pr_loops p) (pr_server p)
  (pr_exit p) (pr_errors p) (pr_log p).
Definition set_storage p := MkProcess (pr_pool p) (pr_migrated p) true (pr_tcp p) (pr_loops p) (pr_server p)
  (pr_exit p) (pr_errors p) (pr_log p).
Definition set_tcp t p := MkProcess (pr_pool p) (pr_migrated p) (pr_storage p) t (pr_loops p) (pr_server p)
  (pr_exit p) (pr_errors p) (pr_log p).
Definition set_loop (c : component) (l : lifecycle) p := MkProcess (pr_pool p) (pr_migrated p) (pr_storage p) (pr_tcp p)
  (<[c := l]> (pr_loops p)) (pr_server p) (pr_exit p) (pr_errors p) (pr_log p).
Definition set_server s p := MkProcess (pr_pool p) (pr_migrated p) (pr_storage p) (pr_tcp p) (pr_loops p) s
  (pr_exit p) (pr_errors p) (pr_log p).
Definition add_error h p := MkProcess (pr_pool p) (pr_migrated p) (pr_storage p) (pr_tcp p) (pr_loops p)
  (pr_server p) (pr_exit p) (h :: pr_errors p) (pr_log p).
Definition set_exit z p := MkProcess (pr_pool p) (pr_migrated p) (pr_storage p) (pr_tcp p) (pr_loops p)
  (pr_server p) (Some z) (pr_errors p) (pr_log p).
Definition add_log m p := MkProcess (pr_pool p) (pr_migrated p) (pr_storage p) (pr_tcp p) (pr_loops p)
  (pr_server p) (pr_exit p) (pr_errors p) (pr_log p ++ [m]).

(** The hook of each background component. *)
Definition loop_of (h : hook) : option component :=
  match h with
  | InboundHook => Some Inbound_
  | WorkerHook => Some Worker_
  | CleanupHook => Some Cleanup_
  | ReaperHook => Some Reaper_
  | _ => None
  end.
Definition hook_of (c : component) : hook :=
  match c with
  | Inbound_ => InboundHook | Worker_ => WorkerHook | Cleanup_ => CleanupHook | Reaper_ => ReaperHook
  end.

(** ** The hooks *)

Section process.
Variable cfg : component → loop_config.

(** What an OnStart returns; [ans] is the outcome of the migrations, or of the
    bucket and directory. *)
Definition start_error (h : hook) (ans : option error) : option error :=
  match h with MigrateHook | StorageHook => ans | _ => None end.

(** [registerHello]. *)
Definition registerHello_OnStart (p : process) : process := add_log "starting app" p.
Definition registerHello_OnStop (p : process) : process := add_log "shutting down app" p.

(** [server.RegisterLifecycle]: a goroutine calls [srv.Start]. *)
Definition server_OnStart (p : process) : process := set_server SvStarting p.
(** What that goroutine does with the error: log, and ask for exit code 1. *)
Definition server_start_failed (p : process) : process :=
  set_exit 1 (add_log "witchcraft server exited" (set_server SvExited p)).
(** [srv.Shutdown] returned. *)
Definition server_OnStop (err : option error) (p : process) : process :=
  match err with None => set_server SvShutdown p | Some _ => p end.

(** [signal.Module]. *)
Definition signal_OnStart (p : process) : process := add_log "signal-cli tcp client started" (set_tcp TcpRunning p).
Definition signal_OnStop (p : process) : process := set_tcp TcpClosed p.

(** [RegisterInboundListener], [RegisterLifecycle] of the worker,
    [RegisterCleanupLifecycle] and [RegisterTimeoutReaperLifecycle]: OnStart is
    the component's Start, OnStop its Stop. *)
Definition loop_OnStart (c : component) (p : process) : process :=
  set_loop c (lc_Start c (cfg c) (pr_loops p c)) p.
Definition loop_OnStop (c : component) (p : process) : process :=
  set_loop c (lc_Stop c (cfg c) (pr_loops p c)) p.
Definition RegisterInboundListener : (process → process) * (process → process) :=
  (loop_OnStart Inbound_, loop_OnStop Inbound_).
Definition worker_RegisterLifecycle : (process → process) * (process → process) :=
  (loop_OnStart Worker_, loop_OnStop Worker_).
Definition RegisterCleanupLifecycle : (process → process) * (process → process) :=
  (loop_OnStart Cleanup_, loop_OnStop Cleanup_).
Definition RegisterTimeoutReaperLifecycle : (process → process) * (process → process) :=
  (loop_OnStart Reaper_, loop_OnStop Reaper_).

(** The OnStart of a hook. *)
Definition on_start (h : hook) (ans : option error) (p : process) : process :=
  match h with
  | PoolHook => p
  | MigrateHook => match ans with None => set_migrated p | Some _ => p end
  | StorageHook => match ans with None => set_storage p | Some _ => p end
  | TcpHook => signal_OnStart p
  | InboundHook => RegisterInboundListener.1 p
  | WorkerHook => worker_RegisterLifecycle.1 p
  | CleanupHook => RegisterCleanupLifecycle.1 p
  | ReaperHook => RegisterTimeoutReaperLifecycle.1 p
  | ServerHook => server_OnStart p
  | HelloHook => registerHello_OnStart p
  end.

(** OnStop up to the point where it may wait; a hook without one does nothing. *)
Definition on_stop (h : hook) (p : process) : process :=
  match h with
  | PoolHook => set_pool false p
  | MigrateHook | StorageHook | ServerHook => p
  | TcpHook => signal_OnStop p
  | InboundHook => RegisterInboundListener.2 p
  | WorkerHook => worker_RegisterLifecycle.2 p
  | CleanupHook => RegisterCleanupLifecycle.2 p
  | ReaperHook => RegisterTimeoutReaperLifecycle.2 p
  | HelloHook => registerHello_OnStop p
  end.

(** The return of a component's Stop: the result it has, or a step of its select. *)
Definition loop_stopped (c : component) (err : option error) (s : lifecycle) : option lifecycle :=
  match lc_stop s with
  | NotStopping => None
  | Returned r => if bool_decide (is_Some r ↔ is_Some err) then Some s else None
  | Waiting => lstep c (cfg c) (match err with None => LDrained | Some _ => LTimeout end) s
  end.

(** OnStop returns. *)
Definition on_stopped (h : hook) (err : option error) (p : process) : option process :=
  let done p := match err with None => p | Some _ => add_error h p end in
  match h with
  | ServerHook => Some (done (server_OnStop err p))
  | TcpHook => Some (done p)
  | PoolHook | MigrateHook | StorageHook | HelloHook => match err with None => Some p | Some _ => None end
  | InboundHook | WorkerHook | CleanupHook | ReaperHook =>
      match loop_of h with
      | Some c => match loop_stopped c err (pr_loops p c) with
                  | Some l => Some (done (set_loop c l p))
                  | None => None
                  end
      | None => None
      end
  end.

Inductive paction :=
| PStart (h : hook) (ans : option error)       (* fx runs an OnStart *)
| PShutdown                                    (* a signal or the Shutdowner ends the wait of fx *)
| PStop (h : hook)                             (* fx calls an OnStop *)
| PStopped (h : hook) (err : option error)     (* and it returns *)
| PLoop (c : component) (a : laction)          (* a goroutine of a component *)
| PServe                                       (* the server's goroutine starts to listen *)
| PServeError.                                 (* srv.Start returns an error *)

Definition goroutine_action (a : laction) : bool :=
  match a with LWork | LExit | LClose => true | _ => false end.

Definition pstep (a : paction) (p : process) : option process :=
  match a with
  | PStart h ans => Some (on_start h ans p)
  | PShutdown => Some p
  | PStop h => Some (on_stop h p)
  | PStopped h err => on_stopped h err p
  | PLoop c l => if goroutine_action l
                 then match lstep c (cfg c) l (pr_loops p c) with
                      | Some s => Some (set_loop c s p)
                      | None => None
                      end
                 else None
  | PServe => match pr_server p with SvStarting => Some (set_server SvListening p) | _ => None end
  | PServeError =>
      match pr_server p with SvStarting | SvListening => Some (server_start_failed p) | _ => None end
  end.

Fixpoint perform (acts : list paction) (p : process) : option process :=
  match acts with
  | [] => Some p
  | a :: l => match pstep a p with Some p' => perform l p' | None => None end
  end.
End process.

(** ** What fx promises about hooks

    OnStart callbacks run in the order of their hooks; the first error ends the
    start-up; once all have run fx waits for a signal or the Shutdowner.  Then the
    OnStop callbacks of the hooks that started run in reverse order, each after
    the one before it returned, and all of them even if some fail. *)

Inductive fx_event :=
| Started (h : hook) (ok : bool) | ShutdownAsked | StopCalled (h : hook) | StopReturned (h : hook).

Definition fx_label (a : paction) : option fx_event :=
  match a with
  | PStart h ans => Some (Started h (match start_error h ans with None => true | Some _ => false end))
  | PShutdown => Some ShutdownAsked
  | PStop h => Some (StopCalled h)
  | PStopped h _ => Some (StopReturned h)
  | _ => None
  end.

Record fx_state := MkFx {
  fx_todo : list hook;                  (* to be started *)
  fx_started : list hook;               (* started, the last first *)
  fx_stopping : bool;
  fx_waiting : option hook;             (* the OnStop that has not returned *)
}.

Definition fx_step (e : fx_event) (f : fx_state) : option fx_state :=
  match e with
  | Started h ok =>
      match fx_stopping f, fx_todo f with
      | false, h' :: rest =>
          if bool_decide (h = h')
          then Some (if ok then MkFx rest (h :: fx_started f) false None else MkFx rest (fx_started f) true None)
          else None
      | _, _ => None
      end
  | ShutdownAsked =>
      match fx_stopping f, fx_todo f with
      | false, [] => Some (MkFx [] (fx_started f) true None)
      | _, _ => None
      end
  | StopCalled h =>
      match fx_stopping f, fx_waiting f, fx_started f with
      | true, None, h' :: rest =>
          if bool_decide (h = h') then Some (MkFx (fx_todo f) rest true (Some h)) else None
      | _, _, _ => None
      end
  | StopReturned h =>
      if bool_decide (fx_waiting f = Some h) then Some (MkFx (fx_todo f) (fx_started f) (fx_stopping f) None)
      else None
  end.

Fixpoint fx_accepts (evs : list fx_event) (f : fx_state) : option fx_state :=
  match evs with
  | [] => Some f
  | e :: l => match fx_step e f with Some f' => fx_accepts l f' | None => None end
  end.

Definition fx_initial (hooks : list hook) : fx_state := MkFx hooks [] false None.

(** ** Positions in the list of hooks *)

Definition rank (c : component) : nat :=
  match c with Inbound_ => 4 | Worker_ => 5 | Cleanup_ => 6 | Reaper_ => 7 end.

Lemma rank_bounds c : (3 < rank c < 8)%nat.
Proof. destruct c; simpl; lia. Qed.

(** Every hook has one place. *)
Lemma hook_place k h :
  app_hooks !! k = Some h →
  (k < 10)%nat ∧ (∀ c, h = hook_of c ↔ k = rank c) ∧ (h = PoolHook ↔ k = 0%nat) ∧ (h = MigrateHook ↔ k = 1%nat) ∧
  (h = StorageHook ↔ k = 2%nat) ∧ (h = TcpHook ↔ k = 3%nat) ∧ (h = ServerHook ↔ k = 8%nat).
Proof.
  do 10 (destruct k as [|k]; [intros [= <-]; split; [lia|]; split_and!; try intros []; split; done || lia|]).
  by rewrite lookup_ge_None_2 by (simpl; lia).
Qed.

Lemma drop_place k h rest : drop k app_hooks = h :: rest → app_hooks !! k = Some h ∧ rest = drop (S k) app_hooks.
Proof.
  intros E. assert (app_hooks !! k = Some h) as L.
  { rewrite <- (Nat.add_0_r k), <- lookup_drop. by rewrite E. }
  split; [done|]. rewrite (drop_S _ _ _ L) in E. by injection E.
Qed.

Lemma take_place k h : app_hooks !! k = Some h → rev (take (S k) app_hooks) = h :: rev (take k app_hooks).
Proof. intros L. by rewrite (take_S_r _ _ _ L), rev_app_distr. Qed.

Lemma started_place k h rest :
  (k ≤ 10)%nat → rev (take k app_hooks) = h :: rest →
  ∃ k', k = S k' ∧ app_hooks !! k' = Some h ∧ rest = rev (take k' app_hooks).
Proof.
  intros Hk E. destruct k as [|k]; [done|]. destruct (app_hooks !! k) as [h'|] eqn:L.
  - rewrite (take_place _ _ L) in E. injection E as <- <-. eauto.
  - apply lookup_ge_None in L. simpl in L. lia.
Qed.

(** ** What the hooks change *)

Section effects.
Variable cfg : component → loop_config.

Ltac effects := intros; repeat case_match; simplify_eq; try done.

Lemma on_start_loop h ans p c :
  pr_loops (on_start cfg h ans p) c
  = if bool_decide (h = hook_of c) then lc_Start c (cfg c) (pr_loops p c) else pr_loops p c.
Proof. destruct h, c; try done; destruct ans; done. Qed.

Lemma on_stop_loop h p c :
  pr_loops (on_stop cfg h p) c
  = if bool_decide (h = hook_of c) then lc_Stop c (cfg c) (pr_loops p c) else pr_loops p c.
Proof. destruct h, c; done. Qed.

Lemma on_start_rest h ans p :
  pr_pool (on_start cfg h ans p) = pr_pool p ∧ pr_errors (on_start cfg h ans p) = pr_errors p ∧
  pr_migrated (on_start cfg h ans p)
    = (if bool_decide (h = MigrateHook) then match ans with None => true | _ => pr_migrated p end else pr_migrated p) ∧
  pr_storage (on_start cfg h ans p)
    = (if bool_decide (h = StorageHook) then match ans with None => true | _ => pr_storage p end else pr_storage p) ∧
  pr_tcp (on_start cfg h ans p) = (if bool_decide (h = TcpHook) then TcpRunning else pr_tcp p) ∧
  pr_server (on_start cfg h ans p) = (if bool_decide (h = ServerHook) then SvStarting else pr_server p).
Proof. destruct h; try done; destruct ans; done. Qed.

Lemma on_stop_rest h p :
  pr_errors (on_stop cfg h p) = pr_errors p ∧ pr_migrated (on_stop cfg h p) = pr_migrated p ∧
  pr_storage (on_stop cfg h p) = pr_storage p ∧ pr_server (on_stop cfg h p) = pr_server p ∧
  pr_pool (on_stop cfg h p) = (if bool_decide (h = PoolHook) then false else pr_pool p) ∧
  pr_tcp (on_stop cfg h p) = (if bool_decide (h = TcpHook) then TcpClosed else pr_tcp p).
Proof. by destruct h. Qed.

Lemma on_stopped_rest h err p p' :
  on_stopped cfg h err p = Some p' →
  pr_pool p' = pr_pool p ∧ pr_migrated p' = pr_migrated p ∧ pr_storage p' = pr_storage p ∧ pr_tcp p' = pr_tcp p ∧
  pr_errors p' = (match err with None => [] | Some _ => [h] end) ++ pr_errors p ∧
  pr_server p' = match err with None => if bool_decide (h = ServerHook) then SvShutdown else pr_server p
                 | Some _ => pr_server p end ∧
  ∀ c, if bool_decide (h = hook_of c) then loop_stopped cfg c err (pr_loops p c) = Some (pr_loops p' c)
       else pr_loops p' c = pr_loops p c.
Proof.
  destruct h; cbn [on_stopped loop_of]; try (destruct err; effects; split_and!; try done; intros []; done);
    destruct (loop_stopped cfg _ err _) as [l|] eqn:E; try done; intros [= <-];
    destruct err; split_and!; try done; intros []; done.
Qed.

(** ** The invariant *)

(** [k] hooks are started, [m] were. *)
Record fx_at (f : fx_state) (k m : nat) : Prop := {
  fa_le : (k ≤ m ≤ 10)%nat;
  fa_started : fx_started f = rev (take k app_hooks);
  fa_starting : fx_stopping f = false → fx_todo f = drop k app_hooks ∧ m = k ∧ fx_waiting f = None;
  fa_waiting h : fx_waiting f = Some h → app_hooks !! k = Some h ∧ (k < m)%nat;
  fa_stopping : fx_stopping f = true → (0 < m)%nat;
}.

Record loop_at (f : fx_state) (k m : nat) (errs : list hook) (c : component) (l : lifecycle) : Prop := {
  la_reach : lreachable c (cfg c) l;
  la_before : (m ≤ rank c)%nat → l = idle;
  la_up : (rank c < k)%nat → lc_stop l = NotStopping;
  la_down : (k ≤ rank c < m)%nat → fx_waiting f ≠ Some (hook_of c) →
            ∃ e, lc_stop l = Returned e ∧ (is_Some e → hook_of c ∈ errs);
}.

Record process_at (f : fx_state) (k m : nat) (p : process) : Prop := {
  pa_pool : (0 < k)%nat ∨ fx_stopping f = false → pr_pool p = true;
  pa_closed : k = 0%nat → (0 < m)%nat → pr_pool p = false;
  pa_migrated : (1 < m)%nat → pr_migrated p = true;
  pa_storage : (2 < m)%nat → pr_storage p = true;
  pa_tcp : pr_tcp p = if (3 <? k)%nat then TcpRunning else if (3 <? m)%nat then TcpClosed else TcpIdle;
  pa_loop c : loop_at f k m (pr_errors p) c (pr_loops p c);
  pa_server : (m ≤ 8)%nat → pr_server p = SvIdle;
  pa_server_down : (k ≤ 8 < m)%nat → fx_waiting f ≠ Some ServerHook →
    pr_server p = SvExited ∨ pr_server p = SvShutdown ∨ ServerHook ∈ pr_errors p;
}.

Lemma at_start : fx_at (fx_initial app_hooks) 0 0 ∧ process_at (fx_initial app_hooks) 0 0 constructed.
Proof.
  split; split; simpl; try done; try lia. intros c. split; simpl; try done; try lia. constructor.
Qed.
(** *** Steps of the loops *)

Lemma goroutine_stop c a l l' :
  goroutine_action a = true → lstep c (cfg c) a l = Some l' → lc_stop l' = lc_stop l.
Proof. destruct a; try done; cbn [lstep]; intros _; repeat case_match; try done; by intros [= <-]. Qed.

Lemma goroutine_idle c a : goroutine_action a = true → lstep c (cfg c) a idle = None.
Proof. by destruct a. Qed.

Lemma loop_started c :
  lreachable c (cfg c) (lc_Start c (cfg c) idle) ∧ lc_stop (lc_Start c (cfg c) idle) = NotStopping.
Proof.
  split; [by apply (lreach_step c (cfg c) LStart idle); [constructor|]|].
  destruct c; cbn; unfold timeoutReaper_Start, sweeper_Start, inbound_Start; try done; by case_match.
Qed.

Lemma loop_stopped_returns c err l l' :
  lreachable c (cfg c) l → loop_stopped cfg c err l = Some l' →
  lreachable c (cfg c) l' ∧ ∃ e, lc_stop l' = Returned e ∧ (is_Some e → is_Some err).
Proof.
  intros R. unfold loop_stopped. destruct (lc_stop l) as [| |r] eqn:E; [done| |].
  - intros H. split; [by eapply lreach_step|]. destruct err; cbn [lstep] in H; rewrite E in H.
    + injection H as <-. eexists. split; [done|]. by eexists.
    + destruct (lc_done l); [|done]. injection H as <-. eexists. split; [done|]. by intros [].
  - case_bool_decide as Hr; [|done]. intros [= <-]. split; [done|]. exists r. split; [done|]. apply Hr.
Qed.

(** *** One lemma per action *)

Section steps.
Context (f : fx_state) (k m : nat) (p : process).
Hypothesis F : fx_at f k m.
Hypothesis P : process_at f k m p.

Lemma start_ok h ans f' :
  start_error h ans = None → fx_step (Started h true) f = Some f' →
  fx_at f' (S k) (S k) ∧ process_at f' (S k) (S k) (on_start cfg h ans p).
Proof using F P.
  intros Ha E. cbn [fx_step] in E. destruct (fx_stopping f) eqn:Es; [done|].
  destruct (fa_starting _ _ _ F Es) as (Et & -> & Hw). rewrite Et in E.
  destruct (drop k app_hooks) as [|h' rest] eqn:Ed; [done|]. case_bool_decide; [subst h'|done]. injection E as <-.
  destruct (drop_place _ _ _ Ed) as [L ->]. destruct (hook_place _ _ L) as (Hk & Hc & H0 & H1 & H2 & H3 & H8).
  destruct (on_start_rest h ans p) as (R0 & R1 & R2 & R3 & R4 & R5). split.
  { split; cbn [fx_started fx_stopping fx_todo fx_waiting]; [lia| |done|done|done].
    by rewrite (take_place _ _ L), (fa_started _ _ _ F). }
  pose proof P as [Q1 Q2 Q3 Q4 Q5 Q6 Q7 Q8]. split; rewrite ?R0, ?R1, ?R2, ?R3, ?R4, ?R5; cbn [fx_stopping fx_waiting];
    clear R0 R2 R3 R4 R5.
  - intros _. apply Q1. by right.
  - done.
  - intros Hm. case_bool_decide as Hb; [rewrite Hb in Ha; cbn in Ha; by destruct ans|]. apply Q3.
    destruct (decide (k = 1%nat)); [by destruct Hb; apply H1|lia].
  - intros Hm. case_bool_decide as Hb; [rewrite Hb in Ha; cbn in Ha; by destruct ans|]. apply Q4.
    destruct (decide (k = 2%nat)); [by destruct Hb; apply H2|lia].
  - case_bool_decide as Hb; [apply H3 in Hb as ->; done|]. rewrite Q5.
    destruct (Nat.ltb_spec 3 k), (Nat.ltb_spec 3 (S k)); try done; [lia|]. destruct Hb. apply H3. lia.
  - intros c. destruct (Q6 c) as [A1 A2 A3 A4]. rewrite on_start_loop. clear R1. case_bool_decide as Hb.
    + apply Hc in Hb. rewrite A2 by lia. destruct (loop_started c) as [B1 B2]. split; [done|lia|done|lia].
    + assert (k ≠ rank c) by (by rewrite <- Hc). split; [done|intros; apply A2; lia|intros; apply A3; lia|lia].
  - intros Hm. case_bool_decide as Hb; [apply H8 in Hb; lia|]. apply Q7. lia.
  - lia.
Qed.

Lemma start_failed h ans f' :
  is_Some (start_error h ans) → fx_step (Started h false) f = Some f' →
  fx_at f' k m ∧ process_at f' k m (on_start cfg h ans p).
Proof using F P.
  intros [e Ha] E. cbn [fx_step] in E. destruct (fx_stopping f) eqn:Es; [done|].
  destruct (fa_starting _ _ _ F Es) as (Et & -> & Hw). rewrite Et in E.
  destruct (drop k app_hooks) as [|h' rest] eqn:Ed; [done|]. case_bool_decide; [subst h'|done]. injection E as <-.
  assert (on_start cfg h ans p = p) as -> by (destruct h; try done; by destruct ans).
  destruct (drop_place _ _ _ Ed) as [L _]. destruct (hook_place _ _ L) as (_ & _ & _ & H1 & H2 & _).
  assert (0 < k)%nat as Hk.
  { destruct h; try done; [rewrite (proj1 H1 eq_refl)|rewrite (proj1 H2 eq_refl)]; lia. }
  split; [split; cbn [fx_started fx_stopping fx_todo fx_waiting]; [apply F|apply F|done|done|done]|].
  pose proof P as [Q1 Q2 Q3 Q4 Q5 Q6 Q7 Q8]. split; cbn [fx_stopping fx_waiting]; try done.
  - intros _. apply Q1. by right.
  - intros c. destruct (Q6 c) as [A1 A2 A3 A4]. split; [done|done|done|lia].
  - lia.
Qed.

Lemma stop_called h f' :
  fx_step (StopCalled h) f = Some f' →
  ∃ k', k = S k' ∧ fx_at f' k' m ∧ process_at f' k' m (on_stop cfg h p).
Proof using F P.
  intros E. cbn [fx_step] in E. destruct (fx_stopping f) eqn:Es; [|done]. destruct (fx_waiting f) eqn:Ew; [done|].
  destruct (fx_started f) as [|h' rest] eqn:Et; [done|]. case_bool_decide; [subst h'|done]. injection E as <-.
  rewrite (fa_started _ _ _ F) in Et. pose proof (fa_le _ _ _ F) as Hle.
  destruct (started_place k h rest) as (k' & -> & L & ->); [lia|done|]. exists k'. split; [done|].
  destruct (hook_place _ _ L) as (Hk & Hc & H0 & H1 & H2 & H3 & H8).
  destruct (on_stop_rest h p) as (R0 & R1 & R2 & R3 & R4 & R5).
  split.
  { split; cbn [fx_started fx_stopping fx_todo fx_waiting]; [lia|done|done| |lia]. intros ? [= <-]. split; [done|lia]. }
  pose proof P as [Q1 Q2 Q3 Q4 Q5 Q6 Q7 Q8]. split; rewrite ?R0, ?R1, ?R2, ?R3, ?R4, ?R5; cbn [fx_stopping fx_waiting];
    clear R1 R2 R3 R4 R5; try done.
  - intros [Hp|]; [|done]. case_bool_decide as Hb; [apply H0 in Hb; lia|]. apply Q1. left. lia.
  - intros Hz _. by rewrite bool_decide_eq_true_2 by (by apply H0).
  - case_bool_decide as Hb; [apply H3 in Hb as ->; simpl; destruct m as [|[|[|[|]]]]; simpl; done || lia|]. rewrite Q5.
    destruct (Nat.ltb_spec 3 k'), (Nat.ltb_spec 3 (S k')); try done; [lia|]. destruct Hb. apply H3. lia.
  - intros c. destruct (Q6 c) as [A1 A2 A3 A4]. rewrite on_stop_loop. clear R0. case_bool_decide as Hb.
    + pose proof Hb as Hr. apply Hc in Hr. split; [|lia|lia|intros _ Hx; destruct Hx; cbn; by rewrite Hb].
      apply (lreach_step c (cfg c) LStop _ _ A1). cbn [lstep]. by rewrite A3 by lia.
    + assert (k' ≠ rank c) by (by rewrite <- Hc). split; [done|done|intros; apply A3; lia|].
      intros ? _. apply A4; [lia|by rewrite Ew].
  - intros Hm Hn. apply Q8; [|by rewrite Ew]. split; [|lia]. destruct (decide (k' = 8%nat)) as [E8|]; [|lia].
    apply H8 in E8. congruence.
Qed.

Lemma stop_returned h err f' p' :
  fx_step (StopReturned h) f = Some f' → on_stopped cfg h err p = Some p' →
  fx_at f' k m ∧ process_at f' k m p'.
Proof using F P.
  intros E Ep. cbn [fx_step] in E. case_bool_decide as Ew; [|done]. injection E as <-.
  destruct (fa_waiting _ _ _ F h Ew) as [L Hkm]. destruct (hook_place _ _ L) as (Hk & Hc & H0 & H1 & H2 & H3 & H8).
  apply on_stopped_rest in Ep as (R0 & R1 & R2 & R3 & R4 & R5 & R6).
  assert (fx_stopping f = true) as Es.
  { destruct (fx_stopping f) eqn:?; [done|]. destruct (fa_starting _ _ _ F) as (_ & _ & ?); [done|congruence]. }
  split; [split; cbn [fx_started fx_stopping fx_todo fx_waiting]; [apply F|apply F|congruence|done|apply F]|].
  pose proof P as [Q1 Q2 Q3 Q4 Q5 Q6 Q7 Q8]. split; rewrite ?R0, ?R1, ?R2, ?R3; cbn [fx_stopping fx_waiting]; try done.
  - intros c. destruct (Q6 c) as [A1 A2 A3 A4]. specialize (R6 c). clear R5. case_bool_decide as Hb.
    + destruct (loop_stopped_returns _ _ _ _ A1 R6) as [B1 (e & B2 & B3)]. apply Hc in Hb as Hr.
      split; [done|lia|lia|]. intros _ _. exists e. split; [done|]. intros He. destruct (B3 He) as [x ->].
      rewrite R4, <- Hb. by left.
    + rewrite R6. split; [done|done|done|]. intros Hr _. destruct A4 as (e & B1 & B2); [done|congruence|].
      exists e. split; [done|]. intros He. rewrite R4. set_solver.
  - intros Hm. rewrite R5, Q7 by done. destruct err; [done|]. case_bool_decide as Hb; [|done]. apply H8 in Hb. lia.
  - intros Hm _. rewrite R4, R5. destruct (decide (h = ServerHook)) as [->|Hn].
    + destruct err; [right; right; by left|]. right. left. done.
    + rewrite (bool_decide_eq_false_2 _ Hn). destruct Q8 as [?|[?|?]]; [done|congruence|..];
        destruct err; set_solver.
Qed.

Lemma goroutine_step c a l :
  goroutine_action a = true → lstep c (cfg c) a (pr_loops p c) = Some l → process_at f k m (set_loop c l p).
Proof using P.
  intros Ha El. pose proof P as [Q1 Q2 Q3 Q4 Q5 Q6 Q7 Q8]. split; try done. intros c'. cbn [set_loop pr_loops pr_errors].
  destruct (decide (c = c')) as [<-|]; [rewrite fn_lookup_insert|by rewrite fn_lookup_insert_ne].
  destruct (Q6 c) as [A1 A2 A3 A4]. pose proof (goroutine_stop _ _ _ _ Ha El) as Hs.
  split; [by eapply lreach_step| |by rewrite Hs|by rewrite Hs].
  intros Hm. rewrite A2 in El by done. by rewrite goroutine_idle in El.
Qed.

Lemma server_step s :
  pr_server p = SvStarting ∨ pr_server p = SvListening → s = SvListening ∨ s = SvExited →
  process_at f k m (set_server s p).
Proof using P.
  intros Hs Hs'. pose proof P as [Q1 Q2 Q3 Q4 Q5 Q6 Q7 Q8]. split; try done; cbn [set_server pr_server pr_errors].
  - intros Hm. specialize (Q7 Hm). destruct Hs; congruence.
  - intros Hm Hw. destruct (Q8 Hm Hw) as [?|[?|?]]; [destruct Hs; congruence..|]. by right; right.
Qed.
End steps.

(** *** Every execution *)

(** An action of the process together with what fx makes of it. *)
Lemma joint_step a f k m p p' f' :
  fx_at f k m → process_at f k m p → pstep cfg a p = Some p' →
  match fx_label a with Some e => fx_step e f | None => Some f end = Some f' →
  ∃ k' m', fx_at f' k' m' ∧ process_at f' k' m' p'.
Proof.
  intros F P Hp Hf. destruct a; cbn [pstep fx_label] in *.
  - injection Hp as <-. destruct (start_error h ans) eqn:E.
    + exists k, m. eapply start_failed; [done|done|by rewrite E; eexists|done].
    + exists (S k), (S k). by eapply start_ok.
  - injection Hp as <-. cbn [fx_step] in Hf. destruct (fx_stopping f) eqn:Es; [done|].
    destruct (fa_starting _ _ _ F Es) as (Et & -> & Hw). rewrite Et in Hf.
    destruct (drop k app_hooks) eqn:Ed; [|done]. injection Hf as <-. exists k, k.
    assert (0 < k)%nat as Hk by (destruct k; [done|lia]).
    split; [split; cbn; [apply F|apply F|done|done|done]|].
    pose proof P as [Q1 Q2 Q3 Q4 Q5 Q6 Q7 Q8]. split; cbn; try done.
    + intros _. apply Q1. by right.
    + intros c. destruct (Q6 c) as [A1 A2 A3 A4]. split; [done|done|done|lia].
    + lia.
  - injection Hp as <-. destruct (stop_called f k m p F P h f' Hf) as (k' & _ & F' & P'). by exists k', m.
  - exists k, m. by eapply stop_returned.
  - injection Hf as <-. destruct (goroutine_action a) eqn:Ea; [|done].
    destruct (lstep c (cfg c) a (pr_loops p c)) as [l|] eqn:El; [|done]. injection Hp as <-. exists k, m.
    split; [done|]. by eapply goroutine_step.
  - injection Hf as <-. exists k, m. split; [done|]. destruct (pr_server p) eqn:Es; try done. injection Hp as <-.
    apply server_step; auto.
  - injection Hf as <-. exists k, m. split; [done|].
    assert (pr_server p = SvStarting ∨ pr_server p = SvListening) as Hs by (destruct (pr_server p); auto; done).
    assert (p' = server_start_failed p) as -> by (destruct Hs as [E|E]; rewrite E in Hp; by injection Hp).
    by pose proof (server_step f k m p P SvExited Hs (or_intror eq_refl)) as [].
Qed.

Lemma every_execution acts f k m p p' f' :
  fx_at f k m → process_at f k m p → perform cfg acts p = Some p' → fx_accepts (omap fx_label acts) f = Some f' →
  ∃ k' m', fx_at f' k' m' ∧ process_at f' k' m' p'.
Proof.
  revert f k m p. induction acts as [|a acts IH]; intros f k m p F P Hp Hf; csimpl in *; [simplify_eq; by exists k, m|].
  destruct (pstep cfg a p) as [p1|] eqn:E1; [|done].
  assert (∃ f1, match fx_label a with Some e => fx_step e f | None => Some f end = Some f1 ∧
                fx_accepts (omap fx_label acts) f1 = Some f') as (f1 & E2 & Hf1).
  { destruct (fx_label a) as [e|]; [|by eexists]. simpl in Hf. destruct (fx_step e f); [by eexists|done]. }
  destruct (joint_step _ _ _ _ _ _ _ F P E1 E2) as (k1 & m1 & F1 & P1). by eapply IH.
Qed.
End effects.

(** ** Properties *)

(** A goroutine of a component runs, or the server takes requests. *)
Definition busy (h : hook) (p : process) : Prop :=
  (∃ c, h = hook_of c ∧ (0 < lc_live (pr_loops p c))%nat) ∨ (h = ServerHook ∧ pr_server p = SvListening).

(** C12: what a component uses outlives it.  In every interleaving of fx with the
    goroutines, with the application built in any order that fx may take: while a
    loop of the worker, the reaper, the sweeper or the inbound listener runs, or
    the server takes requests, the migrations have been applied, the bucket
    exists and the TCP client was started; the pool is still open and the TCP
    client still running, unless the component's own OnStop has returned an error
    (its drain ran into the deadline).  So a failed migration or bucket check
    leaves nothing running; and once fx is done the pool is closed. *)
Theorem users_before_resources cfg calls acts p f :
  fx_built main calls →
  perform cfg acts constructed = Some p →
  fx_accepts (omap fx_label acts) (fx_initial (hooks_of calls)) = Some f →
  (∀ h, busy h p →
     pr_migrated p = true ∧ pr_storage p = true ∧ pr_tcp p ≠ TcpIdle ∧
     ((pr_pool p = true ∧ pr_tcp p = TcpRunning) ∨ h ∈ pr_errors p)) ∧
  (fx_stopping f = true → fx_started f = [] → pr_pool p = false ∧ pr_tcp p ≠ TcpRunning).
Proof.
  intros B Hp Hf. rewrite (hooks_in_order calls B) in Hf. destruct (at_start cfg) as [F0 P0].
  destruct (every_execution cfg _ _ _ _ _ _ _ F0 P0 Hp Hf) as (k & m & F & P).
  pose proof P as [Q1 Q2 Q3 Q4 Q5 Q6 Q7 Q8]. pose proof (fa_le _ _ _ F) as Hle. split.
  - (* a busy component sits at some place below m, and at most k unless it failed *)
    intros h Hb. assert (∃ r, (3 < r < m)%nat ∧ ((r ≤ k)%nat ∨ h ∈ pr_errors p)) as (r & Hr & Hk).
    { destruct Hb as [(c & -> & Hl)|(-> & Hs)].
      - exists (rank c). destruct (Q6 c) as [A1 A2 A3 A4]. pose proof (rank_bounds c).
        destruct (decide (rank c < m)%nat); [|rewrite A2 in Hl by lia; simpl in Hl; lia]. split; [lia|].
        destruct (decide (rank c ≤ k)%nat); [by left|]. right. destruct A4 as (e & He & Hin); [lia| |].
        + intros Hw. destruct (fa_waiting _ _ _ F _ Hw) as [L _]. apply hook_place in L as (_ & L & _).
          pose proof (proj1 (L c) eq_refl). lia.
        + destruct e; [by apply Hin|]. pose proof (li_nil _ _ _ (lreachable_linv _ _ _ A1) He). lia.
      - exists 8%nat. destruct (decide (8 < m)%nat); [|rewrite Q7 in Hs by lia; done]. split; [lia|].
        destruct (decide (8 ≤ k)%nat); [by left|]. right. destruct Q8 as [?|[?|?]]; [lia| |congruence..|done].
        intros Hw. destruct (fa_waiting _ _ _ F _ Hw) as [L _]. apply hook_place in L as (_ & _ & _ & _ & _ & _ & L).
        pose proof (proj1 L eq_refl). lia. }
    split_and!; [apply Q3; lia|apply Q4; lia| |].
    + rewrite Q5. destruct (Nat.ltb_spec 3 k), (Nat.ltb_spec 3 m); try done; lia.
    + destruct Hk as [Hk|]; [|by right]. left. split; [apply Q1; left; lia|]. rewrite Q5.
      destruct (Nat.ltb_spec 3 k); [done|lia].
  - intros Hs He. assert (k = 0%nat) as ->.
    { rewrite (fa_started _ _ _ F) in He. destruct k as [|k]; [done|].
      apply (f_equal length) in He. rewrite length_rev, length_take in He. simpl in He. lia. }
    split; [apply Q2; [done|by apply (fa_stopping _ _ _ F)]|]. rewrite Q5. simpl. by destruct (3 <? m)%nat.
Qed.

(** Start-up, a signal, and the shutdown up to the worker, which still works. *)
Definition demo_stop (h : hook) (c : component) : list paction :=
  [PStop h; PLoop c LWork; PLoop c LExit; PLoop c LClose; PStopped h None].
Definition demo_acts : list paction :=
  ((λ h, PStart h None) <$> app_hooks) ++ [PServe; PLoop Worker_ LWork; PShutdown; PStop HelloHook;
    PStopped HelloHook None; PStop ServerHook; PStopped ServerHook None] ++
  demo_stop ReaperHook Reaper_ ++ demo_stop CleanupHook Cleanup_ ++ [PStop WorkerHook; PLoop Worker_ LWork].

Definition demo_cfg (_ : component) : loop_config := MkLoopConfig true 2.

(** Its end state, observed without comparing functions. *)
Lemma demo_observed :
  match perform demo_cfg demo_acts constructed with
  | Some p => Some (pr_server p, lc_live (pr_loops p Worker_), pr_errors p)
  | None => None
  end = Some (SvShutdown, 2%nat, []).
Proof. vm_compute. reflexivity. Qed.

Lemma users_before_resources_witness :
  ∃ p f, perform demo_cfg demo_acts constructed = Some p ∧
    fx_accepts (omap fx_label demo_acts) (fx_initial (hooks_of (build main))) = Some f ∧
    pr_server p = SvShutdown ∧ lc_live (pr_loops p Worker_) = 2%nat ∧ pr_errors p = [] ∧ pr_pool p = true.
Proof.
  pose proof demo_observed as O. destruct (perform demo_cfg demo_acts constructed) as [p|] eqn:Ep; [|discriminate].
  injection O as O1 O2 O3. set (f := MkFx [] [InboundHook; TcpHook; StorageHook; MigrateHook; PoolHook] true (Some WorkerHook)).
  assert (fx_accepts (omap fx_label demo_acts) (fx_initial (hooks_of (build main))) = Some f) as Ef
    by (vm_compute; reflexivity).
  exists p, f. split; [reflexivity|]. split; [exact Ef|]. split; [exact O1|]. split; [exact O2|]. split; [exact O3|].
  destruct (users_before_resources demo_cfg (build main) demo_acts p f main_builds Ep Ef) as [H _].
  assert (busy WorkerHook p) as Hb by (left; exists Worker_; split; [reflexivity|rewrite O2; apply Nat.lt_0_succ]).
  destruct (H WorkerHook Hb) as (_ & _ & _ & [[Hpool _]|Hin]); [exact Hpool|].
  rewrite O3 in Hin. apply elem_of_nil in Hin. destruct Hin.
Defined.
