(* ===== verification/Delivery.v ===== *)
(** From the post to the send: the worker of [internal/worker/worker.go] over the
    table and the objects that an upload left, with the downloads of
    [internal/storage/object_store.go] on a directory of files and a signal-cli
    that accepts what it is sent. *)

From Stdlib Require Import Ascii.
From S2P Require Import Prelude Errors Domain Config Sqlc SqlcFacts Outbox Repo GoText Json JsonFacts JsonStructs Backoff MessageBuilder Prog SendMessage Handler Worker ObjectStore Upload.

(** ** The world around a worker *)

Record world := MkWorld {
  wo_now : time;
  wo_table : table;
  wo_objects : gmap (string * string) string;
  wo_files : gmap string string;
  wo_reading : string;                                  (* the object being read *)
  wo_sent : list (SendParams * list (option string));   (* what was sent, with its files *)
  wo_timestamp : Z;                                     (* what signal-cli answers *)
}.

Definition set_files w f := MkWorld (wo_now w) (wo_table w) (wo_objects w) f (wo_reading w) (wo_sent w) (wo_timestamp w).
Definition set_reading w b := MkWorld (wo_now w) (wo_table w) (wo_objects w) (wo_files w) b (wo_sent w) (wo_timestamp w).
Definition set_rows w t := MkWorld (wo_now w) t (wo_objects w) (wo_files w) (wo_reading w) (wo_sent w) (wo_timestamp w).

(** MinIO and the file system, when nothing fails. *)
Definition store_do (X : Type) (e : StoreE X) : world → X * world :=
  match e in StoreE X return world → X * world with
  | MakeBucket _ _ | MkdirAll _ | CloseObject _ _ | CloseFile _ => λ w, (None, w)
  | PutObject _ k _ _ => λ w, (Ok k, w)
  | RemoveObject b k => λ w,
      (None, MkWorld (wo_now w) (wo_table w) (delete (b, k) (wo_objects w)) (wo_files w) (wo_reading w) (wo_sent w)
               (wo_timestamp w))
  | GetObject b k => λ w,
      match wo_objects w !! (b, k) with
      | Some body => (None, set_reading w body)
      | None => (Some (ErrMsg "NoSuchKey"), w)
      end
  | OpenFile p => λ w, (None, set_files w (<[p := ""]> (wo_files w)))
  | CopyTo p => λ w, (None, set_files w (<[p := wo_reading w]> (wo_files w)))
  | OsRemove p => λ w, (None, set_files w (delete p (wo_files w)))
  | OsRemoveAll dir => λ w,
      (None, set_files w (filter (λ kv, String.prefix (dir +:+ "/") kv.1 = false) (wo_files w)))
  | StoreLog _ => λ w, (tt, w)
  end.

Section deliver.
Variable IsNotExist : error → bool.
Variable Join : string → string → string.
Variable mcfg : MinIOConfig.

(** The calls of the worker. *)
Definition deliver_do (X : Type) (e : WorkerE X) : world → X * world :=
  match e in WorkerE X return world → X * world with
  | Now => λ w, (wo_now w, w)
  | RandFloat64 => λ w, (0, w)
  | WithTimeout _ | Cancel | NewTicker _ => λ w, (tt, w)
  | CtxErr => λ w, (false, w)
  | SleepCtx _ | Select_ => λ w, (true, w)
  | Int64N _ => λ w, (0, w)
  | ClaimPending_ l => λ w, let '(r, t) := repo_ClaimPending (wo_now w) ∅ l (wo_table w) in (r, set_rows w t)
  | MarkSent_ id rid => λ w, let '(r, t) := repo_MarkSent (wo_now w) id rid (wo_table w) in (r, set_rows w t)
  | MarkFailed_ id txt next => λ w,
      let '(r, t) := repo_MarkFailed (wo_now w) id txt next (wo_table w) in (r, set_rows w t)
  | DownloadAll_ mid refs => interp store_do (DownloadAll IsNotExist Join mcfg mid refs)
  | CleanupLocal_ mid => interp store_do (CleanupLocal Join mcfg mid)
  | Send_ p => λ w,
      (Ok (MkSendResult (wo_timestamp w)),
       MkWorld (wo_now w) (wo_table w) (wo_objects w) (wo_files w) (wo_reading w)
         (wo_sent w ++ [(p, (λ f, wo_files w !! f) <$> sp_Attachments p)]) (wo_timestamp w))
  | Enabled_ => λ w, (false, w)
  | NotifyPermanentFailure_ _ _ | ObserveClaim _ | ObserveSend _ _ | IncTerminal _ | IncRetry | Log _ => λ w, (tt, w)
  end.

(** ** Facts: downloads *)

Definition write_files (dir : string) (l : list (ObjectRef * string)) (f : gmap string string) : gmap string string :=
  foldl (λ f rb, <[dst Join dir rb.1 := rb.2]> f) f l.

Lemma download_loop_files dir l paths w :
  Forall (λ rb, wo_objects w !! (ref_Bucket rb.1, ref_Key rb.1) = Some rb.2) l →
  ∃ b, interp store_do (download_loop IsNotExist Join dir l.*1 paths) w
       = (Ok (paths ++ (dst Join dir <$> l.*1)), set_reading (set_files w (write_files dir l (wo_files w))) b).
Proof.
  revert paths w. induction l as [|[r b] l IH]; intros paths w Hl; cbn [fmap list_fmap download_loop fst].
  - exists (wo_reading w). rewrite app_nil_r. by destruct w.
  - apply Forall_cons in Hl as [Hr Hl]. cbn [fst snd] in Hr. rewrite interp_bind. unfold downloadOne.
    rewrite interp_bind. cbn [call interp store_do]. rewrite Hr. rewrite interp_bind. unfold save_object.
    cbn [interp mbind prog_MBind prog_bind call store_do mret prog_MRet].
    assert (∃ b', interp store_do (download_loop IsNotExist Join dir l.*1 (paths ++ [dst Join dir r]))
      (set_files (set_reading w b) (<[dst Join dir r := b]> (<[dst Join dir r := ""]> (wo_files w))))
      = (Ok ((paths ++ [dst Join dir r]) ++ (dst Join dir <$> l.*1)),
         set_reading (set_files w (write_files dir l
           (<[dst Join dir r := b]> (<[dst Join dir r := ""]> (wo_files w))))) b')) as [b' E] by (by apply IH).
    exists b'. etrans; [exact E|]. unfold write_files. cbn [foldl fst snd].
    by rewrite insert_insert_eq, <- app_assoc.
Qed.

Lemma write_files_lookup dir l f :
  NoDup (dst Join dir <$> l.*1) → ∀ rb, rb ∈ l → write_files dir l f !! dst Join dir rb.1 = Some rb.2.
Proof.
  unfold write_files. revert f. induction l as [|x l IH] using rev_ind; intros f Hn rb Hin; [by apply elem_of_nil in Hin|].
  rewrite foldl_app. cbn [foldl]. rewrite !fmap_app in Hn. cbn [fmap list_fmap] in Hn.
  apply NoDup_app in Hn as (Hn & Hd & _). apply elem_of_app in Hin as [Hin| ->%list_elem_of_singleton].
  - rewrite lookup_insert_ne; [by apply IH|]. intros Heq. apply (Hd (dst Join dir rb.1)).
    + by apply list_elem_of_fmap_2, list_elem_of_fmap_2.
    + rewrite <- Heq. by left.
  - apply lookup_insert_eq.
Qed.

Lemma DownloadAll_files mid l w :
  Forall (λ rb, wo_objects w !! (ref_Bucket rb.1, ref_Key rb.1) = Some rb.2) l →
  ∃ b, interp store_do (DownloadAll IsNotExist Join mcfg mid l.*1) w
       = (Ok (dst Join (Join (minio_LocalTmpDir mcfg) mid) <$> l.*1),
          set_reading (set_files w (write_files (Join (minio_LocalTmpDir mcfg) mid) l (wo_files w))) b).
Proof.
  intros Hl. unfold DownloadAll. destruct l as [|rb l]; [exists (wo_reading w); by destruct w|].
  cbn [fmap list_fmap]. rewrite interp_bind. cbn [call interp store_do].
  destruct (download_loop_files (Join (minio_LocalTmpDir mcfg) mid) (rb :: l) [] w Hl) as [b E]. by exists b.
Qed.
End deliver.

(** ** Facts: the name of a downloaded file *)

Lemma after_last_slash_app a n acc :
  Forall (λ c, c ≠ "/"%char) n → after_last_slash (a ++ "/"%char :: n) acc = n.
Proof.
  intros Hn. revert acc. induction a as [|c a IH]; intros acc; cbn [app after_last_slash].
  - destruct (ascii_dec "/" "/"); [|done]. destruct n as [|x n]; [done|].
    by destruct (no_slash_base_list (x :: n) Hn) as [_ ->].
  - by destruct (ascii_dec c "/").
Qed.

Lemma strip_app a n : n ≠ [] → strip_trailing_slashes n = n → strip_trailing_slashes (a ++ n) = a ++ n.
Proof.
  intros Hn Hs. induction a as [|c a IH]; [done|]. cbn [app strip_trailing_slashes]. rewrite IH.
  destruct (a ++ n) eqn:E; [|done]. by apply app_eq_nil in E as [_ ?].
Qed.

(** [filepath.Base] of an object key is the sanitized name. *)
Lemma Base_key u n : clean_name n → n ≠ "" → Base (u +:+ "/" +:+ n) = n.
Proof.
  intros Hc Hn. pose proof (clean_no_slash n Hc) as Hs.
  assert (String.list_ascii_of_string n ≠ []) as Hl by (by destruct n).
  assert (chars (u +:+ "/" +:+ n) = chars u ++ "/"%char :: chars n) as E
    by (induction u as [|c u IH]; [done|]; rewrite append_cons; cbn; by rewrite IH).
  unfold Base. destruct (u +:+ "/" +:+ n) as [|c t] eqn:Et; [by destruct u|].
  rewrite E. change ("/"%char :: chars n) with (["/"%char] ++ chars n). rewrite (assoc_L (++)).
  rewrite strip_app; [|done|by destruct (no_slash_base_list (chars n) Hs Hl)].
  destruct ((chars u ++ ["/"%char]) ++ chars n) as [|x y] eqn:El; [by destruct (chars u)|].
  rewrite <- El, <- (assoc_L (++)). cbn [app]. rewrite after_last_slash_app by done.
  apply String.string_of_list_ascii_of_string.
Qed.

(** ** Facts: the table *)

Lemma update_last p f (t : table) r :
  Forall (λ x, p x = false) t → p r = true → update_where p f (t ++ [r]) = t ++ [f r].
Proof. intros Ht Hr. unfold update_where. rewrite fmap_app. cbn. rewrite Hr. f_equal. by apply update_where_none. Qed.

Lemma others_not id t : Forall (λ r, id_of r ≠ id) t → Forall (λ r, has_id (Some id) r = false) t.
Proof.
  intros H. eapply Forall_impl; [exact H|]. intros r Hr. apply not_true_is_false. by intros E%has_id_spec.
Qed.

(** The only claimable row is claimed. *)
Lemma claim_last now lease t r :
  Forall (λ x, claimable now x = false) t → claimable now r = true →
  Forall (λ x, id_of x ≠ id_of r) t → attempts r = 0 →
  let l := Microseconds lease * Microsecond in
  repo_ClaimPending now ∅ lease (t ++ [r]) = (Ok (domain_of (claim_row now l r)), t ++ [claim_row now l r]).
Proof.
  intros Ht Hr Hid Ha l. unfold repo_ClaimPending, ClaimPending.
  assert (claimed now ∅ (t ++ [r]) = Some r) as ->.
  { destruct (claimed now ∅ (t ++ [r])) as [x|] eqn:E.
    - apply claimed_spec in E as (Hin & Hx & _). apply elem_of_app in Hin as [Hin| ->%list_elem_of_singleton]; [|done].
      rewrite Forall_forall in Ht. by rewrite Ht in Hx.
    - rewrite claimed_None in E. apply (E r) in Hr; [set_solver|apply elem_of_app; right; by left]. }
  cbn [iv_param intervalFromDuration iv_Valid iv_Microseconds]. rewrite Ha.
  change (in_int32b (0 + 1)) with true. cbv iota. f_equal.
  apply update_last; [by apply others_not|by apply has_id_Some_true].
Qed.

Lemma mark_last now rid t r :
  Forall (λ x, id_of x ≠ id_of r) t → char_length rid ≤ 25 →
  repo_MarkSent now (id_of r) rid (t ++ [r]) = (None, t ++ [sent_row now (Some rid) r]).
Proof.
  intros Hid Hl. unfold repo_MarkSent, MarkSent. destruct (Z.ltb_spec 25 (char_length rid)); [lia|].
  rewrite andb_false_r. cbn [wrap_err]. f_equal.
  apply update_last; [by apply others_not|by apply has_id_Some_true].
Qed.

(** ** Facts: the parameters of the send *)

Lemma accepted_target senderPhone m msg :
  validate senderPhone m = None → is_null (cm_Recipient m) ≠ is_null (cm_GroupID m) →
  msg_Recipient msg = cm_Recipient m → msg_GroupID msg = cm_GroupID m → msg_Content msg = cm_Content m →
  msg_QuoteResultID msg = None → senderPhone ≠ "" → ∀ paths,
  BuildSendParams senderPhone msg paths
  = Ok (MkSendParams senderPhone (cm_Content m) paths (option_list (cm_Recipient m)) (option_list (cm_GroupID m)) 0 "").
Proof.
  intros Hv Hn Hr Hg Hc Hq Hs paths. unfold BuildSendParams, target_of. rewrite (bool_decide_eq_false_2 _ Hs), Hr, Hg, Hc, Hq.
  revert Hv. unfold validate. destruct (TrimSpace_empty (cm_ExternalID m)); [done|]. destruct (255 <? _); [done|].
  destruct (TrimSpace_empty (cm_Content m)) eqn:Ht; [done|]. rewrite bool_decide_eq_false_2 by (intros E; by rewrite E in Ht).
  unfold MessageBuilder.set, SendMessage.nonempty.
  destruct (cm_Recipient m) as [x|], (cm_GroupID m) as [y|]; try done; cbn [eqb].
  - destruct (bool_decide (x = "")); done.
  - destruct (bool_decide (y = "")); done.
Qed.

Lemma sanitized_no_dot raw : sanitizeFilename raw ≠ "" → HasPrefixDot (sanitizeFilename raw) = false.
Proof.
  unfold sanitizeFilename. destruct (bool_decide (Base raw = "" ∨ _)); [done|].
  destruct (bool_decide _), (HasPrefixDot _) eqn:?; done.
Qed.

Lemma prefix_append a b : String.prefix a (a +:+ b) = true.
Proof. induction a as [|c a IH]; [by destruct b|]. rewrite append_cons. simpl. by destruct (ascii_dec c c). Qed.

(** ** A tick over the row of an upload *)

Section tick.
Context (errorText : error → string) (uuidString : uuid → string) (conv_undefined : Backoff.float64 → Z).
Context (cfg : WorkerConfig) (senderPhone : string) (has_notifier : bool).
Context (IsNotExist : error → bool) (Join : string → string → string) (mcfg : MinIOConfig) (bucket : string).
Context (m : CreateMessage) (parts : list mpart) (id u : uuid).

(** Where the attachments of the message are downloaded to. *)
Definition local_dir : string := Join (minio_LocalTmpDir mcfg) (uuidString u).
Definition local_path (p : mpart) : string := Join local_dir (part_name (part_of p)).

(** [filepath.Join] puts a plain name below a directory that is already joined. *)
Hypothesis Join_under : ∀ n,
  clean_name n → n ≠ "" → HasPrefixDot n = false → Join local_dir n = local_dir +:+ "/" +:+ n.
Hypothesis Hdir : minio_LocalTmpDir mcfg ≠ "" ∧ uuidString u ≠ "".
Hypothesis Hparts : Forall (λ p, part_name (part_of p) ≠ "") parts.
Hypothesis Hnames : NoDup (part_name ∘ part_of <$> parts).

Definition part_ref (p : mpart) : ObjectRef * string :=
  (MkObjectRef bucket (part_key uuidString id (part_of p)), mp_Body p).

Lemma part_dst p : part_name (part_of p) ≠ "" → dst Join local_dir (part_ref p).1 = local_path p.
Proof.
  intros Hp. unfold dst, local_path, part_ref, part_key. cbn [fst ref_Key]. f_equal.
  apply Base_key; [apply sanitized_clean|done].
Qed.

Lemma local_path_under p : part_name (part_of p) ≠ "" → local_path p = local_dir +:+ "/" +:+ part_name (part_of p).
Proof using Join_under.
  intros Hp. apply Join_under; [apply sanitized_clean|done|]. by apply sanitized_no_dot.
Qed.

Lemma dsts : dst Join local_dir <$> (part_ref <$> parts).*1 = local_path <$> parts.
Proof using Hparts.
  rewrite <- !list_fmap_compose. apply list_fmap_ext. intros i p Hi. apply part_dst.
  by apply (Forall_lookup_1 _ _ _ _ Hparts Hi).
Qed.

Lemma local_paths_distinct : NoDup (local_path <$> parts).
Proof using Join_under Hparts Hnames.
  assert (local_path <$> parts = (λ n, local_dir +:+ "/" +:+ n) <$> (part_name ∘ part_of <$> parts)) as ->.
  { rewrite <- list_fmap_compose. apply list_fmap_ext. intros i p Hi. apply local_path_under.
    by apply (Forall_lookup_1 _ _ _ _ Hparts Hi). }
  apply NoDup_fmap_2; [|done]. intros a b E. by do 2 apply (inj (String.append _)) in E.
Qed.

Hypothesis Hphone : senderPhone ≠ "".
Hypothesis Hvalid : validate senderPhone m = None.
Hypothesis Htarget : is_null (cm_Recipient m) ≠ is_null (cm_GroupID m).

Abbreviation lease := (Microseconds (wc_LeaseDuration cfg) * Microsecond).

(** The request as it is sent. *)
Definition sent_params : SendParams :=
  MkSendParams senderPhone (cm_Content m) (local_path <$> parts) (option_list (cm_Recipient m))
    (option_list (cm_GroupID m)) 0 "".

Lemma tick_sends t r w :
  wo_table w = t ++ [r] → Forall (λ x, claimable (wo_now w) x = false) t → claimable (wo_now w) r = true →
  Forall (λ x, id_of x ≠ u) t → id_of r = u → attempts r = 0 →
  recipient r = cm_Recipient m → group_id r = cm_GroupID m → content r = cm_Content m → quote_result_id r = None →
  attachments r = (part_attachment bucket uuidString id ∘ part_of <$> parts) →
  Forall (λ p, wo_objects w !! (bucket, part_key uuidString id (part_of p)) = Some (mp_Body p)) parts →
  in_int64 (wo_timestamp w) →
  let '(claimed_, w') :=
    interp (deliver_do IsNotExist Join mcfg)
      (tick errorText uuidString conv_undefined cfg senderPhone has_notifier) w in
  claimed_ = true ∧ wo_sent w' = wo_sent w ++ [(sent_params, Some ∘ mp_Body <$> parts)] ∧
  wo_table w' = t ++ [sent_row (wo_now w) (Some (FormatInt (wo_timestamp w))) (claim_row (wo_now w) lease r)] ∧
  Forall (λ p, wo_files w' !! local_path p = None) parts.
Proof using All.
  intros Hw Ht Hr Hid Hu Hat Hrc Hgr Hct Hqt Hatt Hobj Hts.
  unfold tick. rewrite interp_bind. cbn [call interp deliver_do]. rewrite interp_bind. cbn [call interp deliver_do].
  rewrite Hw, (claim_last (wo_now w) (wc_LeaseDuration cfg) t r) by (done || by rewrite Hu).
  set (r' := claim_row (wo_now w) lease r). set (msg := domain_of r'). set (w1 := set_rows w (t ++ [r'])).
  rewrite interp_bind. cbn [call interp deliver_do]. rewrite interp_bind. cbn [call interp deliver_do].
  rewrite interp_bind. unfold dispatch. rewrite interp_bind. cbn [call interp deliver_do].
  assert (toRefs (msg_Attachments msg) = (part_ref <$> parts).*1) as ->.
  { unfold toRefs. change (msg_Attachments msg) with (attachments r). rewrite Hatt, <- !list_fmap_compose.
    apply list_fmap_ext. done. }
  rewrite interp_bind. cbn [call interp deliver_do].
  assert (msg_ID msg = u) as -> by done.
  destruct (DownloadAll_files IsNotExist Join mcfg (uuidString u) (part_ref <$> parts) w1) as [b E].
  { apply Forall_fmap. exact Hobj. }
  rewrite E. fold local_dir. rewrite dsts.
  set (w2 := set_reading _ b). rewrite interp_bind. unfold send_claimed.
  rewrite (accepted_target senderPhone m) by done. fold sent_params.
  rewrite interp_bind. cbn [call interp deliver_do]. rewrite interp_bind. cbn [call interp deliver_do].
  set (w3 := MkWorld _ _ _ _ _ _ _). rewrite interp_bind. cbn [call interp deliver_do].
  rewrite interp_bind. cbn [call interp deliver_do]. rewrite interp_bind. unfold markSent. cbn [markSent_loop].
  rewrite interp_bind. cbn [call interp deliver_do]. change (wo_table w3) with (t ++ [r']). change (wo_now w3) with (wo_now w).
  cbn [ResultID sr_Timestamp]. change (msg_ID msg) with (id_of r').
  rewrite (mark_last (wo_now w) _ t r') by
    (by change (id_of r') with (id_of r); rewrite Hu || (unfold ResultID; pose proof (FormatInt_length _ Hts); simpl; lia)).
  cbn [interp mret prog_MRet call deliver_do]. rewrite interp_bind. cbn [call interp deliver_do]. unfold CleanupLocal.
  rewrite (bool_decide_eq_false_2 _ (proj1 Hdir)), (bool_decide_eq_false_2 _ (proj2 Hdir)). cbn [orb].
  rewrite interp_bind. cbn [call interp store_do]. fold local_dir. cbn [interp mret prog_MRet].
  split_and!; [done| |done|].
  - cbn [set_files set_rows wo_sent w3 w2 set_reading w1 wo_files sent_params sp_Attachments]. do 3 f_equal.
    rewrite <- list_fmap_compose. apply list_fmap_ext. intros i p Hi. cbn.
    rewrite <- part_dst by (by apply (Forall_lookup_1 _ _ _ _ Hparts Hi)).
    apply (write_files_lookup Join local_dir (part_ref <$> parts)).
    + rewrite dsts. apply local_paths_distinct.
    + apply list_elem_of_fmap_2. by eapply list_elem_of_lookup_2.
  - eapply Forall_impl; [exact Hparts|]. intros p Hp. cbn [set_files wo_files]. apply map_lookup_filter_None. right.
    intros y _. cbn [fst]. rewrite local_path_under, <- append_assoc by done. by rewrite prefix_append.
Qed.
End tick.

(** ** Properties *)

(** C5: a posted message is delivered.  A valid POST, with one target, an external
    id and a key not used before, and attachment parts whose sanitized names are
    usable and differ from each other, is accepted with the id of a new row.
    When the worker then ticks, not before the post, with no other row to
    claim, before the message's deadline as stored, and with every call
    answered, it sends one request to signal-cli: from the configured number, to
    the posted recipient or group, with the posted content and one local file
    per part that holds the part's bytes, but without the quoted id, which is not
    stored.  The row then is SENT, after one attempt, with the timestamp that
    signal-cli answered, no other row has changed, and the local files are gone. *)
Theorem posted_message_is_delivered `{ConjureRuntime} errorText uuidString conv_undefined decode IsNotExist Join
    bucket senderPhone cfg mcfg has_notifier ct meta req parts id u ids s w :
  (* the request, its table and the ids that will be drawn *)
  mp_FormName meta = "metadata" → decode (mp_Body meta) = Ok req →
  validate senderPhone (toCreateMessage req) = None → senderPhone ≠ "" →
  Forall (λ p, mp_FormName p = "attachments" ∧ part_name (part_of p) ≠ "") parts →
  NoDup (part_name ∘ part_of <$> parts) →
  en_ids s = id :: u :: ids → admissible u (toCreateMessage req) (en_table s) → 0 ≤ en_now s →
  (* the tick *)
  en_now s ≤ wo_now w → Forall (λ x, claimable (wo_now w) x = false) (en_table s) →
  (∀ d, stored_deadline (en_now s) (toCreateMessage req) = Some d → wo_now w < d) →
  in_int64 (wo_timestamp w) →
  (* the local directory *)
  minio_LocalTmpDir mcfg ≠ "" → uuidString u ≠ "" →
  (∀ n, clean_name n → n ≠ "" → HasPrefixDot n = false →
        Join (local_dir uuidString Join mcfg u) n = local_dir uuidString Join mcfg u +:+ "/" +:+ n) →
  ∃ s' r,
    ServeHTTP errorText uuidString decode (enqueue_do bucket) senderPhone
      (MkRequest "POST" ct (Ok (MkReader (meta :: parts) None))) s = (Accepted u, s') ∧
    en_table s' = en_table s ++ [r] ∧
    (wo_table w = en_table s' → wo_objects w = en_objects s' →
     let '(claimed_, w') :=
       interp (deliver_do IsNotExist Join mcfg)
         (tick errorText uuidString conv_undefined cfg senderPhone has_notifier) w in
     claimed_ = true ∧
     wo_sent w' = wo_sent w ++
       [(MkSendParams senderPhone (cr_Content req) (local_path uuidString Join mcfg u <$> parts)
           (option_list (cr_Recipient req)) (option_list (cr_GroupId req)) 0 "", Some ∘ mp_Body <$> parts)] ∧
     (∃ x, wo_table w' = en_table s ++ [x] ∧ id_of x = u ∧ status x = SENT ∧ attempts x = 1 ∧
        result_id x = Some (FormatInt (wo_timestamp w)) ∧ external_id x = cr_ExternalId req) ∧
     Forall (λ p, wo_files w' !! local_path uuidString Join mcfg u p = None) parts).
Proof.
  intros Hm Hd Hv Hphone Hparts Hnames Hids Ha Hn Hle Hothers Hdl Hts Htmp Huu Hjoin.
  destruct (ServeHTTP_accepts errorText uuidString decode bucket senderPhone ct meta req parts id u ids s)
    as (r & Ei & Er); [done..|].
  eexists _, r. split; [exact Er|]. split; [done|]. intros Hwt Hwo. cbn [after_post en_table en_objects] in Hwt, Hwo.
  destruct (Insert_admissible bucket senderPhone uuidString u (en_now s) id (toCreateMessage req) parts (en_table s) Ha)
    as (r' & E' & Hr). rewrite Ei in E'. apply (f_equal snd), (inj (app (en_table s))) in E'. injection E' as <-.
  assert (Forall (λ p, part_name (part_of p) ≠ "") parts) as Hp by (eapply Forall_impl; [exact Hparts|]; by intros p []).
  assert (claimable (wo_now w) r = true) as Hc.
  { apply claimable_spec. subst r. cbn -[tsTz tz_param]. split_and!; [done|by left|done|].
    pose proof (deadline_kept (en_now s) (toCreateMessage req) Hn) as D. revert D.
    destruct (tz_param (tsTz (request_deadline (en_now s) (toCreateMessage req)))); [|done]. intros D d [= <-].
    by apply Hdl. }
  pose proof (tick_sends errorText uuidString conv_undefined cfg senderPhone has_notifier IsNotExist Join mcfg bucket
    (toCreateMessage req) parts id u Hjoin (conj Htmp Huu) Hp Hnames Hphone Hv (proj1 Ha) (en_table s) r w) as T.
  destruct (interp _ _ w) as [claimed_ w']. destruct T as (T1 & T2 & T3 & T4); try done; try (by subst r).
  - destruct Ha as [_ Hf]. eapply Forall_impl; [exact Hf|]. by intros x (? & _).
  - apply Forall_forall. intros p Hin. rewrite Hwo. by apply parts_stored.
  - split; [done|]. split; [done|]. split; [|done]. eexists. split; [exact T3|]. by subst r.
Qed.

Definition demo_join (a b : string) : string := a +:+ "/" +:+ b.
Definition demo_store : MinIOConfig := MkMinIOConfig "" "" "" "" "b" false "./tmp".
Definition demo_meta : mpart := MkMpart "metadata" "" "" "{}".
Definition demo_accepted : response * enqueue_state :=
  ServeHTTP (λ _, "") (λ _, "uuid") (λ _, Ok demo_create) (enqueue_do "b") "+380000000000"
    (MkRequest "POST" "multipart/form-data" (Ok (MkReader (demo_meta :: demo_parts) None))) fresh_state.
Definition demo_world : world :=
  MkWorld 200 (en_table demo_accepted.2) (en_objects demo_accepted.2) ∅ "" [] 1700000001.

Lemma posted_message_is_delivered_witness :
  let '(claimed_, w') :=
    interp (deliver_do (λ _, false) demo_join demo_store)
      (tick (λ _, "") (λ _, "uuid") (λ _, 0) default_worker "+380000000000" false) demo_world in
  claimed_ = true ∧
  wo_sent w' = [(MkSendParams "+380000000000" "hi" ["./tmp/uuid/photo_1.jpg"; "./tmp/uuid/note.txt"]
                   ["+380111111111"] [] 0 "", [Some "AAA"; Some "BBB"])].
Proof.
  destruct (posted_message_is_delivered (λ _, "") (λ _, "uuid") (λ _, 0) (λ _, Ok demo_create) (λ _, false) demo_join
    "b" "+380000000000" default_worker demo_store false "multipart/form-data" demo_meta demo_create demo_parts
    5%N 6%N [] fresh_state demo_world) as (s' & r & E & Et & D).
  - reflexivity.
  - reflexivity.
  - vm_compute. reflexivity.
  - discriminate.
  - unfold demo_parts. members; (split; [reflexivity|by vm_compute]).
  - apply (bool_decide_unpack _). vm_compute. exact I.
  - reflexivity.
  - split; [discriminate|constructor].
  - vm_compute. discriminate.
  - vm_compute. discriminate.
  - constructor.
  - intros d [= <-]. vm_compute. reflexivity.
  - split; vm_compute; congruence.
  - discriminate.
  - discriminate.
  - reflexivity.
  - assert (demo_accepted = (Accepted 6%N, s')) as A by exact E.
    specialize (D ltac:(unfold demo_world; by rewrite A) ltac:(unfold demo_world; by rewrite A)).
    destruct (interp _ _ demo_world) as [c w']. destruct D as (D1 & D2 & _). split; [exact D1|].
    rewrite D2. vm_compute. reflexivity.
Defined.
