(* ===== verification/Assembly.v ===== *)
(** The constructors that the modules provide: how the configuration that was
    loaded reaches the components.

    A constructor is a function from the values it is given to the fields its
    methods read; loggers and the interfaces that connect the components are
    left to [Wiring]. *)

From Stdlib Require Import Ascii.
From S2P Require Import Prelude Errors Domain Config GoText Json JsonFacts GoUrl Sqlc Repo MessageBuilder Prog Worker TcpClient Wire SendMessage Handler ApiStructs ApiClient Lifecycle Cleanup Process.

(** ** Addresses *)

(** [net.JoinHostPort]: a host with a colon is put in brackets. *)
Definition JoinHostPort (host port : string) : string :=
  if contains ":" host then "[" +:+ host +:+ "]:" +:+ port else host +:+ ":" +:+ port.

(** The bytes of a host that [url.URL.String] writes as they are. *)
Definition host_kept (b : Z) : bool :=
  unreserved b || (b =? 33) || (b =? 36) || (b =? 38) || (b =? 39) || (b =? 40) || (b =? 41) || (b =? 42)
  || (b =? 43) || (b =? 44) || (b =? 59) || (b =? 61) || (b =? 58) || (b =? 91) || (b =? 93) || (b =? 60)
  || (b =? 62) || (b =? 34).
Fixpoint HostEscape (s : string) : string :=
  match s with
  | EmptyString => ""
  | String c s' => (if host_kept (byte_val c) then String c "" else percent (byte_val c)) +:+ HostEscape s'
  end.

(** ** Clients of signal-cli *)

Record HTTPClient := MkHTTPClient {
  hc_cfg : SignalCliHTTP;
  hc_account : string;
  hc_base : string;
  hc_timeout : duration;
}.

Definition NewHTTPClient (install : Install) : HTTPClient :=
  let http := sc_HTTP (in_SignalCli install) in
  let timeout := if http_Timeout http <=? 0 then 10 * Second else http_Timeout http in
  let addr := JoinHostPort (http_Host http) (FormatInt (http_Port http)) in
  MkHTTPClient http (sc_SenderPhoneNumber (in_SignalCli install)) ("http://" +:+ HostEscape addr) timeout.

(** The URL that [do] posts to, and the body of [ListGroups]. *)
Definition rpc_endpoint (c : HTTPClient) : string := hc_base c +:+ "/api/v1/rpc".

Record jsonRPCRequest := MkJsonRPCRequest {
  jr_JSONRPC : string;
  jr_Method : string;
  jr_ID : string;
  jr_Params : json;
}.
Definition jsonRPCRequest_json (r : jsonRPCRequest) : json :=
  JObj [("jsonrpc", JStr (jr_JSONRPC r)); ("method", JStr (jr_Method r)); ("id", JStr (jr_ID r));
        ("params", jr_Params r)].
Definition ListGroups_body (c : HTTPClient) (id : string) : string :=
  Marshal (jsonRPCRequest_json
    (MkJsonRPCRequest "2.0" "listGroups" id (JObj [("account", JStr (hc_account c))]))).

(** ** Components *)

Record worker_fields := MkWorkerFields { wk_cfg : WorkerConfig; wk_account : string }.
Definition NewWorker (install : Install) : worker_fields :=
  MkWorkerFields (in_Worker install) (sc_SenderPhoneNumber (in_SignalCli install)).

Definition NewTimeoutReaper (install : Install) : TimeoutReaperConfig := cron_TimeoutReaper (in_Cron install).
Definition reaper_Enabled (cfg : TimeoutReaperConfig) : bool := tr_Enabled cfg.
Definition NewCleanup (install : Install) : CleanupOldFilesConfig := cron_CleanupOldFiles (in_Cron install).

Record listener_fields := MkListenerFields { ln_enabled : bool; ln_ignore : InboundIgnoreConfig }.
Definition NewInboundListener (install : Install) (runtime : Runtime) : listener_fields :=
  MkListenerFields (sc_EnableListening (in_SignalCli install)) (ib_Ignore (ru_Inbound runtime)).
Definition listener_Enabled (l : listener_fields) : bool := ln_enabled l.

(** The notifier's HTTP client gives up after ten seconds. *)
Record notifier_fields := MkNotifierFields { sn_cfg : SlackConfig; sn_timeout : duration }.
Definition NewSlackNotifier (runtime : Runtime) : notifier_fields := MkNotifierFields (ru_Slack runtime) (10 * Second).

Definition NewSendMessageService (install : Install) : string := sc_SenderPhoneNumber (in_SignalCli install).

Definition minio_of (i : Install) : MinIOConfig := in_MinIO i.
Definition NewObjectStore (install : Install) : MinIOConfig := in_MinIO install.
Definition Bucket (s : MinIOConfig) : string := minio_Bucket s.
Definition LocalTmpDir (s : MinIOConfig) : string := minio_LocalTmpDir s.

(** [newMinioClient]; [minio.New] with static credentials is a parameter. *)
Definition newMinioClient {C} (minio_New : string → string → string → string → bool → res C) (cfg : MinIOConfig) : res C :=
  match minio_New (minio_Endpoint cfg) (minio_AccessKey cfg) (minio_SecretKey cfg) (minio_Region cfg)
          (minio_UseSSL cfg) with
  | Err e => Err (Wrap e "minio client init")
  | Ok c => Ok c
  end.

(** What the endpoints read of the configuration. *)
Definition NewSignalMessagesService (install : Install) (now : time) ILIKE day_label minus_30_days groups : handler_env :=
  MkHandlerEnv (in_ProductName install) (sc_SenderPhoneNumber (in_SignalCli install)) now ILIKE day_label
    minus_30_days groups.

(** The settings of the background loops. *)
Definition loop_settings (install : Install) (runtime : Runtime) (c : component) : loop_config :=
  match c with
  | Worker_ => MkLoopConfig true (wc_Concurrency (wk_cfg (NewWorker install)))
  | Reaper_ => MkLoopConfig (reaper_Enabled (NewTimeoutReaper install)) 1
  | Cleanup_ => MkLoopConfig (cleanup_Enabled (NewCleanup install)) 1
  | Inbound_ => MkLoopConfig (listener_Enabled (NewInboundListener install runtime)) 1
  end.

(** ** Facts *)

Lemma HostEscape_kept s : all_chars (λ c, host_kept (byte_val c)) s = true → HostEscape s = s.
Proof.
  induction s as [|c s IH]; [done|]. cbn [all_chars HostEscape]. intros [-> Hs]%andb_true_iff. by rewrite IH.
Qed.

(** For a plain host name the client talks to [http://host:port]. *)
Lemma base_plain install :
  let http := sc_HTTP (in_SignalCli install) in
  all_chars (λ c, host_kept (byte_val c)) (http_Host http +:+ ":" +:+ FormatInt (http_Port http)) = true →
  contains ":" (http_Host http) = false →
  rpc_endpoint (NewHTTPClient install)
  = "http://" +:+ (http_Host http +:+ ":" +:+ FormatInt (http_Port http)) +:+ "/api/v1/rpc".
Proof.
  intros http Hk Hc. unfold rpc_endpoint, NewHTTPClient, JoinHostPort. cbn [hc_base]. fold http. rewrite Hc.
  rewrite HostEscape_kept by done. by rewrite append_assoc.
Qed.

(** The groups asked for are those of the sender. *)
Lemma ListGroups_body_wire install id :
  ListGroups_body (NewHTTPClient install) id
  = Wire.listGroups_request (sc_SenderPhoneNumber (in_SignalCli install)) id.
Proof. done. Qed.

(** An IPv6 address is bracketed. *)
Example base_v6 :
  hc_base (NewHTTPClient (MkInstall "" (MkDatabaseConfig "" (MkDatabasePool 0 0 0 0) true 0)
    (MkMinIOConfig "" "" "" "" "" false "")
    (MkSignalCliConfig (MkSignalCliTCP "" 0 0 false) (MkSignalCliHTTP "::1" 8080 0 0) "" false) default_worker
    (MkCronConfig (MkCleanupOldFilesConfig false "" [] 0) (MkTimeoutReaperConfig false ""))))
  = "http://[::1]:8080".
Proof. reflexivity. Qed.

(** One number: requests are validated against the account that sends them and
    that the instance announces. *)
Lemma one_sender install now ILIKE dl m30 g :
  wk_account (NewWorker install) = NewSendMessageService install ∧
  hc_account (NewHTTPClient install) = NewSendMessageService install ∧
  GetInstanceInfo (NewSignalMessagesService install now ILIKE dl m30 g)
  = Ok (MkInstanceInfo (in_ProductName install) (NewSendMessageService install)).
Proof. done. Qed.

(** A disabled component never runs a goroutine, however the process lives. *)
Lemma disabled_never_runs install runtime acts p c :
  perform (loop_settings install runtime) acts constructed = Some p →
  c ≠ Worker_ → lo_enabled (loop_settings install runtime c) = false →
  fx_accepts (omap fx_label acts) (fx_initial Wiring.app_hooks) ≠ None → lc_live (pr_loops p c) = 0%nat.
Proof.
  intros Hp Hc He Hf. destruct (fx_accepts _ _) as [f|] eqn:E; [|done].
  destruct (at_start (loop_settings install runtime)) as [F0 P0].
  destruct (every_execution _ _ _ _ _ _ _ _ F0 P0 Hp E) as (k & m & _ & P).
  pose proof (la_reach _ _ _ _ _ _ _ (pa_loop _ _ _ _ _ P c)) as R.
  destruct (li_enabled _ _ _ (lreachable_linv _ _ _ R)) as [?|[?|?]]; [done|done|congruence].
Qed.
